(* ===== verification/_CoqProject ===== *)
-Q . S2P
Prelude.v
GoStd.v
GoError.v
Types.v
Json.v
Marshal.v
JsonLit.v
JsonText.v
GoTime.v
Codec.v
Transport.v
Http.v
GoFloat.v
Sha256.v
Metrics.v
Config.v
Interfaces.v
Ethereum.v
Bitcoin.v
Evm.v
Chains.v
Signing.v
StoreSpec.v
MemoryStore.v
Sql.v
Postgres.v
PgAbs.v
PgLogic.v
PgMethods.v
PgStore.v
Service.v
Tracing.v
System.v
Calls.v
PgConc.v
PgProgress.v
Api.v
ApiLemmas.v
ApiSystem.v
ApiClient.v
Wiring.v
Process.v
Custody.v
Handlers.v
Flow.v
Scenario.v
CustodyTheorems.v
FlowTheorems.v
ComponentTheorems.v
WiringTheorems.v
Races.v
ApiTheorems.v
PgSystem.v
PgServing.v
EndToEnd.v
PgTheorems.v
