(* ===== verification/Prelude.v ===== *)
(** * Verification of the MPC custody wallet service

    The program (src/, Go) is a custody back end: clients create wallets,
    propose transactions, co-sign them and have them broadcast.  A proposal is
    signed once two different permitted signers approved it, and only a signed
    one is sent to its chain.  The parts and who calls whom:

    - src/cmd/custody-api/main.go wires configuration, store, chain registry,
      signing backend, service and HTTP server, and runs the process;
    - src/internal/api/server.go routes HTTP requests to the service, behind
      the middleware of src/internal/observability/tracing.go;
    - src/internal/wallet/service.go orchestrates: it calls the store, the chain
      adapters (src/internal/chains/bitcoin, src/internal/chains/evm), the
      signing backend (src/internal/signing/demo.go), the identifier source
      (src/internal/ids) and the metrics registry
      (src/internal/observability/metrics.go);
    - src/internal/store/memory.go and postgres.go implement the store;
    - src/internal/config/config.go reads the environment.

    ** How the program is modelled

    A handler of the service is a finite tree of calls ([prog], this file): one
    node per call to a collaborator, Go code between two calls being pure.
    [result] is Go's value-or-error.  [System] gives the tree two readings:
    [run_request] serves a request alone, and [step] interleaves the calls of
    any number of requests in flight, the environment choosing the input of
    each call ([Interfaces.Input]: cancellation, clock, random bytes, lost
    database connections, key generation, ECDSA signatures, answers of the
    JSON-RPC node).  Everything between two calls of a handler can be overtaken
    by other requests, as in the program.

    A store is a type with the methods of the interface, run alone
    ([store_exec]) and among other calls ([store_rel]).  The in-memory store's
    methods are atomic, as its mutex makes them.  A method of the Postgres store
    is itself a tree, of database requests ([Postgres]), run against a model of
    SQL transactions ([Sql]) in which statements of other sessions come in
    between, wait for locks, and connections are lost before or after a request
    took effect.  [PgConc] shows that such methods still act at one moment each.

    In front of the service, [Api] is the HTTP server: [dispatch] routes a
    request as [http.ServeMux] does, through the key check, path and body
    decoding, to at most one method of the service, and [ApiSystem.http_step]
    interleaves connections with the middleware's updates of the registry.
    [PgSystem.pg_system] is the whole server: connections, handlers and the
    database requests of their store calls, all interleaved.  [Process.main] is
    the process around it.

    ** Termination, bounds and fuel

    Every tree is finite, so there is no fuel in the semantics of the handlers:
    a request of the service makes at most 14 calls ([Calls]), a method of the
    Postgres store at most 8 database requests ([PgProgress]), a connection of
    the server over Postgres at most 143 steps ([PgServing]).  Fuel
    appears in the JSON parser ([Json.value], one more than the length of the
    text, enough because each level of nesting consumes a byte:
    [Json.decode_encode]), in decimal printing (a bound on the number of digits),
    in printing a [float64] (17 digits identify it) and in SHA-256 (the number
    of blocks).  Integers are kept at their width
    where they can wrap: amounts in satoshi, nonces, gas, the grace period.

    ** Files

    - [Prelude]: outcomes, programs, running them, rely/guarantee triples.
    - [GoStd], [GoError], [GoTime], [GoFloat], [Sha256]: what the source uses of
      Go's standard library: strings, decimal and hex conversion, errors and
      [errors.Is], RFC 3339 instants, printed [float64]s, SHA-256 (checked
      against the standard's test vectors).
    - [Json], [Marshal], [JsonLit], [JsonText]: JSON printing and parsing with
      UTF-8 and escaping, structs from JSON, texts inside texts; [Codec]: the
      JSON form of the domain records by their struct tags; [Transport]: records
      through a carrier of JSON text, a response body or a JSONB column.
    - [Types]: the records of wallet/types.go; [Interfaces]: the interfaces
      [Store], [ChainAdapter], [SigningBackend] as type classes, the chain
      registry, the inputs of calls; [Ethereum]: go-ethereum as a class, with
      the one law the theorems need.
    - [Metrics], [Tracing]: the observability package; [Config]: the
      configuration loader; [Wiring], [Process]: [main], with the opening and
      the migrations of the database.
    - [Bitcoin], [Evm], [Chains]: the adapters; [Signing]: the demo backend.
    - [StoreSpec]: the abstract contract of a store (four tables, the effect of
      each method, its refusals, infrastructure errors, storage precision);
      [MemoryStore]: the in-memory store and its refinement of the contract.
    - [Sql], [Postgres]: the database and the methods of postgres.go; [PgAbs]:
      what its rows stand for; [PgLogic]: a calculus for one session among
      others that tracks where a call takes effect; [PgMethods]: every method in
      it; [PgStore]: the store as one caller sees it, and a concrete choice of
      PostgreSQL's data types; [PgConc]: sessions, and their simulation by an
      atomic store; [PgProgress]: locks are taken in one order.
    - [Service]: every method of service.go; [System]: the running server;
      [Calls]: how many calls each method makes.
    - [Http], [Api], [ApiLemmas], [ApiSystem], [ApiClient]: the part of
      [net/http] in use, the handlers, the concurrent HTTP server, its clients.
    - [PgSystem]: that server over Postgres, request by request, and its
      simulation by the server over an atomic store; [PgServing]: the steps its
      connections have left, and that one can always be taken.
    - [Custody]: the custody invariant and its preservation by each update;
      [Handlers]: rely/guarantee specifications of all handlers against the
      store contract, for any store, backend and adapters, and the resulting
      safety theorem for all interleavings.
    - [Flow]: symbolic runs of single requests over the in-memory store.
    - [Scenario]: a concrete deployment on which the theorems are evaluated.
    - [CustodyTheorems], [FlowTheorems], [ComponentTheorems],
      [WiringTheorems], [Races], [ApiTheorems], [PgTheorems], [EndToEnd]: the
      properties.

    ** What is shown

    - [CustodyTheorems] (C1, C5-C7, C12-C15), in every reachable state under any
      interleaving, for every store meeting the contract: nothing is broadcast
      before two different permitted signers asked for it; stored proposals
      satisfy the lifecycle invariant and the amount policy; wallets,
      idempotency records and the audit trail are never altered; creation is
      idempotent; every audit event reports what happened, with its details
      ([Custody.audit_ok]); acknowledged requests are audited, and the proposal
      a co-signature returns was stored at a moment of the run.  What was stored
      once is a statement about the worlds a run went through
      ([System.earlier]), which the specifications of [Handlers] carry along.
    - [EndToEnd] (C3, C8, C33): the same safety from the HTTP request to the row
      when the store is Postgres and its database requests interleave too; every
      request is answered, whatever locks are held; and from the environment
      variables on, with either store, nothing reaches a chain unless two listed
      signers were named by requests with a configured key.
    - [PgTheorems] (C4, C39): the Postgres store is linearizable, and a proposal
      survives its JSONB column; its calls on their own never deadlock.
    - [ApiTheorems] (C2, C10, C11, C34-C38): no key, no service call; the quorum
      guarantee in terms of HTTP requests alone; a client's request is served as
      the operation it means; what a client reads from a response; where the
      arguments of a service call come from, and their types; status codes; each
      request makes a bounded number of calls and is answered; requests are
      counted.
    - [FlowTheorems] (C16-C23): the exact answer and state of each request on
      every branch, refusals and failures included.
    - [ComponentTheorems] (C9, C24-C28): the in-memory store refines the
      contract; what was proposed is what is signed, through the JSON payload,
      for both chains; nonces are consecutive; what was signed is what a node
      receives; the backend's own quorum gate.
    - [Races] (C29, C30): reachable schedules that mark the limits: a lost
      update between two broadcasts, a quorum that can no longer be signed.
    - [WiringTheorems] (C31, C32, C40): the configured policy is the enforced
      one, malformed limits fail open, nothing is served before the migrations
      ran and the exit status tells what happened.

    ** What is not modelled

    - PostgreSQL's storage of text, JSONB and timestamps is a parameter
      ([Sql.Postgres], [Sql.PostgresLaws]: which text it accepts and which it
      refuses is left open, what it prints for accepted text is not); its transactions are modelled at READ
      COMMITTED, the default, as far as the statements of postgres.go go.
    - Elliptic-curve arithmetic and go-ethereum are parameters: key generation
      and ECDSA are inputs of a call, go-ethereum is the class [Ethereum].
    - The texts of JSON decoding errors are a parameter; Go's limit of 10000
      on JSON nesting, log lines, the HTML page of a mux redirect, request
      targets that are not paths, and timeouts of the HTTP server are left out.
    - Data races inside Go values: every shared structure is behind a mutex in
      the source and modelled as atomic.
    - Deployment files, the load-test and smoke scripts: no program logic. *)

From stdpp Require Export base tactics option list gmap sets strings.
From Stdlib Require Export ZArith Lia.

(** ** Outcomes of fallible Go code

    A Go function that returns [(T, error)] is modelled by [result E T]: the
    source either returns a value together with a nil error, or an error
    together with a zero value that its callers ignore. *)
Inductive result (E A : Type) : Type :=
| Ok (a : A)
| Err (e : E).
Arguments Ok {E A} a.
Arguments Err {E A} e.

#[export] Instance result_eq_dec `{EqDecision E, EqDecision A} : EqDecision (result E A).
Proof. solve_decision. Defined.

(** A decidable closed statement, by evaluation. *)
Ltac by_compute := apply (bool_decide_unpack _); vm_compute; exact I.

Definition is_ok {E A} (r : result E A) : bool :=
  match r with Ok _ => true | Err _ => false end.

Lemma Ok_inj {E A} (a b : A) : Ok (E:=E) a = Ok b → a = b.
Proof. congruence. Qed.

(** ** Programs over effects

    A handler of the service is a finite tree of calls to its collaborators
    (the store, the signing backend, the chain adapters, the clock, the random
    source, the metrics registry).  Every call is one atomic action; what runs
    between two calls only touches values local to the goroutine. *)
Inductive prog (E : Type → Type) (A : Type) : Type :=
| Ret (a : A)
| Vis (X : Type) (e : E X) (k : X → prog E A).
Arguments Ret {E A} a.
Arguments Vis {E A X} e k.

#[export] Instance prog_ret E : MRet (prog E) := λ A a, Ret a.

Fixpoint prog_bind {E A B} (f : A → prog E B) (p : prog E A) : prog E B :=
  match p with
  | Ret a => f a
  | Vis e k => Vis e (λ x, prog_bind f (k x))
  end.

#[export] Instance prog_mbind E : MBind (prog E) := @prog_bind E.

(** One call, returning its answer. *)
Definition call {E X} (e : E X) : prog E X := Vis e Ret.

(** [x ←? p ; q] is Go's [x, err := p; if err != nil { return ..., err }; q]. *)
Definition try_bind {E Er A B} (f : A → prog E (result Er B))
    (p : prog E (result Er A)) : prog E (result Er B) :=
  p ≫= λ r, match r with Ok a => f a | Err e => Ret (Err e) end.

Declare Scope custody_scope.
Delimit Scope custody_scope with custody.
Notation "x ←? p ; q" := (try_bind (λ x, q) p)
  (at level 20, p at level 100, q at level 200, only parsing) : custody_scope.
Notation "' x ←? p ; q" := (try_bind (λ x, q) p)
  (at level 20, x pattern, p at level 100, q at level 200, only parsing) : custody_scope.
Notation "p ';;?' q" := (try_bind (λ _, q) p)
  (at level 100, q at level 200, right associativity, only parsing) : custody_scope.
Open Scope custody_scope.

(** The number of effects on the longest branch is not bounded by the type,
    but every branch is finite: running a program against any interpretation
    of its effects yields a result. *)
Fixpoint run {E A W I} (exec : ∀ X, E X → I → W → X * W) (env : nat → I)
    (n : nat) (p : prog E A) (w : W) : A * nat * W :=
  match p with
  | Ret a => (a, n, w)
  | Vis e k => let '(x, w') := exec _ e (env n) w in run exec env (S n) (k x) w'
  end.

Lemma run_bind {E A B W I} (exec : ∀ X, E X → I → W → X * W) env
    (p : prog E A) (f : A → prog E B) n w :
  run exec env n (p ≫= f) w =
    let '(a, n', w') := run exec env n p w in run exec env n' (f a) w'.
Proof.
  revert n w. induction p as [a|X e k IH]; intros n w; [done|].
  cbn. destruct (exec X e (env n) w) as [x w']. apply IH.
Qed.

(** ** Rely/guarantee postconditions

    [wp p Q w]: started in a world [w] and interleaved with other programs
    that maintain [Inv] and move the world along [Rel], the program [p]
    maintains [Inv], itself moves the world along [Rel], and returns a value
    satisfying [Q]. *)
Section RelyGuarantee.
Context {E : Type → Type} {W : Type}.
Context (step : ∀ X, E X → W → X → W → Prop).
Context (Inv : W → Prop) (Rel : W → W → Prop).

Fixpoint wp {A} (p : prog E A) (Q : A → W → Prop) (w : W) : Prop :=
  match p with
  | Ret a => Q a w
  | Vis e k =>
      ∀ w1, Rel w w1 → Inv w1 → ∀ x w2, step _ e w1 x w2 →
        Inv w2 ∧ Rel w1 w2 ∧ wp (k x) Q w2
  end.

Lemma wp_mono {A} (p : prog E A) (Q Q' : A → W → Prop) w :
  (∀ a w', Q a w' → Q' a w') → wp p Q w → wp p Q' w.
Proof.
  intros HQ. revert w. induction p as [a|X e k IH]; cbn; intros w; [auto|].
  intros H w1 ?? x w2 ?. destruct (H w1 ltac:(done) ltac:(done) x w2) as (?&?&?); auto.
Qed.

Lemma wp_bind {A B} (p : prog E A) (f : A → prog E B) Q w :
  wp p (λ a, wp (f a) Q) w → wp (p ≫= f) Q w.
Proof.
  revert w. induction p as [a|X e k IH]; cbn; intros w; [auto|].
  intros H w1 ?? x w2 ?. destruct (H w1 ltac:(done) ltac:(done) x w2) as (?&?&?); auto.
Qed.

Lemma wp_try_bind {Er A B} (p : prog E (result Er A)) (f : A → prog E (result Er B))
    (Q : result Er B → W → Prop) w :
  wp p (λ r w', match r with Ok a => wp (f a) Q w' | Err e => Q (Err e) w' end) w →
  wp (try_bind f p) Q w.
Proof.
  intros H. apply wp_bind. eapply wp_mono; [|exact H]. intros [a|e] w'; auto.
Qed.

(** Knowledge that every later world keeps may be carried across a call. *)
Definition stable (P : W → Prop) : Prop := ∀ w w', Rel w w' → P w → P w'.

Lemma wp_call {X} (e : E X) (Q : X → W → Prop) w :
  (∀ w1, Rel w w1 → Inv w1 → ∀ x w2, step _ e w1 x w2 →
     Inv w2 ∧ Rel w1 w2 ∧ Q x w2) →
  wp (call e) Q w.
Proof. intros H w1 ?? x w2 ?. cbn. eauto. Qed.

(** Inv and Rel are preorder-like facts about complete runs. *)
Lemma wp_weaken_world `{!Transitive Rel} {A} (p : prog E A) Q w w' :
  (∀ a, stable (Q a)) → Rel w w' → wp p Q w → wp p Q w'.
Proof.
  intros HQ HR. destruct p as [a|X e k]; cbn.
  - by apply HQ.
  - intros H w1 ??. apply H; [by etrans|done].
Qed.
End RelyGuarantee.
Arguments wp {E W} step Inv Rel {A} p Q w.
