(* ===== verification/GoStd.v ===== *)
(** * The Go standard library functions the service uses

    Strings are byte sequences, as in Go.  Each function below is the
    documented behaviour of the routine of [strings], [strconv], [math/big],
    [encoding/hex] or [sort] it is named after, restricted to the arguments the
    service passes (base 10, 64 bits, one-byte separators). *)
From Stdlib Require Import Ascii.
From stdpp Require Import sorting.
From S2P Require Import Prelude.

(** ** Strings *)
Definition newline : string := String "010" "".

Lemma string_app_cons c (a b : string) : String c a +:+ b = String c (a +:+ b).
Proof. done. Qed.
Lemma string_app_nil_l (b : string) : "" +:+ b = b.
Proof. done. Qed.
Lemma string_app_nil_r (a : string) : a +:+ "" = a.
Proof. induction a as [|c a IH]; [done|]. by rewrite string_app_cons, IH. Qed.
Lemma string_app_assoc (a b c : string) : a +:+ b +:+ c = (a +:+ b) +:+ c.
Proof. induction a as [|x a IH]; [done|]. by rewrite !string_app_cons, IH. Qed.

Create Rewrite HintDb gostring.
#[export] Hint Rewrite string_app_cons string_app_nil_l string_app_nil_r : gostring.
Ltac string_simpl := repeat (progress (autorewrite with gostring in *; simpl in * )).

Lemma string_length_app (a b : string) :
  String.length (a +:+ b) = String.length a + String.length b.
Proof. induction a as [|c a IH]; string_simpl; [done|]. by rewrite IH. Qed.

(** Slicing [s[i:j]]. *)
Lemma substring_skip a b n : String.substring (String.length a) n (a +:+ b) = String.substring 0 n b.
Proof. induction a as [|c a IH]; string_simpl; [done|]. apply IH. Qed.
Lemma substring_take a b : String.substring 0 (String.length a) (a +:+ b) = a.
Proof. induction a as [|c a IH]; string_simpl; [by destruct b|]. by rewrite IH. Qed.

(** [strings.HasPrefix], [strings.TrimPrefix]. *)
Fixpoint cut_prefix (p s : string) : option string :=
  match p, s with
  | "", _ => Some s
  | String a p', String b s' => if decide (a = b) then cut_prefix p' s' else None
  | _, _ => None
  end.
Definition HasPrefix (s p : string) : bool := bool_decide (is_Some (cut_prefix p s)).
Definition TrimPrefix (s p : string) : string :=
  match cut_prefix p s with Some r => r | None => s end.

Lemma cut_prefix_spec p s r : cut_prefix p s = Some r ↔ s = p +:+ r.
Proof.
  revert s. induction p as [|a p IH]; intros s; string_simpl.
  { split; congruence. }
  destruct s as [|b s]; [done|]. case_decide; [subst|split; congruence].
  rewrite IH. split; [by intros ->|by injection 1].
Qed.
Lemma TrimPrefix_app p r : TrimPrefix (p +:+ r) p = r.
Proof. unfold TrimPrefix. by rewrite (proj2 (cut_prefix_spec p _ r)). Qed.
Lemma HasPrefix_spec s p : HasPrefix s p = true ↔ ∃ r, s = p +:+ r.
Proof.
  unfold HasPrefix. rewrite bool_decide_eq_true. unfold is_Some.
  by setoid_rewrite cut_prefix_spec.
Qed.

(** Occurrence of a byte. *)
Fixpoint has_byte (c : ascii) (s : string) : bool :=
  match s with
  | "" => false
  | String a s' => bool_decide (a = c) || has_byte c s'
  end.

Lemma has_byte_app c a b : has_byte c (a +:+ b) = has_byte c a || has_byte c b.
Proof. induction a as [|x a IH]; string_simpl; [done|]. by rewrite IH, orb_assoc. Qed.

(** A separator that does not occur before it splits a string uniquely. *)
Lemma app_sep_inj c a a' b b' :
  has_byte c a = false → has_byte c a' = false →
  a +:+ String c b = a' +:+ String c b' → a = a' ∧ b = b'.
Proof.
  revert a'. induction a as [|x a IH]; intros [|y a'] Ha Ha' H; string_simpl.
  - by simplify_eq.
  - simplify_eq. by rewrite bool_decide_eq_true_2 in Ha'.
  - simplify_eq. by rewrite bool_decide_eq_true_2 in Ha.
  - apply orb_false_iff in Ha as [? ?], Ha' as [? ?]. simplify_eq.
    destruct (IH a') as [-> ->]; auto.
Qed.

(** [strings.IndexByte] cut at the first occurrence: the text before it and
    the text from it on, or [None] for index -1. *)
Fixpoint cut_byte (c : ascii) (s : string) : option (string * string) :=
  match s with
  | "" => None
  | String a s' =>
      if decide (a = c) then Some ("", s)
      else match cut_byte c s' with
           | Some (x, y) => Some (String a x, y)
           | None => None
           end
  end.

Lemma cut_byte_None c s : cut_byte c s = None ↔ has_byte c s = false.
Proof.
  induction s as [|a s IH]; simpl; [done|]. case_decide.
  - by rewrite bool_decide_eq_true_2.
  - rewrite bool_decide_eq_false_2, <- IH by done. by destruct (cut_byte c s) as [[??]|].
Qed.
Lemma cut_byte_Some c s x y :
  cut_byte c s = Some (x, y) → s = x +:+ y ∧ has_byte c x = false ∧ ∃ z, y = String c z.
Proof.
  revert x y. induction s as [|a s IH]; simpl; intros x y H; [done|].
  case_decide; simplify_eq/=; [by eauto|].
  destruct (cut_byte c s) as [[x' y']|]; simplify_eq.
  destruct (IH x' y eq_refl) as (-> & Hx & z & ->). string_simpl.
  rewrite bool_decide_eq_false_2 by done. eauto.
Qed.
Lemma cut_byte_app c x z :
  has_byte c x = false → cut_byte c (x +:+ String c z) = Some (x, String c z).
Proof.
  induction x as [|a x IH]; string_simpl; intros H.
  - by rewrite decide_True.
  - apply orb_false_iff in H as [Ha Hx]. apply bool_decide_eq_false in Ha.
    rewrite decide_False by done. by rewrite IH.
Qed.

(** [strings.Split] by a one-byte separator, [strings.Join]. *)
Fixpoint Split (c : ascii) (s : string) : list string :=
  match s with
  | "" => [""]
  | String a s' =>
      if decide (a = c) then "" :: Split c s'
      else match Split c s' with
           | x :: xs => String a x :: xs
           | [] => [String a ""]
           end
  end.
Fixpoint Join (sep : string) (l : list string) : string :=
  match l with
  | [] => ""
  | [x] => x
  | x :: xs => x +:+ sep +:+ Join sep xs
  end.

Lemma Split_not_nil c s : Split c s ≠ [].
Proof. destruct s as [|a s]; simpl; [done|]. case_decide; [done|]. by destruct (Split c s). Qed.

Lemma Join_Split c s : Join (String c "") (Split c s) = s.
Proof.
  induction s as [|a s IH]; simpl; [done|].
  pose proof (Split_not_nil c s). case_decide as Ha.
  - subst. destruct (Split c s) as [|x xs] eqn:E; [done|]. by rewrite <- IH.
  - destruct (Split c s) as [|x [|y ys]]; [done|..]; simpl in IH |- *; by rewrite <- IH.
Qed.

Lemma Split_single c s : has_byte c s = false → Split c s = [s].
Proof.
  induction s as [|a s IH]; simpl; [done|]. intros H. apply orb_false_iff in H as [Ha Hs].
  apply bool_decide_eq_false in Ha. rewrite decide_False by done. by rewrite IH.
Qed.

Lemma Split_app c x s : has_byte c x = false → Split c (x +:+ String c s) = x :: Split c s.
Proof.
  induction x as [|a x IH]; string_simpl; intros H.
  - by rewrite decide_True.
  - apply orb_false_iff in H as [Ha Hx]. apply bool_decide_eq_false in Ha.
    rewrite decide_False by done. by rewrite IH.
Qed.

Lemma Split_Join c l :
  l ≠ [] → Forall (λ s, has_byte c s = false) l → Split c (Join (String c "") l) = l.
Proof.
  induction l as [|x [|y l] IH]; intros Hne Hl; [done|..]; inversion Hl; subst.
  - by apply Split_single.
  - cbn [Join]. change (String c "" +:+ ?r) with (String c r). rewrite Split_app by done.
    f_equal. by apply IH.
Qed.

Lemma Split_no_sep c s : Forall (λ x, has_byte c x = false) (Split c s).
Proof.
  induction s as [|a s IH]; simpl; [by repeat constructor|].
  case_decide; [by constructor|].
  destruct (Split c s) as [|x xs]; inversion IH; subst; repeat constructor; simpl;
    rewrite ?bool_decide_eq_false_2; auto.
Qed.

(** [strings.ReplaceAll] of one byte by a text. *)
Fixpoint ReplaceByte (c : ascii) (new s : string) : string :=
  match s with
  | "" => ""
  | String a s' =>
      if decide (a = c) then new +:+ ReplaceByte c new s' else String a (ReplaceByte c new s')
  end.

(** [strings.Trim] with a one-byte cutset. *)
Fixpoint TrimLeftByte (c : ascii) (s : string) : string :=
  match s with
  | "" => ""
  | String a s' => if decide (a = c) then TrimLeftByte c s' else s
  end.
Fixpoint TrimRightByte (c : ascii) (s : string) : string :=
  match s with
  | "" => ""
  | String a s' =>
      match TrimRightByte c s' with
      | "" => if decide (a = c) then "" else String a ""
      | r => String a r
      end
  end.
Definition TrimByte (c : ascii) (s : string) : string := TrimRightByte c (TrimLeftByte c s).

Lemma TrimLeftByte_no c s : has_byte c s = false → TrimLeftByte c s = s.
Proof. destruct s as [|a s]; [done|]. cbn. intros [Ha%bool_decide_eq_false _]%orb_false_iff. by rewrite decide_False. Qed.
Lemma TrimRightByte_no c s : has_byte c s = false → TrimRightByte c s = s.
Proof.
  induction s as [|a s IH]; [done|]. cbn. intros [Ha%bool_decide_eq_false Hs]%orb_false_iff. rewrite IH by done.
  destruct s; [by rewrite decide_False|done].
Qed.
Lemma TrimByte_no c s : has_byte c s = false → TrimByte c s = s.
Proof. intros H. unfold TrimByte. by rewrite TrimLeftByte_no, TrimRightByte_no. Qed.
(** Nothing is trimmed between two texts without the byte. *)
Lemma TrimByte_ends c a b :
  a ≠ "" → b ≠ "" → has_byte c a = false → has_byte c b = false →
  TrimByte c (a +:+ String c b) = a +:+ String c b.
Proof.
  intros Ha Hb Hna Hnb. unfold TrimByte.
  assert (E : TrimLeftByte c (a +:+ String c b) = a +:+ String c b).
  { destruct a as [|x a]; [done|]. rewrite string_app_cons. cbn in Hna |- *.
    apply orb_false_iff in Hna as [Hx%bool_decide_eq_false _]. by rewrite decide_False. }
  rewrite E. clear E. assert (Hr : TrimRightByte c (String c b) = String c b).
  { cbn. rewrite TrimRightByte_no by done. by destruct b. }
  clear Ha Hna. induction a as [|x a IH]; [done|]. rewrite string_app_cons. cbn [TrimRightByte]. rewrite IH.
  by destruct a.
Qed.

(** [sort.Strings]: ascending bytewise order. *)
Definition SortStrings (l : list string) : list string := merge_sort String.le l.

Lemma SortStrings_perm l : SortStrings l ≡ₚ l.
Proof. apply merge_sort_Permutation. Qed.
Lemma SortStrings_sorted l : Sorted String.le (SortStrings l).
Proof. apply Sorted_merge_sort, _. Qed.

(** ** Decimal integers: [strconv] and [math/big] *)
Open Scope Z_scope.

Definition digit_val (c : ascii) : option Z :=
  let n := Z.of_N (N_of_ascii c) in
  if (48 <=? n) && (n <=? 57) then Some (n - 48) else None.

Fixpoint parse_digits (s : string) (acc : Z) : option Z :=
  match s with
  | "" => Some acc
  | String c s' =>
      match digit_val c with
      | Some d => parse_digits s' (10 * acc + d)
      | None => None
      end
  end.

Definition parse_nat (s : string) : option Z :=
  match s with "" => None | _ => parse_digits s 0 end.

Definition parse_sign (s : string) : bool * string :=
  match s with
  | String "-" r => (true, r)
  | String "+" r => (false, r)
  | _ => (false, s)
  end.

(** [strconv.ParseInt(s, 10, 64)] and [strconv.Atoi]; [None] is a syntax or a
    range error. *)
Definition ParseInt (s : string) : option Z :=
  let '(neg, r) := parse_sign s in
  match parse_nat r with
  | None => None
  | Some n =>
      if neg then if n <=? 2^63 then Some (- n) else None
      else if n <? 2^63 then Some n else None
  end.

(** [strconv.ParseUint(s, 10, 64)]. *)
Definition ParseUint (s : string) : option Z :=
  match parse_nat s with
  | Some n => if n <? 2^64 then Some n else None
  | None => None
  end.

(** [new(big.Int).SetString(s, 10)]. *)
Definition SetString (s : string) : option Z :=
  let '(neg, r) := parse_sign s in
  match parse_nat r with
  | Some n => Some (if neg then - n else n)
  | None => None
  end.

(** [strconv.FormatInt(z, 10)] and [big.Int.String]. *)
Definition digit_char (d : Z) : ascii := ascii_of_N (Z.to_N (48 + d)).

Fixpoint dec_go (fuel : nat) (n : Z) (acc : string) : string :=
  match fuel with
  | O => acc
  | S f =>
      let acc' := String (digit_char (n mod 10)) acc in
      if n <? 10 then acc' else dec_go f (n / 10) acc'
  end.
Definition dec_nat (n : Z) : string := dec_go (S (Z.to_nat (Z.log2 n))) n "".
Definition FormatInt (z : Z) : string :=
  if z <? 0 then String "-" (dec_nat (- z)) else dec_nat z.

Lemma digit_val_char d : 0 ≤ d < 10 → digit_val (digit_char d) = Some d.
Proof.
  intros H. assert (d = 0 ∨ d = 1 ∨ d = 2 ∨ d = 3 ∨ d = 4 ∨ d = 5 ∨ d = 6 ∨ d = 7 ∨ d = 8 ∨ d = 9)
    as Hd by lia. by repeat (destruct Hd as [->|Hd]); [..|rewrite Hd].
Qed.

Lemma digit_val_range c d : digit_val c = Some d → 0 ≤ d < 10.
Proof.
  unfold digit_val. destruct (_ && _) eqn:E; [|done]. intros; simplify_eq.
  apply andb_true_iff in E as [?%Z.leb_le ?%Z.leb_le]. lia.
Qed.

Lemma parse_digits_nonneg s acc n : 0 ≤ acc → parse_digits s acc = Some n → acc ≤ n.
Proof.
  revert acc. induction s as [|c s IH]; intros acc Ha H; simpl in H; [by simplify_eq; lia|].
  destruct (digit_val c) as [d|] eqn:Ed; [|done]. apply digit_val_range in Ed.
  apply IH in H; lia.
Qed.

(** Printing a digit at a time and reading it back. *)
Lemma parse_dec_go fuel n rest acc :
  0 ≤ n < 10 ^ Z.of_nat fuel →
  parse_digits (dec_go fuel n rest) acc =
    parse_digits rest (acc * 10 ^ Z.of_nat (String.length (dec_go fuel n "")) + n).
Proof.
  revert n rest acc. induction fuel as [|f IH]; intros n rest acc Hn; [simpl in *; f_equal; lia|].
  cbn [dec_go]. destruct (Z.ltb_spec n 10).
  - cbn. rewrite digit_val_char by (apply Z.mod_pos_bound; lia).
    rewrite Z.mod_small by lia. f_equal. lia.
  - assert (Hq : 0 ≤ n / 10 < 10 ^ Z.of_nat f).
    { split; [apply Z.div_pos; lia|]. apply Z.div_lt_upper_bound; [lia|].
      rewrite Nat2Z.inj_succ, Z.pow_succ_r in Hn by lia. lia. }
    rewrite IH by done. cbn. rewrite digit_val_char by (apply Z.mod_pos_bound; lia). f_equal.
    assert (Hl : ∀ m r, String.length (dec_go f m r)
                        = (String.length (dec_go f m "") + String.length r)%nat).
    { clear. induction f as [|f IH]; intros m r; [done|]. cbn.
      destruct (m <? 10); [by cbn|]. rewrite IH, (IH _ (String _ "")). cbn. lia. }
    rewrite (Hl _ (String _ "")). cbn. rewrite Nat2Z.inj_add. cbn.
    rewrite Z.pow_add_r by lia. pose proof (Z.div_mod n 10). lia.
Qed.

Lemma dec_nat_bound n : 0 ≤ n → n < 10 ^ Z.of_nat (S (Z.to_nat (Z.log2 n))).
Proof.
  intros Hn. destruct (Z.eq_dec n 0) as [->|]; [by cbn|].
  pose proof (Z.log2_nonneg n). rewrite Nat2Z.inj_succ, Z2Nat.id by done.
  eapply Z.lt_le_trans; [apply Z.log2_spec; lia|].
  apply Z.pow_le_mono_l. lia.
Qed.

Lemma dec_go_nonempty f n c r : dec_go f n (String c r) ≠ "".
Proof. revert n c r. induction f as [|f IH]; intros n c r; cbn; [done|]. destruct (n <? 10); [done|apply IH]. Qed.

Lemma dec_nat_nonempty n : dec_nat n ≠ "".
Proof. unfold dec_nat. cbn [dec_go]. destruct (n <? 10); [done|apply dec_go_nonempty]. Qed.

Lemma parse_nat_dec n : 0 ≤ n → parse_nat (dec_nat n) = Some n.
Proof.
  intros Hn. unfold parse_nat. destruct (dec_nat n) eqn:E; [by apply dec_nat_nonempty in E|].
  rewrite <- E. unfold dec_nat. rewrite parse_dec_go by (split; [done|by apply dec_nat_bound]).
  done.
Qed.

Lemma parse_sign_dec n : 0 ≤ n → parse_sign (dec_nat n) = (false, dec_nat n).
Proof.
  intros Hn. pose proof (parse_nat_dec n Hn) as H. destruct (dec_nat n) as [|c s] eqn:E; [done|].
  simpl in H. destruct (digit_val c) eqn:Ed; [|done].
  unfold parse_sign. destruct c as [[] [] [] [] [] [] [] []]; try done; by vm_compute in Ed.
Qed.

(** Print then parse, for each of the three parsers. *)
Lemma SetString_FormatInt z : SetString (FormatInt z) = Some z.
Proof.
  unfold SetString, FormatInt. destruct (Z.ltb_spec z 0).
  - cbn [parse_sign]. rewrite parse_nat_dec by lia. f_equal. lia.
  - rewrite parse_sign_dec by lia. cbv iota beta. by rewrite parse_nat_dec by lia.
Qed.

Lemma ParseInt_SetString s z :
  ParseInt s = Some z ↔ SetString s = Some z ∧ - 2^63 ≤ z < 2^63.
Proof.
  unfold ParseInt, SetString. destruct (parse_sign s) as [neg r].
  destruct (parse_nat r) as [n|] eqn:Hn; [|naive_solver].
  assert (0 ≤ n). { destruct r; [done|]. eapply parse_digits_nonneg; [|exact Hn]. lia. }
  destruct neg; [destruct (Z.leb_spec n (2^63))|destruct (Z.ltb_spec n (2^63))];
    split; intros; destruct_and?; simplify_eq; try split; try done; lia.
Qed.

Lemma ParseInt_range s z : ParseInt s = Some z → - 2^63 ≤ z < 2^63.
Proof. by intros [_ ?]%ParseInt_SetString. Qed.

Lemma ParseInt_FormatInt z : - 2^63 ≤ z < 2^63 → ParseInt (FormatInt z) = Some z.
Proof. intros. apply ParseInt_SetString. split; [apply SetString_FormatInt|done]. Qed.

Lemma ParseUint_FormatInt z : 0 ≤ z < 2^64 → ParseUint (FormatInt z) = Some z.
Proof.
  intros. unfold ParseUint, FormatInt. rewrite (proj2 (Z.ltb_ge z 0)) by lia.
  rewrite parse_nat_dec by lia. by rewrite (proj2 (Z.ltb_lt _ _)) by lia.
Qed.
Lemma ParseUint_range s z : ParseUint s = Some z → 0 ≤ z < 2^64.
Proof.
  unfold ParseUint. destruct (parse_nat s) as [n|] eqn:Hn; [|done].
  assert (0 ≤ n). { destruct s; [done|]. eapply parse_digits_nonneg; [|exact Hn]. lia. }
  destruct (Z.ltb_spec n (2^64)); [|done]. intros; simplify_eq. done.
Qed.

(** ** [encoding/hex] *)
Definition hex_char (n : N) : ascii :=
  ascii_of_N (if (n <? 10)%N then 48 + n else 87 + n)%N.
Definition hex_val (c : ascii) : option N :=
  let n := N_of_ascii c in
  if ((48 <=? n) && (n <=? 57))%N then Some (n - 48)%N
  else if ((97 <=? n) && (n <=? 102))%N then Some (n - 87)%N
  else if ((65 <=? n) && (n <=? 70))%N then Some (n - 55)%N
  else None.

Fixpoint EncodeToString (s : string) : string :=
  match s with
  | "" => ""
  | String c r =>
      String (hex_char (N_of_ascii c / 16)) (String (hex_char (N_of_ascii c mod 16)) (EncodeToString r))
  end.
Fixpoint DecodeString (s : string) : option string :=
  match s with
  | "" => Some ""
  | String a (String b r) =>
      match hex_val a, hex_val b, DecodeString r with
      | Some x, Some y, Some t => Some (String (ascii_of_N (16 * x + y)) t)
      | _, _, _ => None
      end
  | String _ "" => None
  end.

Lemma DecodeString_EncodeToString s : DecodeString (EncodeToString s) = Some s.
Proof.
  induction s as [|c s IH]; [done|]. cbn [EncodeToString DecodeString]. rewrite IH.
  by destruct c as [[] [] [] [] [] [] [] []]; vm_compute.
Qed.
Lemma EncodeToString_length s : String.length (EncodeToString s) = (2 * String.length s)%nat.
Proof. induction s as [|c s IH]; [done|]. cbn. rewrite IH. lia. Qed.
Lemma EncodeToString_inj s t : EncodeToString s = EncodeToString t → s = t.
Proof.
  intros H. apply (f_equal DecodeString) in H. rewrite !DecodeString_EncodeToString in H. congruence.
Qed.

(** Hex text contains only [0-9a-f]: no separator the service uses. *)
Lemma EncodeToString_has_byte b s :
  hex_val b = None → has_byte b (EncodeToString s) = false.
Proof.
  intros Hb. induction s as [|c s IH]; [done|]. cbn. rewrite IH.
  assert (∀ n, (n < 16)%N → b ≠ hex_char n) as Hne.
  { intros n Hn ->. revert Hb. destruct n as [|p]; [done|].
    do 4 (destruct p as [p|p|]; try done; try lia). }
  rewrite !bool_decide_eq_false_2; [done|..]; intros H; eapply Hne; [|done| |done].
  - by apply N.mod_lt.
  - apply N.Div0.div_lt_upper_bound. apply (N_ascii_bounded c).
Qed.
Close Scope Z_scope.

(** ** Machine integers: wrap-around of [int64] *)
Definition wrap_int64 (z : Z) : Z := ((z + 2^63) mod 2^64 - 2^63)%Z.
