(* ===== verification/GoError.v ===== *)
(** * Error values

    Go errors as values: the sentinels the packages [wallet] and [store]
    declare with [errors.New], anonymous errors made where they are returned,
    and wrapping by [fmt.Errorf] with [%w].  [errors.Is] compares along the
    chain of wrapped causes. *)
From Stdlib Require Import Ascii.
From S2P Require Import Prelude GoStd.

(** The package-level [errors.New] variables (and the context and pgx errors
    the code compares with), each a distinct pointer. *)
Inductive Sentinel : Type :=
| ErrUnsupportedChain
| ErrDuplicateApproval
| ErrTransactionNotSigned
| ErrTransactionNotProposed
| ErrUnauthorizedSigner
| ErrPolicyViolation
| ErrWalletNotFound
| ErrTransactionNotFound
| ErrDuplicateWallet
| ErrDuplicateTransaction
| ErrDuplicateIdempotency
| ErrCanceled
| ErrDeadlineExceeded
| ErrNoRows.

#[export] Instance Sentinel_eq_dec : EqDecision Sentinel.
Proof. solve_decision. Defined.

Definition sentinel_text (s : Sentinel) : string :=
  match s with
  | ErrUnsupportedChain => "unsupported chain"
  | ErrDuplicateApproval => "signer already approved proposal"
  | ErrTransactionNotSigned => "transaction is not signed"
  | ErrTransactionNotProposed => "transaction is not accepting approvals"
  | ErrUnauthorizedSigner => "signer is not authorized"
  | ErrPolicyViolation => "policy violation"
  | ErrWalletNotFound => "wallet not found"
  | ErrTransactionNotFound => "transaction not found"
  | ErrDuplicateWallet => "wallet already exists"
  | ErrDuplicateTransaction => "transaction already exists"
  | ErrDuplicateIdempotency => "idempotency key already exists"
  | ErrCanceled => "context canceled"
  | ErrDeadlineExceeded => "context deadline exceeded"
  | ErrNoRows => "no rows in result set"
  end.

Inductive GoError : Type :=
| ErrVar (s : Sentinel)                               (* a package variable *)
| ErrNew (msg : string)                               (* errors.New at the return site *)
| ErrWrap (before : string) (cause : GoError) (after : string)  (* fmt.Errorf with %w *)
| ErrPg (code msg : string).                          (* *pgconn.PgError *)

#[export] Instance GoError_eq_dec : EqDecision GoError.
Proof. solve_decision. Defined.

(** [err.Error()]. *)
Fixpoint Error (e : GoError) : string :=
  match e with
  | ErrVar s => sentinel_text s
  | ErrNew m => m
  | ErrWrap b c a => b +:+ Error c +:+ a
  | ErrPg _ m => m
  end.

(** [errors.Is(err, target)] for a sentinel target. *)
Fixpoint Is (e : GoError) (target : Sentinel) : bool :=
  match e with
  | ErrVar s => bool_decide (s = target)
  | ErrWrap _ c _ => Is c target
  | _ => false
  end.

(** [fmt.Errorf("%w: %s", sentinel, detail)]. *)
Definition Errorf (s : Sentinel) (detail : string) : GoError :=
  ErrWrap "" (ErrVar s) (": " +:+ detail).

Abbreviation res := (result GoError).

(** What an error chain is about does not depend on the wrapping text: at most
    one sentinel matches it. *)
Lemma Is_unique e s t : Is e s = true → Is e t = true → s = t.
Proof.
  induction e as [v|m|b c IH a|k m]; simpl; [|done|auto|done].
  intros ->%bool_decide_eq_true ->%bool_decide_eq_true. done.
Qed.

Lemma Is_Errorf s d t : Is (Errorf s d) t = bool_decide (s = t).
Proof. done. Qed.

(** ** [hex.DecodeString] with its errors *)

(** [%#U] of a byte: the code point and, when printable, the character. *)
Definition hex_digit_upper (n : N) : ascii := ascii_of_N (if (n <? 10)%N then 48 + n else 55 + n)%N.
Definition code_point (c : ascii) : string :=
  let n := N_of_ascii c in
  let char := if (n <? 128)%N then String c ""
              else String (ascii_of_N (192 + n / 64)) (String (ascii_of_N (128 + n mod 64)) "") in
  let printable := ((32 <=? n) && (n <=? 126) || (161 <=? n) && negb (n =? 173))%N in
  "U+00" +:+ String (hex_digit_upper (n / 16)) (String (hex_digit_upper (n mod 16)) "")
    +:+ (if printable then " '" +:+ char +:+ "'" else "").

Definition InvalidByteError (c : ascii) : GoError :=
  ErrNew ("encoding/hex: invalid byte: " +:+ code_point c).

Fixpoint DecodeHex (s : string) : res string :=
  match s with
  | "" => Ok ""
  | String a r =>
      match hex_val a, r with
      | None, _ => Err (InvalidByteError a)
      | Some _, "" => Err (ErrNew "encoding/hex: odd length hex string")
      | Some x, String b r' =>
          match hex_val b with
          | None => Err (InvalidByteError b)
          | Some y =>
              match DecodeHex r' with
              | Ok t => Ok (String (ascii_of_N (16 * x + y)) t)
              | Err e => Err e
              end
          end
      end
  end.

Lemma DecodeHex_DecodeString s t : DecodeHex s = Ok t ↔ DecodeString s = Some t.
Proof.
  revert t. induction s as [s IH] using (induction_ltof1 _ String.length). intros t.
  destruct s as [|a [|b r]]; simpl.
  - split; congruence.
  - by destruct (hex_val a).
  - destruct (hex_val a) as [x|]; [|done]. destruct (hex_val b) as [y|]; [|done].
    assert (IHr := IH r ltac:(unfold ltof; simpl; lia)).
    destruct (DecodeHex r) as [u|e], (DecodeString r) as [v|]; try done.
    + pose proof (proj1 (IHr u) eq_refl). split; congruence.
    + by pose proof (proj1 (IHr u) eq_refl).
    + by pose proof (proj2 (IHr v) eq_refl).
Qed.

Lemma DecodeHex_EncodeToString s : DecodeHex (EncodeToString s) = Ok s.
Proof. apply DecodeHex_DecodeString, DecodeString_EncodeToString. Qed.

Example DecodeHex_odd : DecodeHex "abc" = Err (ErrNew "encoding/hex: odd length hex string").
Proof. reflexivity. Qed.
Example DecodeHex_bad : DecodeHex "0xab" = Err (ErrNew "encoding/hex: invalid byte: U+0078 'x'").
Proof. reflexivity. Qed.
