(* ===== verification/Types.v ===== *)
(** * Domain records (src/internal/wallet/types.go)

    One record per struct, with the fields in the source's order.  [string]
    typed enumerations keep Go's representation: a named string constant.  A
    Go map that can be nil is an [option] of a finite map, a nilable byte
    slice ([json.RawMessage]) an [option] of a byte string, [time.Time] the
    number of nanoseconds since the Unix epoch (UTC). *)
From S2P Require Import Prelude.

Abbreviation Time := Z (only parsing).
Abbreviation Chain := string (only parsing).
Abbreviation TransactionStatus := string (only parsing).
Abbreviation AuditEventType := string (only parsing).
Abbreviation RawMessage := (option string) (only parsing).

(** [time.Time{}], the zero time (January 1, year 1), in nanoseconds. *)
Definition zeroTime : Time := (-62135596800 * 1000000000)%Z.

Definition ChainBitcoin : Chain := "bitcoin".
Definition ChainEVM : Chain := "evm".

Definition TransactionStatusProposed : TransactionStatus := "proposed".
Definition TransactionStatusSigned : TransactionStatus := "signed".
Definition TransactionStatusBroadcast : TransactionStatus := "broadcast".
Definition TransactionStatusFailed : TransactionStatus := "failed".

Definition AuditEventWalletCreated : AuditEventType := "wallet.created".
Definition AuditEventTransactionProposed : AuditEventType := "transaction.proposed".
Definition AuditEventTransactionApproved : AuditEventType := "transaction.approved".
Definition AuditEventTransactionSigned : AuditEventType := "transaction.signed".
Definition AuditEventTransactionBroadcast : AuditEventType := "transaction.broadcast".
Definition AuditEventTransactionFailed : AuditEventType := "transaction.failed".

Record Wallet := mkWallet {
  w_ID : string;
  w_Chain : Chain;
  w_Address : string;
  w_PublicKey : string;
  w_CreatedAt : Time
}.

Record WalletMaterial := mkWalletMaterial {
  wm_Address : string;
  wm_PublicKey : string
}.

Record Signature := mkSignature {
  sig_SignedTransaction : string;
  sig_SignatureID : string
}.

Record UTXO := mkUTXO {
  utxo_TxID : string;
  utxo_Vout : Z;
  utxo_AmountSats : Z;
  utxo_ScriptPubKey : string
}.

Record TransactionRequest := mkTransactionRequest {
  req_WalletID : string;
  req_To : string;
  req_Amount : string;
  req_FeeRateSats : Z;
  req_GasLimit : Z;
  req_MaxFeePerGas : string;
  req_Data : string;
  req_UTXOs : list UTXO;
  req_Metadata : RawMessage
}.

Record Approval := mkApproval {
  ap_SignerID : string;
  ap_CreatedAt : Time
}.

Record RawTransaction := mkRawTransaction {
  raw_Chain : Chain;
  raw_Payload : RawMessage
}.

Record EVMTransactionPayload := mkEVMTransactionPayload {
  evm_Chain : Chain;
  evm_ChainID : Z;
  evm_From : string;
  evm_To : string;
  evm_ValueWei : string;
  evm_Nonce : Z;
  evm_GasLimit : Z;
  evm_MaxFeePerGas : string;
  evm_MaxPriorityFeePerGas : string;
  evm_Data : string;
  evm_Type : string;
  evm_CreatedAt : string
}.

Record AuditEvent := mkAuditEvent {
  ae_ID : string;
  ae_Type : AuditEventType;
  ae_Actor : string;
  ae_ResourceType : string;
  ae_ResourceID : string;
  ae_Chain : Chain;
  ae_Metadata : RawMessage;
  ae_CreatedAt : Time
}.

Record AuditFilter := mkAuditFilter {
  af_ResourceID : string;
  af_Limit : Z
}.

Record IdempotencyRecord := mkIdempotencyRecord {
  ir_Scope : string;
  ir_Key : string;
  ir_ResourceType : string;
  ir_ResourceID : string;
  ir_CreatedAt : Time
}.

Record TransactionProposal := mkTransactionProposal {
  tp_ID : string;
  tp_WalletID : string;
  tp_Chain : Chain;
  tp_Status : TransactionStatus;
  tp_Request : TransactionRequest;
  tp_RawTransaction : RawTransaction;
  tp_Approvals : option (gmap string Approval);
  tp_SignedTransaction : string;
  tp_BroadcastHash : string;
  tp_Error : string;
  tp_Trace : option (gmap string string);
  tp_CreatedAt : Time;
  tp_UpdatedAt : Time
}.

#[export] Instance Wallet_eq_dec : EqDecision Wallet.
Proof. solve_decision. Defined.
#[export] Instance Approval_eq_dec : EqDecision Approval.
Proof. solve_decision. Defined.
#[export] Instance UTXO_eq_dec : EqDecision UTXO.
Proof. solve_decision. Defined.
#[export] Instance TransactionRequest_eq_dec : EqDecision TransactionRequest.
Proof. solve_decision. Defined.
#[export] Instance RawTransaction_eq_dec : EqDecision RawTransaction.
Proof. solve_decision. Defined.
#[export] Instance AuditEvent_eq_dec : EqDecision AuditEvent.
Proof. solve_decision. Defined.
#[export] Instance IdempotencyRecord_eq_dec : EqDecision IdempotencyRecord.
Proof. solve_decision. Defined.
#[export] Instance TransactionProposal_eq_dec : EqDecision TransactionProposal.
Proof. solve_decision. Defined.

(** Assignments to fields of a proposal ([proposal.Status = ...]). *)
Definition set_Status (v : TransactionStatus) (p : TransactionProposal) : TransactionProposal :=
  mkTransactionProposal (tp_ID p) (tp_WalletID p) (tp_Chain p) v (tp_Request p)
    (tp_RawTransaction p) (tp_Approvals p) (tp_SignedTransaction p) (tp_BroadcastHash p)
    (tp_Error p) (tp_Trace p) (tp_CreatedAt p) (tp_UpdatedAt p).
Definition set_Approvals (v : option (gmap string Approval)) (p : TransactionProposal) : TransactionProposal :=
  mkTransactionProposal (tp_ID p) (tp_WalletID p) (tp_Chain p) (tp_Status p) (tp_Request p)
    (tp_RawTransaction p) v (tp_SignedTransaction p) (tp_BroadcastHash p)
    (tp_Error p) (tp_Trace p) (tp_CreatedAt p) (tp_UpdatedAt p).
Definition set_SignedTransaction (v : string) (p : TransactionProposal) : TransactionProposal :=
  mkTransactionProposal (tp_ID p) (tp_WalletID p) (tp_Chain p) (tp_Status p) (tp_Request p)
    (tp_RawTransaction p) (tp_Approvals p) v (tp_BroadcastHash p)
    (tp_Error p) (tp_Trace p) (tp_CreatedAt p) (tp_UpdatedAt p).
Definition set_BroadcastHash (v : string) (p : TransactionProposal) : TransactionProposal :=
  mkTransactionProposal (tp_ID p) (tp_WalletID p) (tp_Chain p) (tp_Status p) (tp_Request p)
    (tp_RawTransaction p) (tp_Approvals p) (tp_SignedTransaction p) v
    (tp_Error p) (tp_Trace p) (tp_CreatedAt p) (tp_UpdatedAt p).
Definition set_Error (v : string) (p : TransactionProposal) : TransactionProposal :=
  mkTransactionProposal (tp_ID p) (tp_WalletID p) (tp_Chain p) (tp_Status p) (tp_Request p)
    (tp_RawTransaction p) (tp_Approvals p) (tp_SignedTransaction p) (tp_BroadcastHash p)
    v (tp_Trace p) (tp_CreatedAt p) (tp_UpdatedAt p).
Definition set_UpdatedAt (v : Time) (p : TransactionProposal) : TransactionProposal :=
  mkTransactionProposal (tp_ID p) (tp_WalletID p) (tp_Chain p) (tp_Status p) (tp_Request p)
    (tp_RawTransaction p) (tp_Approvals p) (tp_SignedTransaction p) (tp_BroadcastHash p)
    (tp_Error p) (tp_Trace p) (tp_CreatedAt p) v.

(** Reading a nil map gives the zero value of every key. *)
Definition approvals (p : TransactionProposal) : gmap string Approval := default ∅ (tp_Approvals p).

(** [ApprovalsCount]: [len(p.Approvals)], zero for a nil map. *)
Definition ApprovalsCount (p : TransactionProposal) : nat := size (approvals p).
