(* ===== verification/Json.v ===== *)
(** * JSON text ([encoding/json])

    Values as trees, and the text [json.Marshal] prints for them: compact, map
    keys sorted, strings escaped with [EscapeHTML] on and invalid UTF-8
    replaced by U+FFFD. *)
From Stdlib Require Import Ascii.
From S2P Require Import Prelude GoStd.

Inductive json : Type :=
| JNull
| JBool (b : bool)
| JNum (lit : string)                       (* a number literal *)
| JStr (s : string)
| JArr (l : list json)
| JObj (l : list (string * json)).

(** ** String escaping ([appendString]) *)
Section Escape.
Local Open Scope N_scope.

Definition byte (c : ascii) : N := N_of_ascii c.
Definition within (lo c hi : N) : bool := (lo <=? c) && (c <=? hi).
Definition cont (c : ascii) : bool := within 128 (byte c) 191.

(** The well-formed UTF-8 sequences of two, three and four bytes. *)
Definition utf8_2 (a b : ascii) : bool := within 194 (byte a) 223 && cont b.
Definition utf8_3 (a b c : ascii) : bool :=
  cont c &&
  ((byte a =? 224) && within 160 (byte b) 191
   || within 225 (byte a) 236 && cont b
   || (byte a =? 237) && within 128 (byte b) 159
   || within 238 (byte a) 239 && cont b).
Definition utf8_4 (a b c d : ascii) : bool :=
  cont c && cont d &&
  ((byte a =? 240) && within 144 (byte b) 191
   || within 241 (byte a) 243 && cont b
   || (byte a =? 244) && within 128 (byte b) 143).

(** U+2028 and U+2029, which JavaScript does not accept in strings. *)
Definition line_sep (a b c : ascii) : bool :=
  (byte a =? 226) && (byte b =? 128) && within 168 (byte c) 169.

Definition u00 (c : ascii) : string :=
  String "\" ("u00" +:+ String (hex_char (byte c / 16)) (String (hex_char (byte c mod 16)) "")).

(** One byte below 0x80, escaped unless in [htmlSafeSet]. *)
Definition escape_ascii (c : ascii) : string :=
  let n := byte c in
  if (n =? 34) || (n =? 92) then String "\" (String c "")
  else if n =? 8 then "\b"
  else if n =? 12 then "\f"
  else if n =? 10 then "\n"
  else if n =? 13 then "\r"
  else if n =? 9 then "\t"
  else if (n <? 32) || (n =? 38) || (n =? 60) || (n =? 62) then u00 c
  else String c "".
End Escape.

Fixpoint quote_body (s : string) : string :=
  match s with
  | "" => ""
  | String a s1 =>
      if (byte a <? 128)%N then escape_ascii a +:+ quote_body s1
      else
        let bad := "\ufffd" +:+ quote_body s1 in
        match s1 with
        | "" => bad
        | String b s2 =>
            if utf8_2 a b then String a (String b (quote_body s2))
            else
              match s2 with
              | "" => bad
              | String c s3 =>
                  if utf8_3 a b c then
                    if line_sep a b c
                    then "\u202" +:+ String (hex_char (byte c mod 16)) (quote_body s3)
                    else String a (String b (String c (quote_body s3)))
                  else
                    match s3 with
                    | "" => bad
                    | String d s4 =>
                        if utf8_4 a b c d
                        then String a (String b (String c (String d (quote_body s4))))
                        else bad
                    end
              end
        end
  end.

Definition dquote : string := String "034" "".
Definition quote (s : string) : string := dquote +:+ quote_body s +:+ dquote.

(** ** Values *)
Fixpoint encode (j : json) : string :=
  match j with
  | JNull => "null"
  | JBool b => if b then "true" else "false"
  | JNum lit => lit
  | JStr s => quote s
  | JArr l => "[" +:+ Join "," (encode <$> l) +:+ "]"
  | JObj l => "{" +:+ Join "," ((λ kv, quote kv.1 +:+ ":" +:+ encode kv.2) <$> l) +:+ "}"
  end.

(** Marshalling a Go map with string keys visits them in sorted order. *)
Definition sorted_keys {A} (m : gmap string A) : list string :=
  SortStrings (map_to_list m).*1.
Definition JMap (m : gmap string string) : json :=
  JObj (omap (λ k, (λ v, (k, JStr v)) <$> m !! k) (sorted_keys m)).
(** A [map[string]any] literal with distinct keys. *)
Definition JAny (entries : list (string * json)) : json :=
  let m : gmap string json := list_to_map entries in
  JObj (omap (λ k, (λ v, (k, v)) <$> m !! k) (sorted_keys m)).

Lemma elem_of_sorted_keys {A} (m : gmap string A) k : k ∈ sorted_keys m ↔ is_Some (m !! k).
Proof.
  unfold sorted_keys. rewrite SortStrings_perm, list_elem_of_fmap. split.
  - intros ([k' v] & -> & H%elem_of_map_to_list). simpl. eauto.
  - intros [v Hv]. exists (k, v). by rewrite elem_of_map_to_list.
Qed.
Lemma sorted_keys_NoDup {A} (m : gmap string A) : NoDup (sorted_keys m).
Proof. unfold sorted_keys. rewrite SortStrings_perm. apply NoDup_fst_map_to_list. Qed.

(** ** Reading JSON text ([json.Unmarshal], [Decoder.Decode]) *)

Definition is_ws (c : ascii) : bool :=
  let n := byte c in ((n =? 32) || (n =? 9) || (n =? 10) || (n =? 13))%N.
Fixpoint skip_ws (s : string) : string :=
  match s with
  | String c s' => if is_ws c then skip_ws s' else s
  | "" => ""
  end.

(** UTF-8 encoding of a rune ([utf8.AppendRune]); surrogates and values out of
    range become U+FFFD. *)
Section Runes.
Local Open Scope N_scope.
Definition chr (n : N) (s : string) : string := String (ascii_of_N n) s.
Definition replacement (s : string) : string := chr 239 (chr 191 (chr 189 s)).
Definition put_rune (r : N) (s : string) : string :=
  if r <? 128 then chr r s
  else if r <? 2048 then chr (192 + r / 64) (chr (128 + r mod 64) s)
  else if within 55296 r 57343 || (1114111 <? r) then replacement s
  else if r <? 65536 then
    chr (224 + r / 4096) (chr (128 + (r / 64) mod 64) (chr (128 + r mod 64) s))
  else
    chr (240 + r / 262144) (chr (128 + (r / 4096) mod 64)
      (chr (128 + (r / 64) mod 64) (chr (128 + r mod 64) s))).

Definition hex4 (a b c d : ascii) : option N :=
  match hex_val a, hex_val b, hex_val c, hex_val d with
  | Some x, Some y, Some z, Some t => Some (4096 * x + 256 * y + 16 * z + t)
  | _, _, _, _ => None
  end.

Definition is_high (r : N) : bool := within 55296 r 56319.
Definition is_low (r : N) : bool := within 56320 r 57343.
Definition pair_rune (hi lo : N) : N := 65536 + (hi - 55296) * 1024 + (lo - 56320).
End Runes.

Definition add_head (f : string → string) (o : option (string * string)) : option (string * string) :=
  match o with Some (t, r) => Some (f t, r) | None => None end.

(** The rest of a string literal after its opening quote: the text it denotes
    and what follows the closing quote. *)
Fixpoint unquote (s : string) : option (string * string) :=
  match s with
  | "" => None
  | String a s1 =>
      if (byte a =? 34)%N then Some ("", s1)
      else if (byte a <? 32)%N then None
      else if (byte a =? 92)%N then
        match s1 with
        | "" => None
        | String e s2 =>
            let n := byte e in
            if ((n =? 34) || (n =? 92) || (n =? 47))%N then add_head (String e) (unquote s2)
            else if (n =? 98)%N then add_head (chr 8) (unquote s2)
            else if (n =? 102)%N then add_head (chr 12) (unquote s2)
            else if (n =? 110)%N then add_head (chr 10) (unquote s2)
            else if (n =? 114)%N then add_head (chr 13) (unquote s2)
            else if (n =? 116)%N then add_head (chr 9) (unquote s2)
            else if (n =? 117)%N then
              match s2 with
              | String h1 (String h2 (String h3 (String h4 s3))) =>
                  match hex4 h1 h2 h3 h4 with
                  | None => None
                  | Some r =>
                      let alone := add_head (put_rune r) (unquote s3) in
                      if is_high r then
                        match s3 with
                        | String b (String u (String g1 (String g2 (String g3 (String g4 s4))))) =>
                            if ((byte b =? 92) && (byte u =? 117))%N then
                              match hex4 g1 g2 g3 g4 with
                              | Some lo =>
                                  if is_low lo
                                  then add_head (put_rune (pair_rune r lo)) (unquote s4)
                                  else alone
                              | None => alone
                              end
                            else alone
                        | _ => alone
                        end
                      else alone
                  end
              | _ => None
              end
            else None
        end
      else if (byte a <? 128)%N then add_head (String a) (unquote s1)
      else
        let bad := add_head replacement (unquote s1) in
        match s1 with
        | "" => bad
        | String b s2 =>
            if utf8_2 a b then add_head (λ t, String a (String b t)) (unquote s2)
            else
              match s2 with
              | "" => bad
              | String c s3 =>
                  if utf8_3 a b c
                  then add_head (λ t, String a (String b (String c t))) (unquote s3)
                  else
                    match s3 with
                    | "" => bad
                    | String d s4 =>
                        if utf8_4 a b c d
                        then add_head (λ t, String a (String b (String c (String d t)))) (unquote s4)
                        else bad
                    end
              end
        end
  end.

(** Number literals: the longest run of number characters, checked against the
    grammar [-? (0|[1-9][0-9]* ) ( . [0-9]+ )? ( [eE] [+-]? [0-9]+ )?]. *)
Definition is_digit (c : ascii) : bool := within 48 (byte c) 57.
Definition is_numchar (c : ascii) : bool :=
  let n := byte c in
  (is_digit c || (n =? 43) || (n =? 45) || (n =? 46) || (n =? 69) || (n =? 101))%N.
Fixpoint span_num (s : string) : string * string :=
  match s with
  | String c s' => if is_numchar c then let '(a, b) := span_num s' in (String c a, b) else ("", s)
  | "" => ("", "")
  end.
Fixpoint drop_digits (s : string) : string :=
  match s with
  | String c s' => if is_digit c then drop_digits s' else s
  | "" => ""
  end.
Definition some_digits (s : string) : option string :=
  match s with
  | String c s' => if is_digit c then Some (drop_digits s') else None
  | "" => None
  end.
Definition num_int (s : string) : option string :=
  match s with
  | String c s' =>
      if (byte c =? 48)%N then Some s'
      else if is_digit c then Some (drop_digits s') else None
  | "" => None
  end.
Definition num_frac (s : string) : option string :=
  match s with
  | String c s' => if (byte c =? 46)%N then some_digits s' else Some s
  | "" => Some ""
  end.
Definition num_exp (s : string) : option string :=
  match s with
  | String c s' =>
      if ((byte c =? 69) || (byte c =? 101))%N then
        match s' with
        | String g s'' => if ((byte g =? 43) || (byte g =? 45))%N then some_digits s'' else some_digits s'
        | "" => None
        end
      else Some s
  | "" => Some ""
  end.
Definition valid_num (s : string) : bool :=
  let s' := match s with String c r => if (byte c =? 45)%N then r else s | "" => "" end in
  match num_int s' with
  | Some a => match num_frac a with
              | Some b => match num_exp b with Some "" => true | _ => false end
              | None => false
              end
  | None => false
  end.

(** Lists of values, for any reader of one value: [value] below builds trees,
    [JsonText.text_value] keeps the text of each value. *)
Section Values.
Context {V : Type} (value : string → option (V * string)).

Fixpoint elements (fuel : nat) (s : string) : option (list V * string) :=
  match fuel with
  | O => None
  | S f =>
      match value s with
      | None => None
      | Some (v, r) =>
          match skip_ws r with
          | String c r' =>
              if (byte c =? 44)%N then
                match elements f r' with Some (l, t) => Some (v :: l, t) | None => None end
              else if (byte c =? 93)%N then Some ([v], r')
              else None
          | "" => None
          end
      end
  end.

(** One [key: value] pair. *)
Definition member (s : string) : option (string * V * string) :=
  match skip_ws s with
  | String q s1 =>
      if (byte q =? 34)%N then
        match unquote s1 with
        | None => None
        | Some (k, s2) =>
            match skip_ws s2 with
            | String c s3 =>
                if (byte c =? 58)%N then
                  match value s3 with Some (v, r) => Some (k, v, r) | None => None end
                else None
            | "" => None
            end
        end
      else None
  | "" => None
  end.

Fixpoint members (fuel : nat) (s : string) : option (list (string * V) * string) :=
  match fuel with
  | O => None
  | S f =>
      match member s with
      | None => None
      | Some (k, v, r) =>
          match skip_ws r with
          | String c r' =>
              if (byte c =? 44)%N then
                match members f r' with Some (l, t) => Some ((k, v) :: l, t) | None => None end
              else if (byte c =? 125)%N then Some ([(k, v)], r')
              else None
          | "" => None
          end
      end
  end.
End Values.

Fixpoint value (fuel : nat) (s : string) : option (json * string) :=
  match fuel with
  | O => None
  | S f =>
      match skip_ws s with
      | "" => None
      | String c r =>
          if (byte c =? 34)%N then
            match unquote r with Some (t, r') => Some (JStr t, r') | None => None end
          else if (byte c =? 123)%N then
            match skip_ws r with
            | String d r' =>
                if (byte d =? 125)%N then Some (JObj [], r')
                else match members (value f) f r with Some (l, t) => Some (JObj l, t) | None => None end
            | "" => None
            end
          else if (byte c =? 91)%N then
            match skip_ws r with
            | String d r' =>
                if (byte d =? 93)%N then Some (JArr [], r')
                else match elements (value f) f r with Some (l, t) => Some (JArr l, t) | None => None end
            | "" => None
            end
          else
            match cut_prefix "true" (String c r), cut_prefix "false" (String c r),
                  cut_prefix "null" (String c r) with
            | Some t, _, _ => Some (JBool true, t)
            | _, Some t, _ => Some (JBool false, t)
            | _, _, Some t => Some (JNull, t)
            | _, _, _ =>
                let '(lit, t) := span_num (String c r) in
                if valid_num lit then Some (JNum lit, t) else None
            end
      end
  end.

(** [json.Unmarshal]: one value, surrounded by white space only. *)
Definition decode (s : string) : option json :=
  match value (S (String.length s)) s with
  | Some (j, r) => if decide (skip_ws r = "") then Some j else None
  | None => None
  end.

Example decode_ex :
  decode (encode (JObj [("a<b", JArr [JNum "-12.5e3"; JNull]); ("c", JObj [("", JBool true)])]))
  = Some (JObj [("a<b", JArr [JNum "-12.5e3"; JNull]); ("c", JObj [("", JBool true)])]).
Proof. vm_compute. reflexivity. Qed.

(** ** Print then parse *)

(** Well-formed UTF-8 text. *)
Inductive utf8 : string → Prop :=
| utf8_nil : utf8 ""
| utf8_cons1 a s : (byte a <? 128)%N = true → utf8 s → utf8 (String a s)
| utf8_cons2 a b s : utf8_2 a b = true → utf8 s → utf8 (String a (String b s))
| utf8_cons3 a b c s : utf8_3 a b c = true → utf8 s → utf8 (String a (String b (String c s)))
| utf8_cons4 a b c d s :
    utf8_4 a b c d = true → utf8 s → utf8 (String a (String b (String c (String d s)))).

(** The lead byte decides the length of a sequence. *)
Lemma utf8_2_lead a b : utf8_2 a b = true → (194 ≤ byte a ≤ 223)%N.
Proof. unfold utf8_2, within. rewrite !andb_true_iff, !N.leb_le. tauto. Qed.
Lemma utf8_3_lead a b c : utf8_3 a b c = true → (224 ≤ byte a ≤ 239)%N.
Proof.
  unfold utf8_3, within. rewrite !andb_true_iff, !orb_true_iff, !andb_true_iff, !N.leb_le, !N.eqb_eq.
  lia.
Qed.
Lemma utf8_4_lead a b c d : utf8_4 a b c d = true → (240 ≤ byte a ≤ 244)%N.
Proof.
  unfold utf8_4, within. rewrite !andb_true_iff, !orb_true_iff, !andb_true_iff, !N.leb_le, !N.eqb_eq.
  lia.
Qed.
Lemma utf8_2_not a b : (224 ≤ byte a)%N → utf8_2 a b = false.
Proof. intros. destruct (utf8_2 a b) eqn:E; [|done]. apply utf8_2_lead in E. lia. Qed.
Lemma utf8_3_not a b c : (240 ≤ byte a)%N → utf8_3 a b c = false.
Proof. intros. destruct (utf8_3 a b c) eqn:E; [|done]. apply utf8_3_lead in E. lia. Qed.

(** A byte of a multi-byte sequence is read as itself. *)
Lemma high_byte_tests a : (128 ≤ byte a)%N →
  (byte a =? 34)%N = false ∧ (byte a <? 32)%N = false ∧ (byte a =? 92)%N = false ∧
  (byte a <? 128)%N = false.
Proof. intros. rewrite !N.eqb_neq, !N.ltb_ge. lia. Qed.

Lemma unquote_escape a s :
  (byte a <? 128)%N = true →
  unquote (escape_ascii a +:+ s) = add_head (String a) (unquote s).
Proof.
  destruct a as [[] [] [] [] [] [] [] []]; vm_compute (byte _ <? 128)%N; intros H; try discriminate H;
    reflexivity.
Qed.

Lemma line_sep_put a b c s :
  line_sep a b c = true →
  unquote ("\u202" +:+ String (hex_char (byte c mod 16)) s)
    = add_head (λ t, String a (String b (String c t))) (unquote s).
Proof.
  unfold line_sep, within. rewrite !andb_true_iff, !N.eqb_eq, !N.leb_le.
  intros [[Ha Hb] Hc].
  assert (a = "226"%char) as ->. { rewrite <- (ascii_N_embedding a). unfold byte in Ha. by rewrite Ha. }
  assert (b = "128"%char) as ->. { rewrite <- (ascii_N_embedding b). unfold byte in Hb. by rewrite Hb. }
  assert (byte c = 168 ∨ byte c = 169)%N as [E|E] by lia;
    rewrite <- (ascii_N_embedding c); unfold byte in *; rewrite E; reflexivity.
Qed.

Lemma unquote_quote s rest :
  utf8 s → unquote (quote_body s +:+ dquote +:+ rest) = Some (s, rest).
Proof.
  induction 1 as [|a s Ha Hs IH|a b s Hab Hs IH|a b c s Habc Hs IH|a b c d s Habcd Hs IH].
  - done.
  - cbn [quote_body]. rewrite Ha, <- string_app_assoc, unquote_escape by done. by rewrite IH.
  - pose proof (utf8_2_lead _ _ Hab). destruct (high_byte_tests a) as (E1&E2&E3&E4); [lia|].
    cbn [quote_body]. rewrite E4, Hab, !string_app_cons. cbn [unquote].
    by rewrite E1, E2, E3, E4, Hab, IH.
  - pose proof (utf8_3_lead _ _ _ Habc). destruct (high_byte_tests a) as (E1&E2&E3&E4); [lia|].
    cbn [quote_body]. rewrite E4, utf8_2_not, Habc by lia. destruct (line_sep a b c) eqn:El.
    + rewrite <- string_app_assoc, (string_app_cons (hex_char _)), (line_sep_put a b) by done. by rewrite IH.
    + rewrite !string_app_cons. cbn [unquote].
      by rewrite E1, E2, E3, E4, utf8_2_not, Habc, IH by lia.
  - pose proof (utf8_4_lead _ _ _ _ Habcd). destruct (high_byte_tests a) as (E1&E2&E3&E4); [lia|].
    cbn [quote_body]. rewrite E4, utf8_2_not, utf8_3_not, Habcd by lia.
    rewrite !string_app_cons. cbn [unquote].
    by rewrite E1, E2, E3, E4, utf8_2_not, utf8_3_not, Habcd, IH by lia.
Qed.

(** Induction on JSON trees. *)
Section JsonInd.
Context (P : json → Prop).
Context (Hnull : P JNull) (Hbool : ∀ b, P (JBool b)) (Hnum : ∀ lit, P (JNum lit))
        (Hstr : ∀ s, P (JStr s)) (Harr : ∀ l, Forall P l → P (JArr l))
        (Hobj : ∀ l, Forall (λ kv, P kv.2) l → P (JObj l)).
Fixpoint json_tree_ind (j : json) : P j :=
  match j with
  | JNull => Hnull
  | JBool b => Hbool b
  | JNum lit => Hnum lit
  | JStr s => Hstr s
  | JArr l => Harr l ((fix go (l : list json) : Forall P l := match l with
      | [] => Forall_nil_2 _
      | x :: l' => Forall_cons_2 _ _ _ (json_tree_ind x) (go l')
      end) l)
  | JObj l => Hobj l ((fix go (l : list (string * json)) : Forall (λ kv, P kv.2) l := match l with
      | [] => Forall_nil_2 _
      | kv :: l' => Forall_cons_2 (λ kv, P kv.2) _ _ (json_tree_ind kv.2) (go l')
      end) l)
  end.
End JsonInd.

Definition num_ok (lit : string) : Prop := valid_num lit = true ∧ span_num lit = (lit, "").

(** Trees the encoder prints faithfully: UTF-8 text, number literals. *)
Fixpoint jwf (j : json) : Prop :=
  match j with
  | JNum lit => num_ok lit
  | JStr s => utf8 s
  | JArr l => foldr (λ x Q, jwf x ∧ Q) True l
  | JObj l => foldr (λ kv Q, utf8 kv.1 ∧ jwf kv.2 ∧ Q) True l
  | _ => True
  end.

Fixpoint jsize (j : json) : nat :=
  match j with
  | JArr l => 2 + foldr (λ x k, jsize x + k) 0 l
  | JObj l => 2 + foldr (λ kv k, jsize kv.2 + k) 0 l
  | _ => 1
  end.

Definition delim (s : string) : Prop :=
  match s with "" => True | String c _ => is_numchar c = false end.

Lemma span_num_app lit rest :
  span_num lit = (lit, "") → delim rest → span_num (lit +:+ rest) = (lit, rest).
Proof.
  intros H Hd. induction lit as [|c lit IH]; string_simpl.
  - destruct rest as [|c r]; simpl in *; [done|]. by rewrite Hd.
  - destruct (is_numchar c); [|done]. destruct (span_num lit) as [a b]. simplify_eq. by rewrite IH.
Qed.

Lemma numchar_tests c r :
  is_numchar c = true →
  is_ws c = false ∧ (byte c =? 34)%N = false ∧ (byte c =? 123)%N = false ∧ (byte c =? 91)%N = false ∧
  cut_prefix "true" (String c r) = None ∧ cut_prefix "false" (String c r) = None ∧
  cut_prefix "null" (String c r) = None.
Proof.
  destruct c as [[] [] [] [] [] [] [] []]; vm_compute (is_numchar _); intros H; try discriminate H;
    repeat split.
Qed.

Lemma value_num n lit rest :
  num_ok lit → delim rest → value (S n) (lit +:+ rest) = Some (JNum lit, rest).
Proof.
  intros [Hv Hs] Hd. destruct lit as [|c lit]; [done|].
  assert (Hc : is_numchar c = true). { simpl in Hs. by destruct (is_numchar c). }
  pose proof (span_num_app _ _ Hs Hd) as Hspan. rewrite string_app_cons in *.
  destruct (numchar_tests c (lit +:+ rest) Hc) as (E1&E2&E3&E4&E5&E6&E7).
  cbn [value skip_ws]. rewrite E1, E2, E3, E4, E5, E6, E7, Hspan, Hv. done.
Qed.

Lemma value_str n s rest : utf8 s → value (S n) (quote s +:+ rest) = Some (JStr s, rest).
Proof.
  intros Hs. unfold quote. rewrite <- !string_app_assoc.
  change (value (S n) (dquote +:+ ?x)) with
    (match unquote x with Some (t, r') => Some (JStr t, r') | None => None end).
  by rewrite unquote_quote.
Qed.

(** A printed value starts with none of the characters the lists test for. *)
Definition starts_value (s : string) : Prop :=
  match s with
  | "" => False
  | String c _ => is_ws c = false ∧ (byte c =? 93)%N = false ∧ (byte c =? 125)%N = false
  end.
Lemma starts_value_app s t : starts_value s → starts_value (s +:+ t).
Proof. by destruct s. Qed.
Lemma starts_value_skip s : starts_value s → skip_ws s = s.
Proof. destruct s as [|c s]; [done|]. intros [H _]. simpl. by rewrite H. Qed.

Lemma encode_starts j : jwf j → starts_value (encode j).
Proof.
  destruct j as [|[]|lit|s|l|l]; try done. intros [Hv Hs]. destruct lit as [|c lit]; [done|].
  simpl in Hs. destruct (is_numchar c) eqn:Hc; [|done]. clear Hv Hs. revert Hc. cbn [encode starts_value].
  destruct c as [[] [] [] [] [] [] [] []]; vm_compute (is_numchar _); intros H; try discriminate H;
    repeat split.
Qed.

Lemma jsize_pos j : 1 ≤ jsize j.
Proof. destruct j; simpl; lia. Qed.

Definition parses (v : string → option (json * string)) (j : json) : Prop :=
  ∀ rest, delim rest → v (encode j +:+ rest) = Some (j, rest).

Lemma elements_ok v l f rest :
  l ≠ [] → Forall (parses v) l → length l ≤ f →
  elements v f (Join "," (encode <$> l) +:+ "]" +:+ rest) = Some (l, rest).
Proof.
  intros Hne Hl. revert f Hne. induction Hl as [|x l Hx Hl IH]; intros f Hne Hf; [done|].
  destruct f as [|f]; [simpl in Hf; lia|]. destruct l as [|y l].
  - cbn [fmap list_fmap Join elements]. by rewrite Hx.
  - change (Join "," (encode <$> x :: y :: l))
      with (encode x +:+ "," +:+ Join "," (encode <$> y :: l)).
    rewrite <- !string_app_assoc. cbn [elements]. rewrite Hx by done.
    change (skip_ws ("," +:+ ?r)) with (String "," r). cbn [byte].
    change (byte "," =? 44)%N with true. cbv iota. rewrite IH; [done|done|simpl in *; lia].
Qed.

Lemma member_ok v k x rest :
  utf8 k → parses v x → delim rest →
  member v (quote k +:+ ":" +:+ encode x +:+ rest) = Some (k, x, rest).
Proof.
  intros Hk Hx Hd. unfold quote, member. rewrite <- !string_app_assoc.
  change (skip_ws (dquote +:+ ?r)) with (String "034" r). change (byte "034" =? 34)%N with true.
  cbv iota. rewrite unquote_quote by done.
  change (skip_ws (":" +:+ ?r)) with (String ":" r). change (byte ":" =? 58)%N with true.
  cbv iota. by rewrite Hx.
Qed.

Lemma members_ok v l f rest :
  l ≠ [] → Forall (λ kv, utf8 kv.1 ∧ parses v kv.2) l → length l ≤ f →
  members v f (Join "," ((λ kv, quote kv.1 +:+ ":" +:+ encode kv.2) <$> l) +:+ "}" +:+ rest)
    = Some (l, rest).
Proof.
  intros Hne Hl. revert f Hne. induction Hl as [|[k x] l [Hk Hx] Hl IH]; intros f Hne Hf; [done|].
  destruct f as [|f]; [simpl in Hf; lia|]. simpl in Hk, Hx. destruct l as [|y l].
  - cbn [fmap list_fmap Join fst snd members]. rewrite <- !string_app_assoc. by rewrite member_ok.
  - change (Join "," (?g <$> ?a :: y :: l)) with (g a +:+ "," +:+ Join "," (g <$> y :: l)).
    cbv beta. cbn [fst snd members]. rewrite <- !string_app_assoc, member_ok by done.
    change (skip_ws ("," +:+ ?r)) with (String "," r).
    change (byte "," =? 44)%N with true. cbv iota. rewrite IH; [done|done|simpl in *; lia].
Qed.

Lemma Forall_foldr_arr (P : json → Prop) l : foldr (λ x Q, P x ∧ Q) True l ↔ Forall P l.
Proof. induction l as [|x l IH]; simpl; [by split|]. by rewrite IH, Forall_cons. Qed.
Lemma Forall_foldr_obj (P : string * json → Prop) l : foldr (λ x Q, P x ∧ Q) True l ↔ Forall P l.
Proof. induction l as [|x l IH]; simpl; [by split|]. by rewrite IH, Forall_cons. Qed.

Lemma jsize_elem l x : x ∈ l → jsize x ≤ foldr (λ x k, jsize x + k) 0 l.
Proof. induction 1; simpl; lia. Qed.
Lemma jsize_length l : length l ≤ foldr (λ x k, jsize x + k) 0 l.
Proof. induction l as [|x l IH]; simpl; [lia|]. pose proof (jsize_pos x). lia. Qed.

Lemma foldr_obj_arr (l : list (string * json)) :
  foldr (λ kv k, jsize kv.2 + k) 0 l = foldr (λ x k, jsize x + k) 0 l.*2.
Proof. induction l as [|x l IH]; [done|]. rewrite fmap_cons. cbn [foldr]. by rewrite IH. Qed.

Lemma value_arr n l rest :
  l ≠ [] → Forall jwf l → Forall (parses (value n)) l → length l ≤ n →
  value (S n) (encode (JArr l) +:+ rest) = Some (JArr l, rest).
Proof.
  intros Hne Hwf Hp Hn. cbn [encode]. rewrite <- !string_app_assoc. set (body := Join _ _).
  assert (Hstart : starts_value (body +:+ "]" +:+ rest)).
  { apply starts_value_app. destruct Hwf as [|x l' Hx _]; [done|]. apply encode_starts in Hx.
    unfold body. destruct l'; [done|]. by apply (starts_value_app (encode x)). }
  cbn [value]. change (skip_ws ("[" +:+ ?r)) with (String "[" r). cbv iota.
  change (byte "[" =? 34)%N with false. change (byte "[" =? 123)%N with false.
  change (byte "[" =? 91)%N with true. cbv iota. rewrite starts_value_skip by done.
  destruct (body +:+ "]" +:+ rest) as [|c r] eqn:Eb; [done|].
  destruct Hstart as (_ & -> & _). rewrite <- Eb. unfold body. by rewrite elements_ok.
Qed.

Lemma value_obj n l rest :
  l ≠ [] → Forall (λ kv, utf8 kv.1 ∧ parses (value n) kv.2) l → length l ≤ n →
  value (S n) (encode (JObj l) +:+ rest) = Some (JObj l, rest).
Proof.
  intros Hne Hp Hn. cbn [encode]. rewrite <- !string_app_assoc. set (body := Join _ _).
  assert (Hstart : starts_value (body +:+ "}" +:+ rest)).
  { apply starts_value_app. unfold body. by destruct l as [|x [|]]. }
  cbn [value]. change (skip_ws ("{" +:+ ?r)) with (String "{" r). cbv iota.
  change (byte "{" =? 34)%N with false. change (byte "{" =? 123)%N with true. cbv iota.
  rewrite starts_value_skip by done.
  destruct (body +:+ "}" +:+ rest) as [|c r] eqn:Eb; [done|].
  destruct Hstart as (_ & _ & ->). rewrite <- Eb. unfold body. by rewrite members_ok.
Qed.

Lemma jwf_arr l : jwf (JArr l) ↔ Forall jwf l.
Proof. apply (Forall_foldr_arr jwf). Qed.
Lemma jwf_obj l : jwf (JObj l) ↔ Forall (λ kv, utf8 kv.1 ∧ jwf kv.2) l.
Proof.
  rewrite <- Forall_foldr_obj. simpl. induction l as [|kv l IH]; simpl; [done|]. rewrite IH. tauto.
Qed.

(** The parser inverts the printer, given as much fuel as the tree has nodes. *)
Lemma value_ok j : jwf j → ∀ n, jsize j ≤ n → parses (value n) j.
Proof.
  induction j as [|b|lit|s|l IH|l IH] using json_tree_ind; intros Hwf n Hn rest Hd;
    (destruct n as [|n]; [simpl in Hn; lia|]).
  - done.
  - by destruct b.
  - by apply value_num.
  - by apply value_str.
  - destruct (decide (l = [])) as [->|Hne]; [done|]. rewrite jwf_arr in Hwf. cbn [jsize] in Hn.
    apply value_arr; [done|done| |pose proof (jsize_length l); lia].
    rewrite Forall_forall in IH, Hwf |- *. intros y Hy. apply IH; [done|auto|].
    pose proof (jsize_elem _ _ Hy). lia.
  - destruct (decide (l = [])) as [->|Hne]; [done|]. rewrite jwf_obj in Hwf. cbn [jsize] in Hn.
    rewrite foldr_obj_arr in Hn. pose proof (jsize_length l.*2) as Hlen. rewrite length_fmap in Hlen.
    apply value_obj; [done| |lia].
    rewrite Forall_forall in IH, Hwf |- *. intros y Hy. destruct (Hwf y Hy). split; [done|].
    apply IH; [done|done|]. pose proof (jsize_elem _ _ (list_elem_of_fmap_2 snd _ _ Hy)). lia.
Qed.

(** The text is long enough to serve as fuel. *)
Lemma Join_length {A} sep (h : A → string) l :
  foldr (λ x k, String.length (h x) + k) 0 l ≤ String.length (Join sep (h <$> l)).
Proof.
  induction l as [|x [|y l] IH]; [done|simpl; lia|].
  change (Join sep (h <$> x :: y :: l)) with (h x +:+ sep +:+ Join sep (h <$> y :: l)).
  rewrite !string_length_app. cbn [foldr] in *. lia.
Qed.
Lemma sum_mono {A} (f g : A → nat) l :
  Forall (λ x, f x ≤ g x) l → foldr (λ x k, f x + k) 0 l ≤ foldr (λ x k, g x + k) 0 l.
Proof. induction 1; simpl; lia. Qed.

Lemma encode_length j : jwf j → jsize j ≤ String.length (encode j).
Proof.
  induction j as [|[]|lit|s|l IH|l IH] using json_tree_ind; intros Hwf; try (simpl; lia).
  - destruct lit; [by destruct Hwf|simpl; lia].
  - rewrite jwf_arr in Hwf. cbn [encode jsize]. rewrite !string_length_app. cbn [String.length].
    pose proof (Join_length "," encode l).
    enough (foldr (λ x k, jsize x + k) 0 l ≤ foldr (λ x k, String.length (encode x) + k) 0 l) by lia.
    apply sum_mono. rewrite Forall_forall in *. auto.
  - rewrite jwf_obj in Hwf. cbn [encode jsize]. rewrite !string_length_app. cbn [String.length].
    set (g := λ kv : string * json, quote kv.1 +:+ ":" +:+ encode kv.2). pose proof (Join_length "," g l).
    enough (foldr (λ kv k, jsize kv.2 + k) 0 l ≤ foldr (λ x k, String.length (g x) + k) 0 l) by lia.
    apply sum_mono. rewrite Forall_forall in *. intros x Hx. destruct (Hwf x Hx).
    unfold g. rewrite !string_length_app. specialize (IH x Hx ltac:(done)). lia.
Qed.

Lemma decode_encode j : jwf j → decode (encode j) = Some j.
Proof.
  intros Hwf. unfold decode. pose proof (encode_length _ Hwf).
  pose proof (value_ok j Hwf (S (String.length (encode j))) ltac:(lia) "" I) as Hv.
  rewrite string_app_nil_r in Hv. by rewrite Hv.
Qed.

Lemma encode_inj j j' : jwf j → jwf j' → encode j = encode j' → j = j'.
Proof.
  intros Hj Hj' E. apply decode_encode in Hj, Hj'. rewrite E in Hj. congruence.
Qed.
