(* ===== verification/Marshal.v ===== *)
(** * Go values and JSON text ([encoding/json])

    How [json.Marshal] embeds a [json.RawMessage] in a larger text, and how
    [json.Unmarshal] fills a struct from an object. *)
From Stdlib Require Import Ascii.
From S2P Require Import Prelude GoStd GoError Types Json.

(** ** [json.RawMessage.MarshalJSON], inserted by [compact]

    White space between tokens is dropped; inside strings the characters that
    [EscapeHTML] escapes are escaped.  The text must be valid JSON. *)
Definition html_escape (c : ascii) : string :=
  if ((byte c =? 38) || (byte c =? 60) || (byte c =? 62))%N then u00 c else String c "".

Fixpoint compact_text (in_string : bool) (s : string) : string :=
  match s with
  | "" => ""
  | String c s1 =>
      if in_string then
        if (byte c =? 34)%N then String c (compact_text false s1)
        else if (byte c =? 92)%N then
          match s1 with
          | String e s2 => String c (String e (compact_text true s2))
          | "" => String c ""
          end
        else
          match s1 with
          | String b (String d s3) =>
              if line_sep c b d
              then "\u202" +:+ String (hex_char (byte d mod 16)) (compact_text true s3)
              else html_escape c +:+ compact_text true s1
          | _ => html_escape c +:+ compact_text true s1
          end
      else if is_ws c then compact_text false s1
      else String c (compact_text (byte c =? 34)%N s1)
  end.

(** The text of a syntax error is not modelled: the service never inspects it. *)
Definition SyntaxError : GoError := ErrNew "invalid JSON".

Definition marshal_raw (m : RawMessage) : res string :=
  match m with
  | None => Ok "null"
  | Some text => match decode text with Some _ => Ok (compact_text false text) | None => Err SyntaxError end
  end.

(** ** Struct fields *)

(** [foldName]: the simple case folding under which keys match field names. *)
Fixpoint fold_name (s : string) : string :=
  match s with
  | "" => ""
  | String a s1 =>
      let plain := String (if within 97 (byte a) 122 then ascii_of_N (byte a - 32) else a) (fold_name s1) in
      match s1 with
      | String b s2 =>
          if ((byte a =? 197) && (byte b =? 191))%N then String "S" (fold_name s2)        (* U+017F *)
          else
            match s2 with
            | String c s3 =>
                if ((byte a =? 226) && (byte b =? 132) && (byte c =? 170))%N
                then String "K" (fold_name s3)                                            (* U+212A *)
                else plain
            | "" => plain
            end
      | "" => plain
      end
  end.

(** The field a key of the object addresses: exact match first. *)
Definition resolve (names : list string) (key : string) : option string :=
  if decide (key ∈ names) then Some key
  else head (filter (λ n, fold_name n = fold_name key) names).

(** Field types in use, with the type's name in error texts. *)
Inductive kind := KString (ty : string) | KUint64.

Definition json_kind (v : json) : string :=
  match v with
  | JNull => "null" | JBool _ => "bool" | JNum _ => "number"
  | JStr _ => "string" | JArr _ => "array" | JObj _ => "object"
  end.
Definition is_null (v : json) : bool := match v with JNull => true | _ => false end.

Definition mismatch (k : kind) (v : json) : option string :=
  match k, v with
  | _, JNull => None
  | KString _, JStr _ => None
  | KUint64, JNum lit => match ParseUint lit with Some _ => None | None => Some ("number " +:+ lit) end
  | _, _ => Some (json_kind v)
  end.
Definition kind_name (k : kind) : string := match k with KString ty => ty | KUint64 => "uint64" end.

Section Struct.
Context (package struct : string) (fields : list (string * kind)).

Definition assignments (l : list (string * json)) : list (string * json) :=
  omap (λ kv, (λ n, (n, kv.2)) <$> resolve fields.*1 kv.1) l.

Definition field_error (nv : string * json) : option GoError :=
  match (list_to_map fields : gmap string kind) !! nv.1 with
  | None => None
  | Some k =>
      (λ what, ErrNew ("json: cannot unmarshal " +:+ what +:+ " into Go struct field " +:+ struct
                       +:+ "." +:+ nv.1 +:+ " of type " +:+ kind_name k)) <$> mismatch k nv.2
  end.

(** The assignments an object makes, in order, or the error [json.Unmarshal]
    returns: the first type mismatch.  [null] assigns nothing. *)
Definition unmarshal_fields (m : RawMessage) : res (list (string * json)) :=
  match decode (default "" m) with
  | None => Err SyntaxError
  | Some JNull => Ok []
  | Some (JObj l) =>
      match omap field_error (assignments l) with
      | e :: _ => Err e
      | [] => Ok (filter (λ nv, is_null nv.2 = false) (assignments l))
      end
  | Some v =>
      Err (ErrNew ("json: cannot unmarshal " +:+ json_kind v
                   +:+ " into Go value of type " +:+ package +:+ "." +:+ struct))
  end.
End Struct.

(** The value a field ends up with: its last assignment, or the zero value. *)
Definition field_value (name : string) (l : list (string * json)) : json :=
  default JNull (snd <$> last (filter (λ nv, nv.1 = name) l)).
Definition as_string (v : json) : string := match v with JStr s => s | _ => "" end.
Definition as_uint (v : json) : Z := match v with JNum lit => default 0%Z (ParseUint lit) | _ => 0%Z end.

(** ** Texts that need no escaping *)
Fixpoint all_bytes (P : ascii → bool) (s : string) : bool :=
  match s with "" => true | String c s' => P c && all_bytes P s' end.

Lemma all_bytes_app P a b : all_bytes P (a +:+ b) = all_bytes P a && all_bytes P b.
Proof. induction a as [|c a IH]; string_simpl; [done|]. by rewrite IH, andb_assoc. Qed.
Lemma all_bytes_impl (P Q : ascii → bool) s :
  (∀ c, P c = true → Q c = true) → all_bytes P s = true → all_bytes Q s = true.
Proof.
  intros H. induction s as [|c s IH]; simpl; [done|]. intros [? ?]%andb_true_iff.
  apply andb_true_iff. auto.
Qed.

Definition is_ascii (c : ascii) : bool := (byte c <? 128)%N.
Lemma utf8_ascii s : all_bytes is_ascii s = true → utf8 s.
Proof.
  induction s as [|c s IH]; simpl; [constructor|]. intros [? ?]%andb_true_iff. constructor; auto.
Qed.
Lemma utf8_app a b : utf8 a → utf8 b → utf8 (a +:+ b).
Proof. intros Ha Hb. induction Ha; string_simpl; [done|by constructor..]. Qed.

Lemma is_digit_char d : (0 ≤ d < 10)%Z → is_digit (digit_char d) = true.
Proof.
  intros H. assert (d = 0 ∨ d = 1 ∨ d = 2 ∨ d = 3 ∨ d = 4 ∨ d = 5 ∨ d = 6 ∨ d = 7 ∨ d = 8 ∨ d = 9)%Z
    as Hd by lia. by repeat (destruct Hd as [->|Hd]); [..|rewrite Hd].
Qed.
Lemma is_digit_ascii c : is_digit c = true → is_ascii c = true.
Proof. by destruct c as [[] [] [] [] [] [] [] []]. Qed.
Lemma digit_mod_char n : is_digit (digit_char (n mod 10)) = true.
Proof. apply is_digit_char, Z.mod_pos_bound. lia. Qed.

(** Decimal texts are number literals. *)
Lemma dec_go_digits f n acc :
  all_bytes is_digit acc = true → all_bytes is_digit (dec_go f n acc) = true.
Proof.
  revert n acc. induction f as [|f IH]; intros n acc Hacc; cbn [dec_go]; [done|].
  assert (all_bytes is_digit (String (digit_char (n mod 10)) acc) = true).
  { simpl. by rewrite digit_mod_char. }
  destruct (n <? 10)%Z; auto.
Qed.
Lemma dec_go_head f n acc :
  (0 < n < 10 ^ Z.of_nat f)%Z →
  ∃ c r, dec_go f n acc = String c r ∧ is_digit c = true ∧ (byte c =? 48)%N = false.
Proof.
  revert n acc. induction f as [|f IH]; intros n acc Hn; cbn [dec_go]; [simpl in Hn; lia|].
  destruct (Z.ltb_spec n 10).
  - eexists _, acc. split; [done|]. split; [apply digit_mod_char|].
    rewrite Z.mod_small by lia. assert (n = 1 ∨ n = 2 ∨ n = 3 ∨ n = 4 ∨ n = 5 ∨ n = 6 ∨ n = 7 ∨ n = 8 ∨ n = 9)%Z
      as Hd by lia. by repeat (destruct Hd as [->|Hd]); [..|rewrite Hd].
  - apply IH. rewrite Nat2Z.inj_succ, Z.pow_succ_r in Hn by lia.
    split; [apply Z.div_str_pos; lia|apply Z.div_lt_upper_bound; lia].
Qed.

Lemma drop_digits_all s : all_bytes is_digit s = true → drop_digits s = "".
Proof. induction s as [|c s IH]; simpl; [done|]. intros [-> ?]%andb_true_iff. auto. Qed.
Lemma span_digits s : all_bytes is_digit s = true → span_num s = (s, "").
Proof.
  induction s as [|c s IH]; simpl; [done|]. intros [Hc ?]%andb_true_iff.
  assert (is_numchar c = true) as -> by (unfold is_numchar; by rewrite Hc).
  by rewrite IH.
Qed.

Lemma num_ok_dec n : (0 ≤ n)%Z → valid_num (dec_nat n) = true ∧ all_bytes is_digit (dec_nat n) = true.
Proof.
  intros Hn. assert (Hd : all_bytes is_digit (dec_nat n) = true) by by apply dec_go_digits.
  split; [|done]. destruct (Z.eq_dec n 0) as [->|]; [done|].
  destruct (dec_go_head (S (Z.to_nat (Z.log2 n))) n "") as (c & r & E & Hc & H0).
  { split; [lia|]. by apply dec_nat_bound. }
  unfold dec_nat in *. rewrite E in Hd |- *. simpl in Hd. apply andb_true_iff in Hd as [_ Hr].
  assert ((byte c =? 45)%N = false) as Hm by (by destruct c as [[] [] [] [] [] [] [] []]).
  unfold valid_num, num_int. by rewrite Hm, H0, Hc, (drop_digits_all r Hr).
Qed.

Lemma num_ok_FormatInt z : num_ok (FormatInt z).
Proof.
  unfold FormatInt, num_ok. destruct (Z.ltb_spec z 0).
  - destruct (num_ok_dec (- z)) as [Hv Hd]; [lia|].
    pose proof (span_digits _ Hd) as Hs. destruct (dec_nat (- z)) as [|c r] eqn:E; [done|].
    split.
    2: { change (span_num (String "-" ?x)) with (let '(a, b) := span_num x in (String "-" a, b)).
         by rewrite Hs. }
    revert Hv. unfold valid_num. simpl in Hd. apply andb_true_iff in Hd as [Hc _].
    assert ((byte c =? 45)%N = false) as -> by (by destruct c as [[] [] [] [] [] [] [] []]). done.
  - destruct (num_ok_dec z) as [Hv Hd]; [lia|]. split; [done|by apply span_digits].
Qed.

(** ** Compacting text that is already compact *)

Lemma compact_escape a s :
  (byte a <? 128)%N = true →
  compact_text true (escape_ascii a +:+ s) = escape_ascii a +:+ compact_text true s.
Proof.
  destruct a as [[] [] [] [] [] [] [] []]; vm_compute (byte _ <? 128)%N; intros H; try discriminate H;
    (reflexivity || (destruct s as [|? [|? ?]]; reflexivity)).
Qed.

(** Inside a string, a byte that starts no line separator and is not special. *)
Lemma compact_high a s :
  (128 ≤ byte a)%N → (∀ b c r, s = String b (String c r) → line_sep a b c = false) →
  compact_text true (String a s) = String a (compact_text true s).
Proof.
  intros Ha Hs. destruct (high_byte_tests a Ha) as (E1 & _ & E3 & _).
  assert (Hh : html_escape a = String a "").
  { unfold html_escape. by rewrite !(proj2 (N.eqb_neq _ _)) by lia. }
  cbn [compact_text]. rewrite E1, E3, Hh.
  destruct s as [|b [|c r]]; [done|done|]. by rewrite (Hs b c r).
Qed.
Lemma line_sep_lead a b c : line_sep a b c = true → byte a = 226%N.
Proof. unfold line_sep. rewrite !andb_true_iff, !N.eqb_eq. tauto. Qed.
Lemma line_sep_not a b c : byte a ≠ 226%N → line_sep a b c = false.
Proof. intros H. destruct (line_sep a b c) eqn:E; [|done]. by apply line_sep_lead in E. Qed.

Lemma compact_line_sep a b c s :
  line_sep a b c = true →
  compact_text true ("\u202" +:+ String (hex_char (byte c mod 16)) s)
    = "\u202" +:+ String (hex_char (byte c mod 16)) (compact_text true s).
Proof.
  intros El. assert (byte c = 168 ∨ byte c = 169)%N as [-> | ->].
  { unfold line_sep, within in El. rewrite !andb_true_iff, !N.leb_le in El. lia. }
  all: destruct s as [|? [|? ?]]; reflexivity.
Qed.

Lemma compact_quote s rest :
  utf8 s →
  compact_text true (quote_body s +:+ dquote +:+ rest)
    = quote_body s +:+ dquote +:+ compact_text false rest.
Proof.
  assert (Hcont : ∀ c, cont c = true → (128 ≤ byte c ≤ 191)%N).
  { intros c. unfold cont, within. rewrite andb_true_iff, !N.leb_le. lia. }
  induction 1 as [|a s Ha Hs IH|a b s Hab Hs IH|a b c s Habc Hs IH|a b c d s Habcd Hs IH].
  - done.
  - cbn [quote_body]. rewrite Ha, <- !string_app_assoc, compact_escape by done. by rewrite IH.
  - pose proof (utf8_2_lead _ _ Hab). destruct (high_byte_tests a) as (E1&E2&E3&E4); [lia|].
    assert (Hb : cont b = true). { unfold utf8_2 in Hab. by apply andb_true_iff in Hab as [_ ?]. }
    apply Hcont in Hb. cbn [quote_body]. rewrite E4, Hab, !string_app_cons.
    rewrite !compact_high, IH by (lia || (intros; apply line_sep_not; lia)). done.
  - pose proof (utf8_3_lead _ _ _ Habc). destruct (high_byte_tests a) as (E1&E2&E3&E4); [lia|].
    cbn [quote_body]. rewrite E4, utf8_2_not, Habc by lia. destruct (line_sep a b c) eqn:El.
    + rewrite <- !string_app_assoc, (string_app_cons (hex_char _)), (compact_line_sep a b) by done.
      rewrite IH. by rewrite <- (string_app_cons (hex_char _)), string_app_assoc.
    + assert (Hbc : (128 ≤ byte b ≤ 191 ∧ 128 ≤ byte c ≤ 191)%N).
      { unfold utf8_3, cont, within in Habc.
        rewrite !andb_true_iff, !orb_true_iff, !andb_true_iff, !N.leb_le, !N.eqb_eq in Habc. lia. }
      rewrite !string_app_cons. rewrite compact_high; [|lia|by intros ??? [= <- <- _]].
      rewrite !compact_high, IH by (lia || (intros; apply line_sep_not; lia)). done.
  - pose proof (utf8_4_lead _ _ _ _ Habcd). destruct (high_byte_tests a) as (E1&E2&E3&E4); [lia|].
    assert (Hbc : (128 ≤ byte b ≤ 191 ∧ 128 ≤ byte c ≤ 191 ∧ 128 ≤ byte d ≤ 191)%N).
    { unfold utf8_4, cont, within in Habcd.
      rewrite !andb_true_iff, !orb_true_iff, !andb_true_iff, !N.leb_le, !N.eqb_eq in Habcd. lia. }
    cbn [quote_body]. rewrite E4, utf8_2_not, utf8_3_not, Habcd by lia. rewrite !string_app_cons.
    rewrite !compact_high, IH by (lia || (intros; apply line_sep_not; lia)). done.
Qed.

(** Outside strings, text without white space and quotes is copied. *)
Definition plain (c : ascii) : bool := negb (is_ws c) && negb (byte c =? 34)%N.
Lemma compact_plain t rest :
  all_bytes plain t = true → compact_text false (t +:+ rest) = t +:+ compact_text false rest.
Proof.
  induction t as [|c t IH]; [done|]. cbn [all_bytes]. intros [Hc ?]%andb_true_iff.
  unfold plain in Hc. apply andb_true_iff in Hc as [Hw%negb_true_iff Hq%negb_true_iff].
  rewrite !string_app_cons. cbn [compact_text]. by rewrite Hw, Hq, IH.
Qed.
Lemma compact_char c rest :
  plain c = true → compact_text false (String c rest) = String c (compact_text false rest).
Proof. intros H. apply (compact_plain (String c "")). simpl. by rewrite H. Qed.

Definition keeps (t : string) : Prop :=
  ∀ rest, compact_text false (t +:+ rest) = t +:+ compact_text false rest.
Lemma keeps_app a b : keeps a → keeps b → keeps (a +:+ b).
Proof. intros Ha Hb rest. rewrite <- !string_app_assoc. by rewrite Ha, Hb. Qed.
Lemma keeps_plain t : all_bytes plain t = true → keeps t.
Proof. intros H rest. by apply compact_plain. Qed.
Lemma keeps_quote s : utf8 s → keeps (quote s).
Proof.
  intros Hs rest. unfold quote. rewrite <- !string_app_assoc.
  change (compact_text false (dquote +:+ ?x)) with (dquote +:+ compact_text true x).
  by rewrite compact_quote.
Qed.
Lemma keeps_Join l : Forall keeps l → keeps (Join "," l).
Proof.
  intros Hl. induction Hl as [|x [|y l] Hx Hl IH]; [done|done|].
  cbn [Join]. apply keeps_app; [done|]. apply keeps_app; [by apply keeps_plain|done].
Qed.
Lemma keeps_num lit : num_ok lit → keeps lit.
Proof.
  intros [_ Hs]. apply keeps_plain, (all_bytes_impl is_numchar).
  { intros c. by destruct c as [[] [] [] [] [] [] [] []]. }
  induction lit as [|c lit IH]; [done|]. cbn [span_num all_bytes] in *.
  destruct (is_numchar c); [|done]. destruct (span_num lit). simplify_eq. by apply IH.
Qed.



Lemma encode_keeps j : jwf j → keeps (encode j).
Proof.
  induction j as [|[]|lit|s|l IH|l IH] using json_tree_ind; cbn [encode].
  - intros _. by apply keeps_plain.
  - intros _. by apply keeps_plain.
  - intros _. by apply keeps_plain.
  - apply keeps_num.
  - apply keeps_quote.
  - rewrite jwf_arr. intros Hl. apply keeps_app; [by apply keeps_plain|].
    apply keeps_app; [|by apply keeps_plain].
    apply keeps_Join, Forall_fmap. rewrite Forall_forall in *. intros x Hx. simpl. auto.
  - rewrite jwf_obj. intros Hl. apply keeps_app; [by apply keeps_plain|].
    apply keeps_app; [|by apply keeps_plain].
    apply keeps_Join, Forall_fmap. rewrite Forall_forall in *. intros [k x] Hx.
    destruct (Hl _ Hx) as [Hk Hv]. simpl in *. apply keeps_app; [by apply keeps_quote|].
    apply keeps_app; [by apply keeps_plain|]. by apply (IH (k, x)).
Qed.

(** A payload the adapters built is embedded byte for byte. *)
Lemma marshal_raw_encode j : jwf j → marshal_raw (Some (encode j)) = Ok (encode j).
Proof.
  intros Hj. unfold marshal_raw. rewrite decode_encode by done.
  pose proof (encode_keeps j Hj "") as H. rewrite string_app_nil_r in H.
  rewrite H. by rewrite string_app_nil_r.
Qed.

(** The text hypotheses the encoders need, discharged by [auto with text]. *)
Create HintDb text discriminated.
#[export] Hint Resolve num_ok_FormatInt utf8_nil utf8_app : text.
#[export] Hint Extern 1 (utf8 (String _ _)) => (apply utf8_ascii; reflexivity) : text.

Lemma utf8_hex s : utf8 (EncodeToString s).
Proof.
  apply utf8_ascii. induction s as [|c s IH]; [done|]. cbn [EncodeToString all_bytes]. rewrite IH.
  by destruct c as [[] [] [] [] [] [] [] []].
Qed.
#[export] Hint Resolve utf8_hex : text.

(** An object printed from a struct or a map literal. *)
Lemma jwf_obj_cons k v l : utf8 k → jwf v → jwf (JObj l) → jwf (JObj ((k, v) :: l)).
Proof. rewrite !jwf_obj. by constructor. Qed.
Lemma jwf_str s : utf8 s → jwf (JStr s).
Proof. done. Qed.
Lemma jwf_int z : jwf (JNum (FormatInt z)).
Proof. apply num_ok_FormatInt. Qed.
Lemma jwf_obj_nil : jwf (JObj []).
Proof. done. Qed.
#[export] Hint Resolve jwf_obj_cons jwf_str jwf_int jwf_obj_nil : text.

(** A text that parses as an integer is ASCII. *)
Lemma parse_digits_ascii s acc n : parse_digits s acc = Some n → all_bytes is_ascii s = true.
Proof.
  revert acc. induction s as [|c s IH]; intros acc; cbn [parse_digits all_bytes]; [done|].
  destruct (digit_val c) eqn:E; [|done]. intros ->%IH.
  by destruct c as [[] [] [] [] [] [] [] []].
Qed.
Lemma SetString_utf8 s z : SetString s = Some z → utf8 s.
Proof.
  intros H. apply utf8_ascii. unfold SetString in H.
  assert (Hp : ∀ r n, parse_nat r = Some n → all_bytes is_ascii r = true).
  { intros [|c r] n; [done|]. apply parse_digits_ascii. }
  destruct (parse_sign s) as [neg r] eqn:E. destruct (parse_nat r) as [n|] eqn:En; [|done].
  apply Hp in En. destruct s as [|c s]; [done|]. unfold parse_sign in E.
  destruct c as [[] [] [] [] [] [] [] []]; simplify_eq; simpl in *; done.
Qed.
