(* ===== verification/JsonLit.v ===== *)
(** * String literals of JSON text

    Facts about [Json.unquote] and [Marshal.compact_text] for every literal the
    parser accepts, printed by [json.Marshal] or not: a literal reads the same
    whatever follows it, and compacting it ([json.RawMessage] inside a larger
    value) does not change the text it denotes. *)
From Stdlib Require Import Ascii.
From S2P Require Import Prelude GoStd GoError Types Json Marshal.

(** The next escape is a low surrogate. *)
Definition low_next (s : string) : bool :=
  match s with
  | String b (String u (String g1 (String g2 (String g3 (String g4 _))))) =>
      ((byte b =? 92) && (byte u =? 117))%N &&
      match hex4 g1 g2 g3 g4 with Some lo => is_low lo | None => false end
  | _ => false
  end.
(** The byte [a] starts no UTF-8 sequence that continues with [s]. *)
Definition broken (a : ascii) (s : string) : bool :=
  match s with
  | "" => true
  | String b s2 =>
      negb (utf8_2 a b) &&
      match s2 with
      | "" => true
      | String c s3 =>
          negb (utf8_3 a b c) && match s3 with "" => true | String d _ => negb (utf8_4 a b c d) end
      end
  end.

(** The one-letter escapes. *)
Definition simple_escape (e : ascii) : option ascii :=
  let n := byte e in
  if ((n =? 34) || (n =? 92) || (n =? 47))%N then Some e
  else if (n =? 98)%N then Some (ascii_of_N 8)
  else if (n =? 102)%N then Some (ascii_of_N 12)
  else if (n =? 110)%N then Some (ascii_of_N 10)
  else if (n =? 114)%N then Some (ascii_of_N 13)
  else if (n =? 116)%N then Some (ascii_of_N 9)
  else None.

Definition bslash : ascii := "\".
Definition plain_char (a : ascii) : bool :=
  ((32 <=? byte a) && (byte a <? 128) && negb (byte a =? 34) && negb (byte a =? 92))%N.

(** [lit t x]: the text [t], up to and with the closing quote, denotes [x]. *)
Inductive lit : string → string → Prop :=
| lit_end : lit dquote ""
| lit_esc e c t x : simple_escape e = Some c → lit t x → lit (String bslash (String e t)) (String c x)
| lit_u h1 h2 h3 h4 r t x :
    hex4 h1 h2 h3 h4 = Some r → (is_high r = true → low_next t = false) → lit t x →
    lit (String bslash (String "u" (String h1 (String h2 (String h3 (String h4 t)))))) (put_rune r x)
| lit_pair h1 h2 h3 h4 r g1 g2 g3 g4 lo t x :
    hex4 h1 h2 h3 h4 = Some r → is_high r = true → hex4 g1 g2 g3 g4 = Some lo → is_low lo = true → lit t x →
    lit (String bslash (String "u" (String h1 (String h2 (String h3 (String h4
          (String bslash (String "u" (String g1 (String g2 (String g3 (String g4 t))))))))))))
        (put_rune (pair_rune r lo) x)
| lit_char a t x : plain_char a = true → lit t x → lit (String a t) (String a x)
| lit_2 a b t x : utf8_2 a b = true → lit t x → lit (String a (String b t)) (String a (String b x))
| lit_3 a b c t x :
    utf8_3 a b c = true → lit t x → lit (String a (String b (String c t))) (String a (String b (String c x)))
| lit_4 a b c d t x :
    utf8_4 a b c d = true → lit t x →
    lit (String a (String b (String c (String d t)))) (String a (String b (String c (String d x))))
| lit_bad a t x : (128 <=? byte a)%N = true → broken a t = true → lit t x → lit (String a t) (replacement x).

Lemma byte_is a n : (n < 256)%N → (byte a =? n)%N = true → a = ascii_of_N n.
Proof. intros ? ->%N.eqb_eq%symmetry. unfold byte. by rewrite ascii_N_embedding. Qed.

Lemma lit_quote t x : lit t x → has_byte "034" t = true.
Proof. induction 1; [done|..]; cbn [has_byte]; rewrite ?orb_true_iff; tauto. Qed.

Lemma utf8_2_cont a b : cont b = false → utf8_2 a b = false.
Proof. intros E. unfold utf8_2. by rewrite E, andb_false_r. Qed.
Lemma utf8_3_cont a b c : cont b && cont c = false → utf8_3 a b c = false.
Proof.
  intros E. destruct (utf8_3 a b c) eqn:H; [|done]. rewrite <- E. symmetry.
  unfold utf8_3, cont, within in *. rewrite !andb_true_iff, !orb_true_iff, !andb_true_iff, !N.leb_le, !N.eqb_eq in *. lia.
Qed.
Lemma utf8_4_cont a b c d : cont b && cont c && cont d = false → utf8_4 a b c d = false.
Proof.
  intros E. destruct (utf8_4 a b c d) eqn:H; [|done]. rewrite <- E. symmetry.
  unfold utf8_4, cont, within in *. rewrite !andb_true_iff, !orb_true_iff, !andb_true_iff, !N.leb_le, !N.eqb_eq in *. lia.
Qed.

(** Whether a byte is broken depends on the continuation bytes after it. *)
Lemma broken_cont a b s : cont b = false → broken a (String b s) = true.
Proof.
  intros E. unfold broken. rewrite utf8_2_cont by done. destruct s as [|c [|d s]]; [done|..];
    by rewrite utf8_3_cont, ?utf8_4_cont by by rewrite E.
Qed.
Lemma broken_cont2 a b c s : cont c = false → broken a (String b (String c s)) = negb (utf8_2 a b).
Proof.
  intros E. unfold broken. rewrite utf8_3_cont by by rewrite E, andb_false_r.
  destruct s as [|d s]; [|rewrite utf8_4_cont by by rewrite E, andb_false_r]; by rewrite !andb_true_r.
Qed.
Lemma broken_app a t rest : has_byte "034" t = true → broken a (t +:+ rest) = broken a t.
Proof.
  destruct t as [|b [|c [|d t]]]; [done|..]; cbn [has_byte]; rewrite !string_app_cons.
  - rewrite orb_false_r, bool_decide_eq_true. intros ->. by rewrite !broken_cont.
  - destruct (cont b) eqn:Eb; [|by rewrite !broken_cont]. destruct (cont c) eqn:Ec; [|by rewrite !broken_cont2].
    rewrite !orb_true_iff, !bool_decide_eq_true. by intros [->|[->|]].
  - done.
Qed.

Lemma low_next_app t rest : has_byte "034" t = true → low_next (t +:+ rest) = low_next t.
Proof.
  destruct t as [|b [|u [|g1 [|g2 [|g3 [|g4 t]]]]]]; [done|..]; cbn [has_byte]; rewrite !string_app_cons; [..|done];
    rewrite ?orb_false_r, ?orb_true_iff, ?bool_decide_eq_true; intros Hq;
    destruct rest as [|r1 [|r2 [|r3 [|r4 [|r5 rest]]]]]; try done; cbn; unfold hex4;
    repeat (destruct Hq as [->|Hq]); try subst; cbn;
    repeat (rewrite ?andb_false_r; done || case_match; try done).
Qed.

(** Evaluate the left-hand side up to the first test that is not decided. *)
Ltac head_lhs := match goal with |- ?l = _ => let l' := eval hnf in l in change l with l' end.

(** One step of [unquote] per form of character. *)
Lemma unquote_esc e c s :
  simple_escape e = Some c → unquote (String bslash (String e s)) = add_head (String c) (unquote s).
Proof.
  intros H. head_lhs.
  unfold simple_escape in H. destruct ((byte e =? 34) || (byte e =? 92) || (byte e =? 47))%N; [by simplify_eq|].
  repeat (case_match; [simplify_eq; done|]). done.
Qed.
Lemma unquote_u h1 h2 h3 h4 r s :
  hex4 h1 h2 h3 h4 = Some r → (is_high r = true → low_next s = false) →
  unquote (String bslash (String "u" (String h1 (String h2 (String h3 (String h4 s))))))
    = add_head (put_rune r) (unquote s).
Proof.
  intros Hr Hl. head_lhs. rewrite Hr.
  destruct (is_high r) eqn:Eh; [|done]. specialize (Hl eq_refl).
  destruct s as [|b [|u [|g1 [|g2 [|g3 [|g4 s4]]]]]]; try done. cbn [low_next] in Hl.
  destruct ((byte b =? 92) && (byte u =? 117))%N; [|done]. cbn [andb] in Hl.
  destruct (hex4 g1 g2 g3 g4); [|done]. by rewrite Hl.
Qed.
Lemma unquote_pair h1 h2 h3 h4 r g1 g2 g3 g4 lo s :
  hex4 h1 h2 h3 h4 = Some r → is_high r = true → hex4 g1 g2 g3 g4 = Some lo → is_low lo = true →
  unquote (String bslash (String "u" (String h1 (String h2 (String h3 (String h4
    (String bslash (String "u" (String g1 (String g2 (String g3 (String g4 s))))))))))))
    = add_head (put_rune (pair_rune r lo)) (unquote s).
Proof.
  intros Hr Hh Hg Hl. head_lhs. rewrite Hr, Hh. head_lhs. by rewrite Hg, Hl.
Qed.
Lemma unquote_char a s : plain_char a = true → unquote (String a s) = add_head (String a) (unquote s).
Proof.
  unfold plain_char. rewrite !andb_true_iff, !negb_true_iff, N.leb_le. intros [[[? E1] E2] E3].
  cbn [unquote]. by rewrite E2, E3, E1, (proj2 (N.ltb_ge _ _)) by done.
Qed.
Lemma unquote_2 a b s :
  utf8_2 a b = true → unquote (String a (String b s)) = add_head (λ t, String a (String b t)) (unquote s).
Proof.
  intros H. pose proof (utf8_2_lead _ _ H). destruct (high_byte_tests a) as (E1&E2&E3&E4); [lia|].
  cbn [unquote]. by rewrite E1, E2, E3, E4, H.
Qed.
Lemma unquote_3 a b c s :
  utf8_3 a b c = true →
  unquote (String a (String b (String c s))) = add_head (λ t, String a (String b (String c t))) (unquote s).
Proof.
  intros H. pose proof (utf8_3_lead _ _ _ H). destruct (high_byte_tests a) as (E1&E2&E3&E4); [lia|].
  cbn [unquote]. by rewrite E1, E2, E3, E4, utf8_2_not, H by lia.
Qed.
Lemma unquote_4 a b c d s :
  utf8_4 a b c d = true →
  unquote (String a (String b (String c (String d s))))
    = add_head (λ t, String a (String b (String c (String d t)))) (unquote s).
Proof.
  intros H. pose proof (utf8_4_lead _ _ _ _ H). destruct (high_byte_tests a) as (E1&E2&E3&E4); [lia|].
  cbn [unquote]. by rewrite E1, E2, E3, E4, utf8_2_not, utf8_3_not, H by lia.
Qed.
Lemma unquote_bad a s :
  (128 <=? byte a)%N = true → broken a s = true → unquote (String a s) = add_head replacement (unquote s).
Proof.
  intros Ha%N.leb_le Hb. destruct (high_byte_tests a Ha) as (E1&E2&E3&E4).
  cbn [unquote]. rewrite E1, E2, E3, E4. destruct s as [|b [|c [|d s]]]; [done|..]; cbn [broken] in Hb;
    rewrite ?andb_true_iff, ?negb_true_iff in Hb; destruct_and?;
    repeat match goal with H : utf8_2 _ _ = _ |- _ => rewrite H; clear H
             | H : utf8_3 _ _ _ = _ |- _ => rewrite H; clear H
             | H : utf8_4 _ _ _ _ = _ |- _ => rewrite H; clear H end; done.
Qed.

(** A literal is read whatever follows it. *)
Lemma lit_unquote t x rest : lit t x → unquote (t +:+ rest) = Some (x, rest).
Proof.
  induction 1 as [|e c t x He Hl IH|h1 h2 h3 h4 r t x Hr Hlow Hl IH|h1 h2 h3 h4 r g1 g2 g3 g4 lo t x Hr Hh Hg Hlo Hl IH
    |a t x Ha Hl IH|a b t x Hu Hl IH|a b c t x Hu Hl IH|a b c d t x Hu Hl IH|a t x Ha Hb Hl IH];
    [done|rewrite !string_app_cons..].
  - by rewrite (unquote_esc e c), IH.
  - rewrite (unquote_u _ _ _ _ r), IH; [done|done|].
    intros Hh. rewrite low_next_app by by eapply lit_quote. auto.
  - by erewrite unquote_pair, IH.
  - by rewrite unquote_char, IH.
  - by rewrite unquote_2, IH.
  - by rewrite unquote_3, IH.
  - by rewrite unquote_4, IH.
  - rewrite unquote_bad, IH; [done|done|]. by rewrite broken_app by by eapply lit_quote.
Qed.

Lemma add_head_Some f o x r : add_head f o = Some (x, r) → ∃ y, o = Some (y, r) ∧ x = f y.
Proof. destruct o as [[]|]; [|done]. intros [= <- <-]. eauto. Qed.

Lemma bslash_is a : (byte a =? 92)%N = true → a = bslash.
Proof. by apply byte_is. Qed.

Lemma u_is a : (byte a =? 117)%N = true → a = "u"%char.
Proof. by apply byte_is. Qed.

(** And every successful reading is of a literal. *)
Lemma unquote_u_inv h1 h2 h3 h4 r s3 x rest :
  hex4 h1 h2 h3 h4 = Some r →
  unquote (String bslash (String "u" (String h1 (String h2 (String h3 (String h4 s3)))))) = Some (x, rest) →
  ((is_high r = true → low_next s3 = false) ∧ ∃ y, unquote s3 = Some (y, rest) ∧ x = put_rune r y)
  ∨ (∃ g1 g2 g3 g4 lo s4 y, s3 = String bslash (String "u" (String g1 (String g2 (String g3 (String g4 s4))))) ∧
       is_high r = true ∧ hex4 g1 g2 g3 g4 = Some lo ∧ is_low lo = true ∧
       unquote s4 = Some (y, rest) ∧ x = put_rune (pair_rune r lo) y).
Proof.
  intros Hr H. destruct (is_high r) eqn:Hh; [destruct (low_next s3) eqn:Hl|].
  - right. destruct s3 as [|b [|u [|g1 [|g2 [|g3 [|g4 s4]]]]]]; try done. cbn [low_next] in Hl.
    apply andb_true_iff in Hl as [[->%bslash_is ->%u_is]%andb_true_iff Hg].
    destruct (hex4 g1 g2 g3 g4) as [lo|] eqn:Hlo; [|done].
    rewrite (unquote_pair _ _ _ _ r _ _ _ _ lo) in H by done.
    apply add_head_Some in H as (y & ? & ->).
    by exists g1, g2, g3, g4, lo, s4, y.
  - left. split; [done|]. rewrite (unquote_u _ _ _ _ r) in H by done. by apply add_head_Some in H.
  - left. split; [done|]. rewrite (unquote_u _ _ _ _ r) in H by (done || by rewrite Hh). by apply add_head_Some in H.
Qed.

Lemma unquote_bslash_inv s1 x r :
  unquote (String bslash s1) = Some (x, r) →
  ∃ e s2, s1 = String e s2 ∧
    ((∃ c y, simple_escape e = Some c ∧ unquote s2 = Some (y, r) ∧ x = String c y)
     ∨ (e = "u"%char ∧ ∃ h1 h2 h3 h4 q s3,
          s2 = String h1 (String h2 (String h3 (String h4 s3))) ∧ hex4 h1 h2 h3 h4 = Some q)).
Proof.
  intros H. destruct s1 as [|e s2]; [done|]. exists e, s2. split; [done|].
  destruct (simple_escape e) as [c|] eqn:He.
  { left. rewrite (unquote_esc e c) in H by done. apply add_head_Some in H as (y & ? & ->). eauto. }
  right. destruct (byte e =? 117)%N eqn:Eu.
  - apply u_is in Eu as ->. split; [done|].
    destruct s2 as [|h1 [|h2 [|h3 [|h4 s3]]]]; try done.
    destruct (hex4 h1 h2 h3 h4) as [q|] eqn:Hq; [eauto 10|]. exfalso.
    assert (E : unquote (String bslash (String "u" (String h1 (String h2 (String h3 (String h4 s3)))))) = None)
      by (head_lhs; by rewrite Hq). congruence.
  - exfalso. revert H. unfold simple_escape in He. cbv zeta in He.
    cbn [unquote]. change (byte bslash) with 92%N.
    cbn [N.eqb N.ltb N.compare Pos.eqb Pos.compare Pos.compare_cont]. cbv zeta.
    repeat (match goal with |- context [if ?b then _ else _] => destruct b eqn:?; [done|] end). done.
Qed.

Lemma unquote_lit s x r : unquote s = Some (x, r) → ∃ t, s = t +:+ r ∧ lit t x.
Proof.
  revert x r. induction s as [s IH] using (induction_ltof1 _ String.length). unfold ltof in IH. intros x r H.
  destruct s as [|a s1]; [done|]. destruct (byte a =? 34)%N eqn:E1.
  { apply byte_is in E1 as ->; [|done]. assert (x = "" ∧ r = s1) as [-> ->].
    { change (Some ("", s1) = Some (x, r)) in H. by simplify_eq. }
    exists dquote. split; [done|constructor]. }
  destruct (byte a =? 92)%N eqn:E3.
  { apply bslash_is in E3 as ->.
    destruct (unquote_bslash_inv _ _ _ H) as (e & s2 & -> & [(c & y & He & Hy & ->)|(-> & h1 & h2 & h3 & h4 & q & s3 & -> & Hq)]).
    - apply IH in Hy as (t & -> & Ht); [|simpl; lia]. exists (String bslash (String e t)). split; [done|by constructor].
    - destruct (unquote_u_inv _ _ _ _ _ _ _ _ Hq H) as
        [(Hl & y & Hy & ->)|(g1 & g2 & g3 & g4 & lo & s4 & y & -> & Hh & Hg & Hlo & Hy & ->)].
      + apply IH in Hy as (t & -> & Ht); [|simpl; lia].
        eexists (String bslash (String "u" (String h1 (String h2 (String h3 (String h4 t)))))).
        split; [done|]. constructor; [done| |done]. intros Hh.
        erewrite <- low_next_app by by eapply lit_quote. by apply Hl.
      + apply IH in Hy as (t & -> & Ht); [|simpl; lia].
        eexists (String bslash (String "u" (String h1 (String h2 (String h3 (String h4
          (String bslash (String "u" (String g1 (String g2 (String g3 (String g4 t)))))))))))).
        split; [done|]. by econstructor. }
  destruct (byte a <? 32)%N eqn:E2. { exfalso. revert H. cbn [unquote]. by rewrite E1, E2. }
  destruct (byte a <? 128)%N eqn:E4.
  { assert (Hp : plain_char a = true).
    { unfold plain_char. rewrite E1, E3, E4. apply N.ltb_ge in E2. by rewrite (proj2 (N.leb_le _ _)). }
    rewrite unquote_char in H by done. apply add_head_Some in H as (y & Hy & ->).
    apply IH in Hy as (t & -> & Ht); [|simpl; lia]. exists (String a t). split; [done|by constructor]. }
  assert (Ha : (128 <=? byte a)%N = true) by (apply N.leb_le; by apply N.ltb_ge).
  destruct (broken a s1) eqn:Eb.
  { rewrite unquote_bad in H by done. apply add_head_Some in H as (y & Hy & ->).
    apply IH in Hy as (t & -> & Ht); [|simpl; lia]. exists (String a t). split; [done|].
    constructor; [done| |done]. by erewrite <- broken_app by by eapply lit_quote. }
  destruct s1 as [|b s2]; [done|]. cbn [broken] in Eb. destruct (utf8_2 a b) eqn:U2.
  { rewrite unquote_2 in H by done. apply add_head_Some in H as (y & Hy & ->).
    apply IH in Hy as (t & -> & Ht); [|simpl; lia]. exists (String a (String b t)). split; [done|by constructor]. }
  destruct s2 as [|c s3]; [done|]. destruct (utf8_3 a b c) eqn:U3.
  { rewrite unquote_3 in H by done. apply add_head_Some in H as (y & Hy & ->).
    apply IH in Hy as (t & -> & Ht); [|simpl; lia]. exists (String a (String b (String c t))). split; [done|by constructor]. }
  destruct s3 as [|d s4]; [done|]. destruct (utf8_4 a b c d) eqn:U4; [|done].
  rewrite unquote_4 in H by done. apply add_head_Some in H as (y & Hy & ->).
  apply IH in Hy as (t & -> & Ht); [|simpl; lia]. exists (String a (String b (String c (String d t)))).
  split; [done|by constructor].
Qed.

(** ** Compacting a literal *)
Definition ct := compact_text true.

Lemma compact_bslash e s : ct (String bslash (String e s)) = String bslash (String e (ct s)).
Proof. done. Qed.

Definition html_char (a : ascii) : bool := ((byte a =? 38) || (byte a =? 60) || (byte a =? 62))%N.

Lemma compact_plain_char a s :
  (byte a <? 128)%N = true → (byte a =? 34)%N = false → (byte a =? 92)%N = false →
  ct (String a s) = (if html_char a then u00 a else String a "") +:+ ct s.
Proof.
  intros Ha%N.ltb_lt E1 E2. unfold ct. cbn [compact_text]. rewrite E1, E2.
  destruct s as [|b [|c s]]; try done. rewrite line_sep_not by lia. done.
Qed.

(** How the first byte of a text is compacted. *)
Lemma compact_head a s :
  (html_char a = true ∧ ct (String a s) = u00 a +:+ ct s)
  ∨ (∃ b c r, s = String b (String c r) ∧ line_sep a b c = true ∧
       ct (String a s) = "\u202" +:+ String (hex_char (byte c mod 16)) (ct r))
  ∨ (html_char a = false ∧ ∃ r, ct (String a s) = String a r ∧
       ((byte a =? 34)%N = false → (byte a =? 92)%N = false → r = ct s)).
Proof.
  unfold ct. cbn [compact_text]. destruct (byte a =? 34)%N eqn:E1.
  { do 2 right. assert (html_char a = false) as -> by (unfold html_char; by apply byte_is in E1 as ->).
    split; [done|]. by eexists. }
  destruct (byte a =? 92)%N eqn:E2.
  { do 2 right. assert (html_char a = false) as -> by (unfold html_char; by apply byte_is in E2 as ->).
    split; [done|]. destruct s as [|e s]; by eexists. }
  assert (Hhtml : html_escape a = if html_char a then u00 a else String a "") by done.
  assert (Hplain : (html_char a = true ∧ html_escape a +:+ compact_text true s = u00 a +:+ compact_text true s) ∨
     (html_char a = false ∧ ∃ r, html_escape a +:+ compact_text true s = String a r ∧
       (false = false → false = false → r = compact_text true s))).
  { rewrite Hhtml. destruct (html_char a); [by left|right]. split; [done|]. eauto. }
  destruct s as [|b [|c r]]; [destruct Hplain; auto..|].
  destruct (line_sep a b c) eqn:El; [right; left; eauto 6|destruct Hplain; auto].
Qed.

Lemma compact_hex g v s : hex_val g = Some v → ct (String g s) = String g (ct s).
Proof.
  intros Hg. rewrite compact_plain_char.
  - assert (html_char g = false) as -> by (by destruct g as [[] [] [] [] [] [] [] []]). done.
  - by destruct g as [[] [] [] [] [] [] [] []].
  - by destruct g as [[] [] [] [] [] [] [] []].
  - by destruct g as [[] [] [] [] [] [] [] []].
Qed.
Definition head_hex (s : string) : option N := match s with String g _ => hex_val g | "" => None end.
Lemma compact_nohex s : head_hex s = None → head_hex (ct s) = None.
Proof.
  destruct s as [|g s]; [done|]. cbn [head_hex]. intros Hg.
  destruct (compact_head g s) as [[_ ->]|[(b & c & r & -> & _ & ->)|(_ & r & -> & _)]]; done.
Qed.
Definition hex4_at (s : string) : option N :=
  match s with String a (String b (String c (String d _))) => hex4 a b c d | _ => None end.
Lemma hex4_nohex s : head_hex s = None → hex4_at s = None.
Proof. destruct s as [|a [|b [|c [|d s]]]]; try done. cbn. unfold hex4. by intros ->. Qed.
Lemma hex4_nohex2 a s : head_hex s = None → hex4_at (String a s) = None.
Proof. destruct s as [|b [|c [|d s]]]; try done. cbn. unfold hex4. intros ->. by destruct (hex_val a). Qed.
Lemma hex4_nohex3 a b s : head_hex s = None → hex4_at (String a (String b s)) = None.
Proof. destruct s as [|c [|d s]]; try done. cbn. unfold hex4. intros ->. by destruct (hex_val a), (hex_val b). Qed.
Lemma hex4_nohex4 a b c s : head_hex s = None → hex4_at (String a (String b (String c s))) = None.
Proof. destruct s as [|d s]; try done. cbn. unfold hex4. intros ->. by destruct (hex_val a), (hex_val b), (hex_val c). Qed.

Lemma compact_hex4 s : hex4_at (ct s) = hex4_at s.
Proof.
  destruct (head_hex s) eqn:H1; [|by rewrite !hex4_nohex by auto using compact_nohex].
  destruct s as [|a s]; [done|]. cbn in H1. rewrite (compact_hex _ _ _ H1).
  destruct (head_hex s) eqn:H2; [|by rewrite !hex4_nohex2 by auto using compact_nohex].
  destruct s as [|b s]; [done|]. cbn in H2. rewrite (compact_hex _ _ _ H2).
  destruct (head_hex s) eqn:H3; [|by rewrite !hex4_nohex3 by auto using compact_nohex].
  destruct s as [|c s]; [done|]. cbn in H3. rewrite (compact_hex _ _ _ H3).
  destruct (head_hex s) eqn:H4; [|by rewrite !hex4_nohex4 by auto using compact_nohex].
  destruct s as [|d s]; [done|]. cbn in H4. by rewrite (compact_hex _ _ _ H4).
Qed.

Lemma low_next_hex4 s :
  low_next s = match s with
               | String b (String u s2) =>
                   ((byte b =? 92) && (byte u =? 117))%N && match hex4_at s2 with Some lo => is_low lo | None => false end
               | _ => false
               end.
Proof. destruct s as [|b [|u [|g1 [|g2 [|g3 [|g4 s]]]]]]; try done; cbn; by rewrite andb_false_r. Qed.

Lemma compact_low_next s : low_next (ct s) = low_next s.
Proof.
  rewrite (low_next_hex4 s). destruct s as [|b s]; [done|]. destruct (byte b =? 92)%N eqn:E.
  - apply bslash_is in E as ->. destruct s as [|u s]; [done|]. by rewrite compact_bslash, low_next_hex4, compact_hex4.
  - assert (match s with String u s2 => false | "" => false end = false) as Hf by by destruct s.
    transitivity false; [|by destruct s].
    destruct (compact_head b s) as [[Hh ->]|[(c & d & r & -> & Hl & ->)|(_ & r & -> & Hr)]].
    + unfold html_char in Hh. rewrite !orb_true_iff in Hh.
      destruct Hh as [[->%byte_is| ->%byte_is]| ->%byte_is]; done.
    + assert (byte d = 168 ∨ byte d = 169)%N as [-> | ->]; [|done..].
      unfold line_sep, within in Hl. rewrite !andb_true_iff, !N.leb_le in Hl. lia.
    + rewrite low_next_hex4. destruct r; [done|]. by rewrite E.
Qed.

Lemma cont_range b : cont b = true → (128 ≤ byte b ≤ 191)%N.
Proof. unfold cont, within. rewrite andb_true_iff, !N.leb_le. lia. Qed.
Lemma compact_cont b s : cont b = true → ct (String b s) = String b (ct s).
Proof. intros H%cont_range. apply compact_high; [lia|]. intros. apply line_sep_not. lia. Qed.
Definition head_cont (s : string) : bool := match s with String b _ => cont b | "" => false end.
Lemma compact_nocont s : head_cont s = false → head_cont (ct s) = false.
Proof.
  destruct s as [|g s]; [done|]. cbn [head_cont]. intros Hg.
  destruct (compact_head g s) as [[_ ->]|[(b & c & r & -> & _ & ->)|(_ & r & -> & _)]]; done.
Qed.
Lemma broken_nocont a s : head_cont s = false → broken a s = true.
Proof. destruct s; [done|]. apply broken_cont. Qed.
Lemma broken_nocont2 a b s : head_cont s = false → broken a (String b s) = negb (utf8_2 a b).
Proof. destruct s; [by cbn; rewrite andb_true_r|]. apply broken_cont2. Qed.
Lemma broken_nocont3 a b c s :
  head_cont s = false → broken a (String b (String c s)) = negb (utf8_2 a b) && negb (utf8_3 a b c).
Proof.
  destruct s as [|d s]; cbn [broken]; [by rewrite andb_true_r|]. intros E. cbn in E.
  by rewrite utf8_4_cont, andb_true_r by by rewrite E, andb_false_r.
Qed.
Lemma compact_broken a s : broken a (ct s) = broken a s.
Proof.
  destruct (head_cont s) eqn:H1; [|by rewrite !broken_nocont by auto using compact_nocont].
  destruct s as [|b s]; [done|]. cbn in H1. rewrite (compact_cont _ _ H1).
  destruct (head_cont s) eqn:H2; [|by rewrite !broken_nocont2 by auto using compact_nocont].
  destruct s as [|c s]; [done|]. cbn in H2. rewrite (compact_cont _ _ H2).
  destruct (head_cont s) eqn:H3; [|by rewrite !broken_nocont3 by auto using compact_nocont].
  destruct s as [|d s]; [done|]. cbn in H3. by rewrite (compact_cont _ _ H3).
Qed.

(** A literal followed by anything is compacted as the literal, then the rest,
    and the compacted literal denotes the same text. *)
Definition compacts (t x : string) : Prop :=
  (∀ rest, ct (t +:+ rest) = ct t +:+ compact_text false rest) ∧ lit (ct t) x.

Lemma hex4_vals a b c d r : hex4 a b c d = Some r →
  ∃ x y z t, hex_val a = Some x ∧ hex_val b = Some y ∧ hex_val c = Some z ∧ hex_val d = Some t.
Proof. unfold hex4. repeat (case_match; [|done]). eauto 9. Qed.

Lemma compact_u h1 h2 h3 h4 r s :
  hex4 h1 h2 h3 h4 = Some r →
  ct (String bslash (String "u" (String h1 (String h2 (String h3 (String h4 s))))))
    = String bslash (String "u" (String h1 (String h2 (String h3 (String h4 (ct s)))))).
Proof.
  intros (x & y & z & t & H1 & H2 & H3 & H4)%hex4_vals.
  by rewrite compact_bslash, (compact_hex h1 x), (compact_hex h2 y), (compact_hex h3 z), (compact_hex h4 t).
Qed.

Lemma lit_u00 a t x : html_char a = true → lit t x → lit (u00 a +:+ t) (String a x).
Proof.
  unfold html_char. rewrite !orb_true_iff. intros Hh Ht.
  assert (∃ n, a = ascii_of_N n ∧ (n = 38 ∨ n = 60 ∨ n = 62)%N) as (n & -> & Hn).
  { destruct Hh as [[E|E]|E]; (apply byte_is in E; [|done]); eauto. }
  destruct Hn as [->|[->| ->]].
  - by apply (lit_u "0" "0" "2" "6" 38%N).
  - by apply (lit_u "0" "0" "3" "c" 60%N).
  - by apply (lit_u "0" "0" "3" "e" 62%N).
Qed.
Lemma lit_line_sep a b c t x :
  line_sep a b c = true → lit t x →
  lit ("\u202" +:+ String (hex_char (byte c mod 16)) t) (String a (String b (String c x))).
Proof.
  unfold line_sep, within. rewrite !andb_true_iff, !N.leb_le. intros [[Ha Hb] Hc] Ht.
  apply byte_is in Ha as ->; [|done]. apply byte_is in Hb as ->; [|done].
  assert (byte c = 168 ∨ byte c = 169)%N as [E|E] by lia.
  - assert (c = ascii_of_N 168) as -> by (apply byte_is; [done|by rewrite E]).
    by apply (lit_u "2" "0" "2" "8" 8232%N).
  - assert (c = ascii_of_N 169) as -> by (apply byte_is; [done|by rewrite E]).
    by apply (lit_u "2" "0" "2" "9" 8233%N).
Qed.

Lemma compact_seq2 a b s : utf8_2 a b = true → ct (String a (String b s)) = String a (String b (ct s)).
Proof.
  intros Hu. pose proof (utf8_2_lead _ _ Hu). assert (Hb : cont b = true).
  { destruct (cont b) eqn:E; [done|]. by rewrite utf8_2_cont in Hu. }
  unfold ct. rewrite (compact_high a) by (lia || (intros; apply line_sep_not; lia)).
  fold ct. by rewrite (compact_cont b).
Qed.
Lemma compact_seq3 a b c s :
  utf8_3 a b c = true →
  ct (String a (String b (String c s))) =
    if line_sep a b c then "\u202" +:+ String (hex_char (byte c mod 16)) (ct s)
    else String a (String b (String c (ct s))).
Proof.
  intros Hu. pose proof (utf8_3_lead _ _ _ Hu). destruct (line_sep a b c) eqn:El.
  { destruct (high_byte_tests a) as (E1&_&E3&_); [lia|]. unfold ct. cbn [compact_text]. by rewrite E1, E3, El. }
  assert (cont b = true ∧ cont c = true) as [Hb Hc].
  { apply andb_true_iff. destruct (cont b && cont c) eqn:E; [done|]. by rewrite utf8_3_cont in Hu. }
  unfold ct. rewrite (compact_high a); [|lia|by intros ??? [= <- <- _]]. fold ct. by rewrite !compact_cont.
Qed.
Lemma compact_seq4 a b c d s :
  utf8_4 a b c d = true →
  ct (String a (String b (String c (String d s)))) = String a (String b (String c (String d (ct s)))).
Proof.
  intros Hu. pose proof (utf8_4_lead _ _ _ _ Hu).
  assert (cont b && cont c && cont d = true) as [[Hb Hc]%andb_true_iff Hd]%andb_true_iff.
  { destruct (cont b && cont c && cont d) eqn:E; [done|]. by rewrite utf8_4_cont in Hu. }
  unfold ct. rewrite (compact_high a) by (lia || (intros; apply line_sep_not; lia)).
  fold ct. by rewrite !compact_cont.
Qed.
Lemma line_sep_utf8 a b c : line_sep a b c = true → utf8_3 a b c = true.
Proof.
  unfold line_sep, utf8_3, cont, within.
  rewrite !andb_true_iff, !orb_true_iff, !andb_true_iff, !N.leb_le, !N.eqb_eq. lia.
Qed.
Lemma compact_bad a s :
  (128 <=? byte a)%N = true → broken a s = true → ct (String a s) = String a (ct s).
Proof.
  intros Ha%N.leb_le Hb. apply compact_high; [done|]. intros b c r ->. cbn [broken] in Hb.
  destruct (line_sep a b c) eqn:E; [|done]. rewrite (line_sep_utf8 _ _ _ E) in Hb.
  by rewrite andb_false_r in Hb.
Qed.

Lemma lit_compacts t x : lit t x → compacts t x.
Proof.
  induction 1 as [|e c t x He Hl [IH IHl]|h1 h2 h3 h4 r t x Hr Hlow Hl [IH IHl]
    |h1 h2 h3 h4 r g1 g2 g3 g4 lo t x Hr Hh Hg Hlo Hl [IH IHl]
    |a t x Ha Hl [IH IHl]|a b t x Hu Hl [IH IHl]|a b c t x Hu Hl [IH IHl]|a b c d t x Hu Hl [IH IHl]
    |a t x Ha Hb Hl [IH IHl]]; split; try intros rest; rewrite ?string_app_cons.
  - done.
  - constructor.
  - by rewrite !compact_bslash, IH.
  - rewrite compact_bslash. by constructor.
  - by rewrite !(compact_u _ _ _ _ _ _ Hr), IH.
  - rewrite (compact_u _ _ _ _ _ _ Hr). constructor; [done| |done]. by rewrite compact_low_next.
  - by rewrite !(compact_u _ _ _ _ _ _ Hr), !(compact_u _ _ _ _ _ _ Hg), IH.
  - rewrite !(compact_u _ _ _ _ _ _ Hr), !(compact_u _ _ _ _ _ _ Hg). by eapply lit_pair.
  - unfold plain_char in Ha. rewrite !andb_true_iff, !negb_true_iff in Ha. destruct Ha as [[[? ?] ?] ?].
    by rewrite !compact_plain_char, IH, string_app_assoc.
  - pose proof Ha as Hp. unfold plain_char in Ha. rewrite !andb_true_iff, !negb_true_iff in Ha. destruct Ha as [[[? ?] ?] ?].
    rewrite compact_plain_char by done. destruct (html_char a) eqn:Hh; [by apply lit_u00|by constructor].
  - by rewrite !compact_seq2, IH.
  - rewrite compact_seq2 by done. by constructor.
  - rewrite !compact_seq3, IH by done. by destruct (line_sep a b c).
  - rewrite compact_seq3 by done. destruct (line_sep a b c) eqn:E; [by apply lit_line_sep|by constructor].
  - by rewrite !compact_seq4, IH.
  - rewrite compact_seq4 by done. by constructor.
  - rewrite !compact_bad, IH by (done || by rewrite broken_app by by eapply lit_quote). done.
  - rewrite compact_bad by done. constructor; [done| |done]. by rewrite compact_broken.
Qed.
