(* ===== verification/JsonText.v ===== *)
(** * JSON texts and the values inside them

    What the parser accepts it accepts in any context and in compacted form,
    with the same meaning; printing arbitrary bytes; and the texts of the
    members of an object and of the elements of an array, which
    [json.Unmarshal] hands to the decoder of each field. *)
From Stdlib Require Import Ascii.
From S2P Require Import Prelude GoStd GoError Types Json Marshal JsonLit.

(** ** Values *)
Definition ws (w : string) : Prop := all_bytes is_ws w = true.
Definition cf := compact_text false.

Lemma skip_ws_app w s : ws w → skip_ws (w +:+ s) = skip_ws s.
Proof.
  unfold ws. induction w as [|c w IH]; [done|]. rewrite string_app_cons. cbn.
  intros [-> ?]%andb_true_iff. auto.
Qed.
Lemma skip_ws_split s : ∃ w, s = w +:+ skip_ws s ∧ ws w.
Proof.
  unfold ws. induction s as [|c s (w & E & Hw)]; [by exists ""|]. cbn. destruct (is_ws c) eqn:Hc.
  - exists (String c w). cbn. rewrite Hc. split; [by rewrite string_app_cons, <- E|done].
  - by exists "".
Qed.
Lemma cf_ws w s : ws w → cf (w +:+ s) = cf s.
Proof.
  unfold ws, cf. induction w as [|c w IH]; [done|]. rewrite string_app_cons. cbn.
  intros [-> ?]%andb_true_iff. auto.
Qed.

(** [reads t j]: the text [t] is read as [j] in every context. *)
Definition reads (t : string) (j : json) : Prop :=
  starts_value t ∧ jsize j ≤ String.length t ∧
  ∀ rest f, delim rest → jsize j ≤ f → value f (t +:+ rest) = Some (j, rest).

Definition sizes (l : list json) : nat := foldr (λ x k, jsize x + k) 0 l.

(** The inside of an array or of an object, with its closing bracket. *)
Definition reads_elements (t : string) (l : list json) : Prop :=
  (∀ rest, ∃ d r, skip_ws (t +:+ rest) = String d r ∧ (byte d =? 93)%N = false) ∧
  sizes l + 1 ≤ String.length t ∧
  ∀ rest f g, sizes l ≤ f → length l ≤ g → elements (value f) g (t +:+ rest) = Some (l, rest).
Definition reads_members (t : string) (l : list (string * json)) : Prop :=
  (∀ rest, ∃ d r, skip_ws (t +:+ rest) = String d r ∧ (byte d =? 125)%N = false) ∧
  sizes l.*2 + 1 ≤ String.length t ∧
  ∀ rest f g, sizes l.*2 ≤ f → length l ≤ g → members (value f) g (t +:+ rest) = Some (l, rest).

Lemma value_ws f w s : ws w → value f (w +:+ s) = value f s.
Proof. intros Hw. destruct f as [|f]; [done|]. cbn [value]. by rewrite skip_ws_app. Qed.

Lemma ws_bracket w c rest : ws w → is_ws c = false → skip_ws (w +:+ String c "" +:+ rest) = String c rest.
Proof. intros ? E. rewrite skip_ws_app, string_app_cons by done. cbn [skip_ws]. by rewrite E. Qed.

Lemma delim_ws w c rest : ws w → is_numchar c = false → delim (w +:+ String c "" +:+ rest).
Proof. destruct w as [|a w]; [done|]. unfold ws. cbn. intros [Ha _]%andb_true_iff _. by destruct a as [[] [] [] [] [] [] [] []]. Qed.

Lemma reads_elements_one w1 t w2 j :
  ws w1 → ws w2 → reads t j → reads_elements (w1 +:+ t +:+ w2 +:+ "]") [j].
Proof.
  intros H1 H2 (Hs & Hl & Hr). split_and!.
  - intros rest. rewrite <- !string_app_assoc, skip_ws_app, starts_value_skip by (done || by apply starts_value_app).
    destruct t as [|c t]; [done|]. rewrite string_app_cons. destruct Hs as (_ & ? & _). eauto.
  - rewrite !string_length_app. simpl. lia.
  - intros rest f [|g] Hf Hg; [simpl in Hg; lia|]. cbn [elements sizes foldr] in *.
    rewrite <- !string_app_assoc, value_ws by done.
    rewrite Hr by (lia || by apply delim_ws). cbv beta iota.
    by rewrite (ws_bracket w2 "]").
Qed.
Lemma reads_elements_cons w1 t w2 b j l :
  ws w1 → ws w2 → reads t j → reads_elements b l → reads_elements (w1 +:+ t +:+ w2 +:+ "," +:+ b) (j :: l).
Proof.
  intros H1 H2 (Hs & Hl & Hr) (_ & Hlb & Hrb). split_and!.
  - intros rest. rewrite <- !string_app_assoc, skip_ws_app, starts_value_skip by (done || by apply starts_value_app).
    destruct t as [|c t]; [done|]. rewrite string_app_cons. destruct Hs as (_ & ? & _). eauto.
  - rewrite !string_length_app. simpl in *. lia.
  - intros rest f [|g] Hf Hg; [simpl in Hg; lia|]. cbn [elements sizes foldr length] in *. fold (sizes l) in *.
    rewrite <- !string_app_assoc, value_ws by done.
    rewrite Hr by (lia || by apply delim_ws). cbv beta iota.
    rewrite (ws_bracket w2 ",") by done. change (byte "," =? 44)%N with true. cbv beta iota.
    by rewrite Hrb by lia.
Qed.

(** The text of a [key: value] pair. *)
Definition pair_text (w1 k w2 w3 t : string) : string := w1 +:+ dquote +:+ k +:+ w2 +:+ ":" +:+ w3 +:+ t.

Lemma member_reads f w1 k x w2 w3 t j rest :
  ws w1 → ws w2 → ws w3 → lit k x → reads t j → delim rest → jsize j ≤ f →
  member (value f) (pair_text w1 k w2 w3 t +:+ rest) = Some (x, j, rest).
Proof.
  intros H1 H2 H3 Hk (_ & _ & Hr) Hd Hf. unfold pair_text, dquote, member. rewrite <- !string_app_assoc.
  rewrite (ws_bracket w1) by done. change (byte "034" =? 34)%N with true. cbv beta iota.
  rewrite (lit_unquote k x) by done. cbv beta iota.
  rewrite (ws_bracket w2 ":") by done. change (byte ":" =? 58)%N with true. cbv beta iota.
  by rewrite value_ws, Hr.
Qed.
Lemma pair_text_start w1 k w2 w3 t rest :
  ws w1 → ∃ d r, skip_ws (pair_text w1 k w2 w3 t +:+ rest) = String d r ∧ (byte d =? 125)%N = false.
Proof.
  intros H1. unfold pair_text, dquote. rewrite <- !string_app_assoc, (ws_bracket w1) by done. eauto.
Qed.
Lemma pair_text_length w1 k w2 w3 t : String.length t + 1 ≤ String.length (pair_text w1 k w2 w3 t).
Proof. unfold pair_text. rewrite !string_length_app. simpl. lia. Qed.

Lemma reads_members_one w1 k x w2 w3 t w4 j :
  ws w1 → ws w2 → ws w3 → ws w4 → lit k x → reads t j →
  reads_members (pair_text w1 k w2 w3 t +:+ w4 +:+ "}") [(x, j)].
Proof.
  intros H1 H2 H3 H4 Hk Hr. pose proof (pair_text_length w1 k w2 w3 t). destruct (Hr) as (_ & Hl & _). split_and!.
  - intros rest. rewrite <- !string_app_assoc. by apply pair_text_start.
  - rewrite !string_length_app. simpl. lia.
  - intros rest f [|g] Hf Hg; [simpl in Hg; lia|]. cbn [members sizes foldr fmap list_fmap snd] in *.
    rewrite <- !string_app_assoc, (member_reads _ _ _ x _ _ _ j) by (done || lia || by apply delim_ws).
    cbv beta iota. by rewrite (ws_bracket w4 "}").
Qed.
Lemma reads_members_cons w1 k x w2 w3 t w4 b j l :
  ws w1 → ws w2 → ws w3 → ws w4 → lit k x → reads t j → reads_members b l →
  reads_members (pair_text w1 k w2 w3 t +:+ w4 +:+ "," +:+ b) ((x, j) :: l).
Proof.
  intros H1 H2 H3 H4 Hk Hr (_ & Hlb & Hrb). pose proof (pair_text_length w1 k w2 w3 t).
  destruct (Hr) as (_ & Hl & _). split_and!.
  - intros rest. rewrite <- !string_app_assoc. by apply pair_text_start.
  - rewrite !string_length_app. change (sizes ((x, j) :: l).*2) with (jsize j + sizes l.*2).
    change (String.length ",") with 1. lia.
  - intros rest f [|g] Hf Hg; [simpl in Hg; lia|].
    change (sizes ((x, j) :: l).*2) with (jsize j + sizes l.*2) in Hf. cbn [members length] in *.
    rewrite <- !string_app_assoc, (member_reads _ _ _ x _ _ _ j) by (done || lia || by apply delim_ws).
    cbv beta iota. rewrite (ws_bracket w4 ",") by done. change (byte "," =? 44)%N with true. cbv beta iota.
    by rewrite Hrb by lia.
Qed.

Lemma reads_arr b l : reads_elements b l → reads ("[" +:+ b) (JArr l).
Proof.
  intros (Hs & Hl & Hr). split_and!; [done|rewrite string_length_app; change (jsize (JArr l)) with (2 + sizes l); simpl; lia|].
  change (jsize (JArr l)) with (2 + sizes l). intros rest [|f] _ Hf; [lia|].
  rewrite <- string_app_assoc. cbn [value].
  change (skip_ws ("[" +:+ b +:+ rest)) with (String "[" (b +:+ rest)). cbv beta iota.
  change (byte "[") with 91%N. cbn [N.eqb Pos.eqb].
  destruct (Hs rest) as (d & r & -> & ->). pose proof (jsize_length l).
  by rewrite Hr by (unfold sizes in *; lia).
Qed.
Lemma reads_arr_nil w : ws w → reads ("[" +:+ w +:+ "]") (JArr []).
Proof.
  intros Hw. split_and!; [done|rewrite !string_length_app; simpl; lia|].
  intros rest [|f] _ Hf; [simpl in Hf; lia|]. rewrite <- !string_app_assoc. cbn [value].
  change (skip_ws ("[" +:+ ?x)) with (String "[" x). cbv beta iota.
  change (byte "[") with 91%N. cbn [N.eqb Pos.eqb]. by rewrite (ws_bracket w "]").
Qed.
Lemma reads_obj b l : reads_members b l → reads ("{" +:+ b) (JObj l).
Proof.
  intros (Hs & Hl & Hr). assert (Hz : jsize (JObj l) = 2 + sizes l.*2).
  { cbn [jsize]. f_equal. apply foldr_obj_arr. }
  split_and!; [done|rewrite Hz, string_length_app; simpl; lia|].
  intros rest [|f] _ Hf; [simpl in Hf; lia|]. rewrite Hz in Hf.
  rewrite <- string_app_assoc. cbn [value].
  change (skip_ws ("{" +:+ b +:+ rest)) with (String "{" (b +:+ rest)). cbv beta iota.
  change (byte "{") with 123%N. cbn [N.eqb Pos.eqb].
  destruct (Hs rest) as (d & r & -> & ->). pose proof (jsize_length l.*2) as Hj. rewrite length_fmap in Hj.
  by rewrite Hr by (unfold sizes in *; lia).
Qed.
Lemma reads_obj_nil w : ws w → reads ("{" +:+ w +:+ "}") (JObj []).
Proof.
  intros Hw. split_and!; [done|rewrite !string_length_app; simpl; lia|].
  intros rest [|f] _ Hf; [simpl in Hf; lia|]. rewrite <- !string_app_assoc. cbn [value].
  change (skip_ws ("{" +:+ ?x)) with (String "{" x). cbv beta iota.
  change (byte "{") with 123%N. cbn [N.eqb Pos.eqb]. by rewrite (ws_bracket w "}").
Qed.
Lemma reads_str k x : lit k x → reads (dquote +:+ k) (JStr x).
Proof.
  intros Hk. split_and!; [done|simpl; lia|]. intros rest [|f] _ Hf; [simpl in Hf; lia|].
  rewrite <- string_app_assoc.
  change (value (S f) (dquote +:+ ?s)) with
    (match unquote s with Some (t, r') => Some (JStr t, r') | None => None end).
  by rewrite (lit_unquote k x).
Qed.
Lemma reads_num lit : num_ok lit → reads lit (JNum lit).
Proof.
  intros H. split_and!.
  - by apply (encode_starts (JNum lit)).
  - apply (encode_length (JNum lit) H).
  - intros rest [|f] Hd Hf; [simpl in Hf; lia|]. by apply value_num.
Qed.
Lemma reads_encode j : jwf j → reads (encode j) j.
Proof.
  intros Hj. split_and!; [by apply encode_starts|by apply encode_length|].
  intros rest f Hd Hf. by apply value_ok.
Qed.

(** ** What the parser accepts, it accepts compacted, with the same meaning *)
Definition splits (t : string) : Prop := ∀ rest, cf (t +:+ rest) = cf t +:+ cf rest.
Definition good (t : string) (j : json) : Prop := reads t j ∧ reads (cf t) j ∧ splits t.
Definition good_elements t l : Prop := reads_elements t l ∧ reads_elements (cf t) l ∧ splits t.
Definition good_members t l : Prop := reads_members t l ∧ reads_members (cf t) l ∧ splits t.

Lemma splits_ws w t : ws w → splits t → splits (w +:+ t).
Proof. intros Hw Ht rest. rewrite <- string_app_assoc, !(cf_ws w) by done. apply Ht. Qed.
Lemma splits_app a b : splits a → splits b → splits (a +:+ b).
Proof. intros Ha Hb rest. by rewrite <- string_app_assoc, Ha, Hb, (Ha b), string_app_assoc. Qed.
Lemma splits_char c : is_ws c = false → (byte c =? 34)%N = false → splits (String c "").
Proof. intros E1 E2 rest. rewrite string_app_cons. unfold cf. cbn. by rewrite E1, E2. Qed.
Lemma cf_quote k x rest : lit k x → cf (dquote +:+ k +:+ rest) = dquote +:+ ct k +:+ cf rest.
Proof. intros Hk. change (dquote +:+ ct (k +:+ rest) = dquote +:+ ct k +:+ cf rest). by rewrite (proj1 (lit_compacts _ _ Hk)). Qed.
Lemma splits_quote k x : lit k x → splits (dquote +:+ k).
Proof.
  intros Hk rest. rewrite <- string_app_assoc, (cf_quote k x) by done.
  pose proof (cf_quote k x "" Hk) as E. rewrite string_app_nil_r in E. rewrite E. by rewrite <- !string_app_assoc.
Qed.
Lemma cf_quote_nil k x : lit k x → cf (dquote +:+ k) = dquote +:+ ct k.
Proof. intros Hk. pose proof (cf_quote k x "" Hk) as E. rewrite !string_app_nil_r in E. exact E. Qed.
Lemma lit_ct k x : lit k x → lit (ct k) x.
Proof. intros Hk. apply (lit_compacts _ _ Hk). Qed.

Create HintDb splits discriminated.
#[export] Hint Resolve splits_ws splits_app splits_char splits_quote lit_ct : splits.
#[export] Hint Extern 1 (splits (String _ "")) => (apply splits_char; reflexivity) : splits.
#[export] Hint Extern 0 (ws "") => reflexivity : splits.

Lemma good_elements_one w1 t w2 j :
  ws w1 → ws w2 → good t j → good_elements (w1 +:+ t +:+ w2 +:+ "]") [j].
Proof.
  intros H1 H2 (Hr & Hc & Hs). split_and!; [by apply reads_elements_one| |by auto with splits].
  rewrite cf_ws, Hs, cf_ws by done. by apply (reads_elements_one "" (cf t) "" j).
Qed.
Lemma good_elements_cons w1 t w2 b j l :
  ws w1 → ws w2 → good t j → good_elements b l → good_elements (w1 +:+ t +:+ w2 +:+ "," +:+ b) (j :: l).
Proof.
  intros H1 H2 (Hr & Hc & Hs) (Hrb & Hcb & Hsb). split_and!; [by apply reads_elements_cons| |by auto 6 with splits].
  rewrite cf_ws, Hs, cf_ws by done. by apply (reads_elements_cons "" (cf t) "" (cf b) j l).
Qed.

Lemma cf_pair w1 k x w2 w3 t rest :
  ws w1 → ws w2 → ws w3 → lit k x → splits t →
  cf (pair_text w1 k w2 w3 t +:+ rest) = pair_text "" (ct k) "" "" (cf t) +:+ cf rest.
Proof.
  intros H1 H2 H3 Hk Ht. unfold pair_text. rewrite <- !string_app_assoc.
  rewrite cf_ws, (cf_quote k x), cf_ws by done.
  change (cf (":" +:+ ?s)) with (":" +:+ cf s). by rewrite cf_ws, Ht, !string_app_nil_l by done.
Qed.
Lemma splits_pair w1 k x w2 w3 t :
  ws w1 → ws w2 → ws w3 → lit k x → splits t → splits (pair_text w1 k w2 w3 t).
Proof.
  intros H1 H2 H3 Hk Ht rest. rewrite (cf_pair _ _ x) by done. f_equal.
  rewrite <- (string_app_nil_r (pair_text w1 k w2 w3 t)), (cf_pair _ _ x) by done. by rewrite string_app_nil_r.
Qed.

Lemma good_members_one w1 k x w2 w3 t w4 j :
  ws w1 → ws w2 → ws w3 → ws w4 → lit k x → good t j →
  good_members (pair_text w1 k w2 w3 t +:+ w4 +:+ "}") [(x, j)].
Proof.
  intros H1 H2 H3 H4 Hk (Hr & Hc & Hs). split_and!; [by apply reads_members_one| |].
  - rewrite (cf_pair _ _ x), cf_ws by done. by apply (reads_members_one "" (ct k) x "" "" (cf t) ""); auto with splits.
  - apply splits_app; [by eapply splits_pair|auto with splits].
Qed.
Lemma good_members_cons w1 k x w2 w3 t w4 b j l :
  ws w1 → ws w2 → ws w3 → ws w4 → lit k x → good t j → good_members b l →
  good_members (pair_text w1 k w2 w3 t +:+ w4 +:+ "," +:+ b) ((x, j) :: l).
Proof.
  intros H1 H2 H3 H4 Hk (Hr & Hc & Hs) (Hrb & Hcb & Hsb). split_and!; [by apply reads_members_cons| |].
  - rewrite (cf_pair _ _ x), cf_ws by done.
    by apply (reads_members_cons "" (ct k) x "" "" (cf t) "" (cf b)); auto with splits.
  - apply splits_app; [by eapply splits_pair|auto with splits].
Qed.

Lemma span_num_spec s a b : span_num s = (a, b) → s = a +:+ b ∧ span_num a = (a, "") ∧ delim b.
Proof.
  revert a b. induction s as [|c s IH]; intros a b; cbn [span_num]; [by intros [= <- <-]|].
  destruct (is_numchar c) eqn:E; [|by intros [= <- <-]].
  destruct (span_num s) as [a' b']. intros [= <- <-]. destruct (IH _ _ eq_refl) as (-> & E' & ?).
  split_and!; [done| |done]. cbn. by rewrite E, E'.
Qed.
Lemma cf_keeps t : keeps t → cf t = t ∧ splits t.
Proof.
  intros H. assert (E : cf t = t).
  { pose proof (H "") as E. rewrite !string_app_nil_r in E. exact E. }
  split; [done|]. intros rest. rewrite E. apply H.
Qed.
Lemma good_encode j : jwf j → good (encode j) j.
Proof.
  intros Hj. destruct (cf_keeps (encode j) (encode_keeps j Hj)) as [E Hs].
  split_and!; [by apply reads_encode|rewrite E; by apply reads_encode|done].
Qed.

Definition accepts (v : string → option (json * string)) : Prop :=
  ∀ s j r, v s = Some (j, r) → ∃ w t, s = w +:+ t +:+ r ∧ ws w ∧ good t j.

Lemma bracket_split r c r' d :
  skip_ws r = String c r' → (byte c =? N_of_ascii d)%N = true → ∃ w, r = w +:+ String d "" +:+ r' ∧ ws w.
Proof.
  intros E Hc. assert (c = d) as ->.
  { apply byte_is in Hc as ->; [by rewrite ascii_N_embedding|apply N_ascii_bounded]. }
  destruct (skip_ws_split r) as (w & Er & Hw). rewrite E in Er. by exists w.
Qed.

Lemma elements_good f g s l r :
  accepts (value f) → elements (value f) g s = Some (l, r) → ∃ t, s = t +:+ r ∧ good_elements t l.
Proof.
  intros Hv. revert s l r. induction g as [|g IH]; intros s l r; [done|]. cbn [elements].
  destruct (value f s) as [[j r1]|] eqn:E1; [|done]. apply Hv in E1 as (w1 & t & -> & Hw1 & Hg).
  destruct (skip_ws r1) as [|c r2] eqn:E2; [done|]. destruct (byte c =? 44)%N eqn:Ec.
  - destruct (bracket_split _ _ _ "," E2 Ec) as (w2 & -> & Hw2).
    destruct (elements (value f) g r2) as [[l' r3]|] eqn:E3; [|done]. intros [= <- <-].
    apply IH in E3 as (b & -> & Hb). exists (w1 +:+ t +:+ w2 +:+ "," +:+ b).
    split; [by rewrite <- !string_app_assoc|by apply good_elements_cons].
  - destruct (byte c =? 93)%N eqn:Ec'; [|done]. intros [= <- <-].
    destruct (bracket_split _ _ _ "]" E2 Ec') as (w2 & -> & Hw2). exists (w1 +:+ t +:+ w2 +:+ "]").
    split; [by rewrite <- !string_app_assoc|by apply good_elements_one].
Qed.

Lemma member_good f s k j r :
  accepts (value f) → member (value f) s = Some (k, j, r) →
  ∃ w1 kt w2 w3 t, s = pair_text w1 kt w2 w3 t +:+ r ∧ ws w1 ∧ ws w2 ∧ ws w3 ∧ lit kt k ∧ good t j.
Proof.
  intros Hv. unfold member. destruct (skip_ws s) as [|q s1] eqn:E1; [done|].
  destruct (byte q =? 34)%N eqn:Eq; [|done]. destruct (bracket_split _ _ _ "034" E1 Eq) as (w1 & -> & Hw1).
  destruct (unquote s1) as [[k' s2]|] eqn:E2; [|done]. apply unquote_lit in E2 as (kt & -> & Hk).
  destruct (skip_ws s2) as [|c s3] eqn:E3; [done|]. destruct (byte c =? 58)%N eqn:Ec; [|done].
  destruct (bracket_split _ _ _ ":" E3 Ec) as (w2 & -> & Hw2).
  destruct (value f s3) as [[j' r']|] eqn:E4; [|done]. intros [= <- <- <-].
  apply Hv in E4 as (w3 & t & -> & Hw3 & Hg). exists w1, kt, w2, w3, t. split_and!; [|done..].
  unfold pair_text, dquote. by rewrite <- !string_app_assoc.
Qed.

Lemma members_good f g s l r :
  accepts (value f) → members (value f) g s = Some (l, r) → ∃ t, s = t +:+ r ∧ good_members t l.
Proof.
  intros Hv. revert s l r. induction g as [|g IH]; intros s l r; [done|]. cbn [members].
  destruct (member (value f) s) as [[[k j] r1]|] eqn:E1; [|done].
  apply member_good in E1 as (w1 & kt & w2 & w3 & t & -> & H1 & H2 & H3 & Hk & Hg); [|done].
  destruct (skip_ws r1) as [|c r2] eqn:E2; [done|]. destruct (byte c =? 44)%N eqn:Ec.
  - destruct (bracket_split _ _ _ "," E2 Ec) as (w4 & -> & Hw4).
    destruct (members (value f) g r2) as [[l' r3]|] eqn:E3; [|done]. intros [= <- <-].
    apply IH in E3 as (b & -> & Hb). exists (pair_text w1 kt w2 w3 t +:+ w4 +:+ "," +:+ b).
    split; [by rewrite <- !string_app_assoc|by apply good_members_cons].
  - destruct (byte c =? 125)%N eqn:Ec'; [|done]. intros [= <- <-].
    destruct (bracket_split _ _ _ "}" E2 Ec') as (w4 & -> & Hw4). exists (pair_text w1 kt w2 w3 t +:+ w4 +:+ "}").
    split; [by rewrite <- !string_app_assoc|by apply good_members_one].
Qed.

Lemma good_bracket o b j :
  is_ws o = false → (byte o =? 34)%N = false →
  (∀ t, t = b ∨ t = cf b → reads (String o "" +:+ t) j) → splits b → good (String o "" +:+ b) j.
Proof.
  intros E1 E2 Hr Hs. assert (Ho := splits_char o E1 E2). split_and!; [by auto| |by auto with splits].
  rewrite Ho. replace (cf (String o "")) with (String o "") by (unfold cf; cbn; by rewrite E1). auto.
Qed.

Lemma value_accepts f : accepts (value f).
Proof.
  induction f as [|f IH]; intros s j r; [done|]. cbn [value].
  destruct (skip_ws_split s) as (w & Es & Hw). destruct (skip_ws s) as [|c s1] eqn:E1; [done|].
  rewrite Es. clear Es E1 s. intros H. exists w.
  assert (∃ t, String c s1 = t +:+ r ∧ good t j) as (t & -> & ?); [|by exists t].
  destruct (byte c =? 34)%N eqn:Eq.
  { apply byte_is in Eq as ->; [|done]. destruct (unquote s1) as [[x r']|] eqn:E2; [|done]. simplify_eq.
    apply unquote_lit in E2 as (k & -> & Hk). exists (dquote +:+ k). split; [done|].
    split_and!; [by apply reads_str| |by eauto with splits].
    rewrite (cf_quote_nil k x) by done. by apply reads_str, lit_ct. }
  destruct (byte c =? 123)%N eqn:Eo.
  { apply byte_is in Eo as ->; [|done]. destruct (skip_ws s1) as [|d r'] eqn:E2; [done|].
    destruct (byte d =? 125)%N eqn:Ed.
    - simplify_eq. destruct (bracket_split _ _ _ "}" E2 Ed) as (w' & -> & Hw').
      exists ("{" +:+ w' +:+ "}"). split; [by rewrite <- !string_app_assoc|].
      apply (good_bracket "{"); [done|done| |by auto with splits].
      intros t [-> | ->]; [by apply reads_obj_nil|]. rewrite cf_ws by done. by apply (reads_obj_nil "").
    - destruct (members (value f) f s1) as [[l r2]|] eqn:E3; [|done]. simplify_eq.
      apply members_good in E3 as (b & -> & Hr & Hc & Hs); [|done].
      exists ("{" +:+ b). split; [done|]. apply (good_bracket "{"); [done|done| |done].
      intros t [-> | ->]; by apply reads_obj. }
  destruct (byte c =? 91)%N eqn:Ea.
  { apply byte_is in Ea as ->; [|done]. destruct (skip_ws s1) as [|d r'] eqn:E2; [done|].
    destruct (byte d =? 93)%N eqn:Ed.
    - simplify_eq. destruct (bracket_split _ _ _ "]" E2 Ed) as (w' & -> & Hw').
      exists ("[" +:+ w' +:+ "]"). split; [by rewrite <- !string_app_assoc|].
      apply (good_bracket "["); [done|done| |by auto with splits].
      intros t [-> | ->]; [by apply reads_arr_nil|]. rewrite cf_ws by done. by apply (reads_arr_nil "").
    - destruct (elements (value f) f s1) as [[l r2]|] eqn:E3; [|done]. simplify_eq.
      apply elements_good in E3 as (b & -> & Hr & Hc & Hs); [|done].
      exists ("[" +:+ b). split; [done|]. apply (good_bracket "["); [done|done| |done].
      intros t [-> | ->]; by apply reads_arr. }
  destruct (cut_prefix "true" (String c s1)) as [t1|] eqn:Et.
  { apply cut_prefix_spec in Et as ->. simplify_eq. exists "true". split; [done|]. by apply (good_encode (JBool true)). }
  destruct (cut_prefix "false" (String c s1)) as [t2|] eqn:Ef.
  { apply cut_prefix_spec in Ef as ->. simplify_eq. exists "false". split; [done|]. by apply (good_encode (JBool false)). }
  destruct (cut_prefix "null" (String c s1)) as [t3|] eqn:En.
  { apply cut_prefix_spec in En as ->. simplify_eq. exists "null". split; [done|]. by apply (good_encode JNull). }
  destruct (span_num (String c s1)) as [lit t] eqn:Es. destruct (valid_num lit) eqn:Hv; [|done]. simplify_eq.
  apply span_num_spec in Es as (E & Hs & _). exists lit. split; [done|]. by apply (good_encode (JNum lit)).
Qed.

(** [json.Unmarshal] of a text and of its compacted form agree. *)
Lemma decode_good s j : decode s = Some j → ∃ w t w', s = w +:+ t +:+ w' ∧ ws w ∧ ws w' ∧ good t j.
Proof.
  unfold decode. destruct (value _ s) as [[j' r]|] eqn:E; [|done]. case_decide as Hr; [|done]. intros [= <-].
  apply value_accepts in E as (w & t & -> & Hw & Hg). exists w, t, r. split_and!; [done|done| |done].
  destruct (skip_ws_split r) as (w' & Er & Hw'). rewrite Hr, string_app_nil_r in Er. by subst.
Qed.
Lemma ws_delim w : ws w → delim w.
Proof. destruct w as [|a w]; [done|]. unfold ws. cbn. intros [Ha _]%andb_true_iff. by destruct a as [[] [] [] [] [] [] [] []]. Qed.
Lemma skip_ws_all w : ws w → skip_ws w = "".
Proof. intros Hw. pose proof (skip_ws_app w "" Hw) as E. by rewrite string_app_nil_r in E. Qed.
Lemma decode_reads w t w' j : ws w → ws w' → reads t j → decode (w +:+ t +:+ w') = Some j.
Proof.
  intros Hw Hw' (_ & Hl & Hr). unfold decode. rewrite value_ws by done.
  rewrite Hr; [|by apply ws_delim|rewrite !string_length_app; lia]. by rewrite decide_True by by apply skip_ws_all.
Qed.
Lemma decode_reads_exact t j : reads t j → decode t = Some j.
Proof. intros H. rewrite <- (string_app_nil_r t). by apply (decode_reads "" t ""). Qed.
Lemma decode_compact s j : decode s = Some j → decode (cf s) = Some j.
Proof.
  intros (w & t & w' & -> & Hw & Hw' & _ & Hc & Hs)%decode_good.
  rewrite cf_ws, Hs by done. rewrite <- (string_app_nil_r w'), cf_ws by done.
  change (cf "") with "". rewrite string_app_nil_r. by apply decode_reads_exact.
Qed.
Lemma cf_reads s j : decode s = Some j → reads (cf s) j.
Proof.
  intros (w & t & w' & -> & Hw & Hw' & _ & Hc & Hs)%decode_good.
  rewrite cf_ws, Hs by done. rewrite <- (string_app_nil_r w'), cf_ws by done.
  change (cf "") with "". by rewrite string_app_nil_r.
Qed.

(** ** Printing arbitrary byte strings

    [json.Marshal] replaces every byte that is not part of a UTF-8 sequence by
    U+FFFD; [ToValidUTF8] is the text a reader gets back. *)
Fixpoint ToValidUTF8 (s : string) : string :=
  match s with
  | "" => ""
  | String a s1 =>
      if (byte a <? 128)%N then String a (ToValidUTF8 s1)
      else
        let bad := replacement (ToValidUTF8 s1) in
        match s1 with
        | "" => bad
        | String b s2 =>
            if utf8_2 a b then String a (String b (ToValidUTF8 s2))
            else
              match s2 with
              | "" => bad
              | String c s3 =>
                  if utf8_3 a b c then String a (String b (String c (ToValidUTF8 s3)))
                  else
                    match s3 with
                    | "" => bad
                    | String d s4 =>
                        if utf8_4 a b c d
                        then String a (String b (String c (String d (ToValidUTF8 s4))))
                        else bad
                    end
              end
        end
  end.

Lemma utf8_replacement s : utf8 s → utf8 (replacement s).
Proof. intros H. by apply utf8_cons3. Qed.

Lemma lit_escape a t x : (byte a <? 128)%N = true → lit t x → lit (escape_ascii a +:+ t) (String a x).
Proof.
  intros Ha Ht. destruct (plain_char a) eqn:Hp.
  - assert (escape_ascii a = if html_char a then u00 a else String a "") as ->
      by (by destruct a as [[] [] [] [] [] [] [] []]).
    destruct (html_char a) eqn:Hh; [by apply lit_u00|by constructor].
  - revert Ha Hp. destruct a as [[] [] [] [] [] [] [] []]; vm_compute (byte _ <? 128)%N; vm_compute (plain_char _);
      intros; try discriminate;
      (lazymatch goal with |- lit (escape_ascii ?a +:+ _) _ => let e := eval vm_compute in (escape_ascii a) in change (escape_ascii a) with e end);
      (lazymatch goal with
       | |- lit (String _ (String "u" (String ?a (String ?b (String ?c (String ?d ""))))) +:+ _) _ =>
           let r := eval vm_compute in (hex4 a b c d) in
           lazymatch r with Some ?n => by apply (lit_u a b c d n) end
       | |- lit (String _ (String ?e "") +:+ _) (String ?c _) => by apply (lit_esc e c)
       end).
Qed.

Lemma lit_bad_byte t x : lit t x → lit ("\ufffd" +:+ t) (replacement x).
Proof. intros Ht. by apply (lit_u "f" "f" "f" "d" 65533%N). Qed.

Lemma lit_quote_body s : lit (quote_body s +:+ dquote) (ToValidUTF8 s) ∧ utf8 (ToValidUTF8 s).
Proof.
  induction s as [s IH] using (induction_ltof1 _ String.length). unfold ltof in IH.
  destruct s as [|a s1]; [split; constructor|]. cbn [quote_body ToValidUTF8].
  destruct (IH s1) as [H1 U1]; [simpl; lia|]. destruct (byte a <? 128)%N eqn:Ea.
  { rewrite <- string_app_assoc. split; [by apply lit_escape|by constructor]. }
  cbv zeta. assert (Hbad : lit (("\ufffd" +:+ quote_body s1) +:+ dquote) (replacement (ToValidUTF8 s1)) ∧
                          utf8 (replacement (ToValidUTF8 s1))).
  { rewrite <- string_app_assoc. split; [by apply lit_bad_byte|by apply utf8_replacement]. }
  destruct s1 as [|b s2]; [done|]. destruct (utf8_2 a b) eqn:U2.
  { destruct (IH s2) as [H2 ?]; [simpl; lia|]. split; by constructor. }
  destruct s2 as [|c s3]; [done|]. destruct (utf8_3 a b c) eqn:U3.
  { destruct (IH s3) as [H3 ?]; [simpl; lia|]. split; [|by constructor].
    destruct (line_sep a b c) eqn:El; [|by constructor].
    rewrite <- string_app_assoc, string_app_cons. by apply lit_line_sep. }
  destruct s3 as [|d s4]; [done|]. destruct (utf8_4 a b c d) eqn:U4; [|done].
  destruct (IH s4) as [H4 ?]; [simpl; lia|]. split; by constructor.
Qed.
Lemma ToValidUTF8_utf8 s : utf8 (ToValidUTF8 s).
Proof. apply lit_quote_body. Qed.
Lemma ToValidUTF8_id s : utf8 s → ToValidUTF8 s = s.
Proof.
  intros Hs. destruct (lit_quote_body s) as [Hl _]. pose proof (lit_unquote _ _ "" Hl) as E.
  rewrite <- string_app_assoc, unquote_quote in E by done. by simplify_eq.
Qed.
Lemma reads_quote s : reads (quote s) (JStr (ToValidUTF8 s)).
Proof. apply reads_str, lit_quote_body. Qed.

(** Every text a string literal denotes is UTF-8. *)
Lemma byte_chr n : (n < 256)%N → byte (ascii_of_N n) = n.
Proof. apply N_ascii_embedding. Qed.
(** Two base-64 digits: lia does not see through division. *)
Lemma digits64 r : ∃ q m, (r / 4096 = q ∧ (r / 64) mod 64 = m ∧ 4096 * q + 64 * m ≤ r < 4096 * q + 64 * m + 64 ∧ m < 64 ∧ q = q)%N.
Proof.
  eexists _, _. split; [done|]. split; [done|].
  pose proof (N.div_mod (r / 64) 64 ltac:(done)) as H1. pose proof (N.div_mod r 64 ltac:(done)) as H2.
  pose proof (N.mod_lt r 64 ltac:(done)) as H3. pose proof (N.mod_lt (r / 64) 64 ltac:(done)) as H4.
  rewrite N.Div0.div_div in H1. change (64 * 64)%N with 4096%N in H1.
  set (a := (r / 4096)%N) in *. set (b := ((r / 64) mod 64)%N) in *. set (c := (r / 64)%N) in *.
  set (d := (r mod 64)%N) in *. clearbody a b c d. lia.
Qed.
Lemma put_rune_utf8 r s : utf8 s → utf8 (put_rune r s).
Proof.
  intros Hs. unfold put_rune, chr. destruct (N.ltb_spec r 128).
  { constructor; [|done]. rewrite byte_chr by lia. by apply N.ltb_lt. }
  assert (Hd : ∀ n, (n mod 64 < 64)%N) by (intros; apply N.mod_lt; lia).
  assert (Hc : ∀ n, cont (ascii_of_N (128 + n mod 64)) = true).
  { intros n. specialize (Hd n). unfold cont, within. rewrite byte_chr by lia.
    rewrite andb_true_iff, !N.leb_le. set (m := (n mod 64)%N) in *. clearbody m. clear -Hd. lia. }
  destruct (N.ltb_spec r 2048).
  { apply utf8_cons2; [|done]. unfold utf8_2. rewrite Hc, andb_true_r. unfold within.
    assert (2 ≤ r / 64 < 32)%N by (split; [apply N.div_le_lower_bound|apply N.Div0.div_lt_upper_bound]; lia).
    rewrite byte_chr by lia. rewrite andb_true_iff, !N.leb_le. lia. }
  destruct (within 55296 r 57343 || (1114111 <? r))%N eqn:Eb; [by apply utf8_replacement|].
  apply orb_false_iff in Eb as [Es El%N.ltb_ge]. unfold within in Es. apply andb_false_iff in Es.
  rewrite !N.leb_gt in Es. destruct (N.ltb_spec r 65536).
  - destruct (digits64 r) as (q & m & E1 & E2 & Er & ? & ?). apply utf8_cons3; [|done].
    unfold utf8_3. rewrite Hc. unfold cont, within. rewrite E1, E2, !byte_chr by lia.
    rewrite !andb_true_iff, !orb_true_iff, !andb_true_iff, !N.leb_le, !N.eqb_eq. lia.
  - destruct (digits64 (r / 64)) as (q & m & E1 & E2 & Er & ? & ?).
    rewrite N.Div0.div_div in E1, E2. change (64 * 4096)%N with 262144%N in E1. change (64 * 64)%N with 4096%N in E2.
    assert (∃ k, r / 64 = k ∧ 64 * k ≤ r < 64 * k + 64)%N as (k & Ek & Hk).
    { eexists. split; [done|]. pose proof (N.div_mod r 64 ltac:(done)) as Hm.
      pose proof (N.mod_lt r 64 ltac:(done)) as Hl. clear -Hm Hl.
      set (a := (r / 64)%N) in *. set (b := (r mod 64)%N) in *. clearbody a b. lia. }
    rewrite Ek in Er. apply utf8_cons4; [|done].
    unfold utf8_4. rewrite !Hc. unfold cont, within. rewrite E1, E2, !byte_chr by lia.
    rewrite !andb_true_iff, !orb_true_iff, !andb_true_iff, !N.leb_le, !N.eqb_eq. lia.
Qed.
Lemma simple_escape_ascii e c : simple_escape e = Some c → (byte c <? 128)%N = true.
Proof. destruct e as [[] [] [] [] [] [] [] []]; vm_compute; intros H; by inversion H. Qed.
Lemma lit_utf8 t x : lit t x → utf8 x.
Proof.
  induction 1 as [|e c t x He| | |a t x Ha| | | |]; auto using put_rune_utf8, utf8_replacement.
  - constructor.
  - constructor; [by eapply simple_escape_ascii|done].
  - constructor; [|done]. unfold plain_char in Ha. rewrite !andb_true_iff in Ha. tauto.
  - by constructor.
  - by constructor.
  - by constructor.
Qed.
Lemma reads_jstr_utf8 s x : decode s = Some (JStr x) → utf8 x.
Proof.
  intros (w & t & w' & _ & _ & _ & (Hs & _ & Hr) & _)%decode_good.
  specialize (Hr "" 1 I ltac:(simpl; lia)). rewrite string_app_nil_r in Hr. cbn [value] in Hr.
  rewrite starts_value_skip in Hr by done. destruct t as [|c r]; [done|].
  destruct (byte c =? 34)%N.
  - destruct (unquote r) as [[y r']|] eqn:E; [|done]. simplify_eq. apply unquote_lit in E as (k & _ & Hk).
    by eapply lit_utf8.
  - repeat (case_match; try done).
Qed.

(** ** The texts inside a value *)
Definition before (s rest : string) : string :=
  String.substring 0 (String.length s - String.length rest) s.
Definition text_value (f : nat) (s : string) : option (string * string) :=
  match value f s with Some (_, r) => Some (before (skip_ws s) r, r) | None => None end.

(** The members of an object in their order, each key with the text of its
    value; [None] when the text is not an object. *)
Definition obj_texts (s : string) : option (list (string * string)) :=
  let f := S (String.length s) in
  match skip_ws s with
  | String c r =>
      if (byte c =? 123)%N then
        match skip_ws r with
        | String d _ =>
            if (byte d =? 125)%N then Some []
            else match members (text_value f) f r with Some (l, _) => Some l | None => None end
        | "" => None
        end
      else None
  | "" => None
  end.
Definition arr_texts (s : string) : option (list string) :=
  let f := S (String.length s) in
  match skip_ws s with
  | String c r =>
      if (byte c =? 91)%N then
        match skip_ws r with
        | String d _ =>
            if (byte d =? 93)%N then Some []
            else match elements (text_value f) f r with Some (l, _) => Some l | None => None end
        | "" => None
        end
      else None
  | "" => None
  end.

(** Printing an object or an array from the texts of its parts. *)
Definition obj_text (l : list (string * string)) : string :=
  "{" +:+ Join "," ((λ kv, quote kv.1 +:+ ":" +:+ kv.2) <$> l) +:+ "}".
Definition arr_text (l : list string) : string := "[" +:+ Join "," l +:+ "]".

Example obj_texts_ex :
  obj_texts (" {" +:+ quote "a" +:+ " : [1, 2] ," +:+ quote "b" +:+ ":{ } } ")
    = Some [("a", "[1, 2]"); ("b", "{ }")].
Proof. vm_compute. reflexivity. Qed.

Lemma before_app t rest : before (t +:+ rest) rest = t.
Proof.
  unfold before. rewrite string_length_app. replace (_ + _ - _) with (String.length t) by lia.
  apply substring_take.
Qed.
Lemma text_value_reads f w t j rest :
  ws w → reads t j → delim rest → jsize j ≤ f → text_value f (w +:+ t +:+ rest) = Some (t, rest).
Proof.
  intros Hw (Hs & _ & Hr) Hd Hf. unfold text_value. rewrite value_ws, Hr, skip_ws_app by done.
  by rewrite starts_value_skip, before_app by by apply starts_value_app.
Qed.

(** The texts read back from a printed list of parts. *)
Definition part (f : nat) (t : string) : Prop := ∃ j, reads t j ∧ jsize j ≤ f.

Lemma elements_texts f g l rest :
  l ≠ [] → Forall (part f) l → length l ≤ g →
  elements (text_value f) g (Join "," l +:+ "]" +:+ rest) = Some (l, rest).
Proof.
  intros Hne Hl. revert g. induction Hl as [|t l (j & Hr & Hj) Hl IH]; intros [|g] Hg; simpl in Hg; try done; [lia|].
  cbn [elements]. destruct l as [|t' l].
  - cbn [Join]. pose proof (text_value_reads f "" t j ("]" +:+ rest) eq_refl Hr eq_refl Hj) as E.
    rewrite string_app_nil_l in E. rewrite E. reflexivity.
  - change (Join "," (t :: t' :: l)) with (t +:+ "," +:+ Join "," (t' :: l)). rewrite <- !string_app_assoc.
    pose proof (text_value_reads f "" t j ("," +:+ Join "," (t' :: l) +:+ "]" +:+ rest) eq_refl Hr eq_refl Hj) as E.
    rewrite string_app_nil_l in E. rewrite E. cbv beta iota.
    change (skip_ws ("," +:+ ?x)) with (String "," x). cbv beta iota. change (byte "," =? 44)%N with true. cbv iota.
    rewrite IH by (done || simpl in *; lia). done.
Qed.

Lemma member_texts f k t j rest :
  reads t j → delim rest → jsize j ≤ f →
  member (text_value f) (quote k +:+ ":" +:+ t +:+ rest) = Some (ToValidUTF8 k, t, rest).
Proof.
  intros Hr Hd Hf. unfold member, quote, dquote. rewrite <- !string_app_assoc.
  change (skip_ws (String "034" "" +:+ ?x)) with (String "034" x). cbv beta iota.
  change (byte "034" =? 34)%N with true. cbv beta iota.
  pose proof (lit_unquote _ _ (":" +:+ t +:+ rest) (proj1 (lit_quote_body k))) as E.
  rewrite <- string_app_assoc in E. unfold dquote in E. rewrite E. cbv beta iota.
  change (skip_ws (":" +:+ ?x)) with (String ":" x). cbv beta iota. change (byte ":" =? 58)%N with true. cbv iota.
  pose proof (text_value_reads f "" t j rest eq_refl Hr Hd Hf) as E'. rewrite string_app_nil_l in E'. by rewrite E'.
Qed.

Lemma members_texts f g l rest :
  l ≠ [] → Forall (λ kv, part f kv.2) l → length l ≤ g →
  members (text_value f) g (Join "," ((λ kv, quote kv.1 +:+ ":" +:+ kv.2) <$> l) +:+ "}" +:+ rest)
    = Some ((λ kv, (ToValidUTF8 kv.1, kv.2)) <$> l, rest).
Proof.
  intros Hne Hl. revert g. induction Hl as [|[k t] l (j & Hr & Hj) Hl IH]; intros [|g] Hg; simpl in Hg; try done; [lia|].
  cbn [members]. destruct l as [|[k' t'] l].
  - cbn [Join fmap list_fmap fst snd]. rewrite <- !string_app_assoc, (member_texts f k t j) by done. reflexivity.
  - rewrite !fmap_cons in *. cbn [fst snd] in *.
    change (Join "," (?a :: ?b :: ?c)) with (a +:+ "," +:+ Join "," (b :: c)). rewrite <- !string_app_assoc.
    rewrite (member_texts f k t j) by done. cbv beta iota.
    change (skip_ws ("," +:+ ?x)) with (String "," x). cbv beta iota. change (byte "," =? 44)%N with true. cbv iota.
    rewrite IH by (done || simpl in *; lia). done.
Qed.

Lemma Join_part_length sep l t : t ∈ l → String.length t ≤ String.length (Join sep l).
Proof.
  induction l as [|x [|y l] IH]; [by intros ?%not_elem_of_nil|..]; rewrite elem_of_cons.
  - intros [->|?%not_elem_of_nil]; [simpl; lia|done].
  - change (Join sep (x :: y :: l)) with (x +:+ sep +:+ Join sep (y :: l)). rewrite !string_length_app.
    intros [->|?%IH]; lia.
Qed.
Lemma Join_count l : Forall (λ t, t ≠ "") l → length l ≤ String.length (Join "," l).
Proof.
  induction 1 as [|x [|y l] Hx Hl IH]; [done|destruct x; simpl; [done|lia]|].
  change (Join "," (x :: y :: l)) with (x +:+ "," +:+ Join "," (y :: l)). rewrite !string_length_app. simpl in *. lia.
Qed.
Lemma reads_nonempty t j : reads t j → t ≠ "".
Proof. by intros (Hs & _) ->. Qed.

Lemma obj_texts_obj_text l :
  Forall (λ kv, ∃ j, reads kv.2 j) l →
  obj_texts (obj_text l) = Some ((λ kv, (ToValidUTF8 kv.1, kv.2)) <$> l).
Proof.
  intros Hl. destruct (decide (l = [])) as [->|Hne]; [done|].
  set (body := Join "," ((λ kv, quote kv.1 +:+ ":" +:+ kv.2) <$> l)).
  assert (Hb : ∀ rest, ∃ d r, skip_ws (body +:+ rest) = String d r ∧ (byte d =? 125)%N = false).
  { intros rest. unfold body. destruct l as [|[k t] [|x l]]; [done|..]; by eexists _, _. }
  unfold obj_texts, obj_text. fold body. change (skip_ws ("{" +:+ ?x)) with (String "{" x). cbv beta iota.
  change (byte "{" =? 123)%N with true. cbv iota. destruct (Hb "}") as (d & r & -> & ->).
  pose proof (members_texts (S (String.length ("{" +:+ body +:+ "}"))) (S (String.length ("{" +:+ body +:+ "}"))) l "" Hne) as E.
  fold body in E. rewrite string_app_nil_r in E. rewrite E; [done|..].
  - rewrite Forall_forall in *. intros kv Hkv. destruct (Hl kv Hkv) as (j & Hj). exists j. split; [done|].
    destruct Hj as (_ & Hj & _). rewrite !string_length_app.
    pose proof (Join_part_length "," ((λ kv, quote kv.1 +:+ ":" +:+ kv.2) <$> l) (quote kv.1 +:+ ":" +:+ kv.2)
      ltac:(apply list_elem_of_fmap; by exists kv)) as Hp. fold body in Hp. rewrite !string_length_app in Hp. lia.
  - rewrite !string_length_app. pose proof (Join_count ((λ kv, quote kv.1 +:+ ":" +:+ kv.2) <$> l)) as Hc.
    fold body in Hc. rewrite length_fmap in Hc. assert (length l ≤ String.length body); [|lia].
    apply Hc. apply Forall_fmap, Forall_true. by intros [k t].
Qed.
Lemma arr_texts_arr_text l : Forall (λ t, ∃ j, reads t j) l → arr_texts (arr_text l) = Some l.
Proof.
  intros Hl. destruct (decide (l = [])) as [->|Hne]; [done|]. set (body := Join "," l).
  assert (Hb : ∀ rest, ∃ d r, skip_ws (body +:+ rest) = String d r ∧ (byte d =? 93)%N = false).
  { intros rest. unfold body. destruct l as [|t l]; [done|]. inversion Hl as [|?? (j & Hs & _) _]; subst.
    destruct t as [|c t]; [done|]. destruct Hs as (Hw & Hc & _).
    destruct l; cbn [Join]; rewrite ?string_app_cons; cbn [skip_ws]; rewrite Hw; eauto. }
  unfold arr_texts, arr_text. fold body. change (skip_ws ("[" +:+ ?x)) with (String "[" x). cbv beta iota.
  change (byte "[" =? 91)%N with true. cbv iota. destruct (Hb "]") as (d & r & -> & ->).
  pose proof (elements_texts (S (String.length ("[" +:+ body +:+ "]"))) (S (String.length ("[" +:+ body +:+ "]"))) l "" Hne) as E.
  fold body in E. rewrite string_app_nil_r in E. rewrite E; [done|..].
  - rewrite Forall_forall in *. intros t Ht. destruct (Hl t Ht) as (j & Hj). exists j. split; [done|].
    destruct Hj as (_ & Hj & _). rewrite !string_length_app. pose proof (Join_part_length "," l t Ht) as Hp.
    fold body in Hp. lia.
  - rewrite !string_length_app. assert (length l ≤ String.length body); [|lia]. apply Join_count.
    eapply Forall_impl; [exact Hl|]. intros t [j ?]. by eapply reads_nonempty.
Qed.

(** And a printed object or array is read in every context. *)
Lemma pair_text_quote k t : pair_text "" (quote_body k +:+ dquote) "" "" t = quote k +:+ ":" +:+ t.
Proof. unfold pair_text, quote. by rewrite !string_app_nil_l, <- !string_app_assoc. Qed.
Lemma reads_obj_parts l js :
  Forall2 (λ kv kj, kj.1 = ToValidUTF8 kv.1 ∧ reads kv.2 kj.2) l js → reads (obj_text l) (JObj js).
Proof.
  intros Hl. destruct (decide (l = [])) as [->|Hne]; [inversion Hl; by apply (reads_obj_nil "")|]. apply reads_obj.
  induction Hl as [|[k t] [k' j] l js [Hk Hj] Hl IH]; [done|]. simpl in Hk, Hj. subst k'. destruct l as [|kv l].
  - inversion Hl. subst. cbn [fmap list_fmap Join fst snd]. rewrite <- pair_text_quote.
    apply (reads_members_one "" _ _ "" "" t ""); [done..|apply lit_quote_body|done].
  - specialize (IH ltac:(done)). rewrite !fmap_cons in *. cbn [fst snd] in *.
    change (Join "," (?a :: ?b :: ?c)) with (a +:+ "," +:+ Join "," (b :: c)). rewrite <- !string_app_assoc.
    rewrite string_app_assoc, string_app_assoc, <- (string_app_assoc (quote k)), <- pair_text_quote.
    apply (reads_members_cons "" _ _ "" "" t ""); [done..|apply lit_quote_body|done|done].
Qed.
Lemma reads_arr_parts l js : Forall2 reads l js → reads (arr_text l) (JArr js).
Proof.
  intros Hl. destruct (decide (l = [])) as [->|Hne]; [inversion Hl; by apply (reads_arr_nil "")|]. apply reads_arr.
  induction Hl as [|t j l js Hj Hl IH]; [done|]. destruct l as [|t' l].
  - inversion Hl. subst. cbn [Join]. by apply (reads_elements_one "" t "").
  - specialize (IH ltac:(done)). change (Join "," (?a :: ?b :: ?c)) with (a +:+ "," +:+ Join "," (b :: c)).
    rewrite <- !string_app_assoc. by apply (reads_elements_cons "" t "").
Qed.
Lemma parts_read l : Forall (λ kv : string * string, ∃ j, reads kv.2 j) l →
  ∃ js, Forall2 (λ kv kj, kj.1 = ToValidUTF8 kv.1 ∧ reads kv.2 kj.2) l js.
Proof.
  induction 1 as [|[k t] l [j Hj] _ [js IH]]; [by exists []|]. exists ((ToValidUTF8 k, j) :: js). by constructor.
Qed.
Lemma elements_read l : Forall (λ t, ∃ j, reads t j) l → ∃ js, Forall2 reads l js.
Proof. induction 1 as [|t l [j Hj] _ [js IH]]; [by exists []|]. exists (j :: js). by constructor. Qed.
Lemma reads_obj_text l : Forall (λ kv, ∃ j, reads kv.2 j) l → ∃ l', reads (obj_text l) (JObj l').
Proof. intros [js Hj]%parts_read. exists js. by apply reads_obj_parts. Qed.
Lemma reads_arr_text l : Forall (λ t, ∃ j, reads t j) l → ∃ l', reads (arr_text l) (JArr l').
Proof. intros [js Hj]%elements_read. exists js. by apply reads_arr_parts. Qed.

(** What the parser returns is well formed: its texts are UTF-8. *)
Lemma elements_jwf v g s l r :
  (∀ s j r, v s = Some (j, r) → jwf j) → elements v g s = Some (l, r) → Forall jwf l.
Proof.
  intros Hv. revert s l r. induction g as [|g IH]; intros s l r; [done|]. cbn [elements].
  destruct (v s) as [[j r1]|] eqn:E1; [|done]. apply Hv in E1. destruct (skip_ws r1) as [|c r2]; [done|].
  destruct (byte c =? 44)%N.
  - destruct (elements v g r2) as [[l' r3]|] eqn:E3; [|done]. intros [= <- <-]. constructor; [done|by eapply IH].
  - destruct (byte c =? 93)%N; [|done]. intros [= <- <-]. by constructor.
Qed.
Lemma member_jwf v s k j r :
  (∀ s j r, v s = Some (j, r) → jwf j) → member v s = Some (k, j, r) → utf8 k ∧ jwf j.
Proof.
  intros Hv. unfold member. destruct (skip_ws s) as [|q s1]; [done|]. destruct (byte q =? 34)%N; [|done].
  destruct (unquote s1) as [[k' s2]|] eqn:E2; [|done]. apply unquote_lit in E2 as (kt & _ & Hk).
  destruct (skip_ws s2) as [|c s3]; [done|]. destruct (byte c =? 58)%N; [|done].
  destruct (v s3) as [[j' r']|] eqn:E4; [|done]. intros [= <- <- <-]. split; [by eapply lit_utf8|by eapply Hv].
Qed.
Lemma members_jwf v g s l r :
  (∀ s j r, v s = Some (j, r) → jwf j) → members v g s = Some (l, r) → Forall (λ kv, utf8 kv.1 ∧ jwf kv.2) l.
Proof.
  intros Hv. revert s l r. induction g as [|g IH]; intros s l r; [done|]. cbn [members].
  destruct (member v s) as [[[k j] r1]|] eqn:E1; [|done]. apply member_jwf in E1; [|done].
  destruct (skip_ws r1) as [|c r2]; [done|]. destruct (byte c =? 44)%N.
  - destruct (members v g r2) as [[l' r3]|] eqn:E3; [|done]. intros [= <- <-]. constructor; [done|by eapply IH].
  - destruct (byte c =? 125)%N; [|done]. intros [= <- <-]. by constructor.
Qed.
Lemma value_jwf f s j r : value f s = Some (j, r) → jwf j.
Proof.
  revert s j r. induction f as [|f IH]; intros s j r; [done|]. cbn [value]. destruct (skip_ws s) as [|c s1]; [done|].
  destruct (byte c =? 34)%N.
  { destruct (unquote s1) as [[x r']|] eqn:E; [|done]. intros [= <- <-]. apply unquote_lit in E as (k & _ & Hk). by eapply lit_utf8. }
  destruct (byte c =? 123)%N.
  { destruct (skip_ws s1) as [|d r']; [done|]. destruct (byte d =? 125)%N; [by intros [= <- <-]|].
    destruct (members (value f) f s1) as [[l t]|] eqn:E; [|done]. intros [= <- <-]. apply jwf_obj. by eapply members_jwf. }
  destruct (byte c =? 91)%N.
  { destruct (skip_ws s1) as [|d r']; [done|]. destruct (byte d =? 93)%N; [by intros [= <- <-]|].
    destruct (elements (value f) f s1) as [[l t]|] eqn:E; [|done]. intros [= <- <-]. apply jwf_arr. by eapply elements_jwf. }
  destruct (cut_prefix "true" _); [by intros [= <- <-]|]. destruct (cut_prefix "false" _); [by intros [= <- <-]|].
  destruct (cut_prefix "null" _); [by intros [= <- <-]|].
  destruct (span_num (String c s1)) as [lit t] eqn:Es. destruct (valid_num lit) eqn:Hv; [|done]. intros [= <- <-].
  apply span_num_spec in Es as (E & Hs & _). by split.
Qed.
Lemma decode_jwf s j : decode s = Some j → jwf j.
Proof. unfold decode. destruct (value _ s) as [[j' r]|] eqn:E; [|done]. case_decide; [|done]. intros [= <-]. by eapply value_jwf. Qed.
