(* ===== verification/GoTime.v ===== *)
(** * Instants as text ([time.Time.Format] with [time.RFC3339Nano], UTC) *)
From Stdlib Require Import Ascii.
From S2P Require Import Prelude GoStd Types Json Marshal.
Open Scope Z_scope.

(** Civil date of a day count from the epoch, proleptic Gregorian calendar. *)
Record Date := mkDate { date_year : Z; date_month : Z; date_day : Z }.
#[export] Instance Date_eq_dec : EqDecision Date.
Proof. solve_decision. Defined.

Definition civil_from_days (days : Z) : Date :=
  let z := days + 719468 in
  let era := z / 146097 in
  let doe := z mod 146097 in
  let yoe := (doe - doe / 1460 + doe / 36524 - doe / 146096) / 365 in
  let doy := doe - (365 * yoe + yoe / 4 - yoe / 100) in
  let mp := (5 * doy + 2) / 153 in
  let m := if mp <? 10 then mp + 3 else mp - 9 in
  mkDate (yoe + era * 400 + (if m <=? 2 then 1 else 0)) m (doy - (153 * mp + 2) / 5 + 1).

(** The inverse: days from the epoch of a civil date. *)
Definition days_from_civil (d : Date) : Z :=
  let y := if date_month d <=? 2 then date_year d - 1 else date_year d in
  let era := y / 400 in
  let yoe := y mod 400 in
  let mp := if 2 <? date_month d then date_month d - 3 else date_month d + 9 in
  let doy := (153 * mp + 2) / 5 + date_day d - 1 in
  let doe := yoe * 365 + yoe / 4 - yoe / 100 + doy in
  era * 146097 + doe - 719468.

(** Zero-padded decimal of a fixed width. *)
Fixpoint pad_dec (width : nat) (n : Z) : string :=
  match width with
  | O => ""
  | S w => pad_dec w (n / 10) +:+ String (digit_char (n mod 10)) ""
  end.

(** Nine fractional digits with the trailing zeros dropped. *)
Definition frac_nanos (ns : Z) : string :=
  if ns =? 0 then "" else String "." (TrimRightByte "0" (pad_dec 9 ns)).

Definition FormatRFC3339Nano (t : Time) : string :=
  let ns := t mod 1000000000 in
  let secs := t / 1000000000 in
  let d := civil_from_days (secs / 86400) in
  let sod := secs mod 86400 in
  pad_dec 4 (date_year d) +:+ "-" +:+ pad_dec 2 (date_month d) +:+ "-" +:+ pad_dec 2 (date_day d)
    +:+ "T" +:+ pad_dec 2 (sod / 3600) +:+ ":" +:+ pad_dec 2 (sod / 60 mod 60) +:+ ":"
    +:+ pad_dec 2 (sod mod 60) +:+ frac_nanos ns +:+ "Z".

Example epoch_text : FormatRFC3339Nano 0 = "1970-01-01T00:00:00Z".
Proof. reflexivity. Qed.
Example leap_text : FormatRFC3339Nano 1709210096120000000 = "2024-02-29T12:34:56.12Z".
Proof. reflexivity. Qed.

(** The calendar computation loses nothing. *)
Lemma civil_roundtrip days : days_from_civil (civil_from_days days) = days.
Proof.
  unfold days_from_civil, civil_from_days. cbn [date_year date_month date_day].
  set (z := days + 719468). set (era := z / 146097). set (doe := z mod 146097).
  assert (Hz : z = 146097 * era + doe) by apply Z.div_mod, Z.neq_sym, Z.lt_neq, eq_refl.
  assert (Hdoe : 0 ≤ doe < 146097) by (apply Z.mod_pos_bound; lia).
  set (yoe := (doe - doe / 1460 + doe / 36524 - doe / 146096) / 365).
  set (doy := doe - (365 * yoe + yoe / 4 - yoe / 100)).
  assert (Hy : 0 ≤ yoe < 400 ∧ 0 ≤ doy < 366).
  { unfold doy, yoe. clearbody doe. clear -Hdoe. Z.div_mod_to_equations. lia. }
  destruct Hy as [Hyoe Hdoy].
  set (mp := (5 * doy + 2) / 153).
  assert (Hmp : 0 ≤ mp < 12) by (unfold mp; Z.div_mod_to_equations; lia).
  assert (E1 : doe = yoe * 365 + yoe / 4 - yoe / 100 + doy) by (unfold doy; lia).
  clearbody doe yoe doy.
  assert (Hm : ∀ era yoe : Z, 0 ≤ yoe < 400 → (yoe + era * 400) / 400 = era ∧ (yoe + era * 400) mod 400 = yoe).
  { intros e y ?. rewrite Z.div_add, Z.mod_add by lia. rewrite Z.div_small, Z.mod_small by lia. lia. }
  destruct (Hm era yoe Hyoe) as [He Hmod].
  destruct (Z.ltb_spec mp 10).
  - destruct (Z.leb_spec (mp + 3) 2); [lia|]. destruct (Z.ltb_spec 2 (mp + 3)); [|lia].
    rewrite Z.add_0_r, He, Hmod. replace (mp + 3 - 3) with mp by lia. unfold z in Hz. lia.
  - destruct (Z.leb_spec (mp - 9) 2); [|lia]. destruct (Z.ltb_spec 2 (mp - 9)); [lia|].
    replace (yoe + era * 400 + 1 - 1) with (yoe + era * 400) by lia.
    rewrite He, Hmod. replace (mp - 9 + 9) with mp by lia. unfold z in Hz. lia.
Qed.
Close Scope Z_scope.

(** A formatted instant is plain ASCII. *)
Lemma pad_dec_ascii w n : all_bytes is_ascii (pad_dec w n) = true.
Proof.
  revert n. induction w as [|w IH]; intros n; [done|]. cbn [pad_dec].
  rewrite all_bytes_app, IH. cbn [all_bytes]. by rewrite is_digit_ascii by apply digit_mod_char.
Qed.
Lemma TrimRightByte_all P c s : all_bytes P s = true → all_bytes P (TrimRightByte c s) = true.
Proof.
  induction s as [|a s IH]; [done|]. cbn [all_bytes TrimRightByte]. intros [Ha Hs%IH]%andb_true_iff.
  destruct (TrimRightByte c s) as [|b r]; [case_decide|]; simpl in *; by rewrite ?Ha.
Qed.
Lemma frac_nanos_ascii n : all_bytes is_ascii (frac_nanos n) = true.
Proof.
  unfold frac_nanos. destruct (n =? 0)%Z; [done|].
  apply andb_true_iff. split; [done|]. apply TrimRightByte_all, pad_dec_ascii.
Qed.
Lemma FormatRFC3339Nano_utf8 t : utf8 (FormatRFC3339Nano t).
Proof.
  apply utf8_ascii. unfold FormatRFC3339Nano.
  by rewrite !all_bytes_app, !pad_dec_ascii, frac_nanos_ascii.
Qed.
#[export] Hint Resolve FormatRFC3339Nano_utf8 : text.

(** ** Reading an instant back ([time.Time.UnmarshalJSON], strict RFC 3339) *)
Open Scope Z_scope.

(** Exactly [w] decimal digits. *)
Fixpoint fixed_digits (w : nat) (acc : Z) (s : string) : option (Z * string) :=
  match w with
  | O => Some (acc, s)
  | S w' =>
      match s with
      | String c s' => match digit_val c with Some d => fixed_digits w' (10 * acc + d) s' | None => None end
      | "" => None
      end
  end.

(** A run of digits after the point, the first [w] of them counted. *)
Fixpoint frac_digits (w : nat) (s : string) : Z * string :=
  match s with
  | String c s' =>
      match digit_val c with
      | Some d =>
          let '(v, r) := frac_digits (pred w) s' in
          (match w with O => 0 | S w' => d * 10 ^ Z.of_nat w' + v end, r)
      | None => (0, s)
      end
  | "" => (0, "")
  end.

Definition parse_frac (s : string) : Z * string :=
  match s with
  | String "." (String c r) => match digit_val c with Some _ => frac_digits 9 (String c r) | None => (0, s) end
  | _ => (0, s)
  end.

Definition in_range (lo v hi : Z) : option unit := if (lo <=? v) && (v <=? hi) then Some tt else None.
Definition expect (c : ascii) (s : string) : option string :=
  match s with String a r => if decide (a = c) then Some r else None | "" => None end.

(** [Z] or a numeric offset, in seconds, at the end of the text. *)
Definition parse_zone (s : string) : option Z :=
  match s with
  | String "Z" "" => Some 0
  | String sign r =>
      if decide (sign = "+"%char ∨ sign = "-"%char) then
        '(hh, r) ← fixed_digits 2 0 r; _ ← in_range 0 hh 24; r ← expect ":" r;
        '(mm, r) ← fixed_digits 2 0 r; _ ← in_range 0 mm 60;
        if decide (r = "") then
          let offset := (hh * 60 + mm) * 60 in
          Some (if decide (sign = "-"%char) then - offset else offset)
        else None
      else None
  | "" => None
  end.

Definition ParseRFC3339 (s : string) : option Time :=
  '(year, s) ← fixed_digits 4 0 s; s ← expect "-" s;
  '(month, s) ← fixed_digits 2 0 s; _ ← in_range 1 month 12; s ← expect "-" s;
  '(day, s) ← fixed_digits 2 0 s; s ← expect "T" s;
  '(hour, s) ← fixed_digits 2 0 s; _ ← in_range 0 hour 23; s ← expect ":" s;
  '(min, s) ← fixed_digits 2 0 s; _ ← in_range 0 min 59; s ← expect ":" s;
  '(sec, s) ← fixed_digits 2 0 s; _ ← in_range 0 sec 59;
  let '(ns, s) := parse_frac s in
  offset ← parse_zone s;
  let d := mkDate year month day in
  let days := days_from_civil d in
  if decide (civil_from_days days = d)                       (* the day exists in its month *)
  then Some ((days * 86400 + hour * 3600 + min * 60 + sec - offset) * 1000000000 + ns)
  else None.

(** [time.Time.MarshalJSON] accepts the years that have four digits. *)
Definition year_of (t : Time) : Z := date_year (civil_from_days (t / 1000000000 / 86400)).
Definition year_ok (t : Time) : Prop := 0 ≤ year_of t ≤ 9999.
#[export] Instance year_ok_dec t : Decision (year_ok t).
Proof. unfold year_ok. apply _. Defined.

Example parse_ex : ParseRFC3339 "2024-02-29T12:34:56.12Z" = Some 1709210096120000000.
Proof. reflexivity. Qed.
Example parse_offset : ParseRFC3339 "1970-01-01T02:00:00+02:00" = Some 0.
Proof. reflexivity. Qed.
Example parse_no_day : ParseRFC3339 "2023-02-29T00:00:00Z" = None.
Proof. reflexivity. Qed.
Close Scope Z_scope.

(** ** Print then parse *)
Section Instants.
Local Open Scope Z_scope.

Lemma is_digit_val c : is_digit c = true → ∃ d, digit_val c = Some d.
Proof. destruct c as [[] [] [] [] [] [] [] []]; try done; intros _; by eexists. Qed.

Lemma mod_pow_S n w : n mod 10 ^ Z.of_nat (S w) = 10 * ((n / 10) mod 10 ^ Z.of_nat w) + n mod 10.
Proof.
  rewrite Nat2Z.inj_succ, Z.pow_succ_r by lia.
  rewrite (Z.rem_mul_r n 10) by (try lia; apply Z.pow_nonzero; lia). lia.
Qed.

Lemma fixed_digits_pad w k acc n rest :
  fixed_digits (w + k) acc (pad_dec w n +:+ rest)
    = fixed_digits k (acc * 10 ^ Z.of_nat w + n mod 10 ^ Z.of_nat w) rest.
Proof.
  revert k n rest. induction w as [|w IH]; intros k n rest.
  { cbn. f_equal. rewrite Z.mod_1_r. lia. }
  cbn [pad_dec]. rewrite <- string_app_assoc. replace (S w + k)%nat with (w + S k)%nat by lia.
  rewrite IH. rewrite string_app_cons. cbn [fixed_digits].
  rewrite digit_val_char by (apply Z.mod_pos_bound; lia). f_equal.
  rewrite mod_pow_S, Nat2Z.inj_succ, Z.pow_succ_r by lia. lia.
Qed.
Lemma fixed_digits_ok w n rest :
  0 ≤ n < 10 ^ Z.of_nat w → fixed_digits w 0 (pad_dec w n +:+ rest) = Some (n, rest).
Proof.
  intros Hn. pose proof (fixed_digits_pad w 0 0 n rest) as E. rewrite Nat.add_0_r in E.
  rewrite E. cbn. by rewrite Z.mod_small.
Qed.

Lemma frac_digits_app w s c r :
  all_bytes is_digit s = true → digit_val c = None →
  frac_digits w (s +:+ String c r) = ((frac_digits w s).1, String c r).
Proof.
  intros Hs Hc. revert w Hs. induction s as [|a s IH]; intros w; string_simpl.
  { by rewrite Hc. }
  intros [[d Hd]%is_digit_val Hs]%andb_true_iff. rewrite Hd, IH by done.
  by destruct (frac_digits (pred w) s).
Qed.
Lemma frac_digits_trim w s :
  all_bytes is_digit s = true → (frac_digits w (TrimRightByte "0" s)).1 = (frac_digits w s).1.
Proof.
  revert w. induction s as [|a s IH]; intros w; [done|]. cbn [all_bytes].
  intros [[d Hd]%is_digit_val Hs]%andb_true_iff.
  assert (E : (frac_digits w (TrimRightByte "0" (String a s))).1 =
              match w with O => 0 | S w' => d * 10 ^ Z.of_nat w' + (frac_digits (pred w) (TrimRightByte "0" s)).1 end).
  { cbn [TrimRightByte]. destruct (TrimRightByte "0" s) as [|b t] eqn:Et.
    - case_decide as H0; [subst; injection Hd as <-|]; cbn [frac_digits]; rewrite ?Hd; by destruct w.
    - change (frac_digits w (String a (String b t))) with
        (match digit_val a with
         | Some d => let '(v, r) := frac_digits (pred w) (String b t) in
             (match w with O => 0 | S w' => d * 10 ^ Z.of_nat w' + v end, r)
         | None => (0, String a (String b t)) end).
      rewrite Hd. by destruct (frac_digits (pred w) (String b t)). }
  rewrite E, IH by done. cbn [frac_digits]. rewrite Hd. by destruct (frac_digits (pred w) s), w.
Qed.
Lemma frac_digits_pad w k n rest :
  (frac_digits (w + k) (pad_dec w n +:+ rest)).1
    = (n mod 10 ^ Z.of_nat w) * 10 ^ Z.of_nat k + (frac_digits k rest).1.
Proof.
  revert k n rest. induction w as [|w IH]; intros k n rest.
  { change (10 ^ Z.of_nat 0) with 1. rewrite Z.mod_1_r, Z.mul_0_l, Z.add_0_l. done. }
  cbn [pad_dec]. rewrite <- string_app_assoc. replace (S w + k)%nat with (w + S k)%nat by lia.
  rewrite IH, string_app_cons. cbn [frac_digits].
  rewrite digit_val_char by (apply Z.mod_pos_bound; lia). cbn [pred].
  change ("" +:+ rest) with rest. destruct (frac_digits k rest). cbn [fst].
  rewrite mod_pow_S, Nat2Z.inj_succ, Z.pow_succ_r by lia. ring.
Qed.

Lemma parse_frac_nanos ns rest :
  0 ≤ ns < 10 ^ 9 → parse_frac (frac_nanos ns +:+ String "Z" rest) = (ns, String "Z" rest).
Proof.
  intros Hns. unfold frac_nanos. destruct (Z.eqb_spec ns 0) as [->|Hne]; [done|].
  assert (Hd : all_bytes is_digit (pad_dec 9 ns) = true).
  { clear. generalize 9%nat as w. intros w. revert ns. induction w as [|w IH]; intros n; [done|].
    cbn [pad_dec]. rewrite all_bytes_app, IH. cbn [all_bytes]. by rewrite digit_mod_char. }
  assert (Ht : (frac_digits 9 (TrimRightByte "0" (pad_dec 9 ns))).1 = ns).
  { rewrite frac_digits_trim, <- (string_app_nil_r (pad_dec 9 ns)) by done.
    pose proof (frac_digits_pad 9 0 ns "") as Hp. rewrite Z.mod_small in Hp by done.
    etrans; [exact Hp|]. cbn [frac_digits fst]. lia. }
  assert (HT : all_bytes is_digit (TrimRightByte "0" (pad_dec 9 ns)) = true) by by apply TrimRightByte_all.
  destruct (TrimRightByte "0" (pad_dec 9 ns)) as [|c t] eqn:Et; [cbn in Ht; lia|].
  rewrite !string_app_cons. cbn [parse_frac].
  assert (∃ d, digit_val c = Some d) as [d Hc].
  { apply is_digit_val. by apply andb_true_iff in HT as [? _]. }
  rewrite Hc, <- string_app_cons, frac_digits_app by done. by rewrite Ht.
Qed.

Lemma civil_date_ranges days :
  let d := civil_from_days days in 1 ≤ date_month d ≤ 12 ∧ 1 ≤ date_day d ≤ 31.
Proof.
  unfold civil_from_days. cbn [date_month date_day].
  set (doe := (days + 719468) mod 146097).
  assert (Hdoe : 0 ≤ doe < 146097) by (apply Z.mod_pos_bound; lia).
  set (yoe := (doe - doe / 1460 + doe / 36524 - doe / 146096) / 365).
  set (doy := doe - (365 * yoe + yoe / 4 - yoe / 100)).
  assert (Hdoy : 0 ≤ doy < 366).
  { unfold doy, yoe. clearbody doe. clear -Hdoe. Z.div_mod_to_equations. lia. }
  clearbody doy. destruct (Z.ltb_spec ((5 * doy + 2) / 153) 10); Z.div_mod_to_equations; lia.
Qed.

Lemma expect_ok c s : expect c (String c "" +:+ s) = Some s.
Proof. rewrite string_app_cons. unfold expect. by rewrite decide_True. Qed.
Lemma in_range_ok lo v hi : lo ≤ v ≤ hi → in_range lo v hi = Some tt.
Proof. intros. unfold in_range. by rewrite !(proj2 (Z.leb_le _ _)) by lia. Qed.

(** Every instant whose year has four digits is read back exactly. *)
Lemma ParseRFC3339_Format t : year_ok t → ParseRFC3339 (FormatRFC3339Nano t) = Some t.
Proof.
  intros Hy. unfold year_ok, year_of in Hy. unfold FormatRFC3339Nano.
  set (ns := t mod 1000000000). set (secs := t / 1000000000) in *.
  set (days := secs / 86400) in *. set (sod := secs mod 86400).
  assert (Ht : t = 1000000000 * secs + ns) by (apply Z.div_mod; lia).
  assert (Hs : secs = 86400 * days + sod) by (apply Z.div_mod; lia).
  assert (0 ≤ ns < 1000000000) by (apply Z.mod_pos_bound; lia).
  assert (0 ≤ sod < 86400) by (apply Z.mod_pos_bound; lia).
  pose proof (civil_date_ranges days) as [Hm Hd]. pose proof (civil_roundtrip days) as Hc.
  remember (civil_from_days days) as d eqn:Ed. clearbody ns secs sod days.
  unfold ParseRFC3339.
  assert (sod / 3600 = sod / 60 / 60) as Eh by (by rewrite Z.div_div by lia).
  assert (0 ≤ sod / 3600 < 24 ∧ 0 ≤ sod / 60 mod 60 < 60 ∧ 0 ≤ sod mod 60 < 60 ∧
          sod = sod / 3600 * 3600 + sod / 60 mod 60 * 60 + sod mod 60) as (?&?&?&Esod)
    by (Z.div_mod_to_equations; lia).
  repeat (first [rewrite fixed_digits_ok by (cbn; lia)|rewrite in_range_ok by lia|rewrite expect_ok];
          cbn [mbind option_bind]).
  rewrite parse_frac_nanos by done. cbn [mbind option_bind parse_zone].
  destruct d as [y m dd]. cbn [date_year date_month date_day] in *. rewrite Hc.
  rewrite decide_True by done. f_equal. lia.
Qed.
End Instants.
