(* ===== verification/Codec.v ===== *)
(** * Domain records as JSON ([encoding/json] on the types of wallet/types.go)

    [json.Marshal] of the records, following their struct tags, and the
    decoders [json.Unmarshal] and [json.Decoder] run on them.  Decoders work on
    the text of each value, because a [json.RawMessage] keeps it.  A decoder
    takes the value the field already has: a key that occurs twice assigns
    twice.  [None] is a decoding error, whose text is not modelled. *)
From Stdlib Require Import Ascii.
From S2P Require Import Prelude GoStd GoError Types Json Marshal JsonLit JsonText GoTime.

(** ** Printing *)

(** The fields of a struct in order; [None] is a field left out by
    [omitempty]. *)
Definition emit (fields : list (string * option string)) : list (string * string) :=
  omap (λ kv, (λ t, (kv.1, t)) <$> kv.2) fields.
Definition struct_text (fields : list (string * option string)) : string := obj_text (emit fields).

Definition omit_string (s : string) : option string := if decide (s = "") then None else Some (quote s).
Definition omit_int (z : Z) : option string := if decide (z = 0%Z) then None else Some (FormatInt z).

Definition marshal_time (t : Time) : res string :=
  if decide (year_ok t) then Ok (quote (FormatRFC3339Nano t))
  else Err (ErrNew "json: error calling MarshalJSON for type time.Time: Time.MarshalJSON: year outside of range [0,9999]").

(** A [json.RawMessage] with [omitempty]: nil and empty are left out. *)
Definition marshal_omit_raw (m : RawMessage) : res (option string) :=
  match m with
  | None | Some "" => Ok None
  | Some _ => match marshal_raw m with Ok t => Ok (Some t) | Err e => Err e end
  end.

Definition marshal_utxo (u : UTXO) : string :=
  struct_text [("tx_id", Some (quote (utxo_TxID u))); ("vout", Some (FormatInt (utxo_Vout u)));
    ("amount_sats", Some (FormatInt (utxo_AmountSats u)));
    ("script_pub_key", Some (quote (utxo_ScriptPubKey u)))].

Definition request_fields (r : TransactionRequest) (metadata : option string) : list (string * option string) :=
  [("wallet_id", Some (quote (req_WalletID r))); ("to", Some (quote (req_To r)));
   ("amount", Some (quote (req_Amount r))); ("fee_rate_sats", omit_int (req_FeeRateSats r));
   ("gas_limit", omit_int (req_GasLimit r)); ("max_fee_per_gas", omit_string (req_MaxFeePerGas r));
   ("data", omit_string (req_Data r));
   ("utxos", if decide (req_UTXOs r = []) then None else Some (arr_text (marshal_utxo <$> req_UTXOs r)));
   ("metadata", metadata)].
Definition marshal_request (r : TransactionRequest) : res string :=
  match marshal_omit_raw (req_Metadata r) with
  | Ok metadata => Ok (struct_text (request_fields r metadata))
  | Err e => Err e
  end.

Definition marshal_raw_transaction (r : RawTransaction) : res string :=
  match marshal_raw (raw_Payload r) with
  | Ok payload => Ok (struct_text [("chain", Some (quote (raw_Chain r))); ("payload", Some payload)])
  | Err e => Err e
  end.

Definition marshal_approval (a : Approval) : res string :=
  match marshal_time (ap_CreatedAt a) with
  | Ok t => Ok (struct_text [("signer_id", Some (quote (ap_SignerID a))); ("created_at", Some t)])
  | Err e => Err e
  end.

(** All or the first error. *)
Fixpoint collect {K} (l : list (K * res string)) : res (list (K * string)) :=
  match l with
  | [] => Ok []
  | (k, r) :: l' =>
      match r with
      | Err e => Err e
      | Ok t => match collect l' with Ok ts => Ok ((k, t) :: ts) | Err e => Err e end
      end
  end.

(** A map with string keys: sorted keys, [null] when nil. *)
Definition marshal_map {A} (f : A → res string) (m : option (gmap string A)) : res string :=
  match m with
  | None => Ok "null"
  | Some m =>
      match collect (omap (λ k, (λ v, (k, f v)) <$> m !! k) (sorted_keys m)) with
      | Ok l => Ok (obj_text l)
      | Err e => Err e
      end
  end.

Definition omit_map (m : option (gmap string string)) : res (option string) :=
  match m with
  | None => Ok None
  | Some m' =>
      if decide (m' = ∅) then Ok None
      else match marshal_map (λ v, Ok (quote v)) m with Ok t => Ok (Some t) | Err e => Err e end
  end.

Definition proposal_fields (p : TransactionProposal) (request raw approvals created updated : string)
    (trace : option string) : list (string * option string) :=
  [("id", Some (quote (tp_ID p))); ("wallet_id", Some (quote (tp_WalletID p)));
   ("chain", Some (quote (tp_Chain p))); ("status", Some (quote (tp_Status p)));
   ("request", Some request); ("raw_transaction", Some raw); ("approvals", Some approvals);
   ("signed_transaction", omit_string (tp_SignedTransaction p));
   ("broadcast_hash", omit_string (tp_BroadcastHash p)); ("error", omit_string (tp_Error p));
   ("trace", trace); ("created_at", Some created); ("updated_at", Some updated)].

(** [json.Marshal(proposal)]; fields are encoded in order, so the first error
    in that order is returned. *)
Definition marshal_proposal (p : TransactionProposal) : res string :=
  match marshal_request (tp_Request p) with Err e => Err e | Ok request =>
  match marshal_raw_transaction (tp_RawTransaction p) with Err e => Err e | Ok raw =>
  match marshal_map marshal_approval (tp_Approvals p) with Err e => Err e | Ok approvals =>
  match omit_map (tp_Trace p) with Err e => Err e | Ok trace =>
  match marshal_time (tp_CreatedAt p) with Err e => Err e | Ok created =>
  match marshal_time (tp_UpdatedAt p) with Err e => Err e | Ok updated =>
    Ok (struct_text (proposal_fields p request raw approvals created updated trace))
  end end end end end end.

Definition marshal_wallet (w : Wallet) : res string :=
  match marshal_time (w_CreatedAt w) with
  | Err e => Err e
  | Ok created =>
      Ok (struct_text [("id", Some (quote (w_ID w))); ("chain", Some (quote (w_Chain w)));
            ("address", Some (quote (w_Address w))); ("public_key", Some (quote (w_PublicKey w)));
            ("created_at", Some created)])
  end.

Definition marshal_event (e : AuditEvent) : res string :=
  match marshal_omit_raw (ae_Metadata e) with Err er => Err er | Ok metadata =>
  match marshal_time (ae_CreatedAt e) with Err er => Err er | Ok created =>
    Ok (struct_text [("id", Some (quote (ae_ID e))); ("type", Some (quote (ae_Type e)));
          ("actor", omit_string (ae_Actor e)); ("resource_type", Some (quote (ae_ResourceType e)));
          ("resource_id", Some (quote (ae_ResourceID e))); ("chain", omit_string (ae_Chain e));
          ("metadata", metadata); ("created_at", Some created)])
  end end.

(** ** Reading *)

(** The members of an object text (none for [null]); with [strict]
    ([DisallowUnknownFields]) every key must name a field. *)
Definition struct_members (names : list string) (strict : bool) (t : string)
    : option (list (string * string)) :=
  match decode t with
  | Some JNull => Some []
  | Some (JObj _) =>
      l ← obj_texts t;
      if strict && negb (forallb (λ kt, bool_decide (is_Some (resolve names kt.1))) l) then None else Some l
  | _ => None
  end.

(** The texts assigned to a field, in order, and the value they leave in it. *)
Definition assigned (names : list string) (name : string) (l : list (string * string)) : list string :=
  omap (λ kt, if decide (resolve names kt.1 = Some name) then Some kt.2 else None) l.
Definition assign {T} (dec : T → string → option T) (old : T) (texts : list string) : option T :=
  foldl (λ acc t, v ← acc; dec v t) (Some old) texts.

Definition dec_string (old : string) (t : string) : option string :=
  match decode t with
  | Some (JStr s) => Some s
  | Some JNull => Some old
  | _ => None
  end.
Definition dec_num (parse : string → option Z) (old : Z) (t : string) : option Z :=
  match decode t with
  | Some (JNum lit) => parse lit
  | Some JNull => Some old
  | _ => None
  end.
Definition dec_int64 := dec_num ParseInt.
Definition dec_uint64 := dec_num ParseUint.
Definition dec_uint32 := dec_num (λ lit, n ← ParseUint lit; if (n <? 2^32)%Z then Some n else None).

(** [json.RawMessage.UnmarshalJSON] keeps the text, [null] included. *)
Definition dec_raw (old : RawMessage) (t : string) : option RawMessage := Some (Some t).

(** [time.Time.UnmarshalJSON] looks at the text between the quotes as it is. *)
Definition dec_time (old : Time) (t : string) : option Time :=
  if decide (t = "null") then Some old
  else match t with
       | String "034" r => ParseRFC3339 (String.substring 0 (String.length r - 1) r)
       | _ => None
       end.

(** A map: [null] makes it nil; each key gets a value decoded from zero. *)
Definition dec_map {A} (zero : A) (dec : A → string → option A) (old : option (gmap string A)) (t : string)
    : option (option (gmap string A)) :=
  match decode t with
  | Some JNull => Some None
  | Some (JObj _) =>
      l ← obj_texts t;
      m ← foldl (λ acc kt, m ← acc; v ← dec zero kt.2; Some (<[kt.1 := v]> m)) (Some (default ∅ old)) l;
      Some (Some m)
  | _ => None
  end.

(** A slice: the backing array and the length.  Elements are decoded into the
    array's old elements; [null] and an empty array start a new one. *)
Fixpoint dec_elems {A} (zero : A) (dec : A → string → option A) (backing : list A) (texts : list string)
    : option (list A) :=
  match texts with
  | [] => Some backing
  | t :: ts =>
      v ← dec (default zero (head backing)) t;
      rest ← dec_elems zero dec (tail backing) ts;
      Some (v :: rest)
  end.
Definition dec_slice {A} (zero : A) (dec : A → string → option A) (old : list A * nat) (t : string)
    : option (list A * nat) :=
  match decode t with
  | Some JNull => Some ([], 0)
  | Some (JArr _) =>
      texts ← arr_texts t;
      if decide (texts = []) then Some ([], 0)
      else backing ← dec_elems zero dec old.1 texts; Some (backing, length texts)
  | _ => None
  end.

Definition utxo_names : list string := ["tx_id"; "vout"; "amount_sats"; "script_pub_key"].
Definition dec_utxo (strict : bool) (old : UTXO) (t : string) : option UTXO :=
  l ← struct_members utxo_names strict t;
  let field {T} (dec : T → string → option T) (v : T) name := assign dec v (assigned utxo_names name l) in
  txid ← field dec_string (utxo_TxID old) "tx_id";
  vout ← field dec_uint32 (utxo_Vout old) "vout";
  amount ← field dec_int64 (utxo_AmountSats old) "amount_sats";
  script ← field dec_string (utxo_ScriptPubKey old) "script_pub_key";
  Some (mkUTXO txid vout amount script).
Definition zero_utxo : UTXO := mkUTXO "" 0 0 "".

Definition request_names : list string :=
  ["wallet_id"; "to"; "amount"; "fee_rate_sats"; "gas_limit"; "max_fee_per_gas"; "data"; "utxos"; "metadata"].
Definition dec_request (strict : bool) (old : TransactionRequest) (t : string) : option TransactionRequest :=
  l ← struct_members request_names strict t;
  let field {T} (dec : T → string → option T) (v : T) name := assign dec v (assigned request_names name l) in
  wallet_id ← field dec_string (req_WalletID old) "wallet_id";
  to ← field dec_string (req_To old) "to";
  amount ← field dec_string (req_Amount old) "amount";
  fee ← field dec_int64 (req_FeeRateSats old) "fee_rate_sats";
  gas ← field dec_uint64 (req_GasLimit old) "gas_limit";
  max_fee ← field dec_string (req_MaxFeePerGas old) "max_fee_per_gas";
  data ← field dec_string (req_Data old) "data";
  utxos ← field (dec_slice zero_utxo (dec_utxo strict)) (req_UTXOs old, length (req_UTXOs old)) "utxos";
  metadata ← field dec_raw (req_Metadata old) "metadata";
  Some (mkTransactionRequest wallet_id to amount fee gas max_fee data (take utxos.2 utxos.1) metadata).
Definition zero_request : TransactionRequest := mkTransactionRequest "" "" "" 0 0 "" "" [] None.

Definition dec_raw_transaction (strict : bool) (old : RawTransaction) (t : string) : option RawTransaction :=
  l ← struct_members ["chain"; "payload"] strict t;
  chain ← assign dec_string (raw_Chain old) (assigned ["chain"; "payload"] "chain" l);
  payload ← assign dec_raw (raw_Payload old) (assigned ["chain"; "payload"] "payload" l);
  Some (mkRawTransaction chain payload).

Definition dec_approval (strict : bool) (old : Approval) (t : string) : option Approval :=
  l ← struct_members ["signer_id"; "created_at"] strict t;
  signer ← assign dec_string (ap_SignerID old) (assigned ["signer_id"; "created_at"] "signer_id" l);
  created ← assign dec_time (ap_CreatedAt old) (assigned ["signer_id"; "created_at"] "created_at" l);
  Some (mkApproval signer created).
Definition zero_approval : Approval := mkApproval "" zeroTime.

Definition proposal_names : list string :=
  ["id"; "wallet_id"; "chain"; "status"; "request"; "raw_transaction"; "approvals"; "signed_transaction";
   "broadcast_hash"; "error"; "trace"; "created_at"; "updated_at"].
Definition dec_proposal (strict : bool) (old : TransactionProposal) (t : string) : option TransactionProposal :=
  l ← struct_members proposal_names strict t;
  let field {T} (dec : T → string → option T) (v : T) name := assign dec v (assigned proposal_names name l) in
  id ← field dec_string (tp_ID old) "id";
  wallet_id ← field dec_string (tp_WalletID old) "wallet_id";
  chain ← field dec_string (tp_Chain old) "chain";
  status ← field dec_string (tp_Status old) "status";
  request ← field (dec_request strict) (tp_Request old) "request";
  raw ← field (dec_raw_transaction strict) (tp_RawTransaction old) "raw_transaction";
  approvals ← field (dec_map zero_approval (dec_approval strict)) (tp_Approvals old) "approvals";
  signed ← field dec_string (tp_SignedTransaction old) "signed_transaction";
  hash ← field dec_string (tp_BroadcastHash old) "broadcast_hash";
  error ← field dec_string (tp_Error old) "error";
  trace ← field (dec_map "" dec_string) (tp_Trace old) "trace";
  created ← field dec_time (tp_CreatedAt old) "created_at";
  updated ← field dec_time (tp_UpdatedAt old) "updated_at";
  Some (mkTransactionProposal id wallet_id chain status request raw approvals signed hash error trace
          created updated).
Definition zero_proposal : TransactionProposal :=
  mkTransactionProposal "" "" "" "" zero_request (mkRawTransaction "" None) None "" "" "" None zeroTime zeroTime.

(** [json.Unmarshal(payload, &proposal)]. *)
Definition unmarshal_proposal (t : string) : res TransactionProposal :=
  match dec_proposal false zero_proposal t with Some p => Ok p | None => Err SyntaxError end.

(** ** Examples *)
Definition example_request : TransactionRequest :=
  mkTransactionRequest "wlt_1" "tb1q" "50000" 5 0 "" "" [mkUTXO "aa" 1 75000 "0014"] (Some "{ }").
Definition example_proposal : TransactionProposal :=
  mkTransactionProposal "txn_1" "wlt_1" "bitcoin" "proposed" example_request
    (mkRawTransaction "bitcoin" (Some "[1]"))
    (Some {["alice" := mkApproval "alice" 1700000000000000000]}) "" "" ""
    (Some {["span_id" := "b"; "trace_id" := "a"]}) 1700000000000000001 1700000000000000002.
Example marshal_unmarshal_ex :
  match marshal_proposal example_proposal with
  | Ok t => match unmarshal_proposal t with
            | Ok p => bool_decide (p = example_proposal) = false ∧ req_Metadata (tp_Request p) = Some "{}"
            | Err _ => False
            end
  | Err _ => False
  end.
Proof. vm_compute. done. Qed.
(** A key that occurs twice: the second array is decoded into the first. *)
Example utxos_twice :
  let u (v : string) := "[{" +:+ quote "vout" +:+ ":" +:+ v +:+ "}]" in
  dec_request true zero_request
    ("{" +:+ quote "utxos" +:+ ":" +:+ u "5" +:+ "," +:+ quote "UTXOS" +:+ ": [ {" +:+ quote "tx_id" +:+ ":"
       +:+ quote "a" +:+ "} ] }")
  = Some (mkTransactionRequest "" "" "" 0 0 "" "" [mkUTXO "a" 5 0 ""] None).
Proof. vm_compute. reflexivity. Qed.
