(* ===== verification/Transport.v ===== *)
(** * Records through a carrier of JSON text

    A record is printed, the text goes through something that may rewrite it (a
    JSONB column; nothing at all), and the result is decoded.  [Carries R] says
    what the carrier [R] must keep; under it every record comes back, up to the
    text of embedded raw messages and bytes that are not UTF-8. *)
From Stdlib Require Import Ascii.
From S2P Require Import Prelude GoStd GoError Types Json Marshal JsonLit JsonText GoTime Codec.

(** ** Well-typed records with UTF-8 texts *)
#[export] Instance utf8_dec s : Decision (utf8 s).
Proof.
  refine (cast_if (decide (ToValidUTF8 s = s))).
  - rewrite <- e. apply ToValidUTF8_utf8.
  - intros H. by apply n, ToValidUTF8_id.
Defined.

Definition int64 (z : Z) : Prop := (- 2^63 ≤ z < 2^63)%Z.
Definition uint64 (z : Z) : Prop := (0 ≤ z < 2^64)%Z.
Definition uint32 (z : Z) : Prop := (0 ≤ z < 2^32)%Z.

Definition utxo_ok (u : UTXO) : Prop :=
  utf8 (utxo_TxID u) ∧ uint32 (utxo_Vout u) ∧ int64 (utxo_AmountSats u) ∧ utf8 (utxo_ScriptPubKey u).
Definition request_ok (r : TransactionRequest) : Prop :=
  utf8 (req_WalletID r) ∧ utf8 (req_To r) ∧ utf8 (req_Amount r) ∧ int64 (req_FeeRateSats r) ∧
  uint64 (req_GasLimit r) ∧ utf8 (req_MaxFeePerGas r) ∧ utf8 (req_Data r) ∧ Forall utxo_ok (req_UTXOs r).
Definition approvals_texts (m : option (gmap string Approval)) : Prop :=
  map_Forall (λ k a, utf8 k ∧ utf8 (ap_SignerID a)) (default ∅ m).
Definition trace_texts (m : option (gmap string string)) : Prop := map_Forall (λ k _, utf8 k) (default ∅ m).
Definition proposal_ok (p : TransactionProposal) : Prop :=
  utf8 (tp_ID p) ∧ utf8 (tp_WalletID p) ∧ utf8 (tp_Chain p) ∧ utf8 (tp_Status p) ∧ request_ok (tp_Request p) ∧
  approvals_texts (tp_Approvals p) ∧ utf8 (tp_SignedTransaction p) ∧ trace_texts (tp_Trace p).
#[export] Instance utxo_ok_dec u : Decision (utxo_ok u).
Proof. unfold utxo_ok, uint32, int64. apply _. Defined.
#[export] Instance request_ok_dec r : Decision (request_ok r).
Proof. unfold request_ok, uint64, int64. apply _. Defined.
#[export] Instance proposal_ok_dec p : Decision (proposal_ok p).
Proof. unfold proposal_ok, approvals_texts, trace_texts. apply _. Defined.

(** A formatted instant needs no escaping. *)
Definition time_char (c : ascii) : bool :=
  is_digit c || bool_decide (c = "-"%char) || bool_decide (c = ":"%char) || bool_decide (c = "."%char)
  || bool_decide (c = "T"%char) || bool_decide (c = "Z"%char).
Lemma time_char_plain c : time_char c = true → (byte c <? 128)%N = true ∧ escape_ascii c = String c "".
Proof. by destruct c as [[] [] [] [] [] [] [] []]. Qed.
Lemma time_quote_body t : quote_body (FormatRFC3339Nano t) = FormatRFC3339Nano t.
Proof.
  assert (Hs : ∀ s, all_bytes time_char s = true → quote_body s = s).
  { induction s as [|c s IH]; [done|]. cbn [all_bytes]. intros [[E1 E2]%time_char_plain Hs]%andb_true_iff.
    cbn [quote_body]. by rewrite E1, E2, IH. }
  assert (Hp : ∀ w n, all_bytes time_char (pad_dec w n) = true).
  { induction w as [|w IH]; intros n; [done|]. cbn [pad_dec]. rewrite all_bytes_app, IH. cbn [all_bytes].
    unfold time_char. by rewrite digit_mod_char. }
  apply Hs. unfold FormatRFC3339Nano. rewrite !all_bytes_app, !Hp. unfold frac_nanos.
  destruct (_ =? 0)%Z; [done|]. cbn [all_bytes]. by rewrite TrimRightByte_all by apply Hp.
Qed.

Definition readable (t : string) : Prop := ∃ j, reads t j.

(** The field list of a struct is well formed: its keys are distinct ASCII
    names; what is left is that each text can be read. *)
Ltac fields_tac :=
  split; [apply (bool_decide_unpack _); vm_compute; exact I|];
  repeat (apply Forall_cons; split;
          [split; [apply utf8_ascii; reflexivity
                  |try (let t := fresh in let E := fresh in intros t E; injection E as <-)]|]);
  [..|apply Forall_nil; exact I].

(** The [i]-th field of a carried struct, from what [struct_carried] says. *)
Ltac use_field H i :=
  let o := fresh "o" in let Ho := fresh "Ho" in let E := fresh "E" in
  edestruct H as (o & Ho & E); [eapply (list_elem_of_lookup_2 _ i); reflexivity|]; rewrite E; clear E.

(** ** What a carrier keeps *)
Section Carrier.
Context (R : string → string → Prop).

Record Carries : Prop := mkCarries {
  car_null u : R "null" u → decode u = Some JNull;
  car_str s u : R (quote s) u → decode u = Some (JStr (ToValidUTF8 s));
  car_time t u : year_ok t → R (quote (FormatRFC3339Nano t)) u → u = quote (FormatRFC3339Nano t);
  car_int z u : R (FormatInt z) u → decode u = Some (JNum (FormatInt z));
  car_arr l u : Forall readable l → R (arr_text l) u →
    (∃ js, decode u = Some (JArr js)) ∧ ∃ l', arr_texts u = Some l' ∧ Forall2 R l l';
  car_obj l u : Forall (λ kv, utf8 kv.1 ∧ readable kv.2) l → NoDup l.*1 → R (obj_text l) u →
    (∃ js, decode u = Some (JObj js)) ∧
    ∃ l' l'', obj_texts u = Some l' ∧ l' ≡ₚ l'' ∧ Forall2 (λ a b, a.1 = b.1 ∧ R a.2 b.2) l l''
}.
Context (HR : Carries).

(** ** Structs *)
Definition fields_ok (fields : list (string * option string)) : Prop :=
  NoDup fields.*1 ∧ Forall (λ kv, utf8 kv.1 ∧ ∀ t, kv.2 = Some t → readable t) fields.

Lemma elem_of_emit fields k t : (k, t) ∈ emit fields ↔ (k, Some t) ∈ fields.
Proof.
  unfold emit. rewrite list_elem_of_omap. split.
  - intros ([k' [t'|]] & Hin & E); simpl in E; by simplify_eq.
  - intros ?. exists (k, Some t). done.
Qed.
Lemma emit_sublist fields : (emit fields).*1 `sublist_of` fields.*1.
Proof.
  induction fields as [|[k [t|]] fields IH]; [done|..]; cbn; by constructor.
Qed.
Lemma emit_NoDup fields : NoDup fields.*1 → NoDup (emit fields).*1.
Proof. intros H. by eapply sublist_NoDup; [|apply emit_sublist]. Qed.
Lemma emit_readable fields : fields_ok fields → Forall (λ kv, utf8 kv.1 ∧ readable kv.2) (emit fields).
Proof.
  intros [_ H]. apply Forall_forall. intros [k t] Hin%elem_of_emit.
  destruct (proj1 (Forall_forall _ _) H _ Hin) as [? Hr].
  split; [done|by apply Hr].
Qed.
Lemma struct_readable fields : fields_ok fields → readable (struct_text fields).
Proof.
  intros H%emit_readable. destruct (reads_obj_text (emit fields)) as [l ?]; [|by eexists].
  eapply Forall_impl; [exact H|]. by intros kv [_ ?].
Qed.

Lemma resolve_exact names k : k ∈ names → resolve names k = Some k.
Proof. intros. unfold resolve. by rewrite decide_True. Qed.
Lemma assigned_filter names name l :
  Forall (λ kt, kt.1 ∈ names) l → assigned names name l = (filter (λ kt, kt.1 = name) l).*2.
Proof.
  unfold assigned. induction 1 as [|[k t] l Hk Hl IH]; [done|]. cbn [omap list_omap fst]. simpl in Hk.
  rewrite resolve_exact, filter_cons by done. cbn [fst].
  destruct (decide (Some k = Some name)) as [[= ->]|Hne]; [rewrite decide_True by done|rewrite decide_False by congruence].
  - rewrite fmap_cons. f_equal. exact IH.
  - exact IH.
Qed.
Lemma filter_key_none (l : list (string * string)) name : name ∉ l.*1 → filter (λ kt, kt.1 = name) l = [].
Proof.
  intros Hn. induction l as [|[k v] l IH]; [done|]. rewrite filter_cons. cbn [fst]. case_decide as E.
  - destruct Hn. rewrite fmap_cons. subst. by left.
  - apply IH. intros ?. destruct Hn. rewrite fmap_cons. by right.
Qed.
Lemma filter_key_perm (l l' : list (string * string)) name t :
  l ≡ₚ l' → NoDup l'.*1 → (name, t) ∈ l' → filter (λ kt, kt.1 = name) l = [(name, t)].
Proof.
  intros Hp Hn Hin. apply Permutation_singleton_r. rewrite Hp. clear Hp l.
  induction l' as [|[k v] l IH]; [by apply not_elem_of_nil in Hin|]. rewrite fmap_cons in Hn. apply NoDup_cons in Hn as [Hk Hn].
  rewrite filter_cons. cbn [fst] in *. case_decide as E.
  - subst. assert ((name, t) = (name, v)) as [= ->].
    { apply elem_of_cons in Hin as [|Hin]; [done|]. destruct Hk. apply list_elem_of_fmap. by exists (name, t). }
    by rewrite filter_key_none.
  - apply elem_of_cons in Hin as [[= -> ->]|Hin]; [done|]. auto.
Qed.
(** Every field of a carried struct is assigned the carried text of its
    value, or nothing when it was left out. *)
Lemma struct_carried strict fields u :
  fields_ok fields → R (struct_text fields) u →
  ∃ l, struct_members fields.*1 strict u = Some l ∧
    ∀ name o, (name, o) ∈ fields → ∃ o', option_Forall2 R o o' ∧ assigned fields.*1 name l = option_list o'.
Proof.
  intros Hf HRu. destruct (car_obj HR (emit fields) u) as [[js Hd] (l & l'' & Ht & Hp & H2)]; [by apply emit_readable|apply emit_NoDup, Hf|done|].
  assert (Hk : l''.*1 = (emit fields).*1).
  { clear -H2. induction H2 as [|[] [] ?? [??] ? IH]; [done|]. rewrite !fmap_cons, IH. simpl in *. by subst. }
  assert (Hin : Forall (λ kt, kt.1 ∈ fields.*1) l).
  { apply Forall_forall. intros kt Hkt. eapply elem_of_submseteq; [|apply sublist_submseteq, emit_sublist].
    rewrite <- Hk. apply list_elem_of_fmap. exists kt. by rewrite <- Hp. }
  exists l. unfold struct_members. rewrite Hd, Ht. cbn [mbind option_bind]. split.
  { replace (forallb _ l) with true; [by rewrite andb_false_r|]. symmetry. apply forallb_forall. intros kt Hkt.
    apply bool_decide_eq_true. rewrite resolve_exact; [done|].
    rewrite Forall_forall in Hin. by apply Hin, list_elem_of_In. }
  intros name o Ho. rewrite assigned_filter by done. destruct o as [t|].
  - assert (∃ v, (name, v) ∈ l'' ∧ R t v) as (v & Hv & HRv).
    { apply elem_of_emit in Ho. apply list_elem_of_lookup in Ho as [i Hi].
      destruct (Forall2_lookup_l _ _ _ _ _ H2 Hi) as ([k v] & Hv & E & ?). simpl in *. subst.
      exists v. split; [by eapply list_elem_of_lookup_2|done]. }
    exists (Some v). split; [by constructor|]. rewrite (filter_key_perm l l'' name v); [done|done| |done].
    rewrite Hk. apply emit_NoDup, Hf.
  - exists None. split; [constructor|]. rewrite filter_key_none; [done|].
    rewrite Hp, Hk. intros ([k v] & -> & Hin')%list_elem_of_fmap. apply elem_of_emit in Hin'. simpl in *.
    destruct Hf as [Hn _]. clear -Hn Hin' Ho. induction fields as [|[k' o'] fs IH]; [by apply not_elem_of_nil in Ho|].
    rewrite fmap_cons in Hn. apply NoDup_cons in Hn as [Hk Hn]. simpl in Hk.
    apply elem_of_cons in Hin' as [[= -> <-]|H1], Ho as [[= ?]|H2]; try done.
    all: try (destruct Hk; apply list_elem_of_fmap; by eexists (_, _)). all: auto.
Qed.

(** ** Fields *)
Lemma field_str s o' old :
  option_Forall2 R (Some (quote s)) o' → assign dec_string old (option_list o') = Some (ToValidUTF8 s).
Proof. inversion 1; subst. cbn. unfold dec_string. by erewrite car_str. Qed.
Lemma field_omit_str s o' :
  option_Forall2 R (omit_string s) o' → assign dec_string "" (option_list o') = Some (ToValidUTF8 s).
Proof.
  unfold omit_string. case_decide as E; [|apply field_str]. subst. by inversion 1.
Qed.
Lemma field_int (parse : string → option Z) z o' old :
  parse (FormatInt z) = Some z → option_Forall2 R (Some (FormatInt z)) o' →
  assign (dec_num parse) old (option_list o') = Some z.
Proof. intros Hp. inversion 1; subst. cbn. unfold dec_num. by erewrite car_int. Qed.
Lemma field_omit_int (parse : string → option Z) z o' :
  parse (FormatInt z) = Some z → option_Forall2 R (omit_int z) o' →
  assign (dec_num parse) 0%Z (option_list o') = Some z.
Proof.
  intros Hp. unfold omit_int. case_decide as E; [|by apply field_int]. subst. by inversion 1.
Qed.
Lemma uint32_ok z : uint32 z → (n ← ParseUint (FormatInt z); if (n <? 2^32)%Z then Some n else None) = Some z.
Proof.
  unfold uint32. intros H. rewrite ParseUint_FormatInt by lia. cbn. by rewrite (proj2 (Z.ltb_lt _ _)) by lia.
Qed.

Lemma dec_time_quote t : year_ok t → dec_time zeroTime (quote (FormatRFC3339Nano t)) = Some t.
Proof.
  intros Hy. assert (Hq := time_quote_body t).
  unfold quote. rewrite Hq. unfold dec_time. rewrite decide_False by done.
  change (dquote +:+ ?x) with (String "034" x). cbv iota.
  rewrite string_length_app. replace (_ + _ - 1) with (String.length (FormatRFC3339Nano t)) by (simpl; lia).
  rewrite substring_take. by apply ParseRFC3339_Format.
Qed.
Lemma field_time t x o' :
  marshal_time t = Ok x → option_Forall2 R (Some x) o' → assign dec_time zeroTime (option_list o') = Some t.
Proof.
  unfold marshal_time. case_decide; [|done]. intros [= <-]. inversion 1 as [? u Hu|]; subst.
  apply car_time in Hu as ->; [|done..]. by apply dec_time_quote.
Qed.
Lemma marshal_time_readable t x : marshal_time t = Ok x → readable x.
Proof. unfold marshal_time. case_decide; [|done]. intros [= <-]. eexists. apply reads_quote. Qed.

(** The text of a raw message after the carrier. *)
Definition raw_carried (m m' : RawMessage) : Prop :=
  match m with
  | None | Some "" => m' = None
  | Some t => ∃ u, m' = Some u ∧ R (compact_text false t) u
  end.
Definition payload_carried (m m' : RawMessage) : Prop :=
  ∃ u, m' = Some u ∧ R (match m with Some t => compact_text false t | None => "null" end) u.

Lemma marshal_raw_ok m x :
  marshal_raw m = Ok x → x = match m with Some t => compact_text false t | None => "null" end ∧ readable x.
Proof.
  unfold marshal_raw. destruct m as [t|].
  - destruct (decode t) as [j|] eqn:E; [|done]. intros [= <-]. split; [done|]. exists j. by apply cf_reads.
  - intros [= <-]. split; [done|]. exists JNull. by apply (reads_encode JNull).
Qed.
Lemma marshal_omit_raw_readable m x t : marshal_omit_raw m = Ok x → x = Some t → readable t.
Proof.
  unfold marshal_omit_raw. destruct m as [[|c s]|]; [by intros [= <-]| |by intros [= <-]].
  destruct (marshal_raw _) as [y|] eqn:E; [|done]. intros [= <-] [= <-]. by apply (marshal_raw_ok _ _ E).
Qed.
Lemma field_omit_raw m x o' :
  marshal_omit_raw m = Ok x → option_Forall2 R x o' →
  ∃ m', assign dec_raw None (option_list o') = Some m' ∧ raw_carried m m'.
Proof.
  unfold marshal_omit_raw. destruct m as [[|c s]|]; [intros [= <-]| |intros [= <-]]; try by (inversion 1; subst; exists None).
  destruct (marshal_raw _) as [y|] eqn:E; [|done]. intros [= <-]. inversion 1 as [? u Hu|]; subst.
  exists (Some u). split; [done|]. apply marshal_raw_ok in E as [-> _]. by exists u.
Qed.
Lemma field_raw m x o' :
  marshal_raw m = Ok x → option_Forall2 R (Some x) o' →
  ∃ m', assign dec_raw None (option_list o') = Some m' ∧ payload_carried m m'.
Proof.
  intros [-> _]%marshal_raw_ok. inversion 1 as [? u Hu|]; subst. exists (Some u). split; [done|]. by exists u.
Qed.

(** ** Records *)
Lemma readable_quote s : readable (quote s).
Proof. eexists. apply reads_quote. Qed.
Lemma readable_int z : readable (FormatInt z).
Proof. eexists. apply reads_num, num_ok_FormatInt. Qed.
Lemma readable_omit_string s t : omit_string s = Some t → readable t.
Proof. unfold omit_string. case_decide; [done|]. intros [= <-]. apply readable_quote. Qed.
Lemma readable_omit_int z t : omit_int z = Some t → readable t.
Proof. unfold omit_int. case_decide; [done|]. intros [= <-]. apply readable_int. Qed.

Lemma utxo_fields_ok u :
  fields_ok [("tx_id", Some (quote (utxo_TxID u))); ("vout", Some (FormatInt (utxo_Vout u)));
    ("amount_sats", Some (FormatInt (utxo_AmountSats u))); ("script_pub_key", Some (quote (utxo_ScriptPubKey u)))].
Proof. fields_tac; apply readable_quote || apply readable_int. Qed.
Lemma utxo_carried strict u t : utxo_ok u → R (marshal_utxo u) t → dec_utxo strict zero_utxo t = Some u.
Proof.
  intros (Ht & Hv & Ha & Hs) HRt. destruct (struct_carried strict _ _ (utxo_fields_ok u) HRt) as (l & Hl & Hf).
  change (_.*1) with utxo_names in Hl, Hf. unfold dec_utxo. rewrite Hl. cbn [mbind option_bind].
  use_field Hf 0. erewrite field_str by done. cbn [mbind option_bind].
  use_field Hf 1. unfold dec_uint32. erewrite field_int by (by apply uint32_ok || done). cbn [mbind option_bind].
  use_field Hf 2. unfold dec_int64. erewrite field_int by (by apply ParseInt_FormatInt || done). cbn [mbind option_bind].
  use_field Hf 3. erewrite field_str by done. cbn [mbind option_bind].
  rewrite !ToValidUTF8_id by done. by destruct u.
Qed.

(** ** Slices and maps *)
Lemma elems_carried {A} (zero : A) dec (f : A → string) l ts :
  Forall2 R (f <$> l) ts → Forall (λ x, ∀ t, R (f x) t → dec zero t = Some x) l →
  dec_elems zero dec [] ts = Some l.
Proof.
  revert ts. induction l as [|x l IH]; intros ts H2 Hl; inversion H2 as [|?? ? ? HRx H2']; subst; [done|].
  apply Forall_cons in Hl as [Hx Hl]. cbn. rewrite (Hx _ HRx). cbn. by rewrite IH.
Qed.
Lemma field_slice {A} (zero : A) dec (f : A → string) (l : list A) `{!Decision (l = [])} o' :
  Forall (λ x, readable (f x) ∧ ∀ t, R (f x) t → dec zero t = Some x) l →
  option_Forall2 R (if decide (l = []) then None else Some (arr_text (f <$> l))) o' →
  assign (dec_slice zero dec) ([], 0) (option_list o') = Some (l, length l).
Proof.
  intros Hl. case_decide as E; [subst; by inversion 1|]. inversion 1 as [? u Hu|]; subst. cbn.
  destruct (car_arr HR (f <$> l) u) as ([js Hd] & ts & Ht & H2); [|done|].
  { apply Forall_fmap. eapply Forall_impl; [exact Hl|]. by intros x [? _]. }
  unfold dec_slice. rewrite Hd, Ht. cbn. pose proof (Forall2_length _ _ _ H2) as Hlen. rewrite length_fmap in Hlen.
  rewrite decide_False by (intros ->; by destruct l).
  rewrite (elems_carried zero dec f l ts); [by rewrite Hlen|done|].
  eapply Forall_impl; [exact Hl|]. by intros x [_ ?].
Qed.

Definition map_pairs {A} (m : gmap string A) : list (string * A) := omap (λ k, (λ v, (k, v)) <$> m !! k) (sorted_keys m).
Lemma map_pairs_fmap {A B} (h : string → A → B) (m : gmap string A) :
  omap (λ k, (λ v, (k, h k v)) <$> m !! k) (sorted_keys m) = (λ kv, (kv.1, h kv.1 kv.2)) <$> map_pairs m.
Proof.
  unfold map_pairs. induction (sorted_keys m) as [|k l IH]; [done|]. cbn.
  destruct (m !! k); cbn; [|done]. by f_equal.
Qed.
Lemma map_pairs_perm {A} (m : gmap string A) : map_pairs m ≡ₚ map_to_list m.
Proof.
  apply NoDup_Permutation.
  - apply (NoDup_fmap_1 fst). assert ((map_pairs m).*1 = sorted_keys m) as ->; [|apply sorted_keys_NoDup].
    unfold map_pairs. assert (Hk : ∀ k, k ∈ sorted_keys m → is_Some (m !! k)) by by intros k ?%elem_of_sorted_keys.
    induction (sorted_keys m) as [|k l IH]; [done|]. cbn. destruct (Hk k) as [v ->]; [by left|]. cbn. f_equal.
    apply IH. intros k' ?. apply Hk. by right.
  - apply NoDup_map_to_list.
  - intros [k v]. rewrite elem_of_map_to_list. unfold map_pairs. rewrite list_elem_of_omap. split.
    + intros (k' & _ & E). destruct (m !! k') eqn:Hk; simpl in E; by simplify_eq.
    + intros Hk. exists k. split; [apply elem_of_sorted_keys; eauto|]. by rewrite Hk.
Qed.
Lemma collect_spec {A} (f : A → res string) (ps : list (string * A)) l :
  collect ((λ kv, (kv.1, f kv.2)) <$> ps) = Ok l → Forall2 (λ kv kt, kt.1 = kv.1 ∧ f kv.2 = Ok kt.2) ps l.
Proof.
  revert l. induction ps as [|[k v] ps IH]; intros l; cbn; [by intros [= <-]; constructor|].
  destruct (f v) as [t|] eqn:E; [|done]. destruct (collect _) as [ts|] eqn:Ec; [|done]. intros [= <-].
  constructor; [done|]. by apply IH.
Qed.

Lemma fold_insert {A} (dec : string → option A) (zero : A) l acc :
  Forall (λ kt, is_Some (dec kt.2)) l →
  foldl (λ acc (kt : string * string), m ← acc; v ← dec kt.2; Some (<[kt.1 := v]> m)) (Some acc) l
    = Some (foldl (λ (m : gmap string A) kt, <[kt.1 := default zero (dec kt.2)]> m) acc l).
Proof.
  intros Hl. revert acc. induction Hl as [|kt l [v Hv] Hl IH]; intros acc; [done|]. cbn. rewrite Hv. cbn. apply IH.
Qed.
Lemma foldl_insert_map {A} (l : list (string * A)) :
  NoDup l.*1 → foldl (λ (m : gmap string A) kv, <[kv.1 := kv.2]> m) ∅ l = list_to_map l.
Proof.
  induction l as [|[k v] l IH] using rev_ind; intros Hn; [done|]. rewrite foldl_app. cbn.
  rewrite (list_to_map_proper (l ++ [(k, v)]) ((k, v) :: l)); [|done|by rewrite Permutation_app_comm].
  cbn. rewrite IH; [done|]. rewrite fmap_app in Hn. by apply NoDup_app in Hn as [? _].
Qed.

Lemma map_carried {A} (zero : A) dec (f : A → res string) (g : A → A) (m : gmap string A) x u :
  map_Forall (λ k v, utf8 k ∧ ∀ t, f v = Ok t → readable t ∧ ∀ t', R t t' → dec zero t' = Some (g v)) m →
  marshal_map f (Some m) = Ok x → readable x ∧ (R x u → dec_map zero dec None u = Some (Some (g <$> m))).
Proof.
  intros Hm. unfold marshal_map. rewrite (map_pairs_fmap (λ _, f)).
  destruct (collect _) as [l|] eqn:Hc; [|done]. intros [= <-]. apply collect_spec in Hc.
  assert (Hp := map_pairs_perm m).
  assert (Hin : ∀ kv, kv ∈ map_pairs m → m !! kv.1 = Some kv.2).
  { intros [k v]. rewrite Hp. apply elem_of_map_to_list. }
  assert (Hk : l.*1 = (map_pairs m).*1).
  { clear -Hc. induction Hc as [|[] [] ?? [??] ? IH]; [done|]. rewrite !fmap_cons, IH. simpl in *. by subst. }
  assert (Hok : Forall (λ kv, utf8 kv.1 ∧ readable kv.2) l).
  { clear -Hc Hin Hm. induction Hc as [|[k v] [k' t] ps l [E Ef] Hc IH]; [done|]. simpl in *. subst. constructor.
    - destruct (Hm k v) as [? Hf]; [apply (Hin (k, v)); by left|]. split; [done|]. by apply Hf.
    - apply IH. intros kv ?. apply Hin. by right. }
  assert (Hn : NoDup l.*1). { rewrite Hk, Hp. apply NoDup_fst_map_to_list. }
  split.
  { destruct (reads_obj_text l) as [js ?]; [|by eexists]. eapply Forall_impl; [exact Hok|]. by intros kv [_ ?]. }
  intros Hu. destruct (car_obj HR l u Hok Hn Hu) as ([js Hd] & l' & l'' & Ht & Hperm & H2).
  unfold dec_map. rewrite Hd, Ht. cbn [mbind option_bind default].
  assert (Hdec : Forall2 (λ kv kt, kt.1 = kv.1 ∧ dec zero kt.2 = Some (g kv.2)) (map_pairs m) l'').
  { clear -Hc H2 Hin Hm. revert l'' H2. induction Hc as [|[k v] [k' t] ps l [E Ef] Hc IH]; intros l'' H2;
      inversion H2 as [|? [k'' t'] ? ? [? ?] ?]; subst; [constructor|]. simpl in *. subst. constructor.
    - split; [done|]. destruct (Hm k'' v) as [_ Hf]; [apply (Hin (k'', v)); by left|]. by eapply Hf.
    - apply IH; [|done]. intros kv ?. apply Hin. by right. }
  set (h := λ kt : string * string, (kt.1, default zero (dec zero kt.2))).
  assert (Hh : h <$> l'' = prod_map id g <$> map_pairs m).
  { clear -Hdec. induction Hdec as [|[k v] [k' t] ps l'' [E Ed] Hd IH]; [done|]. rewrite !fmap_cons, IH. unfold h.
    simpl in *. by rewrite E, Ed. }
  rewrite (fold_insert (dec zero) zero).
  2: { rewrite Hperm. clear -Hdec. induction Hdec as [|kv kt ps l'' [_ E] _ IH]; constructor; [|done]. rewrite E. eauto. }
  cbn [mbind option_bind]. do 2 f_equal.
  transitivity (foldl (λ (m : gmap string A) kv, <[kv.1 := kv.2]> m) ∅ (h <$> l')).
  { clear. generalize (∅ : gmap string A) as acc. induction l' as [|kt l' IH]; intros acc; [done|]. cbn. apply IH. }
  assert (Hperm' : h <$> l' ≡ₚ map_to_list (g <$> m)).
  { rewrite Hperm, Hh, Hp. by rewrite map_to_list_fmap. }
  rewrite foldl_insert_map. 2: { rewrite Hperm'. apply NoDup_fst_map_to_list. }
  rewrite <- (list_to_map_to_list (g <$> m)). apply list_to_map_proper; [|done].
  rewrite Hperm'. apply NoDup_fst_map_to_list.
Qed.

(** ** Requests, raw transactions, approvals, proposals *)
Lemma request_fields_ok r md x :
  marshal_omit_raw md = Ok x → fields_ok (request_fields r x).
Proof.
  intros Hx. unfold request_fields. fields_tac; try (apply readable_quote || apply readable_int).
  - apply readable_omit_int.
  - apply readable_omit_int.
  - apply readable_omit_string.
  - apply readable_omit_string.
  - intros t. case_decide; [done|]. intros [= <-]. destruct (reads_arr_text (marshal_utxo <$> req_UTXOs r)) as [js ?]; [|by eexists].
    apply Forall_fmap, Forall_true. intros u. apply struct_readable, utxo_fields_ok.
  - intros t Ht. by eapply marshal_omit_raw_readable.
Qed.
Lemma marshal_request_readable r t : marshal_request r = Ok t → readable t.
Proof.
  unfold marshal_request. destruct (marshal_omit_raw _) as [x|] eqn:E; [|done]. intros [= <-].
  by eapply struct_readable, request_fields_ok.
Qed.

Definition with_metadata (md : RawMessage) (r : TransactionRequest) : TransactionRequest :=
  mkTransactionRequest (req_WalletID r) (req_To r) (req_Amount r) (req_FeeRateSats r) (req_GasLimit r)
    (req_MaxFeePerGas r) (req_Data r) (req_UTXOs r) md.

Lemma request_carried strict r t u :
  request_ok r → marshal_request r = Ok t → R t u →
  ∃ md, dec_request strict zero_request u = Some (with_metadata md r) ∧ raw_carried (req_Metadata r) md.
Proof.
  intros (Hw & Hto & Ha & Hf & Hg & Hm & Hd & Hu). unfold marshal_request.
  destruct (marshal_omit_raw (req_Metadata r)) as [x|] eqn:Ex; [|done]. intros [= <-] HRu.
  destruct (struct_carried strict _ _ (request_fields_ok r _ _ Ex) HRu) as (l & Hl & Hfl).
  change (_.*1) with request_names in Hl, Hfl. unfold dec_request. rewrite Hl. cbn [mbind option_bind].
  use_field Hfl 0. erewrite field_str by done. cbn [mbind option_bind].
  use_field Hfl 1. erewrite field_str by done. cbn [mbind option_bind].
  use_field Hfl 2. erewrite field_str by done. cbn [mbind option_bind].
  use_field Hfl 3. unfold dec_int64. erewrite field_omit_int by (by apply ParseInt_FormatInt || done). cbn [mbind option_bind].
  use_field Hfl 4. unfold dec_uint64. erewrite field_omit_int by (by apply ParseUint_FormatInt || done). cbn [mbind option_bind].
  use_field Hfl 5. erewrite field_omit_str by done. cbn [mbind option_bind].
  use_field Hfl 6. erewrite field_omit_str by done. cbn [mbind option_bind].
  use_field Hfl 7. cbn [zero_request req_UTXOs length]. erewrite field_slice; [| |done].
  2: { eapply Forall_impl; [exact Hu|]. intros v Hv. split; [apply struct_readable, utxo_fields_ok|].
       intros t'. by apply utxo_carried. }
  cbn [mbind option_bind fst snd].
  use_field Hfl 8. cbn [zero_request req_Metadata]. destruct (field_omit_raw (req_Metadata r) x o7 Ex Ho7) as (md & -> & Hmd).
  exists md. split; [|done]. cbn [mbind option_bind]. unfold with_metadata.
  by rewrite !ToValidUTF8_id, firstn_all by done.
Qed.

Lemma raw_fields_ok r x : marshal_raw (raw_Payload r) = Ok x →
  fields_ok [("chain", Some (quote (raw_Chain r))); ("payload", Some x)].
Proof. intros [_ Hx]%marshal_raw_ok. fields_tac; [apply readable_quote|done]. Qed.
Lemma raw_transaction_carried strict r t :
  marshal_raw_transaction r = Ok t →
  readable t ∧ ∀ u, R t u → ∃ pl, dec_raw_transaction strict (mkRawTransaction "" None) u
    = Some (mkRawTransaction (ToValidUTF8 (raw_Chain r)) pl) ∧ payload_carried (raw_Payload r) pl.
Proof.
  unfold marshal_raw_transaction. destruct (marshal_raw _) as [x|] eqn:Ex; [|done]. intros [= <-].
  split; [by apply struct_readable, raw_fields_ok|]. intros u HRu.
  destruct (struct_carried strict _ _ (raw_fields_ok r x Ex) HRu) as (l & Hl & Hf).
  change (_.*1) with ["chain"; "payload"] in Hl, Hf. unfold dec_raw_transaction. rewrite Hl. cbn [mbind option_bind].
  use_field Hf 0. erewrite field_str by done. cbn [mbind option_bind].
  use_field Hf 1. cbn [raw_Payload]. destruct (field_raw (raw_Payload r) x o0 Ex Ho0) as (pl & -> & Hpl). by exists pl.
Qed.

Lemma approval_carried strict a t :
  utf8 (ap_SignerID a) → marshal_approval a = Ok t →
  readable t ∧ ∀ u, R t u → dec_approval strict zero_approval u = Some a.
Proof.
  intros Hs. unfold marshal_approval. destruct (marshal_time _) as [x|] eqn:Ex; [|done]. intros [= <-].
  assert (Hok : fields_ok [("signer_id", Some (quote (ap_SignerID a))); ("created_at", Some x)]).
  { fields_tac; [apply readable_quote|by eapply marshal_time_readable]. }
  split; [by apply struct_readable|]. intros u HRu. destruct (struct_carried strict _ _ Hok HRu) as (l & Hl & Hf).
  change (_.*1) with ["signer_id"; "created_at"] in Hl, Hf. unfold dec_approval. rewrite Hl. cbn [mbind option_bind].
  use_field Hf 0. erewrite field_str by done. cbn [mbind option_bind].
  use_field Hf 1. erewrite field_time by done. cbn [mbind option_bind]. rewrite ToValidUTF8_id by done. by destruct a.
Qed.

Definition trace_carried (m : option (gmap string string)) : option (gmap string string) :=
  match m with
  | None => None
  | Some m => if decide (m = ∅) then None else Some (ToValidUTF8 <$> m)
  end.

Lemma field_approvals strict m x o' :
  approvals_texts m → marshal_map marshal_approval m = Ok x →
  readable x ∧ (option_Forall2 R (Some x) o' →
    assign (dec_map zero_approval (dec_approval strict)) None (option_list o') = Some m).
Proof.
  intros Hm Hx. destruct m as [m|].
  - pose proof (λ u, map_carried zero_approval (dec_approval strict) marshal_approval id m x u) as Hc.
    assert (Hall : map_Forall (λ k v, utf8 k ∧ ∀ t, marshal_approval v = Ok t →
      readable t ∧ ∀ t', R t t' → dec_approval strict zero_approval t' = Some (id v)) m).
    { intros k a Ha. destruct (Hm k a Ha) as [? ?]. split; [done|]. intros t. by apply approval_carried. }
    split; [by apply (Hc "")|]. inversion 1 as [? u Hu|]; subst. cbn. rewrite map_fmap_id in Hc. by apply Hc.
  - injection Hx as <-. split; [exists JNull; by apply (reads_encode JNull)|].
    inversion 1 as [? u Hu|]; subst. cbn. unfold dec_map. by rewrite (car_null HR u Hu).
Qed.
Lemma field_trace m x o' :
  trace_texts m → omit_map m = Ok x →
  (∀ t, x = Some t → readable t) ∧ (option_Forall2 R x o' →
    assign (dec_map "" dec_string) None (option_list o') = Some (trace_carried m)).
Proof.
  intros Hm. unfold omit_map, trace_carried. destruct m as [m|]; [|intros [= <-]; split; [done|by inversion 1]].
  case_decide as Hne; [intros [= <-]; split; [done|by inversion 1]|].
  destruct (marshal_map _ _) as [t|] eqn:Et; [|done]. intros [= <-].
  pose proof (λ u, map_carried "" dec_string (λ v, Ok (quote v)) ToValidUTF8 m t u) as Hc.
  assert (Hall : map_Forall (λ k v, utf8 k ∧ ∀ t, Ok (E := GoError) (quote v) = Ok t →
      readable t ∧ ∀ t', R t t' → dec_string "" t' = Some (ToValidUTF8 v)) m).
  { intros k v Hv. split; [by apply (Hm k v)|]. intros t' [= <-]. split; [apply readable_quote|].
    intros t' Ht'. unfold dec_string. by rewrite (car_str HR _ _ Ht'). }
  split; [intros ? [= <-]; by apply (Hc "")|]. inversion 1 as [? u Hu|]; subst. cbn. by apply Hc.
Qed.

(** What comes back for a proposal, given the carried raw messages. *)
Definition carried_proposal (p : TransactionProposal) (md pl : RawMessage) : TransactionProposal :=
  mkTransactionProposal (tp_ID p) (tp_WalletID p) (tp_Chain p) (tp_Status p)
    (with_metadata md (tp_Request p)) (mkRawTransaction (ToValidUTF8 (raw_Chain (tp_RawTransaction p))) pl)
    (tp_Approvals p) (tp_SignedTransaction p) (ToValidUTF8 (tp_BroadcastHash p)) (ToValidUTF8 (tp_Error p))
    (trace_carried (tp_Trace p)) (tp_CreatedAt p) (tp_UpdatedAt p).

(** A printed proposal, taken apart. *)
Lemma marshal_proposal_inv p t :
  marshal_proposal p = Ok t →
  ∃ request raw approvals trace created updated,
    marshal_request (tp_Request p) = Ok request ∧ marshal_raw_transaction (tp_RawTransaction p) = Ok raw ∧
    marshal_map marshal_approval (tp_Approvals p) = Ok approvals ∧ omit_map (tp_Trace p) = Ok trace ∧
    marshal_time (tp_CreatedAt p) = Ok created ∧ marshal_time (tp_UpdatedAt p) = Ok updated ∧
    t = struct_text (proposal_fields p request raw approvals created updated trace).
Proof.
  unfold marshal_proposal. intros H. repeat (case_match; [|done]). simplify_eq. eauto 14.
Qed.

Lemma proposal_carried p t u :
  proposal_ok p → marshal_proposal p = Ok t → R t u →
  ∃ md pl, unmarshal_proposal u = Ok (carried_proposal p md pl) ∧
    raw_carried (req_Metadata (tp_Request p)) md ∧ payload_carried (raw_Payload (tp_RawTransaction p)) pl.
Proof.
  intros (Hi & Hw & Hc & Hs & Hr & Ha & Hsg & Ht)
    (request & raw & aps & trace & created & updated & Er & Eraw & Ea & Et & Ec & Eu & ->)%marshal_proposal_inv HRu.
  destruct (raw_transaction_carried false _ _ Eraw) as [Hraw1 Hraw2].
  assert (Hok : fields_ok (proposal_fields p request raw aps created updated trace)).
  { unfold proposal_fields. fields_tac; try apply readable_quote.
    - by eapply marshal_request_readable.
    - done.
    - by apply (field_approvals false _ _ None Ha Ea).
    - apply readable_omit_string.
    - apply readable_omit_string.
    - apply readable_omit_string.
    - by apply (field_trace _ _ None Ht Et).
    - by eapply marshal_time_readable.
    - by eapply marshal_time_readable. }
  destruct (struct_carried false _ _ Hok HRu) as (l & Hl & Hf).
  change (_.*1) with proposal_names in Hl, Hf. unfold unmarshal_proposal, dec_proposal. rewrite Hl. cbn [mbind option_bind].
  use_field Hf 0. erewrite field_str by done. cbn [mbind option_bind].
  use_field Hf 1. erewrite field_str by done. cbn [mbind option_bind].
  use_field Hf 2. erewrite field_str by done. cbn [mbind option_bind].
  use_field Hf 3. erewrite field_str by done. cbn [mbind option_bind].
  use_field Hf 4. inversion Ho3 as [? ur Hur|]; subst.
  destruct (request_carried false _ _ _ Hr Er Hur) as (md & Hmd & ?).
  change (assign (dec_request false) (tp_Request zero_proposal) (option_list (Some ur)))
    with (dec_request false zero_request ur). rewrite Hmd. cbn [mbind option_bind].
  use_field Hf 5. inversion Ho4 as [? uw Huw|]; subst. destruct (Hraw2 _ Huw) as (pl & Hpl & ?).
  change (assign (dec_raw_transaction false) (tp_RawTransaction zero_proposal) (option_list (Some uw)))
    with (dec_raw_transaction false (mkRawTransaction "" None) uw). rewrite Hpl. cbn [mbind option_bind].
  use_field Hf 6. cbn [zero_proposal tp_Approvals].
  rewrite (proj2 (field_approvals false _ _ _ Ha Ea) Ho5). cbn [mbind option_bind].
  use_field Hf 7. erewrite field_omit_str by done. cbn [mbind option_bind].
  use_field Hf 8. erewrite field_omit_str by done. cbn [mbind option_bind].
  use_field Hf 9. erewrite field_omit_str by done. cbn [mbind option_bind].
  use_field Hf 10. cbn [zero_proposal tp_Trace]. rewrite (proj2 (field_trace _ _ _ Ht Et) Ho9). cbn [mbind option_bind].
  use_field Hf 11. cbn [zero_proposal tp_CreatedAt]. erewrite (field_time _ created) by done. cbn [mbind option_bind].
  use_field Hf 12. cbn [zero_proposal tp_UpdatedAt]. erewrite (field_time _ updated) by done. cbn [mbind option_bind].
  exists md, pl. split; [|done]. unfold carried_proposal.
  by rewrite (ToValidUTF8_id (tp_ID p)), (ToValidUTF8_id (tp_WalletID p)), (ToValidUTF8_id (tp_Chain p)),
    (ToValidUTF8_id (tp_Status p)), (ToValidUTF8_id (tp_SignedTransaction p)) by done.
Qed.
End Carrier.
Arguments car_null {R}. Arguments car_str {R}. Arguments car_time {R}. Arguments car_int {R}.
Arguments car_arr {R}. Arguments car_obj {R}.

(** ** Nothing in between: print, then parse *)
Lemma Forall2_reflexive {A} (P : A → A → Prop) l : (∀ x, P x x) → Forall2 P l l.
Proof. intros H. by induction l; constructor. Qed.
Lemma carries_eq : Carries eq.
Proof.
  split.
  - by intros u <-.
  - intros s u <-. apply decode_reads_exact, reads_quote.
  - by intros t u _ <-.
  - intros z u <-. apply decode_reads_exact, reads_num, num_ok_FormatInt.
  - intros l u Hl <-. split.
    + destruct (reads_arr_text l Hl) as [js ?]. exists js. by apply decode_reads_exact.
    + exists l. split; [by apply arr_texts_arr_text|]. by apply Forall2_reflexive.
  - intros l u Hl Hn <-. assert (Hr : Forall (λ kv, ∃ j, reads kv.2 j) l) by (eapply Forall_impl; [exact Hl|]; by intros kv [_ ?]).
    split.
    + destruct (reads_obj_text l Hr) as [js ?]. exists js. by apply decode_reads_exact.
    + exists l, l. split; [|split; [done|by apply Forall2_reflexive]].
      rewrite obj_texts_obj_text by done. f_equal. rewrite <- (list_fmap_id l) at 2. apply list_fmap_ext.
      intros i [k t] Hi. simpl. assert (Hin := list_elem_of_lookup_2 _ _ _ Hi).
      rewrite ToValidUTF8_id; [done|]. by apply (proj1 (Forall_forall _ _) Hl (k, t)).
Qed.

(** What a client reads from the printed text of a proposal: raw messages in
    their printed form, a missing payload as null, an empty trace as none, and
    U+FFFD for bytes that are not UTF-8. *)
Definition read_metadata (m : RawMessage) : RawMessage :=
  match m with None | Some "" => None | Some t => Some (compact_text false t) end.
Definition read_payload (m : RawMessage) : RawMessage :=
  Some (match m with Some t => compact_text false t | None => "null" end).
Definition read_back (p : TransactionProposal) : TransactionProposal :=
  carried_proposal p (read_metadata (req_Metadata (tp_Request p))) (read_payload (raw_Payload (tp_RawTransaction p))).

Lemma proposal_read_back p t :
  proposal_ok p → marshal_proposal p = Ok t → unmarshal_proposal t = Ok (read_back p).
Proof.
  intros Hp Ht. destruct (proposal_carried eq carries_eq p t t Hp Ht eq_refl) as (md & pl & -> & Hmd & (u & -> & <-)).
  unfold read_back. do 2 f_equal. destruct (req_Metadata (tp_Request p)) as [[|c s]|]; [done| |done]. by destruct Hmd as (v & -> & <-).
Qed.

(** The proposals of which nothing is lost. *)
Definition printable (p : TransactionProposal) : Prop :=
  utf8 (raw_Chain (tp_RawTransaction p)) ∧ utf8 (tp_BroadcastHash p) ∧ utf8 (tp_Error p) ∧
  tp_Trace p ≠ Some ∅ ∧ map_Forall (λ _ v, utf8 v) (default ∅ (tp_Trace p)) ∧
  read_metadata (req_Metadata (tp_Request p)) = req_Metadata (tp_Request p) ∧
  read_payload (raw_Payload (tp_RawTransaction p)) = raw_Payload (tp_RawTransaction p).
#[export] Instance printable_dec p : Decision (printable p).
Proof. unfold printable. apply _. Defined.

Lemma trace_carried_id m :
  m ≠ Some ∅ → map_Forall (λ _ v, utf8 v) (default ∅ m) → trace_carried m = m.
Proof.
  destruct m as [m|]; [|done]. intros Hne Hm. unfold trace_carried. rewrite decide_False by congruence. f_equal.
  rewrite <- (map_fmap_id m) at 2. apply map_fmap_ext. intros k v Hv. by apply ToValidUTF8_id, (Hm k v).
Qed.
Lemma printable_read_back p : printable p → read_back p = p.
Proof.
  intros (Hc & Hh & He & Hne & Ht & Hm & Hp). unfold read_back, carried_proposal. rewrite Hm, Hp.
  rewrite (ToValidUTF8_id _ Hc), (ToValidUTF8_id _ Hh), (ToValidUTF8_id _ He), (trace_carried_id _ Hne Ht).
  by destruct p as [? ? ? ? [] [] ? ? ? ? ? ? ?].
Qed.
