(* ===== verification/Http.v ===== *)
(** * What the server uses of [net/http] and [net/url]

    Requests and responses, query parameters, and [http.ServeMux] (Go 1.22
    patterns: a method, literal segments, a trailing slash for a subtree). *)
From Stdlib Require Import Ascii.
From S2P Require Import Prelude GoStd GoError Types Json.

(** A request as a handler sees it.  [EscapedPath] is the path as it was sent,
    [Path] the same path decoded; [Header] is [r.Header.Get]; [Body] is [None]
    when reading it fails. *)
Record HttpRequest := mkHttpRequest {
  Method : string;
  Path : string;
  EscapedPath : string;
  RawQuery : string;
  Header : string → string;
  Body : option string
}.

(** A response.  [resp_Redirect] is the path and query of the [Location] URL;
    the HTML page of a redirect is not modelled ([resp_Body] is then [""]). *)
Record HttpResponse := mkHttpResponse {
  resp_Status : Z;
  resp_ContentType : string;
  resp_Allow : list string;
  resp_Redirect : option (string * string);
  resp_Body : string
}.

Definition plain_response (status : Z) (allow : list string) (text : string) : HttpResponse :=
  mkHttpResponse status "text/plain; charset=utf-8" allow None (text +:+ newline).

(** ** Percent decoding ([url.PathUnescape], [url.QueryUnescape]) *)
Fixpoint unescape (plus : bool) (s : string) : option string :=
  match s with
  | "" => Some ""
  | String "%" (String a (String b r)) =>
      x ← hex_val a; y ← hex_val b; t ← unescape plus r; Some (String (ascii_of_N (16 * x + y)) t)
  | String "%" _ => None
  | String c r => t ← unescape plus r; Some (String (if plus && bool_decide (c = "+"%char) then " "%char else c) t)
  end.

(** ** Query parameters ([url.ParseQuery], [Values.Get]) *)
Definition cut (c : ascii) (s : string) : string * string :=
  match cut_byte c s with Some (a, String _ b) => (a, b) | _ => (s, "") end.
Definition query_pair (item : string) : option (string * string) :=
  if has_byte ";" item || bool_decide (item = "") then None
  else let '(k, v) := cut "=" item in k' ← unescape true k; v' ← unescape true v; Some (k', v').
Definition query_get (raw key : string) : string :=
  default "" (snd <$> head (filter (λ kv, kv.1 = key) (omap query_pair (Split "&" raw)))).

(** ** Path cleaning ([path.Clean] of a rooted path, [cleanPath]) *)
Definition clean_step (acc : list string) (seg : string) : list string :=
  if decide (seg = "" ∨ seg = ".") then acc
  else if decide (seg = "..") then take (pred (length acc)) acc
  else acc ++ [seg].
Definition ends_with_slash (p : string) : bool := bool_decide (last (Split "/" p) = Some "" ∧ p ≠ "").
Definition cleanPath (p : string) : string :=
  let segs := foldl clean_step [] (Split "/" p) in
  "/" +:+ Join "/" segs +:+ (if ends_with_slash p && negb (bool_decide (segs = [])) then "/" else "").

(** ** Patterns and matching *)
Record Pattern := mkPattern { pat_Method : string; pat_Segments : list string; pat_Subtree : bool }.

(** The segments of a path after its leading slash, each decoded (and left as
    it is when it cannot be). *)
Definition segments (p : string) : list string :=
  (λ s, default s (unescape false s)) <$> Split "/" (TrimPrefix p "/").

Definition path_matches (p : Pattern) (path : string) : bool :=
  let segs := segments path in
  if pat_Subtree p
  then bool_decide (take (length (pat_Segments p)) segs = pat_Segments p ∧ length (pat_Segments p) < length segs)
  else bool_decide (segs = pat_Segments p).
(** A [GET] pattern also serves [HEAD]. *)
Definition method_matches (p : Pattern) (method : string) : bool :=
  bool_decide (method = pat_Method p ∨ (method = "HEAD" ∧ pat_Method p = "GET")).

Section Mux.
Context {H : Type} (routes : list (Pattern * H)).

Definition find_route (method path : string) : option (Pattern * H) :=
  head (filter (λ r, method_matches r.1 method && path_matches r.1 path = true) routes).

Fixpoint count_byte (c : ascii) (s : string) : nat :=
  match s with "" => 0 | String a r => (if decide (a = c) then 1 else 0) + count_byte c r end.
(** A subtree pattern matches exactly when nothing follows its slash. *)
Definition exact_match (r : option (Pattern * H)) (path : string) : bool :=
  match r with
  | None => false
  | Some (p, _) =>
      if pat_Subtree p
      then ends_with_slash path && bool_decide (S (length (pat_Segments p)) = count_byte "/" path)
      else true
  end.

Inductive Routed := ToHandler (h : H) | ToRedirect (path query : string) | ToError (status : Z) (allow : list string).

(** The methods for which some pattern would match, sorted. *)
Definition matchingMethods (path : string) : list string :=
  let ms := (λ r : Pattern * H, pat_Method r.1) <$>
    filter (λ r, path_matches r.1 path || (negb (ends_with_slash path) && path_matches r.1 (path +:+ "/")) = true) routes in
  let set : gset string := list_to_set (ms ++ (if bool_decide ("GET" ∈ ms) then ["HEAD"] else [])) in
  SortStrings (base.elements set).

Definition not_found (path : string) : Routed :=
  match matchingMethods path with
  | [] => ToError 404 []
  | allow => ToError 405 allow
  end.

(** [ServeMux.findHandler]. *)
Definition route (r : HttpRequest) : Routed :=
  let path := if decide (Method r = "CONNECT") then EscapedPath r else cleanPath (EscapedPath r) in
  let n := find_route (Method r) path in
  if negb (exact_match n path) && negb (ends_with_slash path)
     && exact_match (find_route (Method r) (path +:+ "/")) (path +:+ "/")
  then ToRedirect (cleanPath (Path r) +:+ "/") (RawQuery r)
  else if negb (bool_decide (Method r = "CONNECT")) && negb (bool_decide (path = EscapedPath r))
  then ToRedirect path (RawQuery r)
  else match n with Some (_, h) => ToHandler h | None => not_found path end.
End Mux.
Arguments ToHandler {H}. Arguments ToRedirect {H}. Arguments ToError {H}.

Example clean_ex : cleanPath "/a/./b//../c/" = "/a/c/" ∧ cleanPath "" = "/" ∧ cleanPath "/.." = "/".
Proof. vm_compute. done. Qed.
Example query_ex : query_get "limit=5&resource_id=a%2Bb+c&limit=7" "resource_id" = "a+b c".
Proof. vm_compute. done. Qed.
