(* ===== verification/GoFloat.v ===== *)
(** * [float64] values printed by the metrics page

    [time.Duration.Seconds] in IEEE double precision (the standard library's
    [SpecFloat]) and the verb [%g] of [fmt]: the shortest decimal digits that
    read back as the same number, in scientific notation when the exponent is
    below -4 or at least 6. *)
From Stdlib Require Import Ascii SpecFloat.
From S2P Require Import Prelude GoStd.
Local Open Scope Z_scope.

Abbreviation prec := 53%Z. Abbreviation emax := 1024%Z.

(** [float64(n)] of an integer: to nearest, ties to even. *)
Definition float_of_int (n : Z) : spec_float := binary_normalize prec emax n 0 false.

Definition Second : Z := 1000000000.
(** [Duration.Seconds]; Go's [/] and [%] truncate towards zero. *)
Definition Seconds (d : Z) : spec_float :=
  SFadd prec emax (float_of_int (Z.quot d Second))
    (SFdiv prec emax (float_of_int (Z.rem d Second)) (float_of_int Second)).

(** ** Shortest digits ([strconv.FormatFloat] with precision -1)

    The numbers that read back as [m * 2^e] lie within half a unit of it (a
    quarter below a power of two), the bounds included when [m] is even.
    Everything is in quarters: [lo], [mid], [hi] times [2^(e-2)]. *)
Record Bounds := mkBounds { b_lo : Z; b_mid : Z; b_hi : Z; b_closed : bool }.
Definition bounds (m : positive) (e : Z) : Bounds :=
  let q := 4 * Zpos m in
  mkBounds (if bool_decide (m = Pos.pow 2 52) && bool_decide (e ≠ -1074) then q - 1 else q - 2)
    q (q + 2) (Z.even (Zpos m)).

(** Does [d * 10^x] read back?  Both sides scaled to integers. *)
Definition scale (x : Z) : Z * Z := if decide (0 ≤ x) then (10 ^ x, 1) else (1, 10 ^ (- x)).
Definition bin_scale (e : Z) : Z * Z := if decide (0 ≤ e) then (2 ^ e, 1) else (1, 2 ^ (- e)).
Definition reads_back (b : Bounds) (e d x : Z) : bool :=
  let '(dn, dd) := scale x in let '(bn, bd) := bin_scale (e - 2) in
  let v := d * dn * bd in let at_ q := q * bn * dd in
  if b_closed b then (at_ (b_lo b) <=? v) && (v <=? at_ (b_hi b))
  else (at_ (b_lo b) <? v) && (v <? at_ (b_hi b)).

(** The nearer of [d] and [d+1] to the number, ties to even. *)
Definition nearer (b : Bounds) (e d x : Z) : Z :=
  let '(dn, dd) := scale x in let '(bn, bd) := bin_scale (e - 2) in
  match Z.compare (2 * b_mid b * bn * dd) ((2 * d + 1) * dn * bd) with
  | Lt => d
  | Eq => if Z.even d then d else d + 1
  | Gt => d + 1
  end.

(** The position of the first decimal digit: the largest [x] with
    [10^x <= m * 2^e], found from an estimate of the logarithm. *)
Definition floor_at (m : positive) (e x : Z) : Z :=
  let '(dn, dd) := scale x in let '(bn, bd) := bin_scale e in (Zpos m * bn * dd) / (dn * bd).
Definition first_digit (m : positive) (e : Z) : Z :=
  let l := Z.log2 (Zpos m) + e in
  let x := l * 30103 / 100000 in
  if floor_at m e (x + 1) =? 0 then (if floor_at m e x =? 0 then x - 1 else x) else x + 1.

Fixpoint shortest_from (fuel : nat) (m : positive) (e x : Z) : Z * Z :=
  let b := bounds m e in
  let d := floor_at m e x in
  match fuel with
  | O => (nearer b e d x, x)
  | S f =>
      match reads_back b e d x, reads_back b e (d + 1) x with
      | true, true => (nearer b e d x, x)
      | true, false => (d, x)
      | false, true => (d + 1, x)
      | false, false => shortest_from f m e (x - 1)
      end
  end.
(** Seventeen digits always identify a [float64]. *)
Definition shortest (m : positive) (e : Z) : Z * Z := shortest_from 16 m e (first_digit m e).

(** ** The verb [%g] *)
Fixpoint zeros (n : nat) : string := match n with O => "" | S k => String "0" (zeros k) end.
Definition two_digits (n : Z) : string := if n <? 10 then "0" +:+ FormatInt n else FormatInt n.
Definition digits_text (d : Z) : string := TrimRightByte "0" (FormatInt d).
Definition point_after (n : nat) (s : string) : string :=
  let frac := String.substring n (String.length s - n) s in
  String.substring 0 n s +:+ (if decide (frac = "") then "" else "." +:+ frac).

(** [digs] are the digits, [exp] the exponent of the first one. *)
Definition fmtE (digs : string) (exp : Z) : string :=
  point_after 1 digs +:+ "e" +:+ (if exp <? 0 then "-" else "+") +:+ two_digits (Z.abs exp).
Definition fmtF (digs : string) (exp : Z) : string :=
  if exp <? 0 then "0." +:+ zeros (Z.to_nat (- exp - 1)) +:+ digs
  else point_after (Z.to_nat (exp + 1)) (digs +:+ zeros (Z.to_nat (exp + 1) - String.length digs)).
Definition format_digits (d x : Z) : string :=
  let exp := Z.of_nat (String.length (FormatInt d)) - 1 + x in
  let digs := digits_text d in
  if (exp <? -4) || (6 <=? exp) then fmtE digs exp else fmtF digs exp.

Definition FormatG (f : spec_float) : string :=
  match f with
  | S754_zero s => if s then "-0" else "0"
  | S754_infinity s => if s then "-Inf" else "+Inf"
  | S754_nan => "NaN"
  | S754_finite s m e => (if s then "-" else "") +:+ (let '(d, x) := shortest m e in format_digits d x)
  end.

Example format_ex :
  (FormatG ∘ Seconds) <$> [0; 1; 12345; 100000000; 1500000000; 123456789012; 999999999999999; 3000000000000000;
     -2500000000; 300000000]
  = ["0"; "1e-09"; "1.2345e-05"; "0.1"; "1.5"; "123.456789012"; "999999.999999999"; "3e+06"; "-2.5"; "0.3"].
Proof. vm_compute. reflexivity. Qed.
Example format_int_ex :
  (FormatG ∘ float_of_int) <$> [1; 10; 999999; 1000000; 1234567; 9007199254740992]
  = ["1"; "10"; "999999"; "1e+06"; "1.234567e+06"; "9.007199254740992e+15"].
Proof. vm_compute. reflexivity. Qed.
