(* ===== verification/Sha256.v ===== *)
(** * SHA-256 ([crypto/sha256.Sum256], FIPS 180-4)

    Words are 32-bit: every operation masks its result. *)
From Stdlib Require Import Ascii.
From S2P Require Import Prelude GoStd.
Open Scope Z_scope.

Definition mask32 : Z := 2^32 - 1.
Definition w32 (x : Z) : Z := Z.land x mask32.
Definition rotr (n x : Z) : Z := Z.lor (Z.shiftr x n) (w32 (Z.shiftl x (32 - n))).
Definition shr (n x : Z) : Z := Z.shiftr x n.
Definition bnot (x : Z) : Z := Z.lxor x mask32.

Definition Ch (x y z : Z) : Z := Z.lxor (Z.land x y) (Z.land (bnot x) z).
Definition Maj (x y z : Z) : Z := Z.lxor (Z.lxor (Z.land x y) (Z.land x z)) (Z.land y z).
Definition Sigma0 (x : Z) : Z := Z.lxor (Z.lxor (rotr 2 x) (rotr 13 x)) (rotr 22 x).
Definition Sigma1 (x : Z) : Z := Z.lxor (Z.lxor (rotr 6 x) (rotr 11 x)) (rotr 25 x).
Definition sigma0 (x : Z) : Z := Z.lxor (Z.lxor (rotr 7 x) (rotr 18 x)) (shr 3 x).
Definition sigma1 (x : Z) : Z := Z.lxor (Z.lxor (rotr 17 x) (rotr 19 x)) (shr 10 x).

(** The constants are the leading 32 bits of the fractional parts of the cube
    roots of the first 64 primes. *)
Fixpoint primes (fuel : nat) (n : Z) (known : list Z) : list Z :=
  match fuel with
  | O => reverse known
  | S f => primes f (n + 1) (if forallb (λ p, negb (n mod p =? 0)) known then n :: known else known)
  end.

(** Integer cube root, one bit at a time from bit [bits - 1]. *)
Fixpoint cube_root (bits : nat) (n r : Z) : Z :=
  match bits with
  | O => r
  | S b => let t := r + 2 ^ Z.of_nat b in cube_root b n (if t * t * t <=? n then t else r)
  end.

Definition K256 : list Z :=
  Eval vm_compute in (λ p, w32 (cube_root 35 (p * 2 ^ 96) 0)) <$> take 64 (primes 310 2 []).

Record Hash := mkHash { ha : Z; hb : Z; hc : Z; hd : Z; he : Z; hf : Z; hg : Z; hh : Z }.

(** The initial state comes from the square roots of the first eight primes. *)
Definition initial_word (p : Z) : Z := w32 (Z.sqrt (p * 2 ^ 64)).
Definition H0 : Hash :=
  Eval vm_compute in
  mkHash (initial_word 2) (initial_word 3) (initial_word 5) (initial_word 7)
    (initial_word 11) (initial_word 13) (initial_word 17) (initial_word 19).

(** Message bytes, padded to a multiple of 64 with the bit length. *)
Fixpoint bytes_of (s : string) : list Z :=
  match s with
  | "" => []
  | String c r => Z.of_N (N_of_ascii c) :: bytes_of r
  end.
Definition be_bytes (n : nat) (x : Z) : list Z :=
  (λ i, Z.land (Z.shiftr x (8 * Z.of_nat i)) 255) <$> reverse (seq 0 n).
Definition pad (m : list Z) : list Z :=
  let len := Z.of_nat (length m) in
  m ++ 128 :: replicate (Z.to_nat ((55 - len) mod 64)) 0 ++ be_bytes 8 (8 * len).

Fixpoint words (l : list Z) : list Z :=
  match l with
  | a :: b :: c :: d :: r => (a * 2^24 + b * 2^16 + c * 2^8 + d) :: words r
  | _ => []
  end.

(** The message schedule, newest word first. *)
Fixpoint schedule (n : nat) (w : list Z) : list Z :=
  match n with
  | O => w
  | S n' =>
      let x := w32 (sigma1 (nth 1 w 0) + nth 6 w 0 + sigma0 (nth 14 w 0) + nth 15 w 0) in
      schedule n' (x :: w)
  end.

Definition round (s : Hash) (kw : Z * Z) : Hash :=
  let t1 := w32 (hh s + Sigma1 (he s) + Ch (he s) (hf s) (hg s) + kw.1 + kw.2) in
  let t2 := w32 (Sigma0 (ha s) + Maj (ha s) (hb s) (hc s)) in
  mkHash (w32 (t1 + t2)) (ha s) (hb s) (hc s) (w32 (hd s + t1)) (he s) (hf s) (hg s).

Definition compress (s : Hash) (block : list Z) : Hash :=
  let w := reverse (schedule 48 (reverse (words block))) in
  let r := fold_left round (combine K256 w) s in
  mkHash (w32 (ha s + ha r)) (w32 (hb s + hb r)) (w32 (hc s + hc r)) (w32 (hd s + hd r))
    (w32 (he s + he r)) (w32 (hf s + hf r)) (w32 (hg s + hg r)) (w32 (hh s + hh r)).

Fixpoint blocks (fuel : nat) (s : Hash) (m : list Z) : Hash :=
  match fuel with
  | O => s
  | S f => match m with [] => s | _ => blocks f (compress s (take 64 m)) (drop 64 m) end
  end.

Definition string_of_bytes (l : list Z) : string :=
  foldr (λ b s, String (ascii_of_N (Z.to_N b)) s) "" l.

Definition Sum256 (msg : string) : string :=
  let m := pad (bytes_of msg) in
  let s := blocks (S (length m / 64)) H0 m in
  string_of_bytes (concat (be_bytes 4 <$> [ha s; hb s; hc s; hd s; he s; hf s; hg s; hh s])).
Close Scope Z_scope.

Lemma string_of_bytes_length l : String.length (string_of_bytes l) = length l.
Proof. induction l as [|b l IH]; simpl; congruence. Qed.

(** A digest is 32 bytes. *)
Lemma Sum256_length msg : String.length (Sum256 msg) = 32.
Proof. unfold Sum256. by rewrite string_of_bytes_length. Qed.

(** Test vectors of FIPS 180-4. *)
Example Sum256_empty :
  EncodeToString (Sum256 "") = "e3b0c44298fc1c149afbf4c8996fb92427ae41e4649b934ca495991b7852b855".
Proof. vm_compute. reflexivity. Qed.
Example Sum256_abc :
  EncodeToString (Sum256 "abc") = "ba7816bf8f01cfea414140de5dae2223b00361a396177a9cb410ff61f20015ad".
Proof. vm_compute. reflexivity. Qed.
