(* ===== verification/Metrics.v ===== *)
(** * Metrics registry (src/internal/observability/metrics.go)

    Counters and latency samples keyed by the rendered metric name and labels.
    A counter is a [float64] that is only ever incremented from zero, so it
    holds an integer that stops growing at 2^53. *)
From Stdlib Require Import Ascii.
From S2P Require Import Prelude GoStd GoFloat Json.

Record Metrics := mkMetrics {
  counters : gmap string Z;
  latencies : gmap string (list Z)      (* durations in nanoseconds *)
}.

Definition NewMetrics : Metrics := mkMetrics ∅ ∅.

(** [x++] on a [float64] holding a non-negative integer. *)
Definition float_inc (x : Z) : Z := if (x <? 2^53)%Z then (x + 1)%Z else x.

Definition bs_quote : string := String "\" (String "034" "").

(** One label pair, [key="value"] with the quotes of the value escaped. *)
Definition label_part (labels : gmap string string) (key : string) : string :=
  key +:+ "=" +:+ dquote +:+ ReplaceByte "034" bs_quote (default "" (labels !! key)) +:+ dquote.

Definition metricKey (name : string) (labels : gmap string string) : string :=
  if decide (size labels = 0) then name
  else name +:+ "{" +:+ Join "," (label_part labels <$> sorted_keys labels) +:+ "}".

Definition Inc (name : string) (labels : gmap string string) (m : Metrics) : Metrics :=
  let key := metricKey name labels in
  mkMetrics (<[key := float_inc (default 0%Z (counters m !! key))]> (counters m)) (latencies m).

Definition ObserveDuration (name : string) (labels : gmap string string) (duration : Z)
    (m : Metrics) : Metrics :=
  let key := metricKey name labels in
  mkMetrics (counters m) (<[key := default [] (latencies m !! key) ++ [duration]]> (latencies m)).

(** [sampleKey]: the suffix goes before the label block. *)
Definition sampleKey (key suffix : string) : string :=
  match cut_byte "{" key with
  | None => key +:+ suffix
  | Some (before, rest) => before +:+ suffix +:+ rest
  end.

(** One line of the page. *)
Definition metric_line (key text : string) : string := key +:+ " " +:+ text +:+ newline.

Definition counter_line (m : Metrics) (key : string) : string :=
  metric_line key (FormatG (float_of_int (default 0%Z (counters m !! key)))).
(** A key with no sample is skipped. *)
Definition latency_lines (m : Metrics) (key : string) : string :=
  let samples := default [] (latencies m !! key) in
  let total := foldl (λ total sample, wrap_int64 (total + sample)) 0%Z samples in
  if decide (samples = []) then ""
  else metric_line (sampleKey key "_count") (FormatInt (Z.of_nat (length samples)))
       +:+ metric_line (sampleKey key "_sum") (FormatG (Seconds total)).
Definition WritePrometheus (m : Metrics) : string :=
  Join "" (counter_line m <$> sorted_keys (counters m))
  +:+ Join "" (latency_lines m <$> sorted_keys (latencies m)).

(** ** Properties *)

Lemma sampleKey_metricKey name labels suffix :
  has_byte "{" name = false →
  sampleKey (metricKey name labels) suffix = metricKey (name +:+ suffix) labels.
Proof.
  intros Hn. unfold sampleKey, metricKey. case_decide.
  - by rewrite (proj2 (cut_byte_None _ _) Hn).
  - change ("{" +:+ ?r) with (String "{" r). rewrite cut_byte_app by done.
    by rewrite <- string_app_assoc.
Qed.

(** The name of a metric can be read off its key. *)
Lemma metricKey_name name name' labels labels' :
  has_byte "{" name = false → has_byte "{" name' = false →
  metricKey name labels = metricKey name' labels' → name = name'.
Proof.
  intros Hn Hn'. unfold metricKey.
  repeat case_decide; intros E; [done|subst name|subst name'|].
  1,2: exfalso; by rewrite has_byte_app, orb_true_r in *.
  by eapply (app_sep_inj "{") in E as [? _].
Qed.

Definition counter_value (name : string) (labels : gmap string string) (m : Metrics) : Z :=
  default 0%Z (counters m !! metricKey name labels).

Lemma Inc_counter name labels m :
  (0 ≤ counter_value name labels m < 2^53)%Z →
  counter_value name labels (Inc name labels m) = (counter_value name labels m + 1)%Z.
Proof.
  intros [_ H]. unfold counter_value, Inc. simpl. rewrite lookup_insert_eq. simpl.
  unfold float_inc. unfold counter_value in H. by rewrite (proj2 (Z.ltb_lt _ _)).
Qed.

Lemma Inc_other name labels key m :
  key ≠ metricKey name labels → counters (Inc name labels m) !! key = counters m !! key.
Proof. intros H. by apply lookup_insert_ne. Qed.

Lemma Inc_mono name labels key m v :
  counters m !! key = Some v →
  ∃ v', counters (Inc name labels m) !! key = Some v' ∧ (v ≤ v')%Z.
Proof.
  intros Hv. destruct (decide (key = metricKey name labels)) as [->|Hne].
  - simpl. rewrite lookup_insert_eq, Hv. simpl. eexists; split; [done|].
    unfold float_inc. destruct (v <? 2^53)%Z; lia.
  - rewrite Inc_other by done. exists v. split; [done|lia].
Qed.
