(* ===== verification/Config.v ===== *)
(** * Configuration (src/internal/config/config.go)

    The environment is a function from variable names to values, empty when
    unset ([os.Getenv]). *)
From Stdlib Require Import Ascii.
From S2P Require Import Prelude GoStd Json Marshal.

(** ** [strings.TrimSpace]: Unicode white space, recognised in its UTF-8 form *)
Definition space1 (a : ascii) : bool := let n := byte a in (within 9 n 13 || (n =? 32))%N.
Definition space2 (a b : ascii) : bool :=
  ((byte a =? 194) && ((byte b =? 133) || (byte b =? 160)))%N.             (* U+0085, U+00A0 *)
Definition space3 (a b c : ascii) : bool :=
  (((byte a =? 225) && (byte b =? 154) && (byte c =? 128))                 (* U+1680 *)
   || ((byte a =? 226) && (byte b =? 128) &&
       (within 128 (byte c) 138 || within 168 (byte c) 169 || (byte c =? 175)))
                                                    (* U+2000-200A, U+2028, U+2029, U+202F *)
   || ((byte a =? 226) && (byte b =? 129) && (byte c =? 159))              (* U+205F *)
   || ((byte a =? 227) && (byte b =? 128) && (byte c =? 128)))%N.          (* U+3000 *)

Section Trim.
(** Trimming one end, with the tests for a sequence in the order it is met. *)
Context (two : ascii → ascii → bool) (three : ascii → ascii → ascii → bool).
Fixpoint trim_front (s : string) : string :=
  match s with
  | "" => ""
  | String a s1 =>
      if space1 a then trim_front s1
      else
        match s1 with
        | "" => s
        | String b s2 =>
            if two a b then trim_front s2
            else
              match s2 with
              | "" => s
              | String c s3 => if three a b c then trim_front s3 else s
              end
        end
  end.
End Trim.

Definition TrimLeftSpace : string → string := trim_front space2 space3.
Definition TrimRightSpace (s : string) : string :=
  String.rev (trim_front (λ b a, space2 a b) (λ c b a, space3 a b c) (String.rev s)).
Definition TrimSpace (s : string) : string := TrimRightSpace (TrimLeftSpace s).

(** ** The loader *)
Record Config := mkConfig {
  HTTPAddr : string;
  ServiceName : string;
  Environment : string;
  BroadcastMode : string;
  DatabaseURL : string;
  BitcoinNetwork : string;
  EVMRPCURL : string;
  EVMChainID : Z;
  EVMDevPrivateKey : string;
  APIKeys : list string;
  SignerIDs : list string;
  MaxBTCAmountSats : Z;
  MaxEVMAmountWei : option Z;
  ShutdownGraceTime : Z                  (* nanoseconds *)
}.


Section Load.
Context (Getenv : string → string).

Definition env (key fallback : string) : string :=
  let value := Getenv key in if decide (value = "") then fallback else value.

Definition envDuration (key : string) (fallback : Z) : Z :=
  let value := Getenv key in
  if decide (value = "") then fallback
  else match ParseInt value with
       | None => fallback
       | Some seconds => if (seconds <=? 0)%Z then fallback else wrap_int64 (seconds * 1000000000)
       end.

Definition envUint64 (key : string) (fallback : Z) : Z :=
  let value := Getenv key in
  if decide (value = "") then fallback
  else match ParseUint value with
       | None => fallback
       | Some parsed => if (parsed =? 0)%Z then fallback else parsed
       end.

Definition envInt64 (key : string) (fallback : Z) : Z :=
  let value := Getenv key in
  if decide (value = "") then fallback
  else match ParseInt value with
       | None => fallback
       | Some parsed => if (parsed <? 0)%Z then fallback else parsed
       end.

Definition envBigInt (key : string) : option Z :=
  let value := Getenv key in
  if decide (value = "") then None
  else match SetString value with
       | None => None
       | Some parsed => if (parsed <? 0)%Z then None else Some parsed
       end.

Definition split_list (value : string) : list string :=
  filter (λ item, item ≠ "") (TrimSpace <$> Split "," value).

(** A nil and an empty list behave alike: callers only range over them. *)
Definition envList (key : string) : list string :=
  let value := Getenv key in if decide (value = "") then [] else split_list value.

Definition Load : Config :=
  mkConfig (env "HTTP_ADDR" ":8080") (env "SERVICE_NAME" "mpc-custody-api") (env "ENVIRONMENT" "local")
    (env "BROADCAST_MODE" "mock") (env "DATABASE_URL" "") (env "BITCOIN_NETWORK" "testnet")
    (env "EVM_RPC_URL" "") (envUint64 "EVM_CHAIN_ID" 31337) (env "EVM_DEV_PRIVATE_KEY" "")
    (envList "API_KEYS") (envList "SIGNER_IDS") (envInt64 "MAX_BTC_AMOUNT_SATS" 0)
    (envBigInt "MAX_EVM_AMOUNT_WEI") (envDuration "SHUTDOWN_GRACE_SECONDS" (10 * 1000000000)).
End Load.

(** ** Properties of the loader *)

(** Bytes survive trimming only if they were there. *)
Lemma trim_front_bytes two three c s :
  has_byte c s = false → has_byte c (trim_front two three s) = false.
Proof.
  induction s as [s IH] using (induction_ltof1 _ String.length). intros Hc.
  destruct s as [|a s1]; [done|]. simpl in Hc. apply orb_false_iff in Hc as [Ha H1].
  assert (Hs : has_byte c (String a s1) = false) by (simpl; by rewrite Ha).
  cbn [trim_front]. destruct (space1 a); [apply IH; [unfold ltof; simpl; lia|done]|].
  destruct s1 as [|b s2]; [done|]. destruct (two a b).
  { apply IH; [unfold ltof; simpl; lia|]. simpl in H1. by apply orb_false_iff in H1 as [_ ?]. }
  destruct s2 as [|d s3]; [done|]. destruct (three a b d); [|done].
  apply IH; [unfold ltof; simpl; lia|]. simpl in H1. apply orb_false_iff in H1 as [_ H1].
  by apply orb_false_iff in H1 as [_ ?].
Qed.

Lemma rev_app_bytes c s t : has_byte c (String.rev_app s t) = has_byte c s || has_byte c t.
Proof.
  revert t. induction s as [|a s IH]; intros t; simpl; [done|]. rewrite IH. simpl.
  destruct (bool_decide (a = c)), (has_byte c s), (has_byte c t); done.
Qed.
Lemma rev_bytes c s : has_byte c (String.rev s) = has_byte c s.
Proof. unfold String.rev. rewrite rev_app_bytes. simpl. apply orb_false_r. Qed.

Lemma TrimSpace_bytes c s : has_byte c s = false → has_byte c (TrimSpace s) = false.
Proof.
  intros H. unfold TrimSpace, TrimRightSpace. rewrite rev_bytes. apply trim_front_bytes.
  rewrite rev_bytes. by apply trim_front_bytes.
Qed.

(** An item of a list is not empty and contains no separator. *)
Lemma split_list_items value item : item ∈ split_list value → item ≠ "" ∧ has_byte "," item = false.
Proof.
  unfold split_list. intros [Hne Hi]%list_elem_of_filter. split; [done|].
  apply list_elem_of_fmap in Hi as (part & -> & Hp). apply TrimSpace_bytes.
  by apply (proj1 (Forall_forall _ _) (Split_no_sep "," value)).
Qed.

(** A text the trimmer leaves alone. *)
Definition clean (s : string) : Prop := s ≠ "" ∧ has_byte "," s = false ∧ TrimSpace s = s.

Lemma split_list_Join l : Forall clean l → l ≠ [] → split_list (Join "," l) = l.
Proof.
  intros Hl Hne. unfold split_list. rewrite Split_Join; [|done|].
  2: { eapply Forall_impl; [exact Hl|]. by intros s (_ & ? & _). }
  clear Hne. induction Hl as [|s l (Hs & _ & Ht) Hl IH]; [done|].
  rewrite fmap_cons, Ht, filter_cons_True by done. by f_equal.
Qed.

(** White space is trimmed away, and a list without any other byte between its
    commas is empty. *)
Lemma trim_front_spaces two three s : all_bytes space1 s = true → trim_front two three s = "".
Proof. induction s as [|a s IH]; [done|]. cbn [all_bytes trim_front]. intros [-> Hs]%andb_true_iff. auto. Qed.
Lemma TrimSpace_spaces s : all_bytes space1 s = true → TrimSpace s = "".
Proof. intros Hs. unfold TrimSpace, TrimLeftSpace. by rewrite trim_front_spaces. Qed.
Definition blank (c : ascii) : bool := space1 c || bool_decide (c = ","%char).
Lemma Split_blank s : all_bytes blank s = true → Forall (λ x, all_bytes space1 x = true) (Split "," s).
Proof.
  induction s as [|a s IH]; cbn [all_bytes Split]; [by repeat constructor|]. intros [Ha Hs]%andb_true_iff. specialize (IH Hs).
  case_decide as Hc; [by constructor|]. unfold blank in Ha. rewrite bool_decide_eq_false_2, orb_false_r in Ha by done.
  destruct IH as [|x l Hx Hl]; (constructor; [|done]); cbn [all_bytes]; by rewrite Ha.
Qed.
Lemma split_list_nil value : split_list value = [] ↔ Forall (λ item, TrimSpace item = "") (Split "," value).
Proof.
  unfold split_list. induction (Split "," value) as [|x l IH]; [done|]. rewrite fmap_cons, Forall_cons, filter_cons.
  destruct (decide (TrimSpace x = "")) as [Hx|Hx].
  - rewrite decide_False by tauto. rewrite IH. tauto.
  - rewrite decide_True by done. split; [done|tauto].
Qed.
Lemma envList_nil Getenv key : envList Getenv key = [] ↔ Forall (λ item, TrimSpace item = "") (Split "," (Getenv key)).
Proof.
  unfold envList. case_decide as Hv; [|apply split_list_nil]. rewrite Hv. split; [|done]. intros _. by repeat constructor.
Qed.

(** Ranges of the numbers. *)
Lemma envUint64_range Getenv key fallback :
  (0 < fallback < 2^64)%Z → (0 < envUint64 Getenv key fallback < 2^64)%Z.
Proof.
  intros Hf. unfold envUint64. case_decide; [done|]. destruct (ParseUint _) as [v|] eqn:E; [|done].
  apply ParseUint_range in E. destruct (Z.eqb_spec v 0); [done|]. lia.
Qed.
Lemma envInt64_range Getenv key fallback :
  (0 ≤ fallback < 2^63)%Z → (0 ≤ envInt64 Getenv key fallback < 2^63)%Z.
Proof.
  intros Hf. unfold envInt64. case_decide; [done|]. destruct (ParseInt _) as [v|] eqn:E; [|done].
  apply ParseInt_range in E. destruct (Z.ltb_spec v 0); [done|]. lia.
Qed.
Lemma envBigInt_range Getenv key v : envBigInt Getenv key = Some v → (0 ≤ v)%Z.
Proof.
  unfold envBigInt. case_decide; [done|]. destruct (SetString _) as [z|]; [|done].
  destruct (Z.ltb_spec z 0); [done|]. intros [= <-]. done.
Qed.

Lemma wrap_int64_range z : (- 2^63 ≤ wrap_int64 z < 2^63)%Z.
Proof. unfold wrap_int64. pose proof (Z.mod_pos_bound (z + 2^63) (2^64)). lia. Qed.
Lemma envDuration_range Getenv key fallback :
  (- 2^63 ≤ fallback < 2^63)%Z → (- 2^63 ≤ envDuration Getenv key fallback < 2^63)%Z.
Proof.
  intros Hf. unfold envDuration. case_decide; [done|]. destruct (ParseInt _) as [v|]; [|done].
  destruct (v <=? 0)%Z; [done|apply wrap_int64_range].
Qed.
(** Up to 2^63 nanoseconds, the number of seconds written is the duration. *)
Lemma envDuration_seconds Getenv key fallback seconds :
  (0 < seconds ≤ 9223372036)%Z → Getenv key = FormatInt seconds →
  envDuration Getenv key fallback = (seconds * 1000000000)%Z.
Proof.
  intros Hs Hv. unfold envDuration. rewrite Hv, decide_False.
  - rewrite ParseInt_FormatInt by lia. rewrite (proj2 (Z.leb_gt seconds 0)) by lia.
    unfold wrap_int64. rewrite Z.mod_small by lia. lia.
  - intros E. pose proof (SetString_FormatInt seconds) as H. by rewrite E in H.
Qed.
(** The grace period overflows for large settings: a positive number of
    seconds becomes a negative duration. *)
Lemma envDuration_overflow :
  (envDuration (λ _, "9223372037") "SHUTDOWN_GRACE_SECONDS" (10 * 1000000000) < 0)%Z.
Proof. vm_compute. reflexivity. Qed.
