(* ===== verification/Interfaces.v ===== *)
(** * Interfaces between the service and its collaborators
      (src/internal/wallet/service.go, src/internal/wallet/types.go)

    The service package declares three interfaces, [Store], [ChainAdapter] and
    [SigningBackend]; here they are type classes over the type of the
    implementation's state.  A method takes the [Input] of the call: what the
    environment supplies while the method runs (cancellation of its context,
    the clock, random bytes, answers of the database and of the JSON-RPC node,
    randomised key generation and signing).  The theorems quantify over it. *)
From S2P Require Import Prelude GoError Types Json.

(** ** What the environment supplies to one call *)

(** [ecdsa.PublicKey] and [ecdsa.PrivateKey] on the two curves in use. *)
Inductive Curve := P256 | S256.
Record PublicKey := mkPublicKey { pub_Curve : Curve; pub_X : Z; pub_Y : Z }.
Record PrivateKey := mkPrivateKey { key_PublicKey : PublicKey; key_D : Z }.

(** A [*types.Transaction] of go-ethereum: opaque, only that library's functions
    (parameters of the model, see [Ethereum]) look inside. *)
Record Transaction := mkTransaction { tx_repr : string }.

(** What [ctx.Err()] returns once [ctx.Done()] is closed. *)
Inductive CtxErr := Canceled | DeadlineExceeded.
Definition ctx_error (c : CtxErr) : GoError :=
  ErrVar (match c with Canceled => ErrCanceled | DeadlineExceeded => ErrDeadlineExceeded end).

(** What an [ethclient.Client] answers; addresses as byte strings. *)
Record EthClient := mkEthClient {
  eth_Dial : option GoError;
  eth_ChainID : res Z;
  eth_PendingNonceAt : string → res Z;
  eth_EstimateGas : string → string → Z → string → res Z;   (* from, to, value, data *)
  eth_SuggestGasPrice : res Z;
  eth_SuggestGasTipCap : res Z;
  eth_SendTransaction : Transaction → option GoError
}.

(** A connection lost while the database works on a call: the client gets
    [cause] as an error, and does not know whether the call was [applied]. *)
Record Fault := mkFault { applied : bool; cause : string }.

Record Input := mkInput {
  in_ctx : option CtxErr;                (* [ctx.Err()] if [ctx.Done()] is closed *)
  in_now : Time;                         (* [time.Now().UTC()] *)
  in_rand : nat → res string;            (* [rand.Read] into n bytes *)
  in_db : nat → option Fault;            (* what goes wrong at the n-th database call *)
  in_keygen : Curve → res PrivateKey;    (* a freshly generated key *)
  in_ecdsa : PrivateKey → string → res (Z * Z);  (* a randomised signature of a digest *)
  in_eth : EthClient
}.

(** ** [Store] *)

Inductive StoreOp : Type → Type :=
| OpCreateWallet (w : Wallet) : StoreOp unit
| OpCreateWalletIdempotently (w : Wallet) (record : IdempotencyRecord) : StoreOp (Wallet * bool)
| OpGetWallet (id : string) : StoreOp Wallet
| OpCreateTransaction (proposal : TransactionProposal) : StoreOp unit
| OpCreateTransactionIdempotently (proposal : TransactionProposal) (record : IdempotencyRecord)
    : StoreOp (TransactionProposal * bool)
| OpGetTransaction (id : string) : StoreOp TransactionProposal
| OpAddApproval (transactionID : string) (approval : Approval) : StoreOp TransactionProposal
| OpMarkTransactionSigned (transactionID signedTransaction : string)
    : StoreOp (TransactionProposal * bool)
| OpUpdateTransaction (proposal : TransactionProposal) : StoreOp unit
| OpAppendAuditEvent (event : AuditEvent) : StoreOp unit
| OpListAuditEvents (filter : AuditFilter) : StoreOp (list AuditEvent).

(** [store_rel] is what a call may do while others run; [store_exec], the call run
    on its own, is one of these behaviours. *)
Class Store (St : Type) := {
  store_exec : ∀ {A}, StoreOp A → Input → St → res A * St;
  store_rel : ∀ {A}, StoreOp A → St → res A → St → Prop;
  store_exec_rel : ∀ {A} (op : StoreOp A) inp s r s', store_exec op inp s = (r, s') → store_rel op s r s'
}.

(** A store that does nothing else. *)
Definition sequential_store {St} (f : ∀ A, StoreOp A → Input → St → res A * St) : Store St := {|
  store_exec := f;
  store_rel := λ A op s r s', ∃ inp, f A op inp s = (r, s');
  store_exec_rel := λ A op inp s r s' H, ex_intro _ inp H
|}.

(** ** [ChainAdapter] and the registry *)

Class ChainAdapter (Ad : Type) := {
  adapter_Chain : Ad → Chain;
  adapter_BuildTransaction : Wallet → TransactionRequest → Input → Ad → res RawTransaction * Ad;
  adapter_Broadcast : string → Input → Ad → res string * Ad
}.

Definition NewChainRegistry {Ad} `{ChainAdapter Ad} (adapters : list Ad) : gmap Chain Ad :=
  foldl (λ registry adapter, <[adapter_Chain adapter := adapter]> registry) ∅ adapters.

Definition Get {Ad} (r : gmap Chain Ad) (chain : Chain) : option Ad := r !! chain.

(** ** [SigningBackend] *)

Class SigningBackend (Sg : Type) := {
  signer_CreateWallet : string → Chain → Input → Sg → res WalletMaterial * Sg;
  signer_SignTransaction : TransactionProposal → Input → Sg → res Signature * Sg
}.

(** A signed payload is text that survives JSON: the demo backend prints hex. *)
Class SignerLaws (Sg : Type) `{SigningBackend Sg} := {
  signed_utf8 : ∀ proposal inp (g : Sg) sig g',
    signer_SignTransaction proposal inp g = (Ok sig, g') → utf8 (sig_SignedTransaction sig)
}.

(** Each adapter is found under its own chain name, the last one registered
    when two share it. *)
Lemma NewChainRegistry_snoc {Ad} `{ChainAdapter Ad} l (a : Ad) :
  NewChainRegistry (l ++ [a]) = <[adapter_Chain a := a]> (NewChainRegistry l).
Proof. unfold NewChainRegistry. by rewrite foldl_app. Qed.

Lemma NewChainRegistry_keys {Ad} `{ChainAdapter Ad} l c (a : Ad) :
  Get (NewChainRegistry l) c = Some a → adapter_Chain a = c ∧ a ∈ l.
Proof.
  induction l as [|x l IH] using rev_ind; unfold Get in *.
  - unfold NewChainRegistry. simpl. by rewrite lookup_empty.
  - rewrite NewChainRegistry_snoc, lookup_insert. case_decide; intros; simplify_eq.
    + split; [done|]. apply elem_of_app. right. by apply list_elem_of_singleton.
    + destruct IH; [done|]. split; [done|]. apply elem_of_app. by left.
Qed.
