(* ===== verification/Ethereum.v ===== *)
(** * The go-ethereum functions the service calls

    go-ethereum is not part of this repository: its functions are the fields
    of a class, so every definition that uses them is parametric in them, and
    what a theorem needs of them is a named law with the documented
    behaviour of the function. *)
From S2P Require Import Prelude GoError Interfaces.

(** [types.DynamicFeeTx], the fields the signer fills in. *)
Record DynamicFeeTx := mkDynamicFeeTx {
  df_ChainID : Z;
  df_Nonce : Z;
  df_GasTipCap : Z;
  df_GasFeeCap : Z;
  df_Gas : Z;
  df_To : string;
  df_Value : Z;
  df_Data : string
}.

Class Ethereum := {
  HexToAddress : string → string;                        (* common.HexToAddress *)
  HexToECDSA : string → res PrivateKey;                  (* crypto.HexToECDSA *)
  FromECDSAPub : PublicKey → string;                     (* crypto.FromECDSAPub *)
  PubkeyToAddress : PublicKey → string;                  (* crypto.PubkeyToAddress(k).Hex() *)
  SignTx : DynamicFeeTx → Z → PrivateKey → res Transaction;
                                  (* types.SignTx(NewTx(tx), LatestSignerForChainID(id), key) *)
  MarshalBinary : Transaction → res string;
  UnmarshalBinary : string → res Transaction;
  tx_Hash : Transaction → string                         (* tx.Hash().Hex() *)
}.

(** [UnmarshalBinary] decodes the canonical encoding [MarshalBinary] produces. *)
Class EthereumLaws `{Ethereum} : Prop := {
  Unmarshal_Marshal t raw : MarshalBinary t = Ok raw → UnmarshalBinary raw = Ok t
}.
