(* ===== verification/Bitcoin.v ===== *)
(** * Bitcoin chain adapter (src/internal/chains/bitcoin/bitcoin.go) *)
From Stdlib Require Import Ascii.
From S2P Require Import Prelude GoStd GoError Types Json Marshal GoTime Sha256 Interfaces.

Record Adapter := mkAdapter { network : string }.

Definition NewAdapter (network : string) : Adapter :=
  mkAdapter (if decide (network = "") then "testnet" else network).

(** [UTXO] as [encoding/json] prints it. *)
Definition utxo_json (u : UTXO) : json :=
  JObj [("tx_id", JStr (utxo_TxID u)); ("vout", JNum (FormatInt (utxo_Vout u)));
        ("amount_sats", JNum (FormatInt (utxo_AmountSats u)));
        ("script_pub_key", JStr (utxo_ScriptPubKey u))].

Definition payload (a : Adapter) (source : Wallet) (request : TransactionRequest)
    (amountSats : Z) (now : Time) : json :=
  JAny [("chain", JStr ChainBitcoin);
        ("network", JStr (network a));
        ("from", JStr (w_Address source));
        ("to", JStr (req_To request));
        ("amount_sats", JNum (FormatInt amountSats));
        ("fee_rate_sats", JNum (FormatInt (req_FeeRateSats request)));
        ("utxos", JArr (utxo_json <$> req_UTXOs request));
        ("change_policy", JStr "send change back to wallet address");
        ("created_at", JStr (FormatRFC3339Nano now))].

Definition BuildTransaction (source : Wallet) (request : TransactionRequest) (inp : Input)
    (a : Adapter) : res RawTransaction * Adapter :=
  let fail msg := (Err (ErrNew msg), a) in
  match in_ctx inp with
  | Some c => (Err (ctx_error c), a)
  | None =>
      if decide (req_To request = "") then fail "bitcoin destination address is required"
      else if decide (req_Amount request = "") then fail "bitcoin amount is required"
      else
        match ParseInt (req_Amount request) with
        | None => fail "bitcoin amount must be positive base-10 sats"
        | Some amountSats =>
            if (amountSats <=? 0)%Z then fail "bitcoin amount must be positive base-10 sats"
            else if decide (length (req_UTXOs request) = 0)
            then fail "bitcoin proposal requires at least one utxo"
            else if (req_FeeRateSats request <=? 0)%Z
            then fail "bitcoin fee_rate_sats must be positive"
            else (Ok (mkRawTransaction ChainBitcoin
                        (Some (encode (payload a source request amountSats (in_now inp))))), a)
        end
  end.

Definition Broadcast (signedTransaction : string) (inp : Input) (a : Adapter) : res string * Adapter :=
  match in_ctx inp with
  | Some c => (Err (ctx_error c), a)
  | None =>
      if decide (signedTransaction = "") then (Err (ErrNew "signed transaction is required"), a)
      else (Ok ("btc_" +:+ EncodeToString (Sum256 ("btc:" +:+ signedTransaction))), a)
  end.

(** ** What the adapter accepts and builds *)

(** The keys of the payload in the order they are printed. *)
Lemma payload_sorted a source request amountSats now :
  payload a source request amountSats now =
  JObj [("amount_sats", JNum (FormatInt amountSats)); ("chain", JStr ChainBitcoin);
        ("change_policy", JStr "send change back to wallet address");
        ("created_at", JStr (FormatRFC3339Nano now));
        ("fee_rate_sats", JNum (FormatInt (req_FeeRateSats request)));
        ("from", JStr (w_Address source)); ("network", JStr (network a)); ("to", JStr (req_To request));
        ("utxos", JArr (utxo_json <$> req_UTXOs request))].
Proof. reflexivity. Qed.

Definition utxo_text (u : UTXO) : Prop := utf8 (utxo_TxID u) ∧ utf8 (utxo_ScriptPubKey u).

Lemma utxo_json_wf u : utxo_text u → jwf (utxo_json u).
Proof. intros [? ?]. unfold utxo_json. auto 20 with text. Qed.

Lemma payload_wf a source request amountSats now :
  utf8 (network a) → utf8 (w_Address source) → utf8 (req_To request) →
  Forall utxo_text (req_UTXOs request) → jwf (payload a source request amountSats now).
Proof.
  intros Hn Ha Ht Hu. rewrite payload_sorted.
  assert (jwf (JArr (utxo_json <$> req_UTXOs request))).
  { apply jwf_arr, Forall_fmap. eapply Forall_impl; [exact Hu|]. intros u. apply utxo_json_wf. }
  unfold ChainBitcoin. auto 30 with text.
Qed.

Definition acceptable (request : TransactionRequest) (amountSats : Z) : Prop :=
  req_To request ≠ "" ∧ ParseInt (req_Amount request) = Some amountSats ∧ (0 < amountSats)%Z ∧
  req_UTXOs request ≠ [] ∧ (0 < req_FeeRateSats request)%Z.

Lemma BuildTransaction_ok source request inp a raw a' :
  BuildTransaction source request inp a = (Ok raw, a') ↔
  a' = a ∧ in_ctx inp = None ∧
  ∃ amountSats, acceptable request amountSats ∧
    raw = mkRawTransaction ChainBitcoin (Some (encode (payload a source request amountSats (in_now inp)))).
Proof.
  unfold BuildTransaction, acceptable. destruct (in_ctx inp); [by split; [|intros (_ & ? & _)]|].
  case_decide; [by split; [|intros (_ & _ & ? & (? & _) & _)]|]. case_decide as Hamt.
  { split; [done|]. intros (_ & _ & v & (_ & Hv & _) & _). by rewrite Hamt in Hv. }
  destruct (ParseInt (req_Amount request)) as [v|]; [|by split; [|intros (_ & _ & ? & (_ & ? & _) & _)]].
  destruct (Z.leb_spec v 0); [split; [done|]; intros (_&_&v'&(_&?&?&_)&_); simplify_eq; lia|].
  case_decide as Hu.
  { split; [done|]. intros (_&_&v'&(_&_&_&Hne&_)&_). by destruct (req_UTXOs request). }
  assert (req_UTXOs request ≠ []) by by destruct (req_UTXOs request).
  destruct (Z.leb_spec (req_FeeRateSats request) 0).
  { split; [done|]. intros (_&_&v'&(_&_&_&_&?)&_). lia. }
  split.
  - intros [= <- <-]. split_and!; [done..|]. exists v. by split_and!.
  - intros (-> & _ & v' & (_ & [= <-] & _) & ->). done.
Qed.
