(* ===== verification/Evm.v ===== *)
(** * EVM chain adapter (src/internal/chains/evm/evm.go)

    Without an RPC URL the adapter hands out nonces from a local table; with
    one it asks the node.  go-ethereum is the parameter [Ethereum], the node's
    answers are the [EthClient] of the call's input. *)
From Stdlib Require Import Ascii.
From S2P Require Import Prelude GoStd GoError Types Json Marshal GoTime Sha256 Interfaces Ethereum.

Record Adapter := mkAdapter {
  chainID : Z;
  rpcURL : string;
  nonces : gmap string Z
}.

(** The variadic [rpcURL ...string] is a list. *)
Definition NewAdapter (chainID : Z) (rpcURL : list string) : Adapter :=
  mkAdapter (if decide (chainID = 0%Z) then 31337%Z else chainID)
    (match rpcURL with url :: _ => url | [] => "" end) ∅.

Definition nextNonce (address : string) (a : Adapter) : Z * Adapter :=
  let nonce := default 0%Z (nonces a !! address) in
  (nonce, mkAdapter (chainID a) (rpcURL a) (<[address := ((nonce + 1) mod 2^64)%Z]> (nonces a))).

Definition trimHexPrefix (value : string) : string :=
  match value with
  | String "0" (String "x" rest) => rest
  | _ => value
  end.

(** [EVMTransactionPayload] as [encoding/json] prints it. *)
Definition payload_json (p : EVMTransactionPayload) : json :=
  JObj [("chain", JStr (evm_Chain p));
        ("chain_id", JNum (FormatInt (evm_ChainID p)));
        ("from", JStr (evm_From p));
        ("to", JStr (evm_To p));
        ("value_wei", JStr (evm_ValueWei p));
        ("nonce", JNum (FormatInt (evm_Nonce p)));
        ("gas_limit", JNum (FormatInt (evm_GasLimit p)));
        ("max_fee_per_gas", JStr (evm_MaxFeePerGas p));
        ("max_priority_fee_per_gas", JStr (evm_MaxPriorityFeePerGas p));
        ("data", JStr (evm_Data p));
        ("type", JStr (evm_Type p));
        ("created_at", JStr (evm_CreatedAt p))].

(** Assignments to the fields of the payload that depend on the mode. *)
Definition set_gas (chain nonce gas : Z) (fee tip : string) (p : EVMTransactionPayload)
    : EVMTransactionPayload :=
  mkEVMTransactionPayload (evm_Chain p) chain (evm_From p) (evm_To p) (evm_ValueWei p) nonce gas
    fee tip (evm_Data p) (evm_Type p) (evm_CreatedAt p).

Section Evm.
Context `{Ethereum}.

(** [x, err := e; if err != nil { return err }] outside the effect monad. *)
Local Definition try {A B} (r : res A) (k : A → res B) : res B :=
  match r with Ok a => k a | Err e => Err e end.

Definition populateFromRPC (inp : Input) (payload : EVMTransactionPayload) (valueWei : Z)
    (request : TransactionRequest) : res EVMTransactionPayload :=
  let client := in_eth inp in
  match eth_Dial client with
  | Some e => Err e
  | None =>
      try (eth_ChainID client) (λ chainID,
      try (eth_PendingNonceAt client (HexToAddress (evm_From payload))) (λ nonce,
      try (DecodeHex (trimHexPrefix (req_Data request))) (λ data,
      try (if decide (req_GasLimit request = 0%Z)
           then eth_EstimateGas client (HexToAddress (evm_From payload))
                  (HexToAddress (req_To request)) valueWei data
           else Ok (req_GasLimit request)) (λ gasLimit,
      try (if decide (req_MaxFeePerGas request = "")
           then try (eth_SuggestGasPrice client) (λ gasPrice, Ok (FormatInt gasPrice))
           else Ok (req_MaxFeePerGas request)) (λ maxFeePerGas,
      let tip := match eth_SuggestGasTipCap client with
                 | Ok tipCap => FormatInt tipCap
                 | Err _ => maxFeePerGas
                 end in
      Ok (set_gas (Z.abs chainID mod 2^64) nonce gasLimit maxFeePerGas tip payload))))))
  end.

Definition BuildTransaction (source : Wallet) (request : TransactionRequest) (inp : Input)
    (a : Adapter) : res RawTransaction * Adapter :=
  let fail e := (Err e, a) in
  let finish payload := Ok (mkRawTransaction ChainEVM (Some (encode (payload_json payload)))) in
  match in_ctx inp with
  | Some c => fail (ctx_error c)
  | None =>
      if decide (req_To request = "") then fail (ErrNew "evm destination address is required")
      else if decide (req_Amount request = "") then fail (ErrNew "evm amount is required")
      else
        match SetString (req_Amount request) with
        | None => fail (ErrNew "evm amount must be a positive base-10 wei value")
        | Some valueWei =>
            if (valueWei <=? 0)%Z
            then fail (ErrNew "evm amount must be a positive base-10 wei value")
            else
              let payload :=
                mkEVMTransactionPayload ChainEVM (chainID a) (w_Address source) (req_To request)
                  (req_Amount request) 0 0 "" "" (req_Data request) "eip1559"
                  (FormatRFC3339Nano (in_now inp)) in
              if decide (rpcURL a = "") then
                if decide (req_GasLimit request = 0%Z)
                then fail (ErrNew "evm gas_limit must be positive")
                else if decide (req_MaxFeePerGas request = "")
                then fail (ErrNew "evm max_fee_per_gas is required")
                else
                  let '(nonce, a') := nextNonce (w_Address source) a in
                  (finish (set_gas (chainID a) nonce (req_GasLimit request)
                             (req_MaxFeePerGas request) (req_MaxFeePerGas request) payload), a')
              else
                match populateFromRPC inp payload valueWei request with
                | Err e => fail e
                | Ok payload => (finish payload, a)
                end
        end
  end.

Definition Broadcast (signedTransaction : string) (inp : Input) (a : Adapter) : res string * Adapter :=
  let fail e := (Err e, a) in
  match in_ctx inp with
  | Some c => fail (ctx_error c)
  | None =>
      if decide (signedTransaction = "") then fail (ErrNew "signed transaction is required")
      else if decide (rpcURL a = "") then
        (Ok ("0x" +:+ EncodeToString (Sum256 ("evm:" +:+ signedTransaction))), a)
      else
        match eth_Dial (in_eth inp) with
        | Some e => fail e
        | None =>
            match DecodeHex (trimHexPrefix signedTransaction) with
            | Err e => fail e
            | Ok raw =>
                match UnmarshalBinary raw with
                | Err e => fail e
                | Ok tx =>
                    match eth_SendTransaction (in_eth inp) tx with
                    | Some e => fail e
                    | None => (Ok (tx_Hash tx), a)
                    end
                end
            end
        end
  end.
End Evm.

(** ** What the adapter builds *)

(** A payload whose numbers are 64-bit and whose texts are UTF-8. *)
Record payload_ok (p : EVMTransactionPayload) : Prop := mkPayloadOk {
  ok_chain_id : (0 ≤ evm_ChainID p < 2^64)%Z;
  ok_nonce : (0 ≤ evm_Nonce p < 2^64)%Z;
  ok_gas_limit : (0 ≤ evm_GasLimit p < 2^64)%Z;
  ok_text : Forall utf8 [evm_Chain p; evm_From p; evm_To p; evm_ValueWei p; evm_MaxFeePerGas p;
              evm_MaxPriorityFeePerGas p; evm_Data p; evm_Type p; evm_CreatedAt p]
}.

Lemma payload_json_wf p : payload_ok p → jwf (payload_json p).
Proof.
  intros [_ _ _ Ht]. rewrite !Forall_cons in Ht. destruct_and!. unfold payload_json. auto 40 with text.
Qed.

(** A request the adapter accepts without a node. *)
Definition acceptable (request : TransactionRequest) (valueWei : Z) : Prop :=
  req_To request ≠ "" ∧ SetString (req_Amount request) = Some valueWei ∧ (0 < valueWei)%Z ∧
  req_GasLimit request ≠ 0%Z ∧ req_MaxFeePerGas request ≠ "".

(** The payload it builds then, with the nonce it assigns. *)
Definition local_payload (a : Adapter) (source : Wallet) (request : TransactionRequest) (nonce : Z)
    (now : Time) : EVMTransactionPayload :=
  mkEVMTransactionPayload ChainEVM (chainID a) (w_Address source) (req_To request)
    (req_Amount request) nonce (req_GasLimit request) (req_MaxFeePerGas request)
    (req_MaxFeePerGas request) (req_Data request) "eip1559" (FormatRFC3339Nano now).

Definition next_nonce (a : Adapter) (address : string) : Z := default 0%Z (nonces a !! address).

Section Properties.
Context `{Ethereum}.

Lemma BuildTransaction_local source request inp a raw a' :
  rpcURL a = "" →
  BuildTransaction source request inp a = (Ok raw, a') ↔
  in_ctx inp = None ∧ (∃ valueWei, acceptable request valueWei) ∧
  raw = mkRawTransaction ChainEVM (Some (encode (payload_json
          (local_payload a source request (next_nonce a (w_Address source)) (in_now inp))))) ∧
  a' = (nextNonce (w_Address source) a).2.
Proof.
  intros Hrpc. unfold BuildTransaction, acceptable.
  destruct (in_ctx inp); [by split; [|intros (? & _)]|].
  case_decide; [by split; [|intros (_ & (? & ? & _) & _)]|]. case_decide as Hamt.
  { split; [done|]. intros (_ & (v & _ & Hv & _) & _). by rewrite Hamt in Hv. }
  destruct (SetString (req_Amount request)) as [v|];
    [|by split; [|intros (_ & (? & _ & ? & _) & _)]].
  destruct (Z.leb_spec v 0).
  { split; [done|]. intros (_ & (v' & _ & ? & ? & _) & _). simplify_eq. lia. }
  rewrite (decide_True (P := rpcURL a = "")) by done.
  case_decide; [by split; [|intros (_ & (? & _ & _ & _ & ? & _) & _)]|].
  case_decide; [by split; [|intros (_ & (? & _ & _ & _ & _ & ?) & _)]|].
  cbv zeta. split.
  - intros [= <- <-]. split_and!; [done| |done|done]. exists v. by split_and!.
  - intros (_ & _ & -> & ->). done.
Qed.

(** A refused request uses up no nonce, and with a node the local table is
    never touched. *)
Lemma BuildTransaction_err source request inp a e a' :
  BuildTransaction source request inp a = (Err e, a') → a' = a.
Proof.
  unfold BuildTransaction. intros E. repeat (case_match || case_decide); by simplify_eq/=.
Qed.
Lemma BuildTransaction_rpc source request inp a r a' :
  rpcURL a ≠ "" → BuildTransaction source request inp a = (r, a') → a' = a.
Proof.
  unfold BuildTransaction. intros Hrpc E. repeat (case_match || case_decide); by simplify_eq/=.
Qed.
End Properties.
