(* ===== verification/Chains.v ===== *)
(** * The registered chain adapters

    The values behind the [ChainAdapter] interface: the two adapters
    src/cmd/custody-api/main.go registers. *)
From S2P Require Import Prelude GoError Types Interfaces Ethereum Bitcoin Evm.

Inductive Adapter :=
| BitcoinAdapter (a : Bitcoin.Adapter)
| EVMAdapter (a : Evm.Adapter).

(** Run a method of one adapter and put its new state back. *)
Definition lift {A B R} (con : A → B) (r : R * A) : R * B := (r.1, con r.2).

#[export] Instance Adapter_ChainAdapter `{Ethereum} : ChainAdapter Adapter :=
  {| adapter_Chain a :=
       match a with BitcoinAdapter _ => ChainBitcoin | EVMAdapter _ => ChainEVM end;
     adapter_BuildTransaction source request inp a :=
       match a with
       | BitcoinAdapter a => lift BitcoinAdapter (Bitcoin.BuildTransaction source request inp a)
       | EVMAdapter a => lift EVMAdapter (Evm.BuildTransaction source request inp a)
       end;
     adapter_Broadcast signed inp a :=
       match a with
       | BitcoinAdapter a => lift BitcoinAdapter (Bitcoin.Broadcast signed inp a)
       | EVMAdapter a => lift EVMAdapter (Evm.Broadcast signed inp a)
       end |}.
