(* ===== verification/Signing.v ===== *)
(** * Demo quorum signing backend (src/internal/signing/demo.go) *)
From Stdlib Require Import Ascii.
From S2P Require Import Prelude GoStd GoError Types Json Marshal GoTime Sha256 Interfaces Ethereum Evm.

Definition quorumThreshold : nat := 2.

Record walletRecord := mkWalletRecord {
  rec_chain : Chain;
  rec_private : PrivateKey;
  rec_publicKey : string;
  rec_address : string
}.

Record DemoQuorumBackend := mkDemoQuorumBackend {
  records : gmap string walletRecord;
  evmPrivateKey : option PrivateKey
}.

(** ** Standard library encodings *)

(** The minimal big-endian bytes of a non-negative integer ([big.Int.Bytes]). *)
Definition min_bytes (x : Z) : list Z :=
  if (x <=? 0)%Z then [] else be_bytes (Z.to_nat (Z.log2 x / 8 + 1)) x.

(** [asn1] INTEGER: two's complement, minimal. *)
Definition asn1_int_bytes (x : Z) : list Z :=
  if (x <? 0)%Z then
    let l := (λ b, 255 - b)%Z <$> min_bytes (- x - 1) in
    match l with
    | b :: _ => if (b <? 128)%Z then 255%Z :: l else l
    | [] => [255%Z]
    end
  else
    match min_bytes x with
    | b :: l => if (128 <=? b)%Z then 0%Z :: b :: l else b :: l
    | [] => [0%Z]
    end.
Definition asn1_length (n : nat) : list Z :=
  if decide (n < 128) then [Z.of_nat n]
  else let l := min_bytes (Z.of_nat n) in (128 + Z.of_nat (length l))%Z :: l.
Definition asn1_tlv (tag : Z) (body : list Z) : list Z := tag :: asn1_length (length body) ++ body.

(** [asn1.Marshal(ecdsaSignature{R: r, S: s})]: DER SEQUENCE of two INTEGERs. *)
Definition asn1_Marshal (r s : Z) : string :=
  string_of_bytes (asn1_tlv 48 (asn1_tlv 2 (asn1_int_bytes r) ++ asn1_tlv 2 (asn1_int_bytes s))).

(** [elliptic.Marshal]: the uncompressed form of a point of a 256-bit curve. *)
Definition elliptic_Marshal (public : PublicKey) : string :=
  string_of_bytes (4%Z :: be_bytes 32 (pub_X public) ++ be_bytes 32 (pub_Y public)).

Section Signing.
Context `{Ethereum}.

(** [Option] values and the constructor. *)
Abbreviation Option := (DemoQuorumBackend → res DemoQuorumBackend).

Definition WithEVMPrivateKey (privateKey : string) : Option := λ backend,
  if decide (privateKey = "") then Ok backend
  else
    match HexToECDSA (TrimPrefix privateKey "0x") with
    | Err e => Err e
    | Ok key => Ok (mkDemoQuorumBackend (records backend) (Some key))
    end.

Definition NewDemoQuorumBackend (options : list Option) : res DemoQuorumBackend :=
  foldl (λ r option, match r with Ok backend => option backend | Err e => Err e end)
    (Ok (mkDemoQuorumBackend ∅ None)) options.

Definition createPrivateKey (chain : Chain) (inp : Input) (b : DemoQuorumBackend) : res PrivateKey :=
  if decide (chain = ChainEVM) then
    match evmPrivateKey b with Some key => Ok key | None => in_keygen inp S256 end
  else in_keygen inp P256.

Definition encodePublicKey (chain : Chain) (public : PublicKey) : string :=
  if decide (chain = ChainEVM) then EncodeToString (FromECDSAPub public)
  else EncodeToString (elliptic_Marshal public).

Definition addressFor (chain : Chain) (public : PublicKey) (publicKey : string) : string :=
  let digest := Sum256 publicKey in
  if decide (chain = ChainBitcoin) then "tb1q" +:+ EncodeToString (String.substring 0 20 digest)
  else if decide (chain = ChainEVM) then PubkeyToAddress public
  else EncodeToString (String.substring 0 20 digest).

Definition CreateWallet (walletID : string) (chain : Chain) (inp : Input) (b : DemoQuorumBackend)
    : res WalletMaterial * DemoQuorumBackend :=
  match in_ctx inp with
  | Some c => (Err (ctx_error c), b)
  | None =>
      match createPrivateKey chain inp b with
      | Err e => (Err e, b)
      | Ok private =>
          let publicKey := encodePublicKey chain (key_PublicKey private) in
          let address := addressFor chain (key_PublicKey private) publicKey in
          let record := mkWalletRecord chain private publicKey address in
          (Ok (mkWalletMaterial address publicKey),
           mkDemoQuorumBackend (<[walletID := record]> (records b)) (evmPrivateKey b))
      end
  end.

(** [EVMTransactionPayload] from JSON. *)
Definition payload_fields : list (string * kind) :=
  [("chain", KString "wallet.Chain"); ("chain_id", KUint64); ("from", KString "string");
   ("to", KString "string"); ("value_wei", KString "string"); ("nonce", KUint64);
   ("gas_limit", KUint64); ("max_fee_per_gas", KString "string");
   ("max_priority_fee_per_gas", KString "string"); ("data", KString "string");
   ("type", KString "string"); ("created_at", KString "string")].

Definition unmarshal_payload (m : RawMessage) : res EVMTransactionPayload :=
  match unmarshal_fields "wallet" "EVMTransactionPayload" payload_fields m with
  | Err e => Err e
  | Ok l =>
      let str name := as_string (field_value name l) in
      let num name := as_uint (field_value name l) in
      Ok (mkEVMTransactionPayload (str "chain") (num "chain_id") (str "from") (str "to")
            (str "value_wei") (num "nonce") (num "gas_limit") (str "max_fee_per_gas")
            (str "max_priority_fee_per_gas") (str "data") (str "type") (str "created_at"))
  end.

Definition signEVMTransaction (proposal : TransactionProposal) (privateKey : PrivateKey) : res Signature :=
  match unmarshal_payload (raw_Payload (tp_RawTransaction proposal)) with
  | Err e => Err e
  | Ok payload =>
      match SetString (evm_ValueWei payload), SetString (evm_MaxFeePerGas payload),
            SetString (evm_MaxPriorityFeePerGas payload) with
      | None, _, _ => Err (ErrNew "evm value_wei must be a base-10 integer")
      | _, None, _ => Err (ErrNew "evm max_fee_per_gas must be a base-10 integer")
      | _, _, None => Err (ErrNew "evm max_priority_fee_per_gas must be a base-10 integer")
      | Some valueWei, Some maxFeePerGas, Some maxPriorityFeePerGas =>
          match DecodeHex (TrimPrefix (evm_Data payload) "0x") with
          | Err e => Err e
          | Ok data =>
              let tx := mkDynamicFeeTx (evm_ChainID payload) (evm_Nonce payload)
                          maxPriorityFeePerGas maxFeePerGas (evm_GasLimit payload)
                          (HexToAddress (evm_To payload)) valueWei data in
              match SignTx tx (evm_ChainID payload) privateKey with
              | Err e => Err e
              | Ok signedTx =>
                  match MarshalBinary signedTx with
                  | Err e => Err e
                  | Ok raw => Ok (mkSignature ("0x" +:+ EncodeToString raw) (tx_Hash signedTx))
                  end
              end
          end
      end
  end.

(** The envelope of a non-EVM signature; [raw] is the embedded payload text. *)
Definition envelope (proposal : TransactionProposal) (raw signature digest : string) (now : Time) : string :=
  "{" +:+ Join "," [
    quote "chain" +:+ ":" +:+ quote (tp_Chain proposal);
    quote "raw_transaction" +:+ ":" +:+ raw;
    quote "signature" +:+ ":" +:+ quote (EncodeToString signature);
    quote "signature_hash" +:+ ":" +:+ quote (EncodeToString digest);
    quote "signed_at" +:+ ":" +:+ quote (FormatRFC3339Nano now);
    quote "signer_model" +:+ ":" +:+ quote "demo-local-key-with-2-of-3-approval-gate";
    quote "wallet_id" +:+ ":" +:+ quote (tp_WalletID proposal)] +:+ "}".

Definition SignTransaction (proposal : TransactionProposal) (inp : Input) (b : DemoQuorumBackend)
    : res Signature * DemoQuorumBackend :=
  match in_ctx inp with
  | Some c => (Err (ctx_error c), b)
  | None =>
      if decide (ApprovalsCount proposal < quorumThreshold)
      then (Err (ErrNew "2-of-3 quorum has not been reached"), b)
      else
        match records b !! tp_WalletID proposal with
        | None => (Err (ErrNew "signing wallet material not found"), b)
        | Some record =>
            if decide (tp_Chain proposal = ChainEVM)
            then (signEVMTransaction proposal (rec_private record), b)
            else
              let digest := Sum256 (default "" (raw_Payload (tp_RawTransaction proposal))) in
              match in_ecdsa inp (rec_private record) digest with
              | Err e => (Err e, b)
              | Ok (r, s) =>
                  match marshal_raw (raw_Payload (tp_RawTransaction proposal)) with
                  | Err e => (Err e, b)
                  | Ok raw =>
                      let payload := envelope proposal raw (asn1_Marshal r s) digest (in_now inp) in
                      (Ok (mkSignature (EncodeToString payload) (EncodeToString (Sum256 payload))), b)
                  end
              end
        end
  end.

#[export] Instance DemoQuorumBackend_SigningBackend : SigningBackend DemoQuorumBackend :=
  {| signer_CreateWallet := CreateWallet; signer_SignTransaction := SignTransaction |}.
End Signing.

(** ** What the backend signs *)
Section Properties.
Context `{Ethereum}.

(** Signed payloads are printed in hex. *)
Ltac cases H := repeat match type of H with match ?x with _ => _ end = _ => destruct x; try discriminate H end.
Lemma signEVMTransaction_utf8 p key sig : signEVMTransaction p key = Ok sig → utf8 (sig_SignedTransaction sig).
Proof.
  unfold signEVMTransaction. intros E. cases E. injection E as <-.
  apply utf8_app; [by apply utf8_ascii|apply utf8_hex].
Qed.
#[export] Instance DemoQuorumBackend_Laws : SignerLaws DemoQuorumBackend.
Proof.
  split. intros p inp b sig b' E. change (SignTransaction p inp b = (Ok sig, b')) in E.
  unfold SignTransaction in E. cases E.
  - injection E as E _. by eapply signEVMTransaction_utf8.
  - cbv zeta in E. set (payload := envelope _ _ _ _ _) in E. clearbody payload.
    set (digest := Sum256 payload) in E. clearbody digest. injection E as <- _. apply utf8_hex.
Qed.

Lemma payload_assignments c ci f t v n g mf mp d ty cr zi zn zg :
  ParseUint ci = Some zi → ParseUint n = Some zn → ParseUint g = Some zg →
  let l := [("chain", JStr c); ("chain_id", JNum ci); ("from", JStr f); ("to", JStr t);
     ("value_wei", JStr v); ("nonce", JNum n); ("gas_limit", JNum g); ("max_fee_per_gas", JStr mf);
     ("max_priority_fee_per_gas", JStr mp); ("data", JStr d); ("type", JStr ty);
     ("created_at", JStr cr)] in
  assignments payload_fields l = l ∧
  omap (field_error "EVMTransactionPayload" payload_fields) l = [].
Proof.
  intros H1 H2 H3. split; [reflexivity|].
  assert (Hn : ∀ name x z, (list_to_map payload_fields : gmap string kind) !! name = Some KUint64 →
    ParseUint x = Some z → field_error "EVMTransactionPayload" payload_fields (name, JNum x) = None).
  { intros name x z Hl Hx. unfold field_error. simpl fst. rewrite Hl. simpl. by rewrite Hx. }
  unfold omap. cbn [list_omap].
  rewrite (Hn "chain_id" ci zi), (Hn "nonce" n zn), (Hn "gas_limit" g zg) by done. reflexivity.
Qed.

(** The signer reads back exactly the payload the adapter printed. *)
Lemma unmarshal_payload_json p :
  payload_ok p → unmarshal_payload (Some (encode (payload_json p))) = Ok p.
Proof.
  intros Hp. unfold unmarshal_payload, unmarshal_fields. change (default "" (Some ?x)) with x.
  rewrite decode_encode by by apply payload_json_wf.
  destruct Hp as [Hc Hn Hg _]. unfold payload_json.
  destruct (payload_assignments (evm_Chain p) _ (evm_From p) (evm_To p) (evm_ValueWei p) _ _
    (evm_MaxFeePerGas p) (evm_MaxPriorityFeePerGas p) (evm_Data p) (evm_Type p) (evm_CreatedAt p) _ _ _
    (ParseUint_FormatInt _ Hc) (ParseUint_FormatInt _ Hn) (ParseUint_FormatInt _ Hg)) as [E1 E2].
  rewrite E1, E2.
  transitivity (Ok (E := GoError) (mkEVMTransactionPayload (evm_Chain p)
    (as_uint (JNum (FormatInt (evm_ChainID p)))) (evm_From p) (evm_To p) (evm_ValueWei p)
    (as_uint (JNum (FormatInt (evm_Nonce p)))) (as_uint (JNum (FormatInt (evm_GasLimit p))))
    (evm_MaxFeePerGas p) (evm_MaxPriorityFeePerGas p) (evm_Data p) (evm_Type p) (evm_CreatedAt p)));
    [reflexivity|].
  unfold as_uint. rewrite !ParseUint_FormatInt by done. by destruct p.
Qed.

Lemma SignTransaction_state p inp b : (SignTransaction p inp b).2 = b.
Proof. unfold SignTransaction. repeat (case_match || case_decide); done. Qed.

(** No signature without a quorum, whoever asks. *)
Lemma SignTransaction_quorum p inp b sig b' :
  SignTransaction p inp b = (Ok sig, b') →
  in_ctx inp = None ∧ quorumThreshold ≤ ApprovalsCount p ∧ is_Some (records b !! tp_WalletID p).
Proof.
  unfold SignTransaction. intros E. destruct (in_ctx inp); [done|]. case_decide; [done|].
  destruct (records b !! tp_WalletID p) eqn:Hr; [|done]. split_and!; [done|lia|by eexists].
Qed.

Lemma SignTransaction_evm p inp b rec :
  in_ctx inp = None → quorumThreshold ≤ ApprovalsCount p → records b !! tp_WalletID p = Some rec →
  tp_Chain p = ChainEVM →
  SignTransaction p inp b = (signEVMTransaction p (rec_private rec), b).
Proof.
  intros Hctx Hq Hrec Hch. unfold SignTransaction. rewrite Hctx, decide_False by lia.
  by rewrite Hrec, decide_True.
Qed.

Lemma signEVMTransaction_payload p key pl v fee tip data :
  tp_RawTransaction p = mkRawTransaction ChainEVM (Some (encode (payload_json pl))) →
  payload_ok pl → SetString (evm_ValueWei pl) = Some v → SetString (evm_MaxFeePerGas pl) = Some fee →
  SetString (evm_MaxPriorityFeePerGas pl) = Some tip →
  DecodeHex (TrimPrefix (evm_Data pl) "0x") = Ok data →
  signEVMTransaction p key =
    match SignTx (mkDynamicFeeTx (evm_ChainID pl) (evm_Nonce pl) tip fee (evm_GasLimit pl)
            (HexToAddress (evm_To pl)) v data) (evm_ChainID pl) key with
    | Err e => Err e
    | Ok signedTx =>
        match MarshalBinary signedTx with
        | Err e => Err e
        | Ok raw => Ok (mkSignature ("0x" +:+ EncodeToString raw) (tx_Hash signedTx))
        end
    end.
Proof.
  intros Hraw Hpl Hv Hf Ht Hd. unfold signEVMTransaction. rewrite Hraw. cbn [raw_Payload].
  by rewrite unmarshal_payload_json, Hv, Hf, Ht, Hd.
Qed.

(** The envelope is the JSON object it looks like. *)
Definition envelope_json (p : TransactionProposal) (raw : json) (signature digest : string) (now : Time) : json :=
  JAny [("wallet_id", JStr (tp_WalletID p)); ("chain", JStr (tp_Chain p)); ("raw_transaction", raw);
        ("signature", JStr (EncodeToString signature)); ("signature_hash", JStr (EncodeToString digest));
        ("signer_model", JStr "demo-local-key-with-2-of-3-approval-gate");
        ("signed_at", JStr (FormatRFC3339Nano now))].
Lemma envelope_encode p raw signature digest now :
  envelope p (encode raw) signature digest now = encode (envelope_json p raw signature digest now).
Proof. reflexivity. Qed.

Lemma envelope_json_wf p raw signature digest now :
  utf8 (tp_Chain p) → utf8 (tp_WalletID p) → jwf raw →
  jwf (envelope_json p raw signature digest now).
Proof.
  intros Hc Hw Hj.
  change (envelope_json p raw signature digest now) with
    (JObj [("chain", JStr (tp_Chain p)); ("raw_transaction", raw);
      ("signature", JStr (EncodeToString signature)); ("signature_hash", JStr (EncodeToString digest));
      ("signed_at", JStr (FormatRFC3339Nano now));
      ("signer_model", JStr "demo-local-key-with-2-of-3-approval-gate");
      ("wallet_id", JStr (tp_WalletID p))]).
  auto 30 with text.
Qed.

Lemma SignTransaction_other p inp b rec j r s :
  in_ctx inp = None → quorumThreshold ≤ ApprovalsCount p → records b !! tp_WalletID p = Some rec →
  tp_Chain p ≠ ChainEVM → raw_Payload (tp_RawTransaction p) = Some (encode j) → jwf j →
  in_ecdsa inp (rec_private rec) (Sum256 (encode j)) = Ok (r, s) →
  let text := encode (envelope_json p j (asn1_Marshal r s) (Sum256 (encode j)) (in_now inp)) in
  SignTransaction p inp b = (Ok (mkSignature (EncodeToString text) (EncodeToString (Sum256 text))), b).
Proof.
  intros Hctx Hq Hrec Hch Hraw Hj Hs text. unfold SignTransaction.
  rewrite Hctx, decide_False, Hrec, decide_False, Hraw by (done || lia). change (default "" (Some ?x)) with x.
  by rewrite Hs, marshal_raw_encode, envelope_encode.
Qed.

(** Key material is found again under the wallet's identifier. *)
Lemma CreateWallet_material id chain inp b m b' :
  CreateWallet id chain inp b = (Ok m, b') →
  ∃ key, createPrivateKey chain inp b = Ok key ∧
    wm_PublicKey m = encodePublicKey chain (key_PublicKey key) ∧
    wm_Address m = addressFor chain (key_PublicKey key) (wm_PublicKey m) ∧
    records b' = <[id := mkWalletRecord chain key (wm_PublicKey m) (wm_Address m)]> (records b) ∧
    evmPrivateKey b' = evmPrivateKey b.
Proof.
  unfold CreateWallet. destruct (in_ctx inp); [done|].
  destruct (createPrivateKey chain inp b) as [key|e]; [|done]. intros E. simplify_eq. by exists key.
Qed.
End Properties.
