(* ===== verification/StoreSpec.v ===== *)
(** * What a store promises

    The contract behind the [Store] interface of
    src/internal/wallet/service.go, independent of how the data is kept: four
    logical tables, the effect of each method that succeeds, and the errors a
    method may return.  The service is verified against this contract; each
    store implementation is proved to meet it. *)
From Stdlib Require Import Ascii.
From S2P Require Import Prelude GoStd GoError Types Json Transport Interfaces.

Record AStore := mkAStore {
  a_wallets : gmap string Wallet;
  a_txns : gmap string TransactionProposal;
  a_audit : list AuditEvent;                               (* oldest first *)
  a_idem : gmap (string * string) IdempotencyRecord        (* by scope and key *)
}.

Definition empty_astore : AStore := mkAStore ∅ ∅ [] ∅.

(** ** Storage precision

    A store may normalise what it keeps: a database column rounds instants,
    JSONB rewrites the text of embedded JSON values, JSON replaces bytes that
    are not UTF-8.  Nothing else changes. *)
Record Norm := mkNorm {
  n_time : Time → Time;                      (* columns that hold instants *)
  n_text : string → string;                  (* texts inside a JSON document *)
  n_meta : RawMessage → RawMessage;          (* metadata of a request *)
  n_payload : RawMessage → RawMessage;       (* payload of a raw transaction *)
  n_audit : RawMessage → RawMessage;         (* metadata of an audit event *)
  n_trace : option (gmap string string) → option (gmap string string)
}.

Definition exact : Norm := mkNorm id id id id id id.

Record NormLaws (n : Norm) : Prop := mkNormLaws {
  n_time_idem t : n_time n (n_time n t) = n_time n t;
  n_text_idem t : n_text n (n_text n t) = n_text n t;
  n_text_empty : n_text n "" = "";
  n_meta_idem j : n_meta n (n_meta n j) = n_meta n j;
  n_payload_idem j : n_payload n (n_payload n j) = n_payload n j;
  n_trace_idem t : n_trace n (n_trace n t) = n_trace n t;
  n_trace_texts t : trace_texts t → trace_texts (n_trace n t)
}.

Definition norm_wallet (n : Norm) (w : Wallet) : Wallet :=
  mkWallet (w_ID w) (w_Chain w) (w_Address w) (w_PublicKey w) (n_time n (w_CreatedAt w)).
Definition norm_request (n : Norm) (r : TransactionRequest) : TransactionRequest :=
  mkTransactionRequest (req_WalletID r) (req_To r) (req_Amount r) (req_FeeRateSats r)
    (req_GasLimit r) (req_MaxFeePerGas r) (req_Data r) (req_UTXOs r) (n_meta n (req_Metadata r)).
Definition norm_raw (n : Norm) (r : RawTransaction) : RawTransaction :=
  mkRawTransaction (n_text n (raw_Chain r)) (n_payload n (raw_Payload r)).
Definition norm_txn (n : Norm) (p : TransactionProposal) : TransactionProposal :=
  mkTransactionProposal (tp_ID p) (tp_WalletID p) (tp_Chain p) (tp_Status p)
    (norm_request n (tp_Request p)) (norm_raw n (tp_RawTransaction p)) (tp_Approvals p)
    (tp_SignedTransaction p) (n_text n (tp_BroadcastHash p)) (n_text n (tp_Error p))
    (n_trace n (tp_Trace p)) (tp_CreatedAt p) (tp_UpdatedAt p).
Definition norm_idem (n : Norm) (r : IdempotencyRecord) : IdempotencyRecord :=
  mkIdempotencyRecord (ir_Scope r) (ir_Key r) (ir_ResourceType r) (ir_ResourceID r)
    (n_time n (ir_CreatedAt r)).
(** An event keeps its identity; an empty metadata value becomes absent. *)
Definition norm_event (n : Norm) (e : AuditEvent) : AuditEvent :=
  mkAuditEvent (ae_ID e) (ae_Type e) (ae_Actor e) (ae_ResourceType e) (ae_ResourceID e)
    (ae_Chain e)
    (match ae_Metadata e with
     | Some m => if decide (m = "") then None else n_audit n (Some m)
     | None => None
     end)
    (n_time n (ae_CreatedAt e)).

(** ** Updates of the four tables *)
Definition put_wallet (n : Norm) (w : Wallet) (s : AStore) : AStore :=
  mkAStore (<[w_ID w := norm_wallet n w]> (a_wallets s)) (a_txns s) (a_audit s) (a_idem s).
Definition put_txn (n : Norm) (p : TransactionProposal) (s : AStore) : AStore :=
  mkAStore (a_wallets s) (<[tp_ID p := norm_txn n p]> (a_txns s)) (a_audit s) (a_idem s).
Definition put_idem (n : Norm) (r : IdempotencyRecord) (s : AStore) : AStore :=
  mkAStore (a_wallets s) (a_txns s) (a_audit s)
    (<[(ir_Scope r, ir_Key r) := norm_idem n r]> (a_idem s)).
Definition put_event (n : Norm) (e : AuditEvent) (s : AStore) : AStore :=
  mkAStore (a_wallets s) (a_txns s) (a_audit s ++ [norm_event n e]) (a_idem s).

(** The proposal after one more approval, and after it is marked signed. *)
Definition with_approval (a : Approval) (p : TransactionProposal) : TransactionProposal :=
  set_UpdatedAt (ap_CreatedAt a)
    (set_Approvals (Some (<[ap_SignerID a := a]> (approvals p))) p).
Definition with_signature (t : Time) (signed : string) (p : TransactionProposal) : TransactionProposal :=
  set_UpdatedAt t (set_SignedTransaction signed (set_Status TransactionStatusSigned p)).

Definition audit_matches (resourceID : string) (e : AuditEvent) : Prop :=
  resourceID = "" ∨ ae_ResourceID e = resourceID.
#[export] Instance audit_matches_dec r e : Decision (audit_matches r e).
Proof. unfold audit_matches. apply _. Defined.

(** The page size of an audit query: out-of-range limits mean 100. *)
Definition page_size (limit : Z) : nat :=
  if decide (0 < limit ≤ 200)%Z then Z.to_nat limit else 100.

(** ** Successful calls *)
Definition spec_ok (n : Norm) {A} (op : StoreOp A) : AStore → A → AStore → Prop :=
  match op in StoreOp A return AStore → A → AStore → Prop with
  | OpCreateWallet w => λ s _ s',
      a_wallets s !! w_ID w = None ∧ s' = put_wallet n w s
  | OpCreateWalletIdempotently w r => λ s out s',
      (∃ ex, a_idem s !! (ir_Scope r, ir_Key r) = Some ex ∧ out.2 = false ∧
             a_wallets s !! ir_ResourceID ex = Some out.1 ∧ s' = s)
      ∨ (a_idem s !! (ir_Scope r, ir_Key r) = None ∧ out = (w, true) ∧
         a_wallets s !! w_ID w = None ∧ s' = put_idem n r (put_wallet n w s))
  | OpGetWallet id => λ s w s', a_wallets s !! id = Some w ∧ s' = s
  | OpCreateTransaction p => λ s _ s',
      a_txns s !! tp_ID p = None ∧ s' = put_txn n p s
  | OpCreateTransactionIdempotently p r => λ s out s',
      (∃ ex, a_idem s !! (ir_Scope r, ir_Key r) = Some ex ∧ out.2 = false ∧
             a_txns s !! ir_ResourceID ex = Some out.1 ∧ s' = s)
      ∨ (a_idem s !! (ir_Scope r, ir_Key r) = None ∧ out = (p, true) ∧
         a_txns s !! tp_ID p = None ∧ s' = put_idem n r (put_txn n p s))
  | OpGetTransaction id => λ s p s', a_txns s !! id = Some p ∧ s' = s
  | OpAddApproval id a => λ s p' s',
      ∃ p, a_txns s !! id = Some p ∧ tp_Status p = TransactionStatusProposed ∧
           approvals p !! ap_SignerID a = None ∧
           p' = with_approval a p ∧ s' = put_txn n p' s
  | OpMarkTransactionSigned id signed => λ s out s',
      ∃ p, a_txns s !! id = Some p ∧
      ((tp_Status p ≠ TransactionStatusProposed ∧ out = (p, false) ∧ s' = s)
       ∨ (tp_Status p = TransactionStatusProposed ∧ out.2 = true ∧
          (∃ t, out.1 = with_signature t signed p) ∧ s' = put_txn n out.1 s))
  | OpUpdateTransaction p => λ s _ s',
      is_Some (a_txns s !! tp_ID p) ∧ s' = put_txn n p s
  | OpAppendAuditEvent e => λ s _ s', s' = put_event n e s
  | OpListAuditEvents f => λ s out s',
      (∃ l, l ≡ₚ filter (audit_matches (af_ResourceID f)) (a_audit s) ∧
            out = take (page_size (af_Limit f)) l) ∧ s' = s
  end.

(** ** Refusals: the state is unchanged and the reason is the one given *)
Definition spec_err {A} (op : StoreOp A) (s : AStore) (e : GoError) : Prop :=
  match op with
  | OpCreateWallet w => e = ErrVar ErrDuplicateWallet ∧ is_Some (a_wallets s !! w_ID w)
  | OpCreateWalletIdempotently w r =>
      (e = ErrVar ErrWalletNotFound ∧
       ∃ ex, a_idem s !! (ir_Scope r, ir_Key r) = Some ex ∧ a_wallets s !! ir_ResourceID ex = None)
      ∨ (e = ErrVar ErrDuplicateWallet ∧ is_Some (a_wallets s !! w_ID w))
  | OpGetWallet id => e = ErrVar ErrWalletNotFound ∧ a_wallets s !! id = None
  | OpCreateTransaction p => e = ErrVar ErrDuplicateTransaction ∧ is_Some (a_txns s !! tp_ID p)
  | OpCreateTransactionIdempotently p r =>
      (e = ErrVar ErrTransactionNotFound ∧
       ∃ ex, a_idem s !! (ir_Scope r, ir_Key r) = Some ex ∧ a_txns s !! ir_ResourceID ex = None)
      ∨ (e = ErrVar ErrDuplicateTransaction ∧ is_Some (a_txns s !! tp_ID p))
  | OpGetTransaction id => e = ErrVar ErrTransactionNotFound ∧ a_txns s !! id = None
  | OpAddApproval id a =>
      (e = ErrVar ErrTransactionNotFound ∧ a_txns s !! id = None)
      ∨ (∃ p, a_txns s !! id = Some p ∧
           ((e = ErrVar ErrTransactionNotProposed ∧ tp_Status p ≠ TransactionStatusProposed)
            ∨ (e = ErrVar ErrDuplicateApproval ∧ tp_Status p = TransactionStatusProposed ∧
               is_Some (approvals p !! ap_SignerID a))))
  | OpMarkTransactionSigned id _ => e = ErrVar ErrTransactionNotFound ∧ a_txns s !! id = None
  | OpUpdateTransaction p => e = ErrVar ErrTransactionNotFound ∧ a_txns s !! tp_ID p = None
  | OpAppendAuditEvent _ => False
  | OpListAuditEvents _ => False
  end.

(** An infrastructure error (cancellation, lost connection) is none of the
    packages' own error values. *)
Definition domain_sentinel (s : Sentinel) : bool :=
  match s with ErrCanceled | ErrDeadlineExceeded | ErrNoRows => false | _ => true end.
Definition infra (e : GoError) : Prop := ∀ s, domain_sentinel s = true → Is e s = false.

Lemma infra_ctx c : infra (ctx_error c).
Proof. by intros [] ?; destruct c. Qed.
Lemma infra_new m : infra (ErrNew m).
Proof. done. Qed.

(** ** One call.  An infrastructure error leaves the caller uncertain whether
    the call took effect. *)
Definition spec_step (n : Norm) {A} (op : StoreOp A) (s : AStore) (r : res A) (s' : AStore) : Prop :=
  match r with
  | Ok a => spec_ok n op s a s'
  | Err e => (s' = s ∧ (spec_err op s e ∨ infra e)) ∨ (infra e ∧ ∃ a, spec_ok n op s a s')
  end.

(** The callers' side of the contract: idempotency scopes contain no NUL byte,
    and what goes into a JSON document is well typed and UTF-8. *)
Definition op_ok {A} (op : StoreOp A) : Prop :=
  match op with
  | OpCreateWalletIdempotently _ r => has_byte "000" (ir_Scope r) = false
  | OpCreateTransaction p | OpUpdateTransaction p => proposal_ok p
  | OpCreateTransactionIdempotently p r => has_byte "000" (ir_Scope r) = false ∧ proposal_ok p
  | OpAddApproval _ a => utf8 (ap_SignerID a)
  | OpMarkTransactionSigned _ signed => utf8 signed
  | _ => True
  end.

(** An implementation of [Store] that meets the contract. *)
Class StoreRefinement (St : Type) `{!Store St} := {
  st_abs : St → AStore;
  st_wf : St → Prop;
  st_norm : Norm;
  st_norm_laws : NormLaws st_norm;
  st_refines : ∀ A (op : StoreOp A) (s : St) r s',
    st_wf s → op_ok op → store_rel op s r s' →
    st_wf s' ∧ spec_step st_norm op (st_abs s) r (st_abs s')
}.

(** ** Facts about the contract shared by its clients *)
Lemma norm_raw_idem n r : NormLaws n → norm_raw n (norm_raw n r) = norm_raw n r.
Proof. intros H. unfold norm_raw. simpl. by rewrite (n_payload_idem n H), (n_text_idem n H). Qed.
Lemma norm_request_idem n r : NormLaws n → norm_request n (norm_request n r) = norm_request n r.
Proof. intros H. unfold norm_request. simpl. by rewrite (n_meta_idem n H). Qed.
Lemma norm_txn_ok n p : NormLaws n → proposal_ok p → proposal_ok (norm_txn n p).
Proof.
  intros H (? & ? & ? & ? & ? & ? & ? & ?). split_and!; try done. by apply (n_trace_texts n H).
Qed.

Lemma exact_laws : NormLaws exact.
Proof. by split. Qed.
Lemma norm_wallet_exact w : norm_wallet exact w = w.
Proof. by destruct w. Qed.
Lemma norm_txn_exact p : norm_txn exact p = p.
Proof. by destruct p as [????[][]]. Qed.
Lemma norm_idem_exact r : norm_idem exact r = r.
Proof. by destruct r. Qed.
