(* ===== verification/MemoryStore.v ===== *)
(** * In-memory store (src/internal/store/memory.go)

    Every method runs under the store's mutex, so it is one function of the
    store's state.  The context is consulted before the lock is taken. *)
From Stdlib Require Import Ascii.
From S2P Require Import Prelude GoStd GoError Types Interfaces StoreSpec.

Record MemoryStore := mkMemoryStore {
  wallets : gmap string Wallet;
  transactions : gmap string TransactionProposal;
  auditEvents : list AuditEvent;                  (* oldest first *)
  idempotency : gmap string IdempotencyRecord
}.

Definition NewMemoryStore : MemoryStore := mkMemoryStore ∅ ∅ [] ∅.

(** [select { case <-ctx.Done(): return ..., ctx.Err(); default: }]. *)
Definition check_ctx {S A} (inp : Input) (body : S → res A * S) (s : S) : res A * S :=
  match in_ctx inp with
  | Some c => (Err (ctx_error c), s)
  | None => body s
  end.

(** [cloneProposal] and [cloneAuditEvent] copy the maps and the byte slice of
    their argument: the values are equal, only the references differ. *)
Definition cloneProposal (p : TransactionProposal) : TransactionProposal :=
  mkTransactionProposal (tp_ID p) (tp_WalletID p) (tp_Chain p) (tp_Status p) (tp_Request p)
    (tp_RawTransaction p)
    (match tp_Approvals p with
     | Some m => Some (list_to_map (map_to_list m))
     | None => None
     end)
    (tp_SignedTransaction p) (tp_BroadcastHash p) (tp_Error p)
    (match tp_Trace p with
     | Some m => Some (list_to_map (map_to_list m))
     | None => None
     end)
    (tp_CreatedAt p) (tp_UpdatedAt p).

Definition cloneAuditEvent (e : AuditEvent) : AuditEvent :=
  mkAuditEvent (ae_ID e) (ae_Type e) (ae_Actor e) (ae_ResourceType e) (ae_ResourceID e)
    (ae_Chain e)
    (match ae_Metadata e with
     | Some m => if decide (m = "") then None else Some m
     | None => None
     end)
    (ae_CreatedAt e).

Definition idempotencyKey (scope key : string) : string := scope +:+ String "000" key.

Definition CreateWallet (w : Wallet) (inp : Input) : MemoryStore → res unit * MemoryStore :=
  check_ctx inp (λ s,
    match wallets s !! w_ID w with
    | Some _ => (Err (ErrVar ErrDuplicateWallet), s)
    | None =>
        (Ok tt, mkMemoryStore (<[w_ID w := w]> (wallets s)) (transactions s) (auditEvents s) (idempotency s))
    end).

Definition CreateWalletIdempotently (w : Wallet) (record : IdempotencyRecord) (inp : Input)
    : MemoryStore → res (Wallet * bool) * MemoryStore :=
  check_ctx inp (λ s,
    let key := idempotencyKey (ir_Scope record) (ir_Key record) in
    match idempotency s !! key with
    | Some existing =>
        match wallets s !! ir_ResourceID existing with
        | None => (Err (ErrVar ErrWalletNotFound), s)
        | Some stored => (Ok (stored, false), s)
        end
    | None =>
        match wallets s !! w_ID w with
        | Some _ => (Err (ErrVar ErrDuplicateWallet), s)
        | None =>
            (Ok (w, true),
             mkMemoryStore (<[w_ID w := w]> (wallets s)) (transactions s) (auditEvents s)
               (<[key := record]> (idempotency s)))
        end
    end).

Definition GetWallet (id : string) (inp : Input) : MemoryStore → res Wallet * MemoryStore :=
  check_ctx inp (λ s,
    match wallets s !! id with
    | None => (Err (ErrVar ErrWalletNotFound), s)
    | Some w => (Ok w, s)
    end).

Definition put_transaction (id : string) (p : TransactionProposal) (s : MemoryStore) : MemoryStore :=
  mkMemoryStore (wallets s) (<[id := p]> (transactions s)) (auditEvents s) (idempotency s).

Definition CreateTransaction (proposal : TransactionProposal) (inp : Input)
    : MemoryStore → res unit * MemoryStore :=
  check_ctx inp (λ s,
    match transactions s !! tp_ID proposal with
    | Some _ => (Err (ErrVar ErrDuplicateTransaction), s)
    | None => (Ok tt, put_transaction (tp_ID proposal) (cloneProposal proposal) s)
    end).

Definition CreateTransactionIdempotently (proposal : TransactionProposal) (record : IdempotencyRecord)
    (inp : Input) : MemoryStore → res (TransactionProposal * bool) * MemoryStore :=
  check_ctx inp (λ s,
    let key := idempotencyKey (ir_Scope record) (ir_Key record) in
    match idempotency s !! key with
    | Some existing =>
        match transactions s !! ir_ResourceID existing with
        | None => (Err (ErrVar ErrTransactionNotFound), s)
        | Some stored => (Ok (cloneProposal stored, false), s)
        end
    | None =>
        match transactions s !! tp_ID proposal with
        | Some _ => (Err (ErrVar ErrDuplicateTransaction), s)
        | None =>
            (Ok (cloneProposal proposal, true),
             mkMemoryStore (wallets s)
               (<[tp_ID proposal := cloneProposal proposal]> (transactions s)) (auditEvents s)
               (<[key := record]> (idempotency s)))
        end
    end).

Definition GetTransaction (id : string) (inp : Input)
    : MemoryStore → res TransactionProposal * MemoryStore :=
  check_ctx inp (λ s,
    match transactions s !! id with
    | None => (Err (ErrVar ErrTransactionNotFound), s)
    | Some p => (Ok (cloneProposal p), s)
    end).

Definition UpdateTransaction (proposal : TransactionProposal) (inp : Input)
    : MemoryStore → res unit * MemoryStore :=
  check_ctx inp (λ s,
    match transactions s !! tp_ID proposal with
    | None => (Err (ErrVar ErrTransactionNotFound), s)
    | Some _ => (Ok tt, put_transaction (tp_ID proposal) (cloneProposal proposal) s)
    end).

Definition AddApproval (transactionID : string) (approval : Approval) (inp : Input)
    : MemoryStore → res TransactionProposal * MemoryStore :=
  check_ctx inp (λ s,
    match transactions s !! transactionID with
    | None => (Err (ErrVar ErrTransactionNotFound), s)
    | Some proposal =>
        if decide (tp_Status proposal ≠ TransactionStatusProposed)
        then (Err (ErrVar ErrTransactionNotProposed), s)
        else
          let m := match tp_Approvals proposal with None => ∅ | Some m => m end in
          match m !! ap_SignerID approval with
          | Some _ => (Err (ErrVar ErrDuplicateApproval), s)
          | None =>
              let proposal := set_Approvals (Some (<[ap_SignerID approval := approval]> m)) proposal in
              let proposal := set_UpdatedAt (ap_CreatedAt approval) proposal in
              (Ok (cloneProposal proposal), put_transaction transactionID (cloneProposal proposal) s)
          end
    end).

(** The loop of [MarkTransactionSigned] over the approvals keeps the latest
    instant in [UpdatedAt]; Go's map order is unspecified and does not matter. *)
Definition latest_approval (m : gmap string Approval) (t : Time) : Time :=
  map_fold (λ _ a t, if (t <? ap_CreatedAt a)%Z then ap_CreatedAt a else t) t m.

Definition MarkTransactionSigned (transactionID signedTransaction : string) (inp : Input)
    : MemoryStore → res (TransactionProposal * bool) * MemoryStore :=
  check_ctx inp (λ s,
    match transactions s !! transactionID with
    | None => (Err (ErrVar ErrTransactionNotFound), s)
    | Some proposal =>
        if decide (tp_Status proposal ≠ TransactionStatusProposed)
        then (Ok (cloneProposal proposal, false), s)
        else
          let proposal := set_Status TransactionStatusSigned proposal in
          let proposal := set_SignedTransaction signedTransaction proposal in
          let proposal := set_UpdatedAt (latest_approval (approvals proposal) (tp_UpdatedAt proposal)) proposal in
          (Ok (cloneProposal proposal, true), put_transaction transactionID (cloneProposal proposal) s)
    end).

Definition AppendAuditEvent (event : AuditEvent) (inp : Input) : MemoryStore → res unit * MemoryStore :=
  check_ctx inp (λ s,
    (Ok tt, mkMemoryStore (wallets s) (transactions s) (auditEvents s ++ [cloneAuditEvent event]) (idempotency s))).

Definition audit_limit (limit : Z) : Z :=
  if (limit <=? 0)%Z || (200 <? limit)%Z then 100%Z else limit.

(** The backwards loop of [ListAuditEvents]: [l] is what is left of the log,
    newest first. *)
Fixpoint list_loop (resourceID : string) (limit : Z) (l events : list AuditEvent) : list AuditEvent :=
  match l with
  | [] => events
  | event :: l' =>
      if (Z.of_nat (length events) <? limit)%Z then
        if decide (resourceID ≠ "" ∧ ae_ResourceID event ≠ resourceID)
        then list_loop resourceID limit l' events
        else list_loop resourceID limit l' (events ++ [cloneAuditEvent event])
      else events
  end.

Definition ListAuditEvents (filter : AuditFilter) (inp : Input)
    : MemoryStore → res (list AuditEvent) * MemoryStore :=
  check_ctx inp (λ s,
    (Ok (list_loop (af_ResourceID filter) (audit_limit (af_Limit filter)) (reverse (auditEvents s)) []), s)).

Definition SaveIdempotency (record : IdempotencyRecord) (inp : Input)
    : MemoryStore → res unit * MemoryStore :=
  check_ctx inp (λ s,
    let key := idempotencyKey (ir_Scope record) (ir_Key record) in
    match idempotency s !! key with
    | Some _ => (Err (ErrVar ErrDuplicateIdempotency), s)
    | None =>
        (Ok tt, mkMemoryStore (wallets s) (transactions s) (auditEvents s)
                  (<[key := record]> (idempotency s)))
    end).

Definition GetIdempotency (scope key : string) (inp : Input)
    : MemoryStore → res IdempotencyRecord * MemoryStore :=
  check_ctx inp (λ s,
    match idempotency s !! idempotencyKey scope key with
    | None => (Ok (mkIdempotencyRecord "" "" "" "" zeroTime), s)
    | Some record => (Ok record, s)
    end).

Definition memory_exec A (op : StoreOp A) : Input → MemoryStore → res A * MemoryStore :=
  match op in StoreOp A return Input → MemoryStore → res A * MemoryStore with
  | OpCreateWallet w => CreateWallet w
  | OpCreateWalletIdempotently w record => CreateWalletIdempotently w record
  | OpGetWallet id => GetWallet id
  | OpCreateTransaction proposal => CreateTransaction proposal
  | OpCreateTransactionIdempotently proposal record => CreateTransactionIdempotently proposal record
  | OpGetTransaction id => GetTransaction id
  | OpAddApproval id approval => AddApproval id approval
  | OpMarkTransactionSigned id signed => MarkTransactionSigned id signed
  | OpUpdateTransaction proposal => UpdateTransaction proposal
  | OpAppendAuditEvent event => AppendAuditEvent event
  | OpListAuditEvents filter => ListAuditEvents filter
  end.
#[export] Instance MemoryStore_Store : Store MemoryStore := sequential_store memory_exec.

(** ** The in-memory store meets the contract *)

(** Cloning changes references, never values. *)
Lemma cloneProposal_id p : cloneProposal p = p.
Proof.
  destruct p as [?????? a ??? t ??]. unfold cloneProposal. simpl.
  destruct a, t; by rewrite ?list_to_map_to_list.
Qed.
Lemma cloneAuditEvent_norm e : cloneAuditEvent e = norm_event exact e.
Proof. done. Qed.
Lemma cloneAuditEvent_idem e : cloneAuditEvent (cloneAuditEvent e) = cloneAuditEvent e.
Proof. unfold cloneAuditEvent. simpl. destruct (ae_Metadata e); repeat case_decide; done. Qed.

(** The flat idempotency key is injective on scopes without a NUL byte. *)
Lemma idempotencyKey_inj sc sc' k k' :
  has_byte "000" sc = false → has_byte "000" sc' = false →
  idempotencyKey sc k = idempotencyKey sc' k' → sc = sc' ∧ k = k'.
Proof. apply app_sep_inj. Qed.

(** The logical table behind the flat map. *)
Definition mem_idem (m : gmap string IdempotencyRecord) : gmap (string * string) IdempotencyRecord :=
  list_to_map ((λ kr, ((ir_Scope kr.2, ir_Key kr.2), kr.2)) <$> map_to_list m).

Definition idem_wf (m : gmap string IdempotencyRecord) : Prop :=
  ∀ k r, m !! k = Some r →
    k = idempotencyKey (ir_Scope r) (ir_Key r) ∧ has_byte "000" (ir_Scope r) = false.

Definition mem_abs (s : MemoryStore) : AStore :=
  mkAStore (wallets s) (transactions s) (auditEvents s) (mem_idem (idempotency s)).

Record mem_wf (s : MemoryStore) : Prop := mkMemWf {
  wf_idem : idem_wf (idempotency s);
  wf_txns : ∀ id p, transactions s !! id = Some p → tp_ID p = id;
  wf_audit : Forall (λ e, cloneAuditEvent e = e) (auditEvents s)
}.

Lemma mem_idem_NoDup m :
  idem_wf m → NoDup ((λ kr, ((ir_Scope kr.2, ir_Key kr.2), kr.2)) <$> map_to_list m).*1.
Proof.
  intros Hwf. rewrite <- list_fmap_compose. apply NoDup_fmap_2_strong; [|apply NoDup_map_to_list].
  intros [k r] [k' r'] H%elem_of_map_to_list H'%elem_of_map_to_list E. simpl in E.
  destruct (Hwf _ _ H) as [Hk _], (Hwf _ _ H') as [Hk' _].
  assert (k = k') as <- by congruence. congruence.
Qed.

Lemma mem_idem_lookup m sc k :
  idem_wf m → has_byte "000" sc = false → mem_idem m !! (sc, k) = m !! idempotencyKey sc k.
Proof.
  intros Hwf Hsc. apply option_eq. intros r. unfold mem_idem.
  rewrite <- elem_of_list_to_map by by apply mem_idem_NoDup.
  rewrite list_elem_of_fmap. split.
  - intros ([k0 r0] & E & H%elem_of_map_to_list). simpl in E. simplify_eq.
    by destruct (Hwf _ _ H) as [<- _].
  - intros H. exists (idempotencyKey sc k, r). rewrite elem_of_map_to_list. split; [|done].
    destruct (Hwf _ _ H) as [Hk Hr]. simpl. by apply idempotencyKey_inj in Hk as [-> ->].
Qed.

Lemma mem_idem_insert m r :
  idem_wf m → has_byte "000" (ir_Scope r) = false →
  m !! idempotencyKey (ir_Scope r) (ir_Key r) = None →
  mem_idem (<[idempotencyKey (ir_Scope r) (ir_Key r) := r]> m)
    = <[(ir_Scope r, ir_Key r) := r]> (mem_idem m).
Proof.
  intros Hwf Hsc Hm. unfold mem_idem. rewrite <- list_to_map_cons.
  assert (Hwf' : idem_wf (<[idempotencyKey (ir_Scope r) (ir_Key r) := r]> m)).
  { intros k r' H. apply lookup_insert_Some in H as [[<- <-]|[_ H]]; [done|by apply Hwf]. }
  apply list_to_map_proper; [by apply mem_idem_NoDup|].
  by rewrite map_to_list_insert by done.
Qed.

Lemma idem_wf_insert m r :
  idem_wf m → has_byte "000" (ir_Scope r) = false →
  idem_wf (<[idempotencyKey (ir_Scope r) (ir_Key r) := r]> m).
Proof.
  intros Hwf ? k r' H. apply lookup_insert_Some in H as [[<- <-]|[_ H]]; [done|by apply Hwf].
Qed.

(** The query loop is a filter cut to the page size. *)
Lemma list_loop_spec rid limit l events :
  Forall (λ e, cloneAuditEvent e = e) l →
  list_loop rid limit l events
    = events ++ take (Z.to_nat limit - length events) (filter (audit_matches rid) l).
Proof.
  intros Hl. revert events. induction Hl as [|e l He Hl IH]; intros events; cbn [list_loop].
  { by rewrite filter_nil, take_nil, app_nil_r. }
  destruct (Z.ltb_spec (Z.of_nat (length events)) limit).
  - rewrite filter_cons. destruct (decide (_ ∧ _)) as [[Hr Hne]|Hm].
    + rewrite (decide_False (P := audit_matches rid e)) by by intros [?|?]. apply IH.
    + rewrite (decide_True (P := audit_matches rid e)).
      2: { unfold audit_matches. destruct (decide (rid = "")); [by left|right].
           destruct (decide (ae_ResourceID e = rid)); tauto. }
      rewrite IH, He, length_app. simpl. rewrite <- app_assoc. f_equal.
      replace (Z.to_nat limit - length events) with (S (Z.to_nat limit - (length events + 1))) by lia.
      done.
  - replace (Z.to_nat limit - length events) with 0 by lia. by rewrite take_0, app_nil_r.
Qed.

Lemma audit_limit_page limit : Z.to_nat (audit_limit limit) = page_size limit.
Proof.
  unfold audit_limit, page_size.
  destruct (Z.leb_spec limit 0), (Z.ltb_spec 200 limit); simpl; case_decide; lia || done.
Qed.

(** A cancelled context: nothing happens and the error is the context's. *)
Lemma check_ctx_cases {A} (op : StoreOp A) inp (body : MemoryStore → res A * MemoryStore) s r s' :
  mem_wf s →
  (body s = (r, s') → mem_wf s' ∧ spec_step exact op (mem_abs s) r (mem_abs s')) →
  check_ctx inp body s = (r, s') → mem_wf s' ∧ spec_step exact op (mem_abs s) r (mem_abs s').
Proof.
  intros Hwf H. unfold check_ctx. destruct (in_ctx inp) as [c|]; [|done].
  intros E. simplify_eq. split; [done|]. left. split; [done|]. right. apply infra_ctx.
Qed.

Lemma spec_refusal {A} (op : StoreOp A) (s : MemoryStore) e :
  mem_wf s → spec_err op (mem_abs s) e →
  mem_wf s ∧ spec_step exact op (mem_abs s) (Err e) (mem_abs s).
Proof. intros ? ?. split; [done|]. left. auto. Qed.

Lemma put_transaction_wf id p s : mem_wf s → tp_ID p = id → mem_wf (put_transaction id p s).
Proof.
  intros [Hi Ht Ha] Hid. split; simpl; [done| |done].
  intros id' p' H. apply lookup_insert_Some in H as [[<- <-]|[_ H]]; eauto.
Qed.
Lemma put_transaction_abs id p s :
  tp_ID p = id → mem_abs (put_transaction id p s) = put_txn exact p (mem_abs s).
Proof. intros <-. unfold put_txn. by rewrite norm_txn_exact. Qed.

Lemma approvals_match p : match tp_Approvals p with None => ∅ | Some m => m end = approvals p.
Proof. unfold approvals. by destruct (tp_Approvals p). Qed.

Lemma mem_refines_wallets :
  (∀ w inp s r s', mem_wf s → CreateWallet w inp s = (r, s') →
     mem_wf s' ∧ spec_step exact (OpCreateWallet w) (mem_abs s) r (mem_abs s')) ∧
  (∀ w rec inp s r s', mem_wf s → has_byte "000" (ir_Scope rec) = false →
     CreateWalletIdempotently w rec inp s = (r, s') →
     mem_wf s' ∧ spec_step exact (OpCreateWalletIdempotently w rec) (mem_abs s) r (mem_abs s')) ∧
  (∀ id inp s r s', mem_wf s → GetWallet id inp s = (r, s') →
     mem_wf s' ∧ spec_step exact (OpGetWallet id) (mem_abs s) r (mem_abs s')).
Proof.
  split; [|split].
  - intros w inp s r s' Hwf. apply check_ctx_cases; [done|].
    destruct (wallets s !! w_ID w) eqn:Hw; intros E; simplify_eq.
    + apply spec_refusal; [done|]. simpl. rewrite Hw. eauto.
    + destruct Hwf. split; [done|]. simpl. unfold put_wallet. by rewrite norm_wallet_exact.
  - intros w rec inp s r s' Hwf Hsc. apply check_ctx_cases; [done|]. cbv zeta.
    pose proof (mem_idem_lookup _ _ (ir_Key rec) (wf_idem s Hwf) Hsc) as Hl.
    destruct (idempotency s !! _) as [ex|] eqn:Hi.
    + destruct (wallets s !! ir_ResourceID ex) eqn:Hw; intros E; simplify_eq.
      * split; [done|]. left. eauto 6.
      * apply spec_refusal; [done|]. left. eauto.
    + destruct (wallets s !! w_ID w) eqn:Hw; intros E; simplify_eq.
      * apply spec_refusal; [done|]. right. eauto.
      * split.
        { destruct Hwf. split; simpl; auto using idem_wf_insert. }
        right. split_and!; [done..|]. unfold put_idem, put_wallet, mem_abs. simpl.
        by rewrite norm_wallet_exact, norm_idem_exact, mem_idem_insert by (done || apply Hwf).
  - intros id inp s r s' Hwf. apply check_ctx_cases; [done|].
    destruct (wallets s !! id) eqn:Hw; intros E; simplify_eq.
    + done.
    + by apply spec_refusal.
Qed.

Lemma mem_refines_create_txn :
  (∀ p inp s r s', mem_wf s → CreateTransaction p inp s = (r, s') →
     mem_wf s' ∧ spec_step exact (OpCreateTransaction p) (mem_abs s) r (mem_abs s')) ∧
  (∀ p rec inp s r s', mem_wf s → has_byte "000" (ir_Scope rec) = false →
     CreateTransactionIdempotently p rec inp s = (r, s') →
     mem_wf s' ∧ spec_step exact (OpCreateTransactionIdempotently p rec) (mem_abs s) r (mem_abs s')) ∧
  (∀ id inp s r s', mem_wf s → GetTransaction id inp s = (r, s') →
     mem_wf s' ∧ spec_step exact (OpGetTransaction id) (mem_abs s) r (mem_abs s')) ∧
  (∀ p inp s r s', mem_wf s → UpdateTransaction p inp s = (r, s') →
     mem_wf s' ∧ spec_step exact (OpUpdateTransaction p) (mem_abs s) r (mem_abs s')).
Proof.
  split_and!.
  - intros p inp s r s' Hwf. apply check_ctx_cases; [done|]. rewrite cloneProposal_id.
    destruct (transactions s !! tp_ID p) eqn:Hp; intros E; simplify_eq.
    + apply spec_refusal; [done|]. simpl. rewrite Hp. eauto.
    + split; [by apply put_transaction_wf|]. split; [done|]. by apply put_transaction_abs.
  - intros p rec inp s r s' Hwf Hsc. apply check_ctx_cases; [done|]. cbv zeta.
    pose proof (mem_idem_lookup _ _ (ir_Key rec) (wf_idem s Hwf) Hsc) as Hl.
    rewrite cloneProposal_id. destruct (idempotency s !! _) as [ex|] eqn:Hi.
    + destruct (transactions s !! ir_ResourceID ex) eqn:Hw; intros E; simplify_eq.
      * rewrite cloneProposal_id. split; [done|]. left. eauto 6.
      * apply spec_refusal; [done|]. left. eauto.
    + destruct (transactions s !! tp_ID p) eqn:Hw; intros E; simplify_eq.
      * apply spec_refusal; [done|]. right. eauto.
      * split.
        { destruct (put_transaction_wf _ p _ Hwf eq_refl), Hwf. split; simpl; auto using idem_wf_insert. }
        right. split_and!; [done..|]. unfold put_idem, put_txn, mem_abs. simpl.
        by rewrite norm_txn_exact, norm_idem_exact, mem_idem_insert by (done || apply Hwf).
  - intros id inp s r s' Hwf. apply check_ctx_cases; [done|].
    destruct (transactions s !! id) eqn:Hw; intros E; simplify_eq.
    + rewrite cloneProposal_id. done.
    + by apply spec_refusal.
  - intros p inp s r s' Hwf. apply check_ctx_cases; [done|]. rewrite cloneProposal_id.
    destruct (transactions s !! tp_ID p) eqn:Hp; intros E; simplify_eq.
    + split; [by apply put_transaction_wf|]. split; [simpl; rewrite Hp; eauto|].
      by apply put_transaction_abs.
    + apply spec_refusal; done.
Qed.

Lemma mem_refines_quorum :
  (∀ id a inp s r s', mem_wf s → AddApproval id a inp s = (r, s') →
     mem_wf s' ∧ spec_step exact (OpAddApproval id a) (mem_abs s) r (mem_abs s')) ∧
  (∀ id sg inp s r s', mem_wf s → MarkTransactionSigned id sg inp s = (r, s') →
     mem_wf s' ∧ spec_step exact (OpMarkTransactionSigned id sg) (mem_abs s) r (mem_abs s')).
Proof.
  split.
  - intros id a inp s r s' Hwf. apply check_ctx_cases; [done|].
    destruct (transactions s !! id) as [p|] eqn:Hp.
    2: { intros E; simplify_eq. apply spec_refusal; [done|]. by left. }
    case_decide as Hst.
    { intros E; simplify_eq. apply spec_refusal; [done|]. right. eauto 6. }
    rewrite approvals_match. cbv zeta.
    destruct (approvals p !! ap_SignerID a) eqn:Ha; intros E; simplify_eq.
    + apply spec_refusal; [done|]. right. exists p. split; [done|]. right. rewrite Ha. eauto.
    + rewrite cloneProposal_id. pose proof (wf_txns s Hwf _ _ Hp) as Hid.
      split; [by apply put_transaction_wf|]. exists p. split_and!; [done..|].
      by apply put_transaction_abs.
  - intros id sg inp s r s' Hwf. apply check_ctx_cases; [done|].
    destruct (transactions s !! id) as [p|] eqn:Hp.
    2: { intros E; simplify_eq. by apply spec_refusal. }
    cbv zeta. case_decide as Hst; intros E; simplify_eq; rewrite !cloneProposal_id.
    + split; [done|]. exists p. eauto 6.
    + pose proof (wf_txns s Hwf _ _ Hp) as Hid.
      split; [by apply put_transaction_wf|]. exists p. split; [done|]. right.
      split_and!; [done|done|by eexists|]. by apply put_transaction_abs.
Qed.

Lemma mem_refines_audit :
  (∀ e inp s r s', mem_wf s → AppendAuditEvent e inp s = (r, s') →
     mem_wf s' ∧ spec_step exact (OpAppendAuditEvent e) (mem_abs s) r (mem_abs s')) ∧
  (∀ f inp s r s', mem_wf s → ListAuditEvents f inp s = (r, s') →
     mem_wf s' ∧ spec_step exact (OpListAuditEvents f) (mem_abs s) r (mem_abs s')).
Proof.
  split.
  - intros e inp s r s' Hwf. apply check_ctx_cases; [done|]. intros E; simplify_eq.
    split; [|done]. destruct Hwf. split; simpl; [done|done|].
    apply Forall_app. auto using cloneAuditEvent_idem.
  - intros f inp s r s' Hwf. apply check_ctx_cases; [done|]. intros E; simplify_eq.
    split; [done|]. split; [|done]. exists (filter (audit_matches (af_ResourceID f)) (reverse (auditEvents s'))).
    split; [by rewrite reverse_Permutation|].
    rewrite list_loop_spec by apply Forall_reverse, Hwf. simpl.
    by rewrite audit_limit_page, Nat.sub_0_r.
Qed.

#[export] Instance MemoryStore_Refinement : StoreRefinement MemoryStore.
Proof.
  refine {| st_abs := mem_abs; st_wf := mem_wf; st_norm := exact; st_norm_laws := exact_laws |}.
  destruct mem_refines_wallets as (?&?&?), mem_refines_create_txn as (?&?&?&?),
    mem_refines_quorum, mem_refines_audit.
  intros A op s r s' Hwf Hop [inp Hx]. revert Hwf Hop Hx. destruct op; simpl; intros Hwf Hop; destruct_and?; eauto.
Defined.
