(* ===== verification/Sql.v ===== *)
(** * The database behind the Postgres store

    The four tables of src/internal/store/migrations, the statements the store
    issues, and the part of PostgreSQL they rely on: transactions at the READ
    COMMITTED level, unique and foreign keys, row locks, and statements that
    wait for another transaction.  How text, JSONB and timestamps are stored is
    a parameter ([Postgres]) with the documented facts the proofs need. *)
From Stdlib Require Import Ascii.
From stdpp Require Import sorting.
From S2P Require Import Prelude GoStd GoError Types Json Marshal JsonText Codec Transport Interfaces StoreSpec.

(** ** PostgreSQL's data types *)
Class Postgres := {
  text_in : string → option GoError;            (* the error when a text is not accepted *)
  jsonb_in : string → res string;               (* the text a JSONB value is printed as *)
  column_time : Time → Time;                    (* a TIMESTAMPTZ column *)
  scan : list AuditEvent → list AuditEvent      (* the order rows are found in *)
}.

(** [errors.As(err, &pgErr) && pgErr.Code == "23505"]. *)
Fixpoint isUniqueViolation (err : GoError) : bool :=
  match err with
  | ErrPg code _ => bool_decide (code = "23505")
  | ErrWrap _ cause _ => isUniqueViolation cause
  | _ => false
  end.

Class PostgresLaws `{Postgres} := {
  text_utf8 s : text_in s = None → utf8 s;
  text_error s e : text_in s = Some e → infra e ∧ isUniqueViolation e = false;
  jsonb_error t e : jsonb_in t = Err e → infra e ∧ isUniqueViolation e = false;
  jsonb_carries : Carries (λ t u, jsonb_in t = Ok u);
  (* printed values are JSON in UTF-8 and are read back as they are *)
  jsonb_printed t u : jsonb_in t = Ok u → utf8 u ∧ is_Some (decode u) ∧ jsonb_in u = Ok u;
  (* also when a Go client printed them again: white space between tokens is
     insignificant, and an escaped character is that character *)
  jsonb_reprint t u : jsonb_in t = Ok u → jsonb_in (compact_text false u) = Ok u;
  column_time_idem t : column_time (column_time t) = column_time t;
  scan_perm l : scan l ≡ₚ l
}.

(** ** Tables *)
Record TxnRow := mkTxnRow {
  row_WalletID : string;
  row_Chain : string;
  row_Status : string;
  row_Proposal : string;                        (* as printed *)
  row_CreatedAt : Time;
  row_UpdatedAt : Time
}.
Record Tables := mkTables {
  t_wallets : gmap string Wallet;
  t_txns : gmap string TxnRow;
  t_audit : list AuditEvent;
  t_idem : gmap (string * string) IdempotencyRecord
}.

(** Row versions a transaction has written and not committed. *)
Inductive Change :=
| CWallet (w : Wallet)
| CTxn (id : string) (row : TxnRow)
| CEvent (e : AuditEvent)
| CIdem (r : IdempotencyRecord).
Definition apply_change (c : Change) (t : Tables) : Tables :=
  match c with
  | CWallet w => mkTables (<[w_ID w := w]> (t_wallets t)) (t_txns t) (t_audit t) (t_idem t)
  | CTxn id row => mkTables (t_wallets t) (<[id := row]> (t_txns t)) (t_audit t) (t_idem t)
  | CEvent e => mkTables (t_wallets t) (t_txns t) (t_audit t ++ [e]) (t_idem t)
  | CIdem r => mkTables (t_wallets t) (t_txns t) (t_audit t) (<[(ir_Scope r, ir_Key r) := r]> (t_idem t))
  end.
Definition apply_changes (l : list Change) (t : Tables) : Tables := foldl (flip apply_change) t l.

(** Primary keys. *)
Inductive Key := KWallet (id : string) | KTxn (id : string) | KEvent (id : string) | KIdem (scope key : string).
#[export] Instance Key_eq_dec : EqDecision Key.
Proof. solve_decision. Defined.
Definition change_key (c : Change) : Key :=
  match c with
  | CWallet w => KWallet (w_ID w)
  | CTxn id _ => KTxn id
  | CEvent e => KEvent (ae_ID e)
  | CIdem r => KIdem (ir_Scope r) (ir_Key r)
  end.
Definition present (k : Key) (t : Tables) : bool :=
  match k with
  | KWallet id => bool_decide (is_Some (t_wallets t !! id))
  | KTxn id => bool_decide (is_Some (t_txns t !! id))
  | KEvent id => bool_decide (id ∈ (ae_ID <$> t_audit t))
  | KIdem scope key => bool_decide (is_Some (t_idem t !! (scope, key)))
  end.

(** ** Statements *)
Inductive stmt : Type → Type :=
| InsertWallet (w : Wallet) : stmt unit
| InsertTxn (id wallet_id chain status proposal : string) (created_at updated_at : Time) : stmt unit
| InsertIdem (r : IdempotencyRecord) : stmt unit
| InsertEvent (e : AuditEvent) : stmt unit
| UpdateTxn (id : string) (status : option string) (proposal : string) (updated_at : Time) : stmt nat
| SelectWallet (id : string) : stmt (option Wallet)
| SelectTxn (lock : bool) (id : string) : stmt (option string)
| SelectIdem (scope key : string) : stmt (option IdempotencyRecord)
| SelectEvents (resource_id : string) (limit : Z) : stmt (list AuditEvent).

Definition unique_violation : GoError := ErrPg "23505" "duplicate key value violates unique constraint".
Definition foreign_key_violation : GoError := ErrPg "23503" "violates foreign key constraint".
Definition tx_aborted : GoError := ErrPg "25P02" "current transaction is aborted".
Definition tx_closed : GoError := ErrNew "tx is closed".
Definition tx_rolled_back : GoError := ErrNew "commit unexpectedly resulted in rollback".

Definition newest_first (a b : AuditEvent) : Prop := (ae_CreatedAt b ≤ ae_CreatedAt a)%Z.
#[export] Instance newest_first_dec a b : Decision (newest_first a b).
Proof. unfold newest_first. apply _. Defined.

Section Statements.
Context `{Postgres}.

(** The first text the server does not accept. *)
Definition texts_in (l : list string) : option GoError := head (omap text_in l).

(** The result of a statement and the row versions it writes, on what the
    transaction sees. *)
Definition insert_row (k : Key) (c : Change) (t : Tables) : res (unit * list Change) :=
  if present k t then Err unique_violation else Ok (tt, [c]).
Definition eval {A} (st : stmt A) : Tables → res (A * list Change) :=
  match st in stmt A return Tables → res (A * list Change) with
  | InsertWallet w => λ t,
      match texts_in [w_ID w; w_Chain w; w_Address w; w_PublicKey w] with
      | Some e => Err e
      | None => insert_row (KWallet (w_ID w)) (CWallet (mkWallet (w_ID w) (w_Chain w) (w_Address w) (w_PublicKey w)
                  (column_time (w_CreatedAt w)))) t
      end
  | InsertTxn id wallet_id chain status proposal created updated => λ t,
      match texts_in [id; wallet_id; chain; status] with
      | Some e => Err e
      | None =>
          match jsonb_in proposal with
          | Err e => Err e
          | Ok doc =>
              match insert_row (KTxn id) (CTxn id (mkTxnRow wallet_id chain status doc (column_time created)
                      (column_time updated))) t with
              | Err e => Err e
              | Ok r => if present (KWallet wallet_id) t then Ok r else Err foreign_key_violation
              end
          end
      end
  | InsertIdem r => λ t,
      match texts_in [ir_Scope r; ir_Key r; ir_ResourceType r; ir_ResourceID r] with
      | Some e => Err e
      | None => insert_row (KIdem (ir_Scope r) (ir_Key r)) (CIdem (mkIdempotencyRecord (ir_Scope r) (ir_Key r)
                  (ir_ResourceType r) (ir_ResourceID r) (column_time (ir_CreatedAt r)))) t
      end
  | InsertEvent e => λ t,
      match texts_in [ae_ID e; ae_Type e; ae_Actor e; ae_ResourceType e; ae_ResourceID e; ae_Chain e] with
      | Some err => Err err
      | None =>
          match (match ae_Metadata e with None => Ok None | Some m => match jsonb_in m with Ok u => Ok (Some u) | Err er => Err er end end) with
          | Err er => Err er
          | Ok metadata =>
              insert_row (KEvent (ae_ID e)) (CEvent (mkAuditEvent (ae_ID e) (ae_Type e) (ae_Actor e) (ae_ResourceType e)
                (ae_ResourceID e) (ae_Chain e) metadata (column_time (ae_CreatedAt e)))) t
          end
      end
  | UpdateTxn id status proposal updated => λ t,
      match texts_in (id :: option_list status) with
      | Some e => Err e
      | None =>
          match jsonb_in proposal with
          | Err e => Err e
          | Ok doc =>
              match t_txns t !! id with
              | None => Ok (0, [])
              | Some row => Ok (1, [CTxn id (mkTxnRow (row_WalletID row) (row_Chain row)
                  (default (row_Status row) status) doc (row_CreatedAt row) (column_time updated))])
              end
          end
      end
  | SelectWallet id => λ t, match texts_in [id] with Some e => Err e | None => Ok (t_wallets t !! id, []) end
  | SelectTxn _ id => λ t,
      match texts_in [id] with Some e => Err e | None => Ok (row_Proposal <$> t_txns t !! id, []) end
  | SelectIdem scope key => λ t,
      match texts_in [scope; key] with Some e => Err e | None => Ok (t_idem t !! (scope, key), []) end
  | SelectEvents resource_id limit => λ t,
      match texts_in [resource_id] with
      | Some e => Err e
      | None =>
          Ok (take (Z.to_nat limit)
                (merge_sort newest_first (scan (filter (audit_matches resource_id) (t_audit t)))), [])
      end
  end.

(** ** Transactions *)
Record Tx := mkTx {
  tx_log : list Change;
  tx_locks : list string;                       (* rows of transaction_proposals locked FOR UPDATE *)
  tx_failed : bool
}.
Definition empty_tx : Tx := mkTx [] [] false.
(** An error aborts the transaction: its writes and locks are gone, and it only
    waits to be ended. *)
Definition aborted_tx : Tx := mkTx [] [] true.

(** One entry per session with an open transaction. *)
Record Database := mkDatabase { tables : Tables; sessions : gmap nat Tx }.

Definition writes (k : Key) (tx : Tx) : bool := bool_decide (k ∈ (change_key <$> tx_log tx)).
Definition holds (id : string) (tx : Tx) : bool := bool_decide (id ∈ tx_locks tx) || writes (KTxn id) tx.
(** Does a transaction of another session satisfy the predicate? *)
Definition other (i : nat) (P : Tx → bool) (d : Database) : bool :=
  bool_decide (map_Exists (λ j tx, j ≠ i ∧ P tx = true) (sessions d)).

(** An insertion waits for a transaction that has written the same key; a lock
    or an update of a row waits for one that holds it. *)
Definition blocked {A} (i : nat) (st : stmt A) (view : Tables) (d : Database) : bool :=
  match st with
  | InsertWallet w => other i (writes (KWallet (w_ID w))) d
  | InsertTxn id _ _ _ _ _ _ => other i (writes (KTxn id)) d
  | InsertIdem r => other i (writes (KIdem (ir_Scope r) (ir_Key r))) d
  | InsertEvent e => other i (writes (KEvent (ae_ID e))) d
  | UpdateTxn id _ _ _ => present (KTxn id) view && other i (holds id) d
  | SelectTxn true id => present (KTxn id) view && other i (holds id) d
  | _ => false
  end.
Definition new_locks {A} (st : stmt A) (view : Tables) : list string :=
  match st with
  | SelectTxn true id => if present (KTxn id) view then [id] else []
  | _ => []
  end.

(** ** What the store asks of the driver *)
Inductive dbeff : Type → Type :=
| DBegin : dbeff (res unit)                           (* s.pool.Begin *)
| DTx {A} (st : stmt A) : dbeff (res A)               (* tx.Exec, tx.QueryRow(...).Scan *)
| DCommit : dbeff (res unit)                          (* tx.Commit *)
| DRollback : dbeff (res unit)                        (* tx.Rollback *)
| DPool {A} (st : stmt A) : dbeff (res A)             (* s.pool.Exec, s.pool.QueryRow, s.pool.Query *)
| DNow : dbeff Time.                                  (* time.Now().UTC() *)

Definition set_session (i : nat) (tx : option Tx) (d : Database) : Database :=
  mkDatabase (tables d) (partial_alter (λ _, tx) i (sessions d)).
Definition commit (i : nat) (l : list Change) (d : Database) : Database :=
  mkDatabase (apply_changes l (tables d)) (delete i (sessions d)).

(** One request of session [i] to the database; [None] while it has to wait.
    [fault] is a connection lost meanwhile, which ends an open transaction. *)
Definition db_step (i : nat) (X : Type) (e : dbeff X) : option Fault → Time → Database → option (X * Database) :=
  match e in dbeff X return option Fault → Time → Database → option (X * Database) with
  | DBegin => λ fault _ d,
      match fault with
      | Some f => Some (Err (ErrNew (cause f)), d)
      | None => Some (Ok tt, set_session i (Some empty_tx) d)
      end
  | DTx st => λ fault _ d,
      match sessions d !! i, fault with
      | None, _ => Some (Err tx_closed, d)
      | Some _, Some f => Some (Err (ErrNew (cause f)), set_session i None d)
      | Some tx, None =>
          if tx_failed tx then Some (Err tx_aborted, d) else
          let view := apply_changes (tx_log tx) (tables d) in
          if blocked i st view d then None else
          match eval st view with
          | Err err => Some (Err err, set_session i (Some aborted_tx) d)
          | Ok (a, l) => Some (Ok a, set_session i (Some (mkTx (tx_log tx ++ l) (tx_locks tx ++ new_locks st view) false)) d)
          end
      end
  | DCommit => λ fault _ d,
      match sessions d !! i with
      | None => Some (Err tx_closed, d)
      | Some tx =>
          let failed := set_session i None d in
          let done := commit i (tx_log tx) d in
          match fault with
          | Some f => Some (Err (ErrNew (cause f)), if applied f && negb (tx_failed tx) then done else failed)
          | None => if tx_failed tx then Some (Err tx_rolled_back, failed) else Some (Ok tt, done)
          end
      end
  | DRollback => λ fault _ d,
      match sessions d !! i, fault with
      | None, _ => Some (Err tx_closed, d)
      | Some _, Some f => Some (Err (ErrNew (cause f)), set_session i None d)
      | Some _, None => Some (Ok tt, set_session i None d)
      end
  | DPool st => λ fault _ d,
      match fault with
      | Some (mkFault false c) => Some (Err (ErrNew c), d)
      | _ =>
          if blocked i st (tables d) d then None else
          match eval st (tables d) with
          | Err err => Some (Err (match fault with Some f => ErrNew (cause f) | None => err end), d)
          | Ok (a, l) => Some (match fault with Some f => Err (ErrNew (cause f)) | None => Ok a end,
                               mkDatabase (apply_changes l (tables d)) (sessions d))
          end
      end
  | DNow => λ _ now d, Some (now, d)
  end.
End Statements.
