(* ===== verification/Postgres.v ===== *)
(** * The Postgres store (src/internal/store/postgres.go)

    Each method as a program over its requests to the database, in the order
    the code makes them, with the deferred rollback of the methods that open a
    transaction. *)
From Stdlib Require Import Ascii.
From S2P Require Import Prelude GoStd GoError Types Json Marshal JsonText Codec Transport Interfaces StoreSpec Sql.

(** The zero values the methods return next to [false] or an error. *)
Definition zero_wallet : Wallet := mkWallet "" "" "" "" zeroTime.

(** [tx, err := s.pool.Begin(ctx); if err != nil {...}; defer tx.Rollback(ctx)]. *)
Definition with_tx {A} (body : prog dbeff (res A)) : prog dbeff (res A) :=
  call DBegin ;;? (r ← body; _ ← call DRollback; mret r).

(** [query] is the pool's or the transaction's [QueryRow]. *)
Abbreviation Query := (∀ A, stmt A → dbeff (res A)).
Definition pool : Query := λ A st, DPool st.
Definition intx : Query := λ A st, DTx st.

(** [getIdempotencyTx] and [getIdempotencyPool]; [None] is not found. *)
Definition getIdempotency (query : Query) (scope key : string) : prog dbeff (res (option IdempotencyRecord)) :=
  call (query _ (SelectIdem scope key)).

(** [getWalletTx] and [GetWallet]. *)
Definition getWallet (query : Query) (id : string) : prog dbeff (res Wallet) :=
  row ←? call (query _ (SelectWallet id));
  mret (match row with
        | None => Err (ErrVar ErrWalletNotFound)
        | Some w => Ok w
        end).

(** [getTransactionTx] and [GetTransaction]. *)
Definition getTransaction (query : Query) (id : string) (lock : bool) : prog dbeff (res TransactionProposal) :=
  row ←? call (query _ (SelectTxn lock id));
  mret (match row with
        | None => Err (ErrVar ErrTransactionNotFound)
        | Some payload => unmarshal_proposal payload
        end).

Definition walletForIdempotency (scope key : string) : prog dbeff (res (Wallet * bool)) :=
  found ←? getIdempotency pool scope key;
  match found with
  | None => mret (Ok (zero_wallet, false))
  | Some record => w ←? getWallet pool (ir_ResourceID record); mret (Ok (w, false))
  end.
Definition transactionForIdempotency (scope key : string) : prog dbeff (res (TransactionProposal * bool)) :=
  found ←? getIdempotency pool scope key;
  match found with
  | None => mret (Ok (zero_proposal, false))
  | Some record => p ←? getTransaction pool (ir_ResourceID record) false; mret (Ok (p, false))
  end.

(** [if isUniqueViolation(err) { return ..., dup }; return ..., err]. *)
Definition on_unique {A} (dup : prog dbeff (res A)) (p : prog dbeff (res unit)) (rest : prog dbeff (res A))
    : prog dbeff (res A) :=
  r ← p;
  match r with
  | Ok _ => rest
  | Err err => if isUniqueViolation err then dup else mret (Err err)
  end.

Definition CreateWallet (w : Wallet) : prog dbeff (res unit) :=
  on_unique (mret (Err (ErrVar ErrDuplicateWallet))) (call (DPool (InsertWallet w))) (mret (Ok tt)).

(** The arm of an idempotency key inserted by another transaction meanwhile:
    roll back, then return what that one stored. *)
Definition after_rollback {A} (p : prog dbeff (res A)) : prog dbeff (res A) := call DRollback ;;? p.

Definition CreateWalletIdempotently (w : Wallet) (record : IdempotencyRecord) : prog dbeff (res (Wallet * bool)) :=
  with_tx (
    found ←? getIdempotency intx (ir_Scope record) (ir_Key record);
    match found with
    | Some existing => stored ←? getWallet intx (ir_ResourceID existing); mret (Ok (stored, false))
    | None =>
        on_unique (mret (Err (ErrVar ErrDuplicateWallet))) (call (DTx (InsertWallet w)))
          (on_unique (after_rollback (walletForIdempotency (ir_Scope record) (ir_Key record)))
             (call (DTx (InsertIdem record)))
             (call DCommit ;;? mret (Ok (w, true))))
    end).

Definition GetWallet (id : string) : prog dbeff (res Wallet) := getWallet pool id.

Definition insert_txn (p : TransactionProposal) (payload : string) : stmt unit :=
  InsertTxn (tp_ID p) (tp_WalletID p) (tp_Chain p) (tp_Status p) payload (tp_CreatedAt p) (tp_UpdatedAt p).

(** [payload, err := json.Marshal(proposal); if err != nil { return ..., err }]. *)
Definition marshalled {A} (p : TransactionProposal) (k : string → prog dbeff (res A)) : prog dbeff (res A) :=
  match marshal_proposal p with Ok payload => k payload | Err e => mret (Err e) end.

Definition CreateTransaction (proposal : TransactionProposal) : prog dbeff (res unit) :=
  marshalled proposal (λ payload,
    on_unique (mret (Err (ErrVar ErrDuplicateTransaction))) (call (DPool (insert_txn proposal payload)))
      (mret (Ok tt))).

Definition CreateTransactionIdempotently (proposal : TransactionProposal) (record : IdempotencyRecord)
    : prog dbeff (res (TransactionProposal * bool)) :=
  with_tx (
    found ←? getIdempotency intx (ir_Scope record) (ir_Key record);
    match found with
    | Some existing => stored ←? getTransaction intx (ir_ResourceID existing) false; mret (Ok (stored, false))
    | None =>
        marshalled proposal (λ payload,
          on_unique (mret (Err (ErrVar ErrDuplicateTransaction))) (call (DTx (insert_txn proposal payload)))
            (on_unique (after_rollback (transactionForIdempotency (ir_Scope record) (ir_Key record)))
               (call (DTx (InsertIdem record)))
               (call DCommit ;;? mret (Ok (proposal, true)))))
    end).

Definition GetTransaction (id : string) : prog dbeff (res TransactionProposal) := getTransaction pool id false.

Definition UpdateTransaction (proposal : TransactionProposal) : prog dbeff (res unit) :=
  marshalled proposal (λ payload,
    affected ←? call (DPool (UpdateTxn (tp_ID proposal) (Some (tp_Status proposal)) payload (tp_UpdatedAt proposal)));
    if decide (affected = 0) then mret (Err (ErrVar ErrTransactionNotFound)) else mret (Ok tt)).

Definition AddApproval (transactionID : string) (approval : Approval) : prog dbeff (res TransactionProposal) :=
  with_tx (
    proposal ←? getTransaction intx transactionID true;
    if decide (tp_Status proposal ≠ TransactionStatusProposed)
    then mret (Err (ErrVar ErrTransactionNotProposed)) else
    let stored := default ∅ (tp_Approvals proposal) in
    match stored !! ap_SignerID approval with
    | Some _ => mret (Err (ErrVar ErrDuplicateApproval))
    | None =>
        let proposal := set_Approvals (Some (<[ap_SignerID approval := approval]> stored)) proposal in
        let proposal := set_UpdatedAt (ap_CreatedAt approval) proposal in
        marshalled proposal (λ payload,
          call (DTx (UpdateTxn (tp_ID proposal) None payload (tp_UpdatedAt proposal))) ;;?
          (call DCommit ;;? mret (Ok proposal)))
    end).

Definition MarkTransactionSigned (transactionID signedTransaction : string)
    : prog dbeff (res (TransactionProposal * bool)) :=
  with_tx (
    proposal ←? getTransaction intx transactionID true;
    if decide (tp_Status proposal ≠ TransactionStatusProposed)
    then call DCommit ;;? mret (Ok (proposal, false)) else
    let proposal := set_Status TransactionStatusSigned proposal in
    let proposal := set_SignedTransaction signedTransaction proposal in
    now ← call DNow;
    let proposal := set_UpdatedAt now proposal in
    marshalled proposal (λ payload,
      call (DTx (UpdateTxn (tp_ID proposal) (Some (tp_Status proposal)) payload (tp_UpdatedAt proposal))) ;;?
      (call DCommit ;;? mret (Ok (proposal, true))))).

(** An empty metadata value is sent as NULL. *)
Definition event_row (event : AuditEvent) : AuditEvent :=
  mkAuditEvent (ae_ID event) (ae_Type event) (ae_Actor event) (ae_ResourceType event) (ae_ResourceID event)
    (ae_Chain event)
    (match ae_Metadata event with Some m => if decide (m = "") then None else Some m | None => None end)
    (ae_CreatedAt event).
Definition AppendAuditEvent (event : AuditEvent) : prog dbeff (res unit) :=
  call (DPool (InsertEvent (event_row event))).

Definition ListAuditEvents (filter : AuditFilter) : prog dbeff (res (list AuditEvent)) :=
  let limit := if decide (af_Limit filter ≤ 0 ∨ 200 < af_Limit filter)%Z then 100%Z else af_Limit filter in
  call (DPool (SelectEvents (af_ResourceID filter) limit)).

(** Two methods of the store that the service does not use. *)
Definition SaveIdempotency (record : IdempotencyRecord) : prog dbeff (res unit) :=
  on_unique (mret (Err (ErrVar ErrDuplicateIdempotency))) (call (DPool (InsertIdem record))) (mret (Ok tt)).
Definition zero_record : IdempotencyRecord := mkIdempotencyRecord "" "" "" "" zeroTime.
Definition GetIdempotency (scope key : string) : prog dbeff (res IdempotencyRecord) :=
  row ←? getIdempotency pool scope key; mret (Ok (default zero_record row)).

(** The method behind each operation of the interface. *)
Definition method {A} (op : StoreOp A) : prog dbeff (res A) :=
  match op in StoreOp A return prog dbeff (res A) with
  | OpCreateWallet w => CreateWallet w
  | OpCreateWalletIdempotently w record => CreateWalletIdempotently w record
  | OpGetWallet id => GetWallet id
  | OpCreateTransaction proposal => CreateTransaction proposal
  | OpCreateTransactionIdempotently proposal record => CreateTransactionIdempotently proposal record
  | OpGetTransaction id => GetTransaction id
  | OpAddApproval transactionID approval => AddApproval transactionID approval
  | OpMarkTransactionSigned transactionID signed => MarkTransactionSigned transactionID signed
  | OpUpdateTransaction proposal => UpdateTransaction proposal
  | OpAppendAuditEvent event => AppendAuditEvent event
  | OpListAuditEvents filter => ListAuditEvents filter
  end.
