(* ===== verification/PgAbs.v ===== *)
(** * What the rows of the database stand for

    The abstraction of the tables to the logical store of [StoreSpec], the
    normalisation the columns perform, and the round trip of a proposal through
    its JSONB document. *)
From Stdlib Require Import Ascii.
From S2P Require Import Prelude GoStd GoError Types Json Marshal JsonLit JsonText GoTime Codec Transport Interfaces.
From S2P Require Import StoreSpec Sql Postgres.

Section Abs.
Context `{Postgres}.

(** ** What the columns do to the values *)
Definition jsonb_text (t : string) : string := match jsonb_in t with Ok u => u | Err _ => t end.
Definition pg_norm : Norm := {|
  n_time := column_time;
  n_text := ToValidUTF8;
  n_meta m := match m with None | Some "" => None | Some t => Some (match jsonb_in (cf t) with Ok u => u | Err _ => t end) end;
  n_payload m := match m with
                 | Some t => Some (match jsonb_in (cf t) with Ok u => u | Err _ => t end)
                 | None => match jsonb_in "null" with Ok u => Some u | Err _ => None end
                 end;
  n_audit m := jsonb_text <$> m;
  n_trace := trace_carried
|}.

(** ** Rows *)
Definition document (text : string) : option TransactionProposal :=
  match unmarshal_proposal text with Ok p => Some p | Err _ => None end.
Definition row_txn (row : TxnRow) : option TransactionProposal := document (row_Proposal row).
Definition pg_abs (t : Tables) : AStore :=
  mkAStore (t_wallets t) (omap row_txn (t_txns t)) (t_audit t) (t_idem t).

(** Every document can be read and is stored under its own identifier. *)
Definition document_ok (id text : string) : Prop :=
  ∃ p, document text = Some p ∧ tp_ID p = id ∧ proposal_ok p.
Definition pg_wf (t : Tables) : Prop := map_Forall (λ id row, document_ok id (row_Proposal row)) (t_txns t).

Lemma abs_txn t id row p : t_txns t !! id = Some row → row_txn row = Some p → a_txns (pg_abs t) !! id = Some p.
Proof. intros Hr Hp. simpl. rewrite lookup_omap, Hr. exact Hp. Qed.
Lemma abs_no_txn t id : t_txns t !! id = None → a_txns (pg_abs t) !! id = None.
Proof. intros Hr. simpl. by rewrite lookup_omap, Hr. Qed.
Lemma abs_txn_inv t id : pg_wf t → is_Some (t_txns t !! id) ↔ is_Some (a_txns (pg_abs t) !! id).
Proof.
  intros Hw. simpl. rewrite lookup_omap. destruct (t_txns t !! id) as [row|] eqn:Hr.
  - destruct (Hw _ _ Hr) as (p & Hp & _). change (is_Some (Some row) ↔ is_Some (row_txn row)). unfold row_txn. rewrite Hp. split; eauto.
  - simpl. by rewrite !is_Some_alt.
Qed.

Context `{!PostgresLaws}.

(** ** The document of a proposal *)
Lemma meta_carried m md : raw_carried (λ t u, jsonb_in t = Ok u) m md → md = n_meta pg_norm m.
Proof. destruct m as [[|c s]|]; [done| |done]. intros (u & -> & Hu). unfold n_meta, pg_norm, cf. by rewrite Hu. Qed.
Lemma payload_carried_norm m md : payload_carried (λ t u, jsonb_in t = Ok u) m md → md = n_payload pg_norm m.
Proof. destruct m as [t|]; intros (u & -> & Hu); unfold n_payload, pg_norm, cf; by rewrite Hu. Qed.

(** A printed proposal comes back from its column normalised. *)
Lemma document_read p t u :
  proposal_ok p → marshal_proposal p = Ok t → jsonb_in t = Ok u → unmarshal_proposal u = Ok (norm_txn pg_norm p).
Proof.
  intros Hp Ht Hu. destruct (proposal_carried _ jsonb_carries p t u Hp Ht Hu) as (md & pl & -> & Hmd & Hpl).
  f_equal. apply meta_carried in Hmd as ->. apply payload_carried_norm in Hpl as ->. done.
Qed.

Lemma jsonb_not_empty t u : jsonb_in t = Ok u → u ≠ "".
Proof. intros Hu ->. by destruct (jsonb_printed t "" Hu) as (_ & [j [=]] & _). Qed.

Lemma pg_norm_laws : NormLaws pg_norm.
Proof.
  split; simpl.
  - apply column_time_idem.
  - intros t. apply ToValidUTF8_id, ToValidUTF8_utf8.
  - done.
  - intros [[|c s]|]; [done| |done]. destruct (jsonb_in (cf (String c s))) as [u|] eqn:E; simpl.
    + pose proof (jsonb_not_empty _ _ E). apply jsonb_reprint in E as Hr. fold (cf u) in Hr.
      by destruct u as [|x u]; [done|]; rewrite Hr.
    + by rewrite E.
  - intros [t|].
    + destruct (jsonb_in (cf t)) as [u|] eqn:E; simpl; [|by rewrite E]. by rewrite (jsonb_reprint _ _ E : jsonb_in (cf u) = Ok u).
    + destruct (jsonb_in "null") as [u|] eqn:E; [|done]. by rewrite (jsonb_reprint _ _ E : jsonb_in (cf u) = Ok u).
  - intros [m|]; [|done]. unfold trace_carried at 2 3. case_decide as Hm; [done|]. simpl.
    rewrite decide_False by by rewrite fmap_empty_iff. f_equal. rewrite <- map_fmap_compose.
    apply map_fmap_ext. intros k x _. apply ToValidUTF8_id, ToValidUTF8_utf8.
  - intros [m|] Hm; [|done]. unfold trace_carried. case_decide; [by intros k v|]. intros k v Hv. simpl in Hv.
    apply lookup_fmap_Some in Hv as (x & _ & Hx). by apply (Hm k x).
Qed.
End Abs.
