(* ===== verification/PgLogic.v ===== *)
(** * Reasoning about one session among others

    Which rows a transaction owns, the invariant of the database, what the
    other sessions leave alone while one of them pauses ([Rely]), and a
    weakest-precondition calculus for the programs of [Postgres] that tracks the
    point where a call takes effect. *)
From Stdlib Require Import Ascii.
From S2P Require Import Prelude GoStd GoError Types Json Marshal JsonText Codec Transport Interfaces.
From S2P Require Import StoreSpec Sql Postgres PgAbs.

(** ** Rows *)
Definition same_at (k : Key) (t t' : Tables) : Prop :=
  match k with
  | KWallet id => t_wallets t' !! id = t_wallets t !! id
  | KTxn id => t_txns t' !! id = t_txns t !! id
  | KEvent id => id ∈ ae_ID <$> t_audit t' ↔ id ∈ ae_ID <$> t_audit t
  | KIdem scope key => t_idem t' !! (scope, key) = t_idem t !! (scope, key)
  end.

(** No table loses a row; wallets and idempotency keys never change. *)
Record grows (t t' : Tables) : Prop := mkGrows {
  g_wallets : t_wallets t ⊆ t_wallets t';
  g_txns : ∀ id, is_Some (t_txns t !! id) → is_Some (t_txns t' !! id);
  g_idem : t_idem t ⊆ t_idem t'
}.

Lemma same_at_refl k t : same_at k t t.
Proof. by destruct k. Qed.
Lemma same_at_trans k t1 t2 t3 : same_at k t1 t2 → same_at k t2 t3 → same_at k t1 t3.
Proof. destruct k; simpl; [congruence..| |congruence]. tauto. Qed.
Lemma grows_refl t : grows t t.
Proof. by split. Qed.
Lemma grows_trans t1 t2 t3 : grows t1 t2 → grows t2 t3 → grows t1 t3.
Proof. intros [] []. split; [by etrans|auto|by etrans]. Qed.

Lemma change_same c t k : k ≠ change_key c → same_at k t (apply_change c t).
Proof.
  destruct c as [w|id row|e|r], k as [i|i|i|sc ky]; simpl; intros Hk; try done.
  - apply lookup_insert_ne. congruence.
  - apply lookup_insert_ne. congruence.
  - rewrite fmap_app, elem_of_app. set_solver.
  - apply lookup_insert_ne. congruence.
Qed.
Lemma changes_same l t k : k ∉ change_key <$> l → same_at k t (apply_changes l t).
Proof.
  revert t. induction l as [|c l IH]; intros t Hk; [apply same_at_refl|].
  rewrite fmap_cons, not_elem_of_cons in Hk. destruct Hk as [Hc Hl].
  eapply same_at_trans; [by apply change_same|by apply IH].
Qed.
Lemma changes_txns l t id : is_Some (t_txns t !! id) → is_Some (t_txns (apply_changes l t) !! id).
Proof.
  revert t. induction l as [|c l IH]; intros t Ht; [done|]. apply IH. destruct c; simpl; try done.
  rewrite lookup_insert. by case_decide.
Qed.
Lemma change_present c t k : present k t = true → present k (apply_change c t) = true.
Proof.
  destruct c, k; simpl; rewrite ?bool_decide_eq_true; try done; rewrite ?lookup_insert; try (by case_decide).
  rewrite fmap_app. set_solver.
Qed.
Lemma changes_present l t k : present k t = true → present k (apply_changes l t) = true.
Proof. revert t. induction l as [|c l IH]; intros t Ht; [done|]. by apply IH, change_present. Qed.

(** ** Ownership *)
Definition keys (tx : Tx) : list Key := (change_key <$> tx_log tx) ++ (KTxn <$> tx_locks tx).
Lemma writes_keys k tx : writes k tx = true → k ∈ keys tx.
Proof. unfold writes, keys. rewrite bool_decide_eq_true. set_solver. Qed.
Lemma holds_keys id tx : holds id tx = true ↔ KTxn id ∈ keys tx.
Proof.
  unfold holds, writes, keys. rewrite orb_true_iff, !bool_decide_eq_true, elem_of_app, (list_elem_of_fmap KTxn).
  set_solver.
Qed.
Lemma other_false i P d j tx : other i P d = false → j ≠ i → sessions d !! j = Some tx → P tx = false.
Proof.
  unfold other. rewrite bool_decide_eq_false. intros Ho Hj Hs. apply not_true_is_false. intros Hp. apply Ho. by exists j, tx.
Qed.

Section Sessions.
Context `{Postgres}.

(** What a transaction is about to insert is absent, what it locks is there,
    and the documents it writes can be read. *)
Definition publishable (t : Tables) (c : Change) : Prop :=
  match c with
  | CWallet w => t_wallets t !! w_ID w = None
  | CTxn id row => document_ok id (row_Proposal row)
  | CEvent _ => True
  | CIdem r => t_idem t !! (ir_Scope r, ir_Key r) = None
  end.
Definition tx_ok (t : Tables) (tx : Tx) : Prop :=
  Forall (publishable t) (tx_log tx) ∧ Forall (λ id, is_Some (t_txns t !! id)) (tx_locks tx).

Record DbInv (d : Database) : Prop := mkDbInv {
  inv_wf : pg_wf (tables d);
  inv_own i j tx tx' k : sessions d !! i = Some tx → sessions d !! j = Some tx' →
    k ∈ keys tx → k ∈ keys tx' → i = j;
  inv_tx i tx : sessions d !! i = Some tx → tx_ok (tables d) tx
}.

(** What session [i] can rely on while other sessions run. *)
Record Rely (i : nat) (d d' : Database) : Prop := mkRely {
  r_session : sessions d' !! i = sessions d !! i;
  r_grows : grows (tables d) (tables d');
  r_same tx k : sessions d !! i = Some tx → k ∈ keys tx → same_at k (tables d) (tables d')
}.
Lemma Rely_refl i d : Rely i d d.
Proof. split; [done|apply grows_refl|intros; apply same_at_refl]. Qed.
Lemma Rely_trans i d1 d2 d3 : Rely i d1 d2 → Rely i d2 d3 → Rely i d1 d3.
Proof.
  intros [S1 G1 A1] [S2 G2 A2]. split; [congruence|by eapply grows_trans|].
  intros tx k Hs Hk. eapply same_at_trans; [by eapply A1|]. eapply A2; [|done]. congruence.
Qed.

(** ** How the store uses the database *)

(** The documents it writes can be read back. *)
Definition stmt_ok {A} (st : stmt A) : Prop :=
  match st with
  | InsertTxn id _ _ _ doc _ _ | UpdateTxn id _ doc _ => ∀ u, jsonb_in doc = Ok u → document_ok id u
  | _ => True
  end.
Definition not_idem (c : Change) : Prop := match c with CIdem _ => False | _ => True end.
(** A resource is inserted before the idempotency key, a row is locked before
    anything else and only locked rows are updated. *)
Definition orderly {A} (st : stmt A) (tx : Tx) : Prop :=
  match st with
  | InsertIdem _ => Forall not_idem (tx_log tx) ∧ tx_locks tx = []
  | InsertWallet _ | InsertTxn _ _ _ _ _ _ _ | InsertEvent _ | SelectTxn true _ => tx_log tx = [] ∧ tx_locks tx = []
  | UpdateTxn id _ _ _ => id ∈ tx_locks tx
  | _ => True
  end.
Definition proper_request {X} (i : nat) (e : dbeff X) (d : Database) : Prop :=
  match e with
  | DTx st => stmt_ok st ∧ ∀ tx, sessions d !! i = Some tx → tx_failed tx = false → orderly st tx
  | DPool st => stmt_ok st ∧ sessions d !! i = None
  | DBegin => sessions d !! i = None
  | _ => True
  end.

(** What the evaluation of a statement writes. *)
Definition insert_key {A} (st : stmt A) : option Key :=
  match st with
  | InsertWallet w => Some (KWallet (w_ID w))
  | InsertTxn id _ _ _ _ _ _ => Some (KTxn id)
  | InsertIdem r => Some (KIdem (ir_Scope r) (ir_Key r))
  | InsertEvent e => Some (KEvent (ae_ID e))
  | _ => None
  end.
Lemma insert_row_ok k c t u l : insert_row k c t = Ok (u, l) → present k t = false ∧ l = [c].
Proof. unfold insert_row. destruct (present k t); [done|]. by intros [= _ <-]. Qed.

Lemma eval_writes {A} (st : stmt A) t a l :
  stmt_ok st → eval st t = Ok (a, l) →
  match insert_key st with
  | Some k => present k t = false ∧ ∃ c, l = [c] ∧ change_key c = k ∧
      match c with CTxn id row => document_ok id (row_Proposal row) | _ => True end
  | None => ∀ c, c ∈ l → ∃ id row, c = CTxn id row ∧ is_Some (t_txns t !! id) ∧ document_ok id (row_Proposal row) ∧
      match st with UpdateTxn id' _ _ _ => id' = id | _ => False end
  end.
Proof.
  destruct st as [w|id wid ch sta doc cr up|r|e|id sta doc up|id|lock id|sc ky|rid lim]; simpl; intros Hok He;
    try (repeat case_match; simplify_eq; intros ? ?%not_elem_of_nil; done).
  - case_match; [done|]. apply insert_row_ok in He as [Hp ->]. split; [done|]. by eexists.
  - case_match; [done|]. destruct (jsonb_in doc) as [u|] eqn:Hu; [|done].
    destruct (insert_row _ _ t) as [[[] l']|] eqn:Hi; [|done]. apply insert_row_ok in Hi as [Hp ->].
    case_match; [|done]. simplify_eq. split; [done|]. eexists. split_and!; [done|done|]. by apply Hok.
  - case_match; [done|]. apply insert_row_ok in He as [Hp ->]. split; [done|]. by eexists.
  - case_match; [done|]. repeat case_match; simplify_eq; apply insert_row_ok in He as [Hp ->]; (split; [done|]); by eexists.
  - case_match; [done|]. destruct (jsonb_in doc) as [u|] eqn:Hu; [|done].
    destruct (t_txns t !! id) as [row|] eqn:Hr; simplify_eq.
    + intros c ->%list_elem_of_singleton. eexists _, _. split_and!; [done|by rewrite Hr|by apply Hok|done].
    + by intros c ?%not_elem_of_nil.
Qed.

(** A row version that is written is owned by nobody else. *)
Lemma eval_unowned {A} i (st : stmt A) log d a l :
  DbInv d → stmt_ok st → let view := apply_changes log (tables d) in
  eval st view = Ok (a, l) → blocked i st view d = false →
  ∀ c j tx, c ∈ l → j ≠ i → sessions d !! j = Some tx → change_key c ∉ keys tx.
Proof.
  intros HJ Hst view He Hb c j tx Hc Hj Hs Hk. pose proof (eval_writes st view a l Hst He) as Hw.
  assert (Hins : ∀ k, insert_key st = Some k → present k view = false → k ∈ keys tx → other i (writes k) d = false → False).
  { intros k _ Hp Hk' Ho. pose proof (other_false _ _ _ _ _ Ho Hj Hs) as Hwr. unfold writes in Hwr.
    rewrite bool_decide_eq_false in Hwr. unfold keys in Hk'. rewrite elem_of_app in Hk'. destruct Hk' as [Hk'|Hk']; [done|].
    apply list_elem_of_fmap in Hk' as (id & -> & Hid). destruct (inv_tx d HJ j tx Hs) as [_ Hl].
    rewrite Forall_forall in Hl. specialize (Hl id Hid). apply (changes_txns log) in Hl.
    simpl in Hp. rewrite bool_decide_eq_false in Hp. done. }
  destruct (insert_key st) as [k|] eqn:Hik.
  - destruct Hw as (Hp & c' & -> & <- & _). apply list_elem_of_singleton in Hc as ->.
    apply (Hins (change_key c') eq_refl Hp Hk). destruct st; simpl in Hik; try done; injection Hik as <-; exact Hb.
  - destruct (Hw c Hc) as (id & row & -> & Hrow & _ & Hm). destruct st; try done. subst. simpl in Hb.
    rewrite (bool_decide_eq_true_2 _ Hrow) in Hb. pose proof (other_false _ _ _ _ _ Hb Hj Hs) as Hh.
    apply (proj2 (holds_keys _ _)) in Hk. congruence.
Qed.

Lemma eval_publishable {A} (st : stmt A) log t a l :
  stmt_ok st → eval st (apply_changes log t) = Ok (a, l) → Forall (publishable t) l.
Proof.
  intros Hst He. pose proof (eval_writes st _ a l Hst He) as Hw. rewrite Forall_forall. intros c Hc.
  destruct (insert_key st) as [k|].
  - destruct Hw as (Hp & c' & -> & <- & Hd). apply list_elem_of_singleton in Hc as ->.
    assert (Hp' : present (change_key c') t = false).
    { apply not_true_is_false. intros Ht. apply (changes_present log) in Ht. congruence. }
    destruct c' as [w|id row|e|r]; simpl in *; [|done|done|]; rewrite bool_decide_eq_false in Hp'; by apply eq_None_not_Some.
  - destruct (Hw c Hc) as (id & row & -> & _ & Hd & _). done.
Qed.

(** ** Publishing row versions *)
Lemma publishable_elem t l c : Forall (publishable t) l → c ∈ l → publishable t c.
Proof. rewrite Forall_forall. auto. Qed.
Lemma changes_grow t l : Forall (publishable t) l → grows t (apply_changes l t).
Proof.
  intros Hl. split.
  - apply map_subseteq_spec. intros id w Hw. destruct (decide (KWallet id ∈ change_key <$> l)) as [Hin|Hn].
    + apply list_elem_of_fmap in Hin as ([w'|? ?|?|?] & [= ->] & Hc). apply (publishable_elem _ _ _ Hl) in Hc. simpl in Hc. congruence.
    + by rewrite (changes_same l t _ Hn).
  - intros id. apply changes_txns.
  - apply map_subseteq_spec. intros [sc ky] r Hr. destruct (decide (KIdem sc ky ∈ change_key <$> l)) as [Hin|Hn].
    + apply list_elem_of_fmap in Hin as ([?|? ?|?|r'] & [= -> ->] & Hc). apply (publishable_elem _ _ _ Hl) in Hc. simpl in Hc. congruence.
    + by rewrite (changes_same l t _ Hn).
Qed.
Lemma changes_wf t0 t l : Forall (publishable t0) l → pg_wf t → pg_wf (apply_changes l t).
Proof.
  intros Hl. revert t. induction Hl as [|c l Hc _ IH]; intros t Ht; [done|]. apply IH. destruct c; try done.
  simpl. by apply map_Forall_insert_2.
Qed.
Lemma tx_ok_same t t' tx : tx_ok t tx → grows t t' → (∀ k, k ∈ keys tx → same_at k t t') → tx_ok t' tx.
Proof.
  intros [Hf Hl] Hg Hs. split; [|eapply Forall_impl; [exact Hl|apply (g_txns _ _ Hg)]].
  rewrite Forall_forall in Hf |- *. intros c Hc. specialize (Hf c Hc).
  assert (Hk : change_key c ∈ keys tx) by (unfold keys; apply elem_of_app; left; by apply list_elem_of_fmap_2).
  specialize (Hs _ Hk). destruct c; simpl in *; [|done|done|]; congruence.
Qed.

(** Row versions nobody else owns are made visible while session [i] has no
    open transaction. *)
Lemma publish i l d sess' :
  DbInv d → Forall (publishable (tables d)) l →
  (∀ c j tx, c ∈ l → j ≠ i → sessions d !! j = Some tx → change_key c ∉ keys tx) →
  sess' !! i = None → (∀ j, j ≠ i → sess' !! j = sessions d !! j) →
  let d' := mkDatabase (apply_changes l (tables d)) sess' in DbInv d' ∧ ∀ j, j ≠ i → Rely j d d'.
Proof.
  intros HJ Hf Hun Hi Hj d'.
  assert (Hd : ∀ j tx, sess' !! j = Some tx → j ≠ i ∧ sessions d !! j = Some tx).
  { intros j tx Hs. destruct (decide (j = i)) as [->|Hne]; [congruence|]. by rewrite Hj in Hs. }
  assert (Hsame : ∀ j tx k, j ≠ i → sessions d !! j = Some tx → k ∈ keys tx → same_at k (tables d) (tables d')).
  { intros j tx k Hne Hs Hk. apply changes_same. intros (c & -> & Hc)%list_elem_of_fmap. by eapply Hun. }
  pose proof (changes_grow _ _ Hf) as Hg. split; [split|].
  - eapply changes_wf; [done|apply HJ].
  - intros a b tx tx' k Ha Hb. apply Hd in Ha as [_ Ha], Hb as [_ Hb]. by eapply inv_own.
  - intros a tx Ha. apply Hd in Ha as [Hne Ha]. eapply tx_ok_same; [by eapply inv_tx|done|]. intros k. by eapply Hsame.
  - intros j Hne. split; [by apply Hj|done|]. intros tx k. by apply Hsame.
Qed.

(** The transaction of session [i] changes, the tables do not. *)
Lemma alter_session i o d :
  DbInv d →
  (∀ tx, o = Some tx → tx_ok (tables d) tx ∧
    ∀ k j tx', k ∈ keys tx → j ≠ i → sessions d !! j = Some tx' → k ∉ keys tx') →
  DbInv (set_session i o d) ∧ ∀ j, j ≠ i → Rely j d (set_session i o d).
Proof.
  intros HJ Ho.
  assert (Hl : ∀ j, j ≠ i → sessions (set_session i o d) !! j = sessions d !! j).
  { intros j Hne. simpl. by rewrite lookup_partial_alter_ne. }
  assert (Hi : sessions (set_session i o d) !! i = o) by (simpl; by rewrite lookup_partial_alter_eq).
  split; [split|].
  - apply HJ.
  - intros a b tx tx' k Ha Hb Hk Hk'. destruct (decide (a = i)) as [->|Na], (decide (b = i)) as [->|Nb]; [done| | |].
    + rewrite Hi in Ha. rewrite Hl in Hb by done. destruct (Ho tx Ha) as [_ Hu]. by destruct (Hu k b tx' Hk Nb Hb).
    + rewrite Hi in Hb. rewrite Hl in Ha by done. destruct (Ho tx' Hb) as [_ Hu]. by destruct (Hu k a tx Hk' Na Ha).
    + rewrite Hl in Ha, Hb by done. by eapply inv_own.
  - intros a tx Ha. destruct (decide (a = i)) as [->|Na]; [rewrite Hi in Ha; by apply Ho|].
    rewrite Hl in Ha by done. by apply (inv_tx d HJ a).
  - intros j Hne. split; [by apply Hl|apply grows_refl|intros; apply same_at_refl].
Qed.

(** ** One request preserves the invariant and what others rely on *)
Lemma end_session i d : DbInv d → DbInv (set_session i None d) ∧ ∀ j, j ≠ i → Rely j d (set_session i None d).
Proof. intros HJ. by apply alter_session. Qed.
Lemma plain_session i b d :
  DbInv d → DbInv (set_session i (Some (mkTx [] [] b)) d) ∧ ∀ j, j ≠ i → Rely j d (set_session i (Some (mkTx [] [] b)) d).
Proof. intros HJ. apply alter_session; [done|]. intros tx [= <-]. split; [by split|]. intros k j tx' []%not_elem_of_nil. Qed.

Lemma extend_session {A} i (st : stmt A) d tx a l :
  DbInv d → stmt_ok st → sessions d !! i = Some tx → orderly st tx →
  let view := apply_changes (tx_log tx) (tables d) in
  blocked i st view d = false → eval st view = Ok (a, l) →
  let d' := set_session i (Some (mkTx (tx_log tx ++ l) (tx_locks tx ++ new_locks st view) false)) d in
  DbInv d' ∧ ∀ j, j ≠ i → Rely j d d'.
Proof.
  intros HJ Hst Hs Ho view Hb He. apply alter_session; [done|]. intros tx' [= <-].
  destruct (inv_tx d HJ i tx Hs) as [Hf Hl].
  assert (Hlock : ∀ id, id ∈ new_locks st view → is_Some (t_txns (tables d) !! id) ∧ other i (holds id) d = false).
  { destruct st as [| | | | | |[] id| |]; simpl; try (intros ? []%not_elem_of_nil). destruct Ho as [E _]. subst view. simpl in Hb.
    rewrite E in *. simpl in *. case_bool_decide as Hp; [|by intros ? []%not_elem_of_nil].
    intros id' ->%list_elem_of_singleton. done. }
  split; [split|].
  - simpl. apply Forall_app. split; [done|]. by eapply eval_publishable.
  - simpl. apply Forall_app. split; [done|]. rewrite Forall_forall. intros id Hid. by apply Hlock.
  - intros k j tx' Hk Hj Hs'. unfold keys in Hk. simpl in Hk. rewrite !fmap_app, !elem_of_app in Hk.
    assert (Hold : k ∈ keys tx → k ∉ keys tx').
    { intros Hk1 Hk2. by destruct (inv_own d HJ i j tx tx' k Hs Hs' Hk1 Hk2). }
    destruct Hk as [[Hk|Hk]|[Hk|Hk]].
    + apply Hold, elem_of_app. by left.
    + apply list_elem_of_fmap in Hk as (c & -> & Hc). by eapply eval_unowned.
    + apply Hold, elem_of_app. by right.
    + apply list_elem_of_fmap in Hk as (id & -> & Hid). destruct (Hlock id Hid) as [_ Hh].
      rewrite <- holds_keys. rewrite (other_false _ _ _ _ _ Hh Hj Hs'). done.
Qed.

Lemma step_guarantee {X} i (e : dbeff X) fault now d x d' :
  DbInv d → proper_request i e d → db_step i X e fault now d = Some (x, d') →
  DbInv d' ∧ ∀ j, j ≠ i → Rely j d d'.
Proof.
  intros HJ Hr Hs.
  assert (Hid : DbInv d ∧ ∀ j, j ≠ i → Rely j d d) by (split; [done|intros; apply Rely_refl]).
  destruct e as [|A st| | |A st|]; simpl in Hs.
  - destruct fault; simplify_eq; [done|]. by apply plain_session.
  - destruct (sessions d !! i) as [tx|] eqn:Ht; [|by simplify_eq]. destruct fault as [f|]; [simplify_eq; by apply end_session|].
    destruct (tx_failed tx) eqn:Hf; [by simplify_eq|]. destruct (blocked _ _ _ _) eqn:Hb; [done|].
    destruct (eval st _) as [[a l]|] eqn:He; simplify_eq; [|by apply plain_session].
    destruct Hr as [Hst Ho]. eapply extend_session; eauto.
  - destruct (sessions d !! i) as [tx|] eqn:Ht; [|by simplify_eq].
    assert (Hc : DbInv (commit i (tx_log tx) d) ∧ ∀ j, j ≠ i → Rely j d (commit i (tx_log tx) d)).
    { apply publish; [done|by apply (inv_tx d HJ i tx Ht)| |apply lookup_delete_eq|intros; by apply lookup_delete_ne].
      intros c j tx' Hc Hj Hs' Hk. apply Hj. symmetry.
      apply (inv_own d HJ i j tx tx' (change_key c) Ht Hs'); [|done].
      unfold keys. apply elem_of_app. left. by apply list_elem_of_fmap_2. }
    repeat case_match; simplify_eq; done || by apply end_session.
  - destruct (sessions d !! i) as [tx|]; [|by simplify_eq]. destruct fault; simplify_eq; by apply end_session.
  - destruct Hr as [Hst Hi].
    assert (Hp : ∀ a l, blocked i st (tables d) d = false → eval st (tables d) = Ok (a, l) →
      let d1 := mkDatabase (apply_changes l (tables d)) (sessions d) in DbInv d1 ∧ ∀ j, j ≠ i → Rely j d d1).
    { intros a l Hb He. apply publish; [done|by eapply (eval_publishable st [])| |done|done].
      intros c j tx. by eapply (eval_unowned i st []). }
    destruct fault as [[[] c]|]; simplify_eq; try done; (destruct (blocked _ _ _ _) eqn:Hb; [done|]);
      destruct (eval st _) as [[a l]|] eqn:He; simplify_eq; eauto.
  - by simplify_eq.
Qed.
End Sessions.

(** ** Weakest preconditions

    [lin] is the answer of the call once it has taken effect.  A request of the
    program either leaves the logical store alone or is the point where the
    whole call takes effect. *)
Section Wp.
Context `{Postgres} (i : nat) {R : Type} (op : StoreOp R).

Definition lin_step (lin : option (res R)) (a a' : AStore) (lin' : option (res R)) : Prop :=
  (lin' = lin ∧ a' = a) ∨ (lin = None ∧ ∃ r, lin' = Some r ∧ spec_step pg_norm op a r a').

Fixpoint lwp {B} (p : prog dbeff B) (lin : option (res R)) (d : Database)
    (Q : B → option (res R) → Database → Prop) : Prop :=
  match p with
  | Ret b => Q b lin d
  | Vis e k =>
      proper_request i e d ∧
      ∀ d1 fault now x d2, DbInv d1 → Rely i d d1 → db_step i _ e fault now d1 = Some (x, d2) →
        ∃ lin', lin_step lin (pg_abs (tables d1)) (pg_abs (tables d2)) lin' ∧ lwp (k x) lin' d2 Q
  end.

Lemma lwp_bind {B C} (f : B → prog dbeff C) p lin d Q :
  lwp p lin d (λ b lin d, lwp (f b) lin d Q) → lwp (p ≫= f) lin d Q.
Proof.
  revert lin d. induction p as [b|X e k IH]; intros lin d; [done|]. intros [Hr Hk]. split; [done|].
  intros d1 fault now x d2 HJ Hy Hs. destruct (Hk d1 fault now x d2 HJ Hy Hs) as (lin' & Hl & Hw).
  exists lin'. split; [done|]. by apply IH.
Qed.
Lemma lwp_mono {B} (p : prog dbeff B) lin d (Q Q' : B → option (res R) → Database → Prop) :
  (∀ b lin d, Q b lin d → Q' b lin d) → lwp p lin d Q → lwp p lin d Q'.
Proof.
  intros HQ. revert lin d. induction p as [b|X e k IH]; intros lin d; [apply HQ|]. intros [Hr Hk]. split; [done|].
  intros d1 fault now x d2 HJ Hy Hs. destruct (Hk d1 fault now x d2 HJ Hy Hs) as (lin' & Hl & Hw). eauto.
Qed.

Lemma proper_rely {X} (e : dbeff X) d d' : Rely i d d' → proper_request i e d → proper_request i e d'.
Proof. intros [Hs _ _]. unfold proper_request. by destruct e; rewrite ?Hs. Qed.
(** The other sessions may run at any time. *)
Lemma lwp_rely {B} (p : prog dbeff B) lin d d' Q :
  (∀ b lin d d', Rely i d d' → Q b lin d → Q b lin d') → Rely i d d' → lwp p lin d Q → lwp p lin d' Q.
Proof.
  intros HQ Hy. destruct p as [b|X e k]; simpl; [by apply HQ|]. intros [Hr Hk]. split; [by eapply proper_rely|].
  intros d1 fault now x d2 HJ Hy' Hs. eapply Hk; [done| |done]. by eapply Rely_trans.
Qed.

(** The call is over: its answer is the one it took effect with, or one that
    could be given at any moment. *)
Definition settled (r : res R) (lin : option (res R)) : Prop :=
  match lin with Some r' => r = r' | None => ∀ a, spec_step pg_norm op a r a end.
Definition closed (r : res R) (lin : option (res R)) (d : Database) : Prop := settled r lin ∧ sessions d !! i = None.
Lemma settled_infra e : infra e → settled (Err e) None.
Proof. intros He a. left. auto. Qed.
Lemma closed_rely r lin d d' : Rely i d d' → closed r lin d → closed r lin d'.
Proof. intros [Hs _ _] [? ?]. split; [done|congruence]. Qed.
End Wp.
