(* ===== verification/PgMethods.v ===== *)
(** * Every method of the Postgres store meets the contract

    The rules of the calculus for each kind of request, then one specification
    per method: run among other sessions, a call takes effect at one of its
    requests exactly as [StoreSpec] says, or reports an infrastructure error. *)
From Stdlib Require Import Ascii.
From stdpp Require Import sorting.
From S2P Require Import Prelude GoStd GoError Types Json Marshal JsonText Codec Transport Interfaces.
From S2P Require Import StoreSpec Sql Postgres PgAbs PgLogic.

(** ** Errors of a statement *)
Section Errors.
Context `{PostgresLaws}.

Lemma texts_in_error l e : texts_in l = Some e → infra e ∧ isUniqueViolation e = false.
Proof.
  unfold texts_in. induction l as [|s l IH]; simpl; [done|]. destruct (text_in s) eqn:Hs; simpl; [|done].
  intros [= <-]. by eapply text_error.
Qed.
Lemma insert_row_error k c t e : insert_row k c t = Err e → e = unique_violation ∧ present k t = true.
Proof. unfold insert_row. destruct (present k t); [|done]. by intros [= <-]. Qed.

Lemma eval_error {A} (st : stmt A) t e :
  eval st t = Err e →
  infra e ∧ (isUniqueViolation e = true → ∃ k, insert_key st = Some k ∧ present k t = true).
Proof.
  assert (Hplain : ∀ e, infra e ∧ isUniqueViolation e = false →
    infra e ∧ (isUniqueViolation e = true → ∃ k, insert_key st = Some k ∧ present k t = true)).
  { intros e' [? E]. split; [done|]. congruence. }
  assert (Hrow : ∀ k c e, insert_key st = Some k → insert_row k c t = Err e →
    infra e ∧ (isUniqueViolation e = true → ∃ k, insert_key st = Some k ∧ present k t = true)).
  { intros k c e' Hk [-> Hp]%insert_row_error. split; [done|]. eauto. }
  destruct st; simpl; intros He; (destruct (texts_in _) eqn:Ht; [simplify_eq; by apply Hplain, (texts_in_error _ _ Ht)|]);
    simplify_eq; try (by eapply Hrow).
  - destruct (jsonb_in _) eqn:Hj; [|simplify_eq; by apply Hplain, (jsonb_error _ _ Hj)].
    destruct (insert_row _ _ t) as [r|] eqn:Hi; [|simplify_eq; by eapply Hrow]. case_match; simplify_eq. by apply Hplain.
  - destruct (ae_Metadata e0) as [m|]; [|by eapply Hrow].
    destruct (jsonb_in m) eqn:Hj; [by eapply Hrow|simplify_eq; by apply Hplain, (jsonb_error _ _ Hj)].
  - destruct (jsonb_in _) eqn:Hj; [by case_match|simplify_eq; by apply Hplain, (jsonb_error _ _ Hj)].
Qed.
End Errors.

(** ** Rules *)
Section Rules.
Context `{PostgresLaws} (i : nat) {R : Type} (op : StoreOp R).
Abbreviation lwp := (lwp i op).

Lemma lin_none {a : AStore} : lin_step op None a a None.
Proof. by left. Qed.
Lemma lin_now (a a' : AStore) (r : R) : spec_ok pg_norm op a r a' → lin_step op None a a' (Some (Ok r)).
Proof. right. eauto. Qed.
Lemma lin_refused (a : AStore) e : spec_err op a e → lin_step op None a a (Some (Err e)).
Proof. right. split; [done|]. eexists. split; [done|]. left. auto. Qed.

(** The body of a method ends with an answer; the pool's methods also leave no
    transaction open. *)
Definition body_post (r : res R) (lin : option (res R)) (d : Database) : Prop := settled op r lin.
Class Post (Q : res R → option (res R) → Database → Prop) : Prop :=
  post_closed : ∀ r lin d, settled op r lin → sessions d !! i = None → Q r lin d.
#[export] Instance body_Post : Post body_post.
Proof. intros r lin d Hs _. exact Hs. Qed.
#[export] Instance closed_Post : Post (closed i op).
Proof. by split. Qed.

Definition returns_errors {A} (k : res A → prog dbeff (res R)) : Prop :=
  ∀ e, isUniqueViolation e = false → k (Err e) = Ret (Err e).

Lemma lwp_tx {A} (st : stmt A) k d log locks :
  sessions d !! i = Some (mkTx log locks false) → stmt_ok st → orderly st (mkTx log locks false) → returns_errors k →
  (∀ d1 d2 e key, DbInv d1 → Rely i d d1 → tables d2 = tables d1 → infra e →
    insert_key st = Some key → present key (apply_changes log (tables d1)) = true →
    ∃ lin', lin_step op None (pg_abs (tables d1)) (pg_abs (tables d1)) lin' ∧
      (isUniqueViolation e = true → lwp (k (Err e)) lin' d2 body_post)) →
  (∀ d1 d2 a l, DbInv d1 → Rely i d d1 → tables d2 = tables d1 →
    let view := apply_changes log (tables d1) in eval st view = Ok (a, l) →
    sessions d2 !! i = Some (mkTx (log ++ l) (locks ++ new_locks st view) false) →
    ∃ lin', lin_step op None (pg_abs (tables d1)) (pg_abs (tables d1)) lin' ∧ lwp (k (Ok a)) lin' d2 body_post) →
  lwp (Vis (DTx st) k) None d body_post.
Proof.
  intros Hs Hst Ho Hk Hdup Hok. split. { split; [done|]. intros tx Htx _. rewrite Hs in Htx. by simplify_eq. }
  intros d1 fault now x d2 HJ Hy Hstep. simpl in Hstep. rewrite (r_session _ _ _ Hy), Hs in Hstep. simpl in Hstep.
  destruct fault as [f|].
  { simplify_eq. exists None. split; [apply lin_none|]. rewrite Hk by done. by apply settled_infra. }
  destruct (blocked _ _ _ _); [done|]. destruct (eval st _) as [[a l]|e] eqn:He; simplify_eq.
  - eapply (Hok d1 (set_session i _ d1)); [done|done|done|done|]. simpl. by rewrite lookup_partial_alter_eq.
  - apply eval_error in He as [Hi Hu]. destruct (isUniqueViolation e) eqn:Hue.
    + destruct (Hu eq_refl) as (key & Hkey & Hp). destruct (Hdup d1 (set_session i (Some aborted_tx) d1) e key) as (lin' & ? & ?);
        try done. eauto.
    + exists None. split; [apply lin_none|]. rewrite Hk by done. by apply settled_infra.
Qed.

Lemma lwp_pool {A} (st : stmt A) k d Q `{!Post Q} :
  sessions d !! i = None → stmt_ok st → returns_errors k →
  (∀ d1 e key, DbInv d1 → Rely i d d1 → infra e → sessions d1 !! i = None →
    insert_key st = Some key → present key (tables d1) = true →
    ∃ lin', lin_step op None (pg_abs (tables d1)) (pg_abs (tables d1)) lin' ∧
      (isUniqueViolation e = true → lwp (k (Err e)) lin' d1 Q)) →
  (∀ d1 d2 a l, DbInv d1 → Rely i d d1 → eval st (tables d1) = Ok (a, l) →
    tables d2 = apply_changes l (tables d1) → sessions d2 !! i = None →
    (∃ lin', lin_step op None (pg_abs (tables d1)) (pg_abs (tables d1)) lin' ∧ l = [] ∧ lwp (k (Ok a)) lin' d2 Q)
    ∨ (∃ r, spec_ok pg_norm op (pg_abs (tables d1)) r (pg_abs (tables d2)) ∧ lwp (k (Ok a)) (Some (Ok r)) d2 Q)) →
  lwp (Vis (DPool st) k) None d Q.
Proof.
  intros Hs Hst Hk Hdup Hok. split; [done|].
  intros d1 fault now x d2 HJ Hy Hstep. pose proof (r_session _ _ _ Hy) as Hs1. rewrite Hs in Hs1.
  assert (Hlate : ∀ c, ∃ lin', lin_step op None (pg_abs (tables d1)) (pg_abs (tables d1)) lin' ∧ lwp (k (Err (ErrNew c))) lin' d1 Q).
  { intros c. exists None. split; [apply lin_none|]. rewrite Hk by done. apply (post_closed (Q:=Q)); [by apply settled_infra|done]. }
  simpl in Hstep. destruct (eval st (tables d1)) as [[a l]|e] eqn:He.
  - assert (Hx : d2 = d1 ∧ (∃ c, x = Err (ErrNew c)) ∨
      d2 = mkDatabase (apply_changes l (tables d1)) (sessions d1) ∧ (x = Ok a ∨ ∃ c, x = Err (ErrNew c))).
    { destruct fault as [[[] c]|]; simplify_eq; [|eauto|]; destruct (blocked _ _ _ _); simplify_eq; eauto. }
    destruct Hx as [[-> [c ->]]|[-> Hx]]; [done|].
    destruct (Hok d1 (mkDatabase _ (sessions d1)) a l HJ Hy He eq_refl Hs1) as [(lin' & Hl & -> & Hw)|(r & Hr & Hw)], Hx as [->|[c ->]]; simpl in *.
    + eauto.
    + destruct d1. apply Hlate.
    + eexists. split; [by apply lin_now|done].
    + exists (Some (Err (ErrNew c))). split; [right; split; [done|]; eexists; split; [done|]; right; split; [done|by exists r]|].
      rewrite Hk by done. by apply (post_closed (Q:=Q)).
  - assert (Hx : d2 = d1 ∧ (x = Err e ∨ ∃ c, x = Err (ErrNew c))).
    { destruct fault as [[[] c]|]; simplify_eq; [|eauto|]; destruct (blocked _ _ _ _); simplify_eq; eauto. }
    destruct Hx as [-> [->|[c ->]]]; [|apply Hlate]. apply eval_error in He as [Hi Hu]. destruct (isUniqueViolation e) eqn:Hue.
    + destruct (Hu eq_refl) as (key & Hkey & Hp). destruct (Hdup d1 e key) as (lin' & ? & ?); try done. eauto.
    + exists None. split; [apply lin_none|]. rewrite Hk by done. apply (post_closed (Q:=Q)); [by apply settled_infra|done].
Qed.

(** Committing is where the methods that write inside a transaction take effect. *)
Lemma lwp_commit f d log locks :
  sessions d !! i = Some (mkTx log locks false) →
  (∀ d1 d2, DbInv d1 → Rely i d d1 → tables d2 = apply_changes log (tables d1) →
    ∃ r, spec_ok pg_norm op (pg_abs (tables d1)) r (pg_abs (tables d2)) ∧ lwp (f tt) (Some (Ok r)) d2 body_post) →
  lwp (call DCommit ≫= λ r, match r with Ok x => f x | Err e => Ret (Err e) end) None d body_post.
Proof.
  intros Hs Hok. split; [done|]. intros d1 fault now x d2 HJ Hy Hstep. simpl in Hstep. rewrite (r_session _ _ _ Hy), Hs in Hstep.
  simpl in Hstep. set (d3 := commit i log d1) in *. destruct (Hok d1 d3 HJ Hy eq_refl) as (r & Hr & Hw).
  destruct fault as [[[] c]|]; simplify_eq; simpl.
  - exists (Some (Err (ErrNew c))). split; [|done]. right. split; [done|]. eexists. split; [done|]. right. split; [done|by exists r].
  - exists None. split; [apply lin_none|by apply settled_infra].
  - exists (Some (Ok r)). split; [by apply lin_now|done].
Qed.

Lemma lwp_rollback {B} (k : res unit → prog dbeff B) lin d Q :
  (∀ r d1 d2, DbInv d1 → Rely i d d1 → (∃ e, r = Err e ∧ infra e) ∨ r = Ok tt → tables d2 = tables d1 → sessions d2 !! i = None →
    lwp (k r) lin d2 Q) →
  lwp (Vis DRollback k) lin d Q.
Proof.
  intros Hk. split; [done|]. intros d1 fault now x d2 HJ Hy Hstep. simpl in Hstep. exists lin.
  destruct (sessions d1 !! i) as [tx|] eqn:Ht.
  - assert (d2 = set_session i None d1 ∧ ((∃ e, x = Err e ∧ infra e) ∨ x = Ok tt)) as [-> Hx].
    { destruct fault; simplify_eq; split; eauto. left. by eexists. }
    split; [by left|]. eapply Hk; [done|done|done|done|]. simpl. by rewrite lookup_partial_alter_eq.
  - simplify_eq. split; [by left|]. apply (Hk _ d2 d2); try done. left. by eexists.
Qed.

Lemma lwp_with_tx body d :
  sessions d !! i = None → (∀ d1, sessions d1 !! i = Some empty_tx → lwp body None d1 body_post) →
  lwp (with_tx body) None d (closed i op).
Proof.
  intros Hs Hb. split; [done|]. intros d1 fault now x d2 HJ Hy Hstep. simpl in Hstep. exists None.
  destruct fault as [f|]; simplify_eq.
  { split; [apply lin_none|]. split; [by apply settled_infra|]. rewrite (r_session _ _ _ Hy). done. }
  split; [apply lin_none|]. simpl. apply lwp_bind.
  assert (Hi : sessions (set_session i (Some empty_tx) d1) !! i = Some empty_tx) by (simpl; by rewrite lookup_partial_alter_eq).
  eapply lwp_mono; [|by apply Hb]. intros r lin d2 Hr. apply (lwp_bind i op (λ _, mret r) (call DRollback)), lwp_rollback.
  intros r' d3 d4 _ _ _ _ Hn. by split.
Qed.

(** Reading the clock. *)
Lemma lwp_now {B} (k : Time → prog dbeff B) lin d Q :
  (∀ t d1, DbInv d1 → Rely i d d1 → lwp (k t) lin d1 Q) → lwp (Vis DNow k) lin d Q.
Proof.
  intros Hk. split; [done|]. intros d1 fault now x d2 HJ Hy Hstep. simpl in Hstep. simplify_eq. exists lin. split; [by left|]. by apply Hk.
Qed.
End Rules.

(** ** Documents *)
Lemma collect_error {K} (l : list (K * res string)) e :
  (∀ k r, (k, r) ∈ l → r = Err e → infra e) → collect l = Err e → infra e.
Proof.
  induction l as [|[k r] l IH]; simpl; intros Hl He; [done|]. destruct r as [t|e'].
  - destruct (collect l) eqn:Hc; simplify_eq. apply IH; [|done]. intros k' r' Hin. apply (Hl k'). by right.
  - simplify_eq. apply (Hl k (Err e)); [left|done].
Qed.
Lemma marshal_time_error t e : marshal_time t = Err e → infra e.
Proof. unfold marshal_time. case_decide; [done|]. by intros [= <-]. Qed.
Lemma marshal_raw_error m e : marshal_raw m = Err e → infra e.
Proof. unfold marshal_raw. destruct m as [t|]; [|done]. destruct (decode t); [done|]. by intros [= <-]. Qed.
Lemma marshal_map_error {A} (f : A → res string) m e :
  (∀ a, f a = Err e → infra e) → marshal_map f m = Err e → infra e.
Proof.
  intros Hf. unfold marshal_map. destruct m as [m|]; [|done]. destruct (collect _) eqn:Hc; [done|]. intros [= ->].
  apply (collect_error _ _) in Hc; [done|]. intros k r Hin Hr.
  apply list_elem_of_omap in Hin as (k' & _ & Hk). destruct (m !! k'); simplify_option_eq. by apply (Hf a).
Qed.
Lemma marshal_approval_error e a : marshal_approval a = Err e → infra e.
Proof.
  unfold marshal_approval. destruct (marshal_time _) eqn:Ht; [done|]. intros [= ->]. by eapply marshal_time_error.
Qed.
Lemma marshal_proposal_error p e : marshal_proposal p = Err e → infra e.
Proof.
  unfold marshal_proposal, marshal_request, marshal_omit_raw, marshal_raw_transaction, omit_map.
  intros He. repeat case_match; simplify_eq;
    match goal with
    | E : marshal_time _ = Err _ |- _ => by apply marshal_time_error in E
    | E : marshal_raw _ = Err _ |- _ => by apply marshal_raw_error in E
    | E : marshal_map (λ _, Ok _) _ = Err _ |- _ => by apply marshal_map_error in E
    | E : marshal_map marshal_approval _ = Err _ |- _ => by apply marshal_map_error in E; [|apply marshal_approval_error]
    end.
Qed.

Lemma approval_proposal_ok a p : utf8 (ap_SignerID a) → proposal_ok p → proposal_ok (with_approval a p).
Proof.
  intros Ha (? & ? & ? & ? & ? & Hap & ? & ?). split_and!; try done. unfold approvals_texts in *. simpl.
  by apply map_Forall_insert_2.
Qed.
Lemma signature_proposal_ok t s p : utf8 s → proposal_ok p → proposal_ok (with_signature t s p).
Proof. intros Hs (? & ? & ? & ? & ? & ? & ? & ?). split_and!; try done. by apply utf8_ascii. Qed.

Section Documents.
Context `{PostgresLaws}.

Lemma document_stored p t u :
  proposal_ok p → marshal_proposal p = Ok t → jsonb_in t = Ok u → document u = Some (norm_txn pg_norm p).
Proof. intros Hp Ht Hu. unfold document. by rewrite (document_read p t u). Qed.
Lemma stored_ok p t u :
  proposal_ok p → marshal_proposal p = Ok t → jsonb_in t = Ok u → document_ok (tp_ID p) u.
Proof.
  intros Hp Ht Hu. exists (norm_txn pg_norm p). split_and!; [by eapply document_stored|done|].
  apply norm_txn_ok; [apply pg_norm_laws|done].
Qed.
Lemma abs_put_txn p row t :
  row_txn row = Some (norm_txn pg_norm p) →
  pg_abs (apply_changes [CTxn (tp_ID p) row] t) = put_txn pg_norm p (pg_abs t).
Proof. intros Hr. unfold pg_abs, put_txn. simpl. f_equal. by apply omap_insert_Some. Qed.

(** A stored row under its own identifier. *)
Lemma stored_row t id row :
  pg_wf t → t_txns t !! id = Some row →
  ∃ p, unmarshal_proposal (row_Proposal row) = Ok p ∧ tp_ID p = id ∧ proposal_ok p ∧ a_txns (pg_abs t) !! id = Some p.
Proof.
  intros Hw Hr. destruct (Hw _ _ Hr) as (p & Hp & Hid & Hok). exists p. split_and!; try done; [|by eapply abs_txn].
  unfold document in Hp. destruct (unmarshal_proposal _); by simplify_eq.
Qed.
End Documents.

(** ** The methods *)
Section Methods.
Context `{PostgresLaws} (i : nat).

(** The only answer of an evaluation that succeeds. *)
Ltac eval_inv He := simpl in He; destruct (texts_in _); [done|]; simplify_eq.
Ltac no_insert := intros; simplify_eq/=.
Ltac errors_returned := let E := fresh in intros ? E; cbn; by rewrite ?E.

Lemma GetWallet_lwp id d : sessions d !! i = None → lwp i (OpGetWallet id) (GetWallet id) None d (closed i (OpGetWallet id)).
Proof.
  intros Hs. apply (lwp_pool i _ (SelectWallet id)); [apply _|done|done|errors_returned|no_insert|].
  intros d1 d2 a l HJ Hy He Ht Hn. left. eval_inv He. destruct (t_wallets (tables d1) !! id) as [w|] eqn:Hw.
  - eexists. split; [apply (lin_now _ _ _ w); by split|]. by split.
  - eexists. split; [by apply (lin_refused (OpGetWallet id) _ (ErrVar ErrWalletNotFound))|]. by split.
Qed.

Lemma GetTransaction_lwp id d :
  sessions d !! i = None → lwp i (OpGetTransaction id) (GetTransaction id) None d (closed i (OpGetTransaction id)).
Proof.
  intros Hs. apply (lwp_pool i _ (SelectTxn false id)); [apply _|done|done|errors_returned|no_insert|].
  intros d1 d2 a l HJ Hy He Ht Hn. left. eval_inv He. destruct (t_txns (tables d1) !! id) as [row|] eqn:Hr.
  - destruct (stored_row _ _ _ (inv_wf _ HJ) Hr) as (p & Hp & _ & _ & Ha).
    eexists. split; [apply (lin_now _ _ _ p); by split|]. simpl. rewrite Hp. by split.
  - eexists. split; [apply (lin_refused (OpGetTransaction id) _ (ErrVar ErrTransactionNotFound)); split; [done|by apply abs_no_txn]|].
    by split.
Qed.

Lemma CreateWallet_lwp w d :
  sessions d !! i = None → lwp i (OpCreateWallet w) (CreateWallet w) None d (closed i (OpCreateWallet w)).
Proof.
  intros Hs. apply (lwp_pool i _ (InsertWallet w)); [apply _|done|done|errors_returned| |].
  - intros d1 e key HJ Hy He Hn [= <-] Hp. eexists. split.
    + apply (lin_refused (OpCreateWallet w) _ (ErrVar ErrDuplicateWallet)). simpl in Hp. rewrite bool_decide_eq_true in Hp. by split.
    + intros Hu. simpl. rewrite Hu. by split.
  - intros d1 d2 a l HJ Hy He Ht Hn. right. exists tt. simpl in He. case_match; [done|].
    apply insert_row_ok in He as [Hp ->]. simpl in Hp. rewrite bool_decide_eq_false in Hp. split; [|by split].
    rewrite Ht. split; [by apply eq_None_not_Some|done].
Qed.

Lemma insert_txn_ok p t : proposal_ok p → marshal_proposal p = Ok t → stmt_ok (insert_txn p t).
Proof. intros Hp Ht u. by apply (stored_ok p t). Qed.
Lemma insert_txn_eval p t s a l :
  proposal_ok p → marshal_proposal p = Ok t → eval (insert_txn p t) s = Ok (a, l) →
  t_txns s !! tp_ID p = None ∧ ∃ row, l = [CTxn (tp_ID p) row] ∧ row_txn row = Some (norm_txn pg_norm p).
Proof.
  intros Hp Ht He. simpl in He. case_match; [done|]. destruct (jsonb_in t) as [u|] eqn:Hu; [|done].
  destruct (insert_row _ _ s) as [[? l']|] eqn:Hi; [|done]. apply insert_row_ok in Hi as [Hn ->].
  case_match; [|done]. simplify_eq. simpl in Hn. rewrite bool_decide_eq_false in Hn. split; [by apply eq_None_not_Some|].
  eexists. split; [done|]. by eapply document_stored.
Qed.

Lemma abs_is_txn d id :
  DbInv d → is_Some (t_txns (tables d) !! id) → is_Some (a_txns (pg_abs (tables d)) !! id).
Proof. intros HJ. apply abs_txn_inv, HJ. Qed.

Lemma CreateTransaction_lwp p d :
  proposal_ok p → sessions d !! i = None →
  lwp i (OpCreateTransaction p) (CreateTransaction p) None d (closed i (OpCreateTransaction p)).
Proof.
  intros Hp Hs. unfold CreateTransaction, marshalled. destruct (marshal_proposal p) as [t|e] eqn:Ht.
  2: { split; [|done]. by eapply settled_infra, marshal_proposal_error. }
  apply (lwp_pool i _ (insert_txn p t)); [apply _|done|by apply insert_txn_ok|errors_returned| |].
  - intros d1 e key HJ Hy He Hn [= <-] Hpr. eexists. split.
    + apply (lin_refused (OpCreateTransaction p) _ (ErrVar ErrDuplicateTransaction)). simpl in Hpr. rewrite bool_decide_eq_true in Hpr.
      split; [done|by apply abs_is_txn].
    + intros Hu. simpl. rewrite Hu. by split.
  - intros d1 d2 a l HJ Hy He Hd Hn. right. exists tt. destruct (insert_txn_eval _ _ _ _ _ Hp Ht He) as (Hno & row & -> & Hrow).
    split; [|by split]. rewrite Hd. split; [by apply abs_no_txn|by apply abs_put_txn].
Qed.

Lemma update_eval p t id sta up s a l :
  proposal_ok p → marshal_proposal p = Ok t → tp_ID p = id → eval (UpdateTxn id sta t up) s = Ok (a, l) →
  (t_txns s !! id = None ∧ a = 0 ∧ l = []) ∨
  (is_Some (t_txns s !! id) ∧ a = 1 ∧ ∃ row, l = [CTxn (tp_ID p) row] ∧ row_txn row = Some (norm_txn pg_norm p)).
Proof.
  intros Hp Ht <- He. simpl in He. case_match; [done|]. destruct (jsonb_in t) as [u|] eqn:Hu; [|done].
  destruct (t_txns s !! tp_ID p) as [row|]; simplify_eq; [right|by left]. split_and!; [done|done|].
  eexists. split; [done|]. by eapply document_stored.
Qed.

Lemma UpdateTransaction_lwp p d :
  proposal_ok p → sessions d !! i = None →
  lwp i (OpUpdateTransaction p) (UpdateTransaction p) None d (closed i (OpUpdateTransaction p)).
Proof.
  intros Hp Hs. unfold UpdateTransaction, marshalled. destruct (marshal_proposal p) as [t|e] eqn:Ht.
  2: { split; [|done]. by eapply settled_infra, marshal_proposal_error. }
  apply (lwp_pool i _ (UpdateTxn (tp_ID p) (Some (tp_Status p)) t (tp_UpdatedAt p)));
    [apply _|done|intros u; by eapply stored_ok|errors_returned|no_insert|].
  intros d1 d2 a l HJ Hy He Hd Hn. destruct (update_eval p _ _ _ _ _ _ _ Hp Ht eq_refl He) as [(Hno & -> & ->)|(Hin & -> & row & -> & Hrow)].
  - left. eexists. split; [apply (lin_refused (OpUpdateTransaction p) _ (ErrVar ErrTransactionNotFound)); split; [done|by apply abs_no_txn]|].
    by split.
  - right. exists tt. split; [|by split]. rewrite Hd. split; [by apply abs_is_txn|by apply abs_put_txn].
Qed.

Lemma AppendAuditEvent_lwp e d :
  sessions d !! i = None → lwp i (OpAppendAuditEvent e) (AppendAuditEvent e) None d (closed i (OpAppendAuditEvent e)).
Proof.
  intros Hs. apply (lwp_pool i _ (InsertEvent (event_row e))); [apply _|done|done|errors_returned| |].
  - intros d1 err key HJ Hy He Hn Hk Hp. exists None. split; [apply lin_none|]. intros _. split; [by apply settled_infra|done].
  - intros d1 d2 a l HJ Hy He Ht Hn. right. exists a. split; [|by split]. rewrite Ht. simpl. eval_inv He.
    enough (l = [CEvent (norm_event pg_norm e)]) as -> by done.
    unfold event_row, norm_event in *. simpl in *. destruct (ae_Metadata e) as [m|]; [|by apply insert_row_ok in He as [_ ->]].
    case_decide; [by apply insert_row_ok in He as [_ ->]|]. simpl in *. unfold jsonb_text.
    destruct (jsonb_in m); [|done]. by apply insert_row_ok in He as [_ ->].
Qed.

Lemma ListAuditEvents_lwp f d :
  sessions d !! i = None → lwp i (OpListAuditEvents f) (ListAuditEvents f) None d (closed i (OpListAuditEvents f)).
Proof.
  intros Hs. unfold ListAuditEvents.
  apply (lwp_pool i _ (SelectEvents (af_ResourceID f)
    (if decide (af_Limit f ≤ 0 ∨ 200 < af_Limit f)%Z then 100%Z else af_Limit f)));
    [apply _|done|done|errors_returned|no_insert|].
  intros d1 d2 a l HJ Hy He Ht Hn. left. eval_inv He. eexists (Some (Ok _)). split; [|by split].
  apply lin_now. split; [|done].
  exists (merge_sort newest_first (scan (filter (audit_matches (af_ResourceID f)) (t_audit (tables d1))))).
  split; [by rewrite merge_sort_Permutation, scan_perm|]. f_equal. unfold page_size. case_decide; case_decide; lia || done.
Qed.

(** A row locked by the open transaction, read back later. *)
Lemma locked_row d d1 id row log locks :
  sessions d !! i = Some (mkTx log locks false) → id ∈ locks → Rely i d d1 →
  t_txns (tables d) !! id = Some row → t_txns (tables d1) !! id = Some row.
Proof.
  intros Hs Hin Hy Hr. rewrite <- Hr. apply (r_same _ _ _ Hy _ (KTxn id) Hs). unfold keys. simpl. apply elem_of_app. right.
  by apply list_elem_of_fmap_2.
Qed.

(** [getTransactionTx(ctx, tx, id, true)] at the start of a transaction. *)
Lemma lwp_locked {R} (op : StoreOp R) id (f : TransactionProposal → prog dbeff (res R)) d :
  sessions d !! i = Some empty_tx →
  (∀ a, a_txns a !! id = None → spec_err op a (ErrVar ErrTransactionNotFound)) →
  (∀ d1 d2 row p, DbInv d1 → tables d2 = tables d1 → sessions d2 !! i = Some (mkTx [] [id] false) →
    t_txns (tables d2) !! id = Some row → row_txn row = Some p → tp_ID p = id → proposal_ok p →
    ∃ lin, lin_step op None (pg_abs (tables d1)) (pg_abs (tables d1)) lin ∧ lwp i op (f p) lin d2 (body_post op)) →
  lwp i op (p ←? getTransaction intx id true; f p) None d (body_post op).
Proof.
  intros Hs Hno Hf. eapply (lwp_tx i op (SelectTxn true id)); [done|done|done|errors_returned|no_insert|].
  intros d1 d2 a l HJ Hy Ht view He Hs2. eval_inv He. simpl in *. case_bool_decide as Hp.
  - destruct Hp as [row Hr]. destruct (stored_row _ _ _ (inv_wf _ HJ) Hr) as (p & Hp & Hid & Hok & Ha). subst view. simpl in Hr.
    rewrite Hr. simpl. rewrite Hp. eapply (Hf d1 d2 row p); try done; [by rewrite Ht|]. unfold row_txn, document. by rewrite Hp.
  - apply eq_None_not_Some in Hp. rewrite Hp. simpl. eexists. split; [apply lin_refused, Hno, abs_no_txn, Hp|done].
Qed.

(** Store a new version of the locked row and commit. *)
Lemma lwp_store_locked {R} (op : StoreOp R) id row p q sta (r : R) d :
  sessions d !! i = Some (mkTx [] [id] false) → t_txns (tables d) !! id = Some row → row_txn row = Some p →
  proposal_ok q → tp_ID q = id →
  (∀ a, a_txns a !! id = Some p → spec_ok pg_norm op a r (put_txn pg_norm q a)) →
  lwp i op (marshalled q (λ payload, call (DTx (UpdateTxn (tp_ID q) sta payload (tp_UpdatedAt q))) ;;?
             (call DCommit ;;? mret (Ok r)))) None d (body_post op).
Proof.
  intros Hs Hr Hp Hq Hid Hspec. unfold marshalled. destruct (marshal_proposal q) as [t|e] eqn:Ht.
  2: { by eapply settled_infra, marshal_proposal_error. }
  eapply (lwp_tx i op (UpdateTxn (tp_ID q) sta t (tp_UpdatedAt q)));
    [done|intros u; by eapply stored_ok|simpl; rewrite Hid; set_solver|errors_returned|no_insert|].
  intros d1 d2 a l HJ Hy Hd view He Hs2. subst view.
  pose proof (locked_row d d1 id row _ _ Hs ltac:(set_solver) Hy Hr) as Hr1.
  destruct (update_eval q _ _ _ _ _ _ _ Hq Ht eq_refl He) as [(Hno & _)|(_ & -> & row' & -> & Hrow')].
  { rewrite Hid in Hno. simpl in Hno. congruence. }
  exists None. split; [apply lin_none|]. eapply lwp_commit; [exact Hs2|]. intros d3 d4 HJ3 Hy3 Hd4.
  exists r. split; [|done]. rewrite Hd4. simpl (_ ++ _). rewrite abs_put_txn by done. apply Hspec. eapply abs_txn; [|done].
  eapply (locked_row d2 d3); [done|set_solver|done|]. by rewrite Hd.
Qed.

Lemma AddApproval_lwp id a d :
  utf8 (ap_SignerID a) → sessions d !! i = None →
  lwp i (OpAddApproval id a) (AddApproval id a) None d (closed i (OpAddApproval id a)).
Proof.
  intros Ha Hs. apply lwp_with_tx; [done|]. intros d0 Hs0. apply lwp_locked; [done|by left|].
  intros d1 d2 row p HJ Ht Hs2 Hr Hp Hid Hok.
  assert (Habs : a_txns (pg_abs (tables d1)) !! id = Some p) by (eapply abs_txn; [by rewrite <- Ht|done]).
  case_decide as Hst.
  { eexists. split; [apply (lin_refused (OpAddApproval id a) _ (ErrVar ErrTransactionNotProposed)); right; eauto|done]. }
  cbv zeta. fold (approvals p). destruct (approvals p !! ap_SignerID a) eqn:Hap.
  { eexists. split; [apply (lin_refused (OpAddApproval id a) _ (ErrVar ErrDuplicateApproval)); right; exists p|done].
    split; [done|]. right. split_and!; [done|done|by rewrite Hap]. }
  exists None. split; [apply lin_none|].
  eapply (lwp_store_locked _ id row p (with_approval a p)); try done; [by apply approval_proposal_ok|]. intros s Hsp. by exists p.
Qed.

Lemma MarkTransactionSigned_lwp id signed d :
  utf8 signed → sessions d !! i = None →
  lwp i (OpMarkTransactionSigned id signed) (MarkTransactionSigned id signed) None d (closed i (OpMarkTransactionSigned id signed)).
Proof.
  intros Hu Hs. apply lwp_with_tx; [done|]. intros d0 Hs0. apply lwp_locked; [done|done|].
  intros d1 d2 row p HJ Ht Hs2 Hr Hp Hid Hok. exists None. split; [apply lin_none|]. case_decide as Hst.
  - eapply lwp_commit; [done|]. intros d3 d4 HJ3 Hy3 Hd4. exists (p, false). split; [|done]. exists p.
    split; [|left; by rewrite Hd4]. eapply abs_txn; [|done]. eapply (locked_row d2 d3); [done|set_solver|done|done].
  - apply lwp_now. intros t d3 HJ3 Hy3.
    eapply (lwp_store_locked _ id row p (with_signature t signed p)); try done.
    + by rewrite (r_session _ _ _ Hy3).
    + eapply (locked_row d2 d3); [done|set_solver|done|done].
    + by apply signature_proposal_ok.
    + intros s Hsp. exists p. split; [done|]. right. split_and!; try done. by exists t.
Qed.

(** *** Creation under an idempotency key *)
Lemma present_same k t t' : same_at k t t' → present k t' = present k t.
Proof.
  intros Hs. destruct k; simpl in *; apply bool_decide_ext; rewrite ?Hs; done.
Qed.
Lemma idem_grows d d1 k ex :
  Rely i d d1 → t_idem (tables d) !! k = Some ex → t_idem (tables d1) !! k = Some ex.
Proof. intros [_ [_ _ Hg] _] Hk. by eapply lookup_weaken. Qed.

(** The resource behind a key that is taken: [sel] finds its row, [answer] reads
    it, and what it reads is what the contract says of a replay. *)
Section Replay.
Context {A T} (op : StoreOp (A * bool)) (r : IdempotencyRecord) (sel : string → stmt (option T)) (answer : option T → res A).
Context (Hsel : ∀ id, stmt_ok (sel id) ∧ (∀ tx, orderly (sel id) tx) ∧ insert_key (sel id) = None).
Context (Hread : ∀ t ex x l, pg_wf t → t_idem t !! (ir_Scope r, ir_Key r) = Some ex →
  eval (sel (ir_ResourceID ex)) t = Ok (x, l) →
  l = [] ∧ match answer x with
           | Ok a => spec_ok pg_norm op (pg_abs t) (a, false) (pg_abs t)
           | Err e => spec_err op (pg_abs t) e
           end).

Lemma replay_answer t ex x l d :
  pg_wf t → t_idem t !! (ir_Scope r, ir_Key r) = Some ex → eval (sel (ir_ResourceID ex)) t = Ok (x, l) →
  ∃ lin, lin_step op None (pg_abs t) (pg_abs t) lin ∧ l = [] ∧
    lwp i op (match answer x with Ok a => mret (Ok (a, false)) | Err e => mret (Err e) end) lin d (body_post op).
Proof.
  intros Hw Hk He. destruct (Hread _ _ _ _ Hw Hk He) as [-> Ha]. destruct (answer x) as [a|e].
  - exists (Some (Ok (a, false))). split; [by apply lin_now|done].
  - exists (Some (Err e)). split; [by apply lin_refused|done].
Qed.
Lemma replay_tx ex d locks :
  sessions d !! i = Some (mkTx [] locks false) → t_idem (tables d) !! (ir_Scope r, ir_Key r) = Some ex →
  lwp i op (stored ←? (row ←? call (DTx (sel (ir_ResourceID ex))); mret (answer row)); mret (Ok (stored, false))) None d (body_post op).
Proof.
  intros Hs Hk. destruct (Hsel (ir_ResourceID ex)) as (Hst & Ho & Hi).
  eapply (lwp_tx i op (sel (ir_ResourceID ex))); [done|done|done|errors_returned|intros; congruence|].
  intros d1 d2 x l HJ Hy Ht view He Hs2. destruct (replay_answer _ ex x l d2 (inv_wf _ HJ) (idem_grows _ _ _ _ Hy Hk) He) as (lin & ? & _ & Hw).
  exists lin. split; [done|]. cbn. by destruct (answer x).
Qed.
Lemma replay_pool missing ex d :
  sessions d !! i = None → t_idem (tables d) !! (ir_Scope r, ir_Key r) = Some ex →
  lwp i op (found ←? getIdempotency pool (ir_Scope r) (ir_Key r);
            match found with
            | None => missing
            | Some record => stored ←? (row ←? call (DPool (sel (ir_ResourceID record))); mret (answer row)); mret (Ok (stored, false))
            end) None d (body_post op).
Proof.
  intros Hs Hk. eapply (lwp_pool i op (SelectIdem (ir_Scope r) (ir_Key r))); [apply _|done|done|errors_returned|no_insert|].
  intros d1 d2 a l HJ Hy He Ht Hs2. left. eval_inv He. apply (idem_grows _ _ _ _ Hy) in Hk. rewrite Hk. exists None.
  split; [apply lin_none|]. split; [done|]. simpl in Ht. rewrite <- Ht in Hk. destruct (Hsel (ir_ResourceID ex)) as (Hst & _ & Hi).
  eapply (lwp_pool i op (sel (ir_ResourceID ex))); [apply _|done|done|errors_returned|intros; congruence|].
  intros d3 d4 x l HJ3 Hy3 He3 Ht4 Hs4. left.
  destruct (replay_answer _ ex x l d4 (inv_wf _ HJ3) (idem_grows _ _ _ _ Hy3 Hk) He3) as (lin & ? & ? & Hw).
  exists lin. split_and!; [done|done|]. cbn. by destruct (answer x).
Qed.
End Replay.

Lemma read_wallet w r t ex x l :
  t_idem t !! (ir_Scope r, ir_Key r) = Some ex → eval (SelectWallet (ir_ResourceID ex)) t = Ok (x, l) →
  l = [] ∧ match (match x with None => Err (ErrVar ErrWalletNotFound) | Some w => Ok w end) with
           | Ok a => spec_ok pg_norm (OpCreateWalletIdempotently w r) (pg_abs t) (a, false) (pg_abs t)
           | Err e => spec_err (OpCreateWalletIdempotently w r) (pg_abs t) e
           end.
Proof.
  intros Hk He. eval_inv He. split; [done|]. destruct (t_wallets t !! ir_ResourceID ex) as [x|] eqn:Hx; left.
  - by exists ex.
  - split; [done|]. by exists ex.
Qed.
Lemma read_transaction p r t ex x l :
  pg_wf t → t_idem t !! (ir_Scope r, ir_Key r) = Some ex → eval (SelectTxn false (ir_ResourceID ex)) t = Ok (x, l) →
  l = [] ∧ match (match x with None => Err (ErrVar ErrTransactionNotFound) | Some payload => unmarshal_proposal payload end) with
           | Ok a => spec_ok pg_norm (OpCreateTransactionIdempotently p r) (pg_abs t) (a, false) (pg_abs t)
           | Err e => spec_err (OpCreateTransactionIdempotently p r) (pg_abs t) e
           end.
Proof.
  intros Hw Hk He. eval_inv He. split; [done|]. destruct (t_txns t !! ir_ResourceID ex) as [row|] eqn:Hx; simpl.
  - destruct (stored_row _ _ _ Hw Hx) as (q & Hq & _ & _ & Ha). rewrite Hq. left. by exists ex.
  - left. split; [done|]. exists ex. split; [done|by apply abs_no_txn].
Qed.

(** Insert the resource, then its key, and commit; a key taken meanwhile means
    another call has stored the resource. *)
Lemma lwp_insert_both {A} (op : StoreOp (A * bool)) st k c (x : A) dup replay r d :
  sessions d !! i = Some empty_tx → stmt_ok st → insert_key st = Some k → orderly st empty_tx →
  (∀ t u l, eval st t = Ok (u, l) → present k t = false ∧ l = [c]) → change_key c = k → not_idem c →
  (∀ t, pg_wf t → present k t = true → spec_err op (pg_abs t) dup) →
  (∀ t0 u l t, eval st t0 = Ok (u, l) → present k t = false → t_idem t !! (ir_Scope r, ir_Key r) = None →
    spec_ok pg_norm op (pg_abs t) (x, true) (put_idem pg_norm r (pg_abs (apply_changes [c] t)))) →
  (∀ d ex, sessions d !! i = None → t_idem (tables d) !! (ir_Scope r, ir_Key r) = Some ex → lwp i op replay None d (body_post op)) →
  lwp i op (on_unique (mret (Err dup)) (call (DTx st))
    (on_unique (after_rollback replay) (call (DTx (InsertIdem r))) (call DCommit ;;? mret (Ok (x, true))))) None d (body_post op).
Proof.
  intros Hs Hst Hik Ho Hev Hc Hni Hdup Hok Hre. eapply (lwp_tx i op st); [done|done|done|errors_returned| |].
  { intros d1 d2 e key HJ Hy Ht Hi Hkey Hp. simplify_eq. exists (Some (Err dup)). split; [by eapply lin_refused, Hdup, Hp; apply HJ|].
    intros Hu. simpl. by rewrite Hu. }
  intros d1 d2 u l HJ Hy Ht view He Hs2. destruct (Hev _ _ _ He) as [Hp ->]. exists None. split; [apply lin_none|].
  assert (Hnl : new_locks st view = []) by (destruct st as [| | | | | |[]| |]; done). rewrite Hnl in Hs2. simpl in Hs2.
  assert (Hmine : ∀ d d' log, sessions d !! i = Some (mkTx (c :: log) [] false) → Rely i d d' → present k (tables d) = false →
    present k (tables d') = false).
  { intros da db log Hsa Hya Hpa. rewrite <- Hpa. apply present_same, (r_same _ _ _ Hya _ _ Hsa). unfold keys. simpl. rewrite Hc. left. }
  subst view. simpl in Hp. rewrite <- Ht in Hp. clear Hy HJ.
  eapply (lwp_tx i op (InsertIdem r)); [done|done|split; [by constructor|done]|errors_returned| |].
  - intros d3 d4 e key HJ Hy Ht3 Hi [= <-] Hpk. exists None. split; [apply lin_none|]. intros Hu. cbn. rewrite Hu.
    assert (is_Some (t_idem (tables d3) !! (ir_Scope r, ir_Key r))) as [ex Hex].
    { simpl in Hpk. rewrite bool_decide_eq_true in Hpk. by destruct c. }
    apply lwp_rollback. intros r' d5 d6 HJ5 Hy5 [(e' & -> & He')| ->] Ht6 Hn6; [by apply settled_infra|].
    apply (Hre d6 ex); [done|]. rewrite Ht6. eapply idem_grows; [done|]. by rewrite Ht3.
  - intros d3 d4 u' l HJ Hy Ht3 view3 He' Hs4. subst view3. exists None. split; [apply lin_none|].
    simpl in He'. case_match; [done|]. apply insert_row_ok in He' as [Hpi ->]. eapply lwp_commit; [exact Hs4|].
    intros d5 d6 HJ5 Hy5 Ht6. exists (x, true). split; [|done]. rewrite Ht6.
    assert (Hn5 : t_idem (tables d5) !! (ir_Scope r, ir_Key r) = None).
    { destruct (inv_tx _ HJ5 i _ (eq_trans (r_session _ _ _ Hy5) Hs4)) as [Hf _].
      by apply Forall_app in Hf as [_ [Hf _]%Forall_cons]. }
    eapply Hok; [exact He| |done]. eapply Hmine; [exact Hs4|done|]. rewrite Ht3. eapply Hmine; [exact Hs2|done|done].
Qed.

Lemma CreateWalletIdempotently_lwp w r d :
  sessions d !! i = None →
  lwp i (OpCreateWalletIdempotently w r) (CreateWalletIdempotently w r) None d (closed i (OpCreateWalletIdempotently w r)).
Proof.
  intros Hs. apply lwp_with_tx; [done|]. intros d0 Hs0.
  eapply (lwp_tx i _ (SelectIdem (ir_Scope r) (ir_Key r))); [done|done|done|errors_returned|no_insert|].
  intros d1 d2 a l HJ Hy Ht view He Hs2. eval_inv He. subst view. exists None. split; [apply lin_none|]. simpl.
  destruct (t_idem (tables d1) !! (ir_Scope r, ir_Key r)) as [ex|] eqn:Hex.
  { eapply (replay_tx _ r SelectWallet); [done|intros ? ? ? ? _; apply read_wallet|done|by rewrite Ht]. }
  eapply (lwp_insert_both _ _ (KWallet (w_ID w)) (CWallet (norm_wallet pg_norm w))); try done.
  - intros t u l He. simpl in He. case_match; [done|]. by apply insert_row_ok in He.
  - intros t _ Hp. right. split; [done|]. simpl in Hp. by rewrite bool_decide_eq_true in Hp.
  - intros _ _ _ t _ Hp Hn. right. simpl in Hp. rewrite bool_decide_eq_false in Hp. split_and!; try done. by apply eq_None_not_Some.
  - intros d3 ex. apply (replay_pool _ r SelectWallet); [done|intros ? ? ? ? _; apply read_wallet].
Qed.

Lemma CreateTransactionIdempotently_lwp p r d :
  proposal_ok p → sessions d !! i = None →
  lwp i (OpCreateTransactionIdempotently p r) (CreateTransactionIdempotently p r) None d
    (closed i (OpCreateTransactionIdempotently p r)).
Proof.
  intros Hp Hs. apply lwp_with_tx; [done|]. intros d0 Hs0.
  eapply (lwp_tx i _ (SelectIdem (ir_Scope r) (ir_Key r))); [done|done|done|errors_returned|no_insert|].
  intros d1 d2 a l HJ Hy Ht view He Hs2. eval_inv He. subst view. exists None. split; [apply lin_none|]. simpl.
  destruct (t_idem (tables d1) !! (ir_Scope r, ir_Key r)) as [ex|] eqn:Hex.
  { eapply (replay_tx _ r (SelectTxn false)); [done|intros ? ? ? ?; apply read_transaction|done|by rewrite Ht]. }
  unfold marshalled. destruct (marshal_proposal p) as [t|e] eqn:Hm; [|by eapply settled_infra, marshal_proposal_error].
  eapply (lwp_insert_both _ _ (KTxn (tp_ID p)) (CTxn (tp_ID p) (mkTxnRow (tp_WalletID p) (tp_Chain p) (tp_Status p) (jsonb_text t)
    (column_time (tp_CreatedAt p)) (column_time (tp_UpdatedAt p))))); try done.
  - by apply insert_txn_ok.
  - intros s u' l He. simpl in He. unfold jsonb_text. case_match; [done|].
    destruct (jsonb_in t) as [doc|]; [|done]. destruct (insert_row _ _ s) as [[? l']|] eqn:Hi; [|done]. apply insert_row_ok in Hi. case_match; by simplify_eq.
  - intros s Hw Hpr. right. split; [done|]. apply abs_txn_inv; [done|]. simpl in Hpr. by rewrite bool_decide_eq_true in Hpr.
  - intros s0 u l s He Hpr Hn. right. simpl in Hpr. rewrite bool_decide_eq_false in Hpr. split_and!; try done.
    + by apply abs_no_txn, eq_None_not_Some.
    + f_equal. apply abs_put_txn. unfold row_txn, jsonb_text. simpl in He |- *. case_match; [done|].
      destruct (jsonb_in t) eqn:Hu; [|done]. by eapply document_stored.
  - intros d3 ex. apply (replay_pool _ r (SelectTxn false)); [done|intros ? ? ? ?; apply read_transaction].
Qed.

(** Every method, run among other sessions, takes effect as the contract says. *)
Lemma method_lwp {A} (op : StoreOp A) d :
  op_ok op → sessions d !! i = None → lwp i op (method op) None d (closed i op).
Proof.
  destruct op; simpl; intros Hop Hs.
  - by apply CreateWallet_lwp.
  - by apply CreateWalletIdempotently_lwp.
  - by apply GetWallet_lwp.
  - by apply CreateTransaction_lwp.
  - destruct Hop. by apply CreateTransactionIdempotently_lwp.
  - by apply GetTransaction_lwp.
  - by apply AddApproval_lwp.
  - by apply MarkTransactionSigned_lwp.
  - by apply UpdateTransaction_lwp.
  - by apply AppendAuditEvent_lwp.
  - by apply ListAuditEvents_lwp.
Qed.
End Methods.
