(* ===== verification/PgStore.v ===== *)
(** * The Postgres store behind the [Store] interface, and a concrete database

    One caller at a time, with the connection faults of its [Input]: an instance
    of the interface the service is written against, and of its contract.  At
    the end a concrete choice of PostgreSQL's data types that has the facts the
    development assumes of them. *)
From Stdlib Require Import Ascii.
From S2P Require Import Prelude GoStd GoError Types Json Marshal JsonText GoTime Codec Transport Interfaces.
From S2P Require Import StoreSpec Sql Postgres PgAbs PgLogic PgMethods.

Section Alone.
Context `{Postgres}.

(** Run a program as session 0, the [n]-th request meeting the [n]-th fault. *)
Fixpoint alone {A} (faults : nat → option Fault) (now : Time) (n : nat) (p : prog dbeff A) (d : Database)
    : option (A * Database) :=
  match p with
  | Ret a => Some (a, d)
  | Vis e k =>
      match db_step 0 _ e (faults n) now d with
      | Some (x, d') => alone faults now (S n) (k x) d'
      | None => None
      end
  end.

(** A lone session never waits (see [alone_total]); a call that waited forever
    would end with its context. *)
Definition tables_exec A (op : StoreOp A) (inp : Input) (t : Tables) : res A * Tables :=
  match alone (in_db inp) (in_now inp) 0 (method op) (mkDatabase t ∅) with
  | Some (r, d) => (r, tables d)
  | None => (Err (ctx_error DeadlineExceeded), t)
  end.
#[export] Instance Tables_Store : Store Tables := sequential_store tables_exec.

Definition only (i : nat) (d : Database) : Prop := ∀ j, j ≠ i → sessions d !! j = None.
Lemma only_other i P d : only i d → other i P d = false.
Proof.
  intros Ho. unfold other. apply bool_decide_eq_false. intros (j & tx & Hs & Hj & _). rewrite Ho in Hs; done.
Qed.
Lemma only_blocked {A} i (st : stmt A) view d : only i d → blocked i st view d = false.
Proof.
  intros Ho. destruct st as [| | | | | |[] ?| |]; simpl; rewrite ?(only_other i _ d Ho), ?andb_false_r; done.
Qed.
Lemma only_step {X} i (e : dbeff X) fault now d : only i d → ∃ x d', db_step i X e fault now d = Some (x, d') ∧ only i d'.
Proof.
  intros Ho.
  assert (Hset : ∀ o, only i (set_session i o d)).
  { intros o j Hj. simpl. rewrite lookup_partial_alter_ne by done. by apply Ho. }
  assert (Hcom : ∀ l, only i (commit i l d)).
  { intros l j Hj. simpl. rewrite lookup_delete_ne by done. by apply Ho. }
  destruct e as [|A st| | |A st|]; simpl; rewrite ?only_blocked by done;
    repeat case_match; eauto; try (by eexists _, _). by rewrite only_blocked in *.
Qed.
Lemma alone_total {A} faults now n (p : prog dbeff A) d :
  only 0 d → ∃ r d', alone faults now n p d = Some (r, d').
Proof.
  revert n d. induction p as [a|X e k IH]; intros n d Ho; simpl; [eauto|].
  destruct (only_step 0 e (faults n) now d Ho) as (x & d' & -> & Ho'). by apply IH.
Qed.

Context `{!PostgresLaws}.

Lemma alone_lwp {R B} (op : StoreOp R) faults now n (p : prog dbeff B) lin d Q r d' :
  lwp 0 op p lin d Q → DbInv d → alone faults now n p d = Some (r, d') →
  DbInv d' ∧ ∃ lin', Q r lin' d' ∧ lin_step op lin (pg_abs (tables d)) (pg_abs (tables d')) lin'.
Proof.
  revert n lin d. induction p as [b|X e k IH]; intros n lin d Hw HJ Ha; simpl in Ha.
  { simplify_eq. split; [done|]. exists lin. split; [done|by left]. }
  destruct Hw as [Hp Hk]. destruct (db_step 0 X e (faults n) now d) as [[x d1]|] eqn:Hx; [|done].
  destruct (step_guarantee 0 e (faults n) now d x d1 HJ Hp Hx) as [HJ1 _].
  destruct (Hk d (faults n) now x d1 HJ (Rely_refl 0 d) Hx) as (lin1 & Hl1 & Hw1).
  destruct (IH x _ _ _ Hw1 HJ1 Ha) as (HJ' & lin' & Hq & Hl). split; [done|]. exists lin'. split; [done|].
  destruct Hl1 as [[-> E1]|(-> & r1 & -> & Hs1)]; [by rewrite <- E1|].
  destruct Hl as [[-> E]|[? _]]; [|done]. right. split; [done|]. exists r1. by rewrite E.
Qed.

Lemma lone_inv t : pg_wf t → DbInv (mkDatabase t ∅).
Proof. intros Hw. split; [done|..]; simpl; intros; by rewrite lookup_empty in *. Qed.

Lemma tables_refine {A} (op : StoreOp A) inp (t : Tables) r t' :
  pg_wf t → op_ok op → store_exec op inp t = (r, t') →
  pg_wf t' ∧ spec_step pg_norm op (pg_abs t) r (pg_abs t').
Proof.
  intros Hw Hop He. simpl in He. unfold tables_exec in He.
  destruct (alone_total (in_db inp) (in_now inp) 0 (method op) (mkDatabase t ∅)) as (r' & d' & Ha); [done|].
  rewrite Ha in He. simplify_eq.
  destruct (alone_lwp op _ _ _ _ None (mkDatabase t ∅) _ _ _ (method_lwp 0 op (mkDatabase t ∅) Hop (lookup_empty 0)) (lone_inv t Hw) Ha)
    as (HJ & lin & [Hset _] & Hl).
  split; [apply HJ|]. simpl in Hl. destruct Hl as [[-> ->]|(_ & r' & -> & Hs)]; [apply Hset|]. simpl in Hset. by subst r'.
Qed.
#[export] Instance Tables_Refinement : StoreRefinement Tables := {|
  st_abs := pg_abs;
  st_wf := pg_wf;
  st_norm := pg_norm;
  st_norm_laws := pg_norm_laws;
  st_refines := λ A op s r s' Hwf Hop H, match H with ex_intro _ inp Hx => tables_refine op inp s r s' Hwf Hop Hx end
|}.
End Alone.

(** ** A concrete choice of the data types

    Texts are UTF-8 without NUL bytes, a JSONB value is printed from its parsed
    value, instants are kept to the microsecond and rows are found in the order
    they were written. *)
Definition pg_text (s : string) : option GoError :=
  if decide (utf8 s ∧ has_byte "000" s = false) then None else Some (ErrPg "22021" "invalid byte sequence for encoding").
Definition pg_jsonb (t : string) : res string :=
  match decode t with Some j => Ok (encode j) | None => Err (ErrPg "22P02" "invalid input syntax for type json") end.
Definition example_postgres : Postgres := {|
  text_in := pg_text;
  jsonb_in := pg_jsonb;
  column_time t := (t / 1000 * 1000)%Z;
  scan l := l
|}.

Lemma pg_jsonb_ok t u : pg_jsonb t = Ok u ↔ ∃ j, decode t = Some j ∧ u = encode j.
Proof.
  unfold pg_jsonb. destruct (decode t) as [j|]; split; [|by intros (? & [= <-] & ->)|done|by intros (? & ? & _)].
  intros [= <-]. by exists j.
Qed.
Lemma pg_jsonb_reads t j : reads t j → pg_jsonb t = Ok (encode j).
Proof. intros Hr. apply pg_jsonb_ok. exists j. by rewrite (decode_reads_exact t j). Qed.

(** Printed values are UTF-8. *)
Lemma quote_body_utf8 s : utf8 (quote_body s).
Proof.
  induction s as [s IH] using (induction_ltof1 _ String.length). unfold ltof in IH.
  destruct s as [|a s1]; [constructor|]. cbn [quote_body].
  assert (H1 : utf8 (quote_body s1)) by (apply IH; simpl; lia). destruct (byte a <? 128)%N eqn:Ea.
  { apply utf8_app; [|done]. apply utf8_ascii. by destruct a as [[] [] [] [] [] [] [] []]. }
  cbv zeta. assert (Hbad : utf8 ("\ufffd" +:+ quote_body s1)) by (apply utf8_app; [by apply utf8_ascii|done]).
  destruct s1 as [|b s2]; [done|]. destruct (utf8_2 a b) eqn:U2; [apply utf8_cons2; [done|apply IH; simpl; lia]|].
  destruct s2 as [|c s3]; [done|]. destruct (utf8_3 a b c) eqn:U3.
  { assert (H3 : utf8 (quote_body s3)) by (apply IH; simpl; lia). destruct (line_sep a b c); [|by apply utf8_cons3].
    apply utf8_app; [by apply utf8_ascii|]. apply utf8_cons1; [|done]. by destruct c as [[] [] [] [] [] [] [] []]. }
  destruct s3 as [|d s4]; [done|]. destruct (utf8_4 a b c d) eqn:U4; [|done]. apply utf8_cons4; [done|apply IH; simpl; lia].
Qed.
Lemma quote_utf8 s : utf8 (quote s).
Proof. unfold quote. apply utf8_app; [by apply utf8_ascii|]. apply utf8_app; [apply quote_body_utf8|by apply utf8_ascii]. Qed.
Lemma num_utf8 lit : num_ok lit → utf8 lit.
Proof.
  intros [_ Hs]. apply utf8_ascii. induction lit as [|c lit IH]; [done|]. cbn [span_num all_bytes] in *.
  destruct (is_numchar c) eqn:Hc; [|done]. destruct (span_num lit) as [a b]. simplify_eq. rewrite IH by done.
  rewrite andb_true_r. clear -Hc. by destruct c as [[] [] [] [] [] [] [] []].
Qed.
Lemma Join_utf8 l : Forall utf8 l → utf8 (Join "," l).
Proof.
  induction 1 as [|t [|t' l] Ht Hl IH]; [constructor|done|].
  change (Join "," (t :: t' :: l)) with (t +:+ "," +:+ Join "," (t' :: l)).
  apply utf8_app; [done|]. apply utf8_app; [by apply utf8_ascii|done].
Qed.
Lemma bracket_utf8 o l c : utf8 o → utf8 c → Forall utf8 l → utf8 (o +:+ Join "," l +:+ c).
Proof. intros Ho Hc Hl. apply utf8_app; [done|]. apply utf8_app; [by apply Join_utf8|done]. Qed.
Lemma encode_utf8 j : jwf j → utf8 (encode j).
Proof.
  induction j as [|[]|lit|s|l IH|l IH] using json_tree_ind; cbn [encode]; intros Hj.
  - by apply utf8_ascii.
  - by apply utf8_ascii.
  - by apply utf8_ascii.
  - by apply num_utf8.
  - apply quote_utf8.
  - apply jwf_arr in Hj. apply bracket_utf8; [by apply utf8_ascii..|]. apply Forall_fmap. rewrite Forall_forall in *. intros x Hx. by apply IH, Hj.
  - apply jwf_obj in Hj. apply bracket_utf8; [by apply utf8_ascii..|]. apply Forall_fmap. rewrite Forall_forall in *. intros kv Hx.
    apply utf8_app; [apply quote_utf8|]. apply utf8_app; [by apply utf8_ascii|]. by apply IH, Hj.
Qed.

Lemma pg_jsonb_carries : Carries (λ t u, pg_jsonb t = Ok u).
Proof.
  assert (Hback : ∀ t u, pg_jsonb t = Ok u → ∃ j, decode t = Some j ∧ jwf j ∧ u = encode j ∧ decode u = Some j).
  { intros t u (j & Hd & ->)%pg_jsonb_ok. exists j. split_and!; [done|by eapply decode_jwf|done|].
    by eapply decode_encode, decode_jwf. }
  split.
  - intros u (j & Hd & _ & _ & ->)%Hback. by injection Hd as <-.
  - intros s u (j & Hd & _ & _ & ->)%Hback. rewrite (decode_reads_exact _ _ (reads_quote s)) in Hd. by simplify_eq.
  - intros t u _ (j & Hd & _ & -> & _)%Hback. rewrite (decode_reads_exact _ _ (reads_quote _)) in Hd. simplify_eq.
    cbn [encode]. by rewrite ToValidUTF8_id by apply FormatRFC3339Nano_utf8.
  - intros z u (j & Hd & _ & _ & ->)%Hback. by rewrite (decode_reads_exact _ _ (reads_num _ (num_ok_FormatInt z))) in Hd.
  - intros l u Hl (j & Hd & Hwf & -> & Hd')%Hback. destruct (elements_read l Hl) as [js Hjs].
    rewrite (decode_reads_exact _ _ (reads_arr_parts l js Hjs)) in Hd. injection Hd as <-. split; [eauto|].
    exists (encode <$> js). apply jwf_arr in Hwf. split.
    + change (encode (JArr js)) with (arr_text (encode <$> js)). apply arr_texts_arr_text. apply Forall_fmap.
      eapply Forall_impl; [exact Hwf|]. intros j Hj. exists j. by apply reads_encode.
    + apply Forall2_fmap_r. eapply Forall2_impl; [exact Hjs|]. intros t j. apply pg_jsonb_reads.
  - intros l u Hl _ (j & Hd & Hwf & -> & Hd')%Hback.
    destruct (parts_read l) as [js Hjs]; [eapply Forall_impl; [exact Hl|]; by intros kv [_ ?]|].
    rewrite (decode_reads_exact _ _ (reads_obj_parts l js Hjs)) in Hd. injection Hd as <-. split; [eauto|].
    set (l' := (λ kv, (kv.1, encode kv.2)) <$> js). exists l', l'. apply jwf_obj in Hwf. split_and!; [|done|].
    + change (encode (JObj js)) with ("{" +:+ Join "," ((λ kv, quote kv.1 +:+ ":" +:+ encode kv.2) <$> js) +:+ "}").
      replace ((λ kv, quote kv.1 +:+ ":" +:+ encode kv.2) <$> js) with ((λ kv, quote kv.1 +:+ ":" +:+ kv.2) <$> l')
        by (unfold l'; by rewrite <- list_fmap_compose).
      fold (obj_text l'). rewrite obj_texts_obj_text.
      * f_equal. rewrite <- (list_fmap_id l') at 2. apply list_fmap_ext. intros i [k t] Hi. simpl.
        rewrite ToValidUTF8_id; [done|]. apply list_elem_of_lookup_2, list_elem_of_fmap in Hi as ([k' x] & [= -> _] & Hx).
        by apply (proj1 (Forall_forall _ _) Hwf (k', x)).
      * apply Forall_fmap. eapply Forall_impl; [exact Hwf|]. intros kv [_ Hx]. exists kv.2. by apply reads_encode.
    + apply Forall2_fmap_r. eapply Forall2_same_length_lookup_2; [by eapply Forall2_length|]. intros i kv kj Hi Hj.
      destruct (Forall2_lookup_lr _ _ _ _ _ _ Hjs Hi Hj) as [Hk Hr]. simpl. split; [|by apply pg_jsonb_reads].
      rewrite Hk, ToValidUTF8_id; [done|]. by apply (Forall_lookup_1 _ _ _ _ Hl Hi).
Qed.

Lemma example_postgres_laws : PostgresLaws (H := example_postgres).
Proof.
  split; simpl.
  - intros s. unfold pg_text. by case_decide as Hs; [destruct Hs|].
  - intros s e. unfold pg_text. case_decide; [done|]. by intros [= <-].
  - intros t e. unfold pg_jsonb. destruct (decode t); [done|]. by intros [= <-].
  - apply pg_jsonb_carries.
  - intros t u (j & Hd & ->)%pg_jsonb_ok. apply decode_jwf in Hd as Hj. rewrite decode_encode by done.
    split_and!; [by apply encode_utf8|by exists j|]. apply pg_jsonb_ok. exists j. by rewrite decode_encode.
  - intros t u (j & Hd & ->)%pg_jsonb_ok. apply pg_jsonb_ok. exists j. split; [|done]. apply decode_compact.
    by apply decode_encode, (decode_jwf t).
  - intros t. by rewrite Z.div_mul.
  - done.
Qed.
