(* ===== verification/Service.v ===== *)
(** * Wallet orchestration service (src/internal/wallet/service.go)

    Each method of [Service] is a program over the calls it makes to the
    store, the registered chain adapters, the signing backend, the clock, the
    random source and the metrics registry, in the order the code makes them. *)
From Stdlib Require Import Ascii.
From S2P Require Import Prelude GoStd GoError Types Json Metrics Interfaces.

(** ** Calls *)
Inductive eff : Type → Type :=
| EStore {A} (op : StoreOp A) : eff (res A)                    (* s.store.<Method>(ctx, ...) *)
| ERandRead (n : nat) : eff (res string)                       (* rand.Read *)
| ENow : eff Time                                              (* s.now() *)
| EGetAdapter (chain : Chain) : eff bool                       (* s.chains.Get(chain) *)
| EBuildTransaction (chain : Chain) (source : Wallet) (request : TransactionRequest)
    : eff (res RawTransaction)                                 (* adapter.BuildTransaction *)
| EBroadcast (chain : Chain) (signed : string) : eff (res string)   (* adapter.Broadcast *)
| ESignerCreateWallet (id : string) (chain : Chain) : eff (res WalletMaterial)
| ESignTransaction (proposal : TransactionProposal) : eff (res Signature)
| EInc (name : string) (labels : gmap string string) : eff unit.    (* s.metrics.Inc *)

(** [Policy].  A nil and an empty [AllowedSigners] map behave alike: the code
    only takes its length and looks keys up. *)
Record Policy := mkPolicy {
  AllowedSigners : gset string;
  MaxBitcoinAmountSats : Z;
  MaxEVMAmountWei : option Z
}.

(** [observability.Trace], as carried by the request context. *)
Record Trace := mkTrace { TraceID : string; SpanID : string }.

(** [ids.New] (src/internal/ids/ids.go). *)
Definition New (prefix : string) : prog eff (res string) :=
  raw ←? call (ERandRead 16);
  mret (Ok (prefix +:+ "_" +:+ EncodeToString raw)).

Definition mustJSON (m : gmap string string) : RawMessage := Some (encode (JMap m)).

(** The audit event literals of the methods: ID and CreatedAt are filled in by
    [appendAudit]. *)
Definition auditEvent (ty : AuditEventType) (actor resourceType resourceID : string) (chain : Chain)
    (metadata : RawMessage) : AuditEvent :=
  mkAuditEvent "" ty actor resourceType resourceID chain metadata 0%Z.

Section Service.
Context (policy : Policy).

Definition signerAllowed (signerID : string) : bool :=
  if decide (size (AllowedSigners policy) = 0) then true
  else bool_decide (signerID ∈ AllowedSigners policy).

(** [None] is a nil error. *)
Definition validateAmountPolicy (chain : Chain) (amount : string) : option GoError :=
  if decide (chain = ChainBitcoin) then
    match ParseInt amount with
    | None => Some (Errorf ErrPolicyViolation "bitcoin amount must be positive base-10 sats")
    | Some value =>
        if (value <=? 0)%Z
        then Some (Errorf ErrPolicyViolation "bitcoin amount must be positive base-10 sats")
        else if (0 <? MaxBitcoinAmountSats policy)%Z && (MaxBitcoinAmountSats policy <? value)%Z
        then Some (Errorf ErrPolicyViolation "bitcoin amount exceeds limit")
        else None
    end
  else if decide (chain = ChainEVM) then
    match SetString amount with
    | None => Some (Errorf ErrPolicyViolation "evm amount must be positive base-10 wei")
    | Some value =>
        if (value <=? 0)%Z
        then Some (Errorf ErrPolicyViolation "evm amount must be positive base-10 wei")
        else match MaxEVMAmountWei policy with
             | Some limit =>
                 if (limit <? value)%Z
                 then Some (Errorf ErrPolicyViolation "evm amount exceeds limit")
                 else None
             | None => None
             end
    end
  else None.

Definition appendAudit (event : AuditEvent) : prog eff (res unit) :=
  id ←? New "aud";
  now ← call ENow;
  let event := mkAuditEvent id (ae_Type event) (ae_Actor event) (ae_ResourceType event)
                 (ae_ResourceID event) (ae_Chain event) (ae_Metadata event) now in
  call (EStore (OpAppendAuditEvent event)) ;;?
  (_ ← call (EInc "custody_audit_events_total" {["type" := ae_Type event]});
   mret (Ok tt)).

Definition failTransaction (proposal : TransactionProposal) (cause : GoError) (phase : string)
    : prog eff (res unit) :=
  let proposal := set_Status TransactionStatusFailed proposal in
  let proposal := set_Error (Error cause) proposal in
  now ← call ENow;
  let proposal := set_UpdatedAt now proposal in
  r ← call (EStore (OpUpdateTransaction proposal));
  match r with
  | Err e => mret (Err (ErrWrap (phase +:+ " failed and status update failed: ") e ""))
  | Ok _ => mret (Ok tt)
  end.

Definition CreateWallet (chain : Chain) (idempotencyKey : string) : prog eff (res Wallet) :=
  ok ← call (EGetAdapter chain);
  if negb ok then mret (Err (Errorf ErrUnsupportedChain chain)) else
  id ←? New "wlt";
  material ←? call (ESignerCreateWallet id chain);
  now ← call ENow;
  let w := mkWallet id chain (wm_Address material) (wm_PublicKey material) now in
  '(w, created) ←?
    (if decide (idempotencyKey = "") then
       call (EStore (OpCreateWallet w)) ;;? mret (Ok (w, true))
     else
       now ← call ENow;
       call (EStore (OpCreateWalletIdempotently w
         (mkIdempotencyRecord ("wallet:" +:+ chain) idempotencyKey "wallet" (w_ID w) now))));
  if negb created then mret (Ok w) else
  appendAudit (auditEvent AuditEventWalletCreated "" "wallet" (w_ID w) chain None) ;;?
  (_ ← call (EInc "custody_wallets_created_total" {["chain" := chain]});
   mret (Ok w)).

Definition ProposeTransaction (trace : Trace) (request : TransactionRequest) (idempotencyKey : string)
    : prog eff (res TransactionProposal) :=
  source ←? call (EStore (OpGetWallet (req_WalletID request)));
  match validateAmountPolicy (w_Chain source) (req_Amount request) with
  | Some e => mret (Err e)
  | None =>
    ok ← call (EGetAdapter (w_Chain source));
    if negb ok then mret (Err (Errorf ErrUnsupportedChain (w_Chain source))) else
    raw ←? call (EBuildTransaction (w_Chain source) source request);
    id ←? New "txn";
    now ← call ENow;
    let proposal :=
      mkTransactionProposal id (w_ID source) (w_Chain source) TransactionStatusProposed
        request raw (Some ∅) "" "" ""
        (Some (<["trace_id" := TraceID trace]> {["span_id" := SpanID trace]})) now now in
    '(proposal, created) ←?
      (if decide (idempotencyKey = "") then
         call (EStore (OpCreateTransaction proposal)) ;;? mret (Ok (proposal, true))
       else
         call (EStore (OpCreateTransactionIdempotently proposal
           (mkIdempotencyRecord ("transaction:" +:+ req_WalletID request) idempotencyKey
              "transaction" (tp_ID proposal) now))));
    if negb created then mret (Ok proposal) else
    appendAudit (auditEvent AuditEventTransactionProposed "" "transaction" (tp_ID proposal)
      (tp_Chain proposal) (mustJSON {["wallet_id" := tp_WalletID proposal]})) ;;?
    (_ ← call (EInc "custody_transactions_proposed_total" {["chain" := w_Chain source]});
     mret (Ok proposal))
  end.

(** The failure arm of signing and of broadcasting: both errors are dropped. *)
Definition record_failure (proposal : TransactionProposal) (err : GoError) (phase : string)
    : prog eff (res TransactionProposal) :=
  _ ← failTransaction proposal err phase;
  _ ← appendAudit (auditEvent AuditEventTransactionFailed "" "transaction" (tp_ID proposal)
        (tp_Chain proposal) (mustJSON (<["error" := Error err]> {["phase" := phase]})));
  mret (Err err).

Definition CoSign (transactionID signerID : string) : prog eff (res TransactionProposal) :=
  if decide (signerID = "") then mret (Err (ErrNew "signer_id is required")) else
  if negb (signerAllowed signerID) then mret (Err (Errorf ErrUnauthorizedSigner signerID)) else
  now ← call ENow;
  proposal ←? call (EStore (OpAddApproval transactionID (mkApproval signerID now)));
  _ ← call (EInc "custody_transaction_approvals_total" {["chain" := tp_Chain proposal]});
  appendAudit (auditEvent AuditEventTransactionApproved signerID "transaction" (tp_ID proposal)
    (tp_Chain proposal) None) ;;?
  (if decide (tp_Status proposal = TransactionStatusProposed ∧ 2 ≤ ApprovalsCount proposal) then
     r ← call (ESignTransaction proposal);
     match r with
     | Err err => record_failure proposal err "sign"
     | Ok signature =>
       '(signedProposal, signed) ←?
         call (EStore (OpMarkTransactionSigned (tp_ID proposal) (sig_SignedTransaction signature)));
       if signed : bool then
         _ ← call (EInc "custody_transactions_signed_total" {["chain" := tp_Chain signedProposal]});
         appendAudit (auditEvent AuditEventTransactionSigned "" "transaction" (tp_ID signedProposal)
           (tp_Chain signedProposal) (mustJSON {["signature_id" := sig_SignatureID signature]})) ;;?
         mret (Ok signedProposal)
       else mret (Ok signedProposal)
     end
   else mret (Ok proposal)).

Definition Broadcast (transactionID : string) : prog eff (res TransactionProposal) :=
  proposal ←? call (EStore (OpGetTransaction transactionID));
  if decide (tp_Status proposal ≠ TransactionStatusSigned ∨ tp_SignedTransaction proposal = "")
  then mret (Err (ErrVar ErrTransactionNotSigned)) else
  ok ← call (EGetAdapter (tp_Chain proposal));
  if negb ok then mret (Err (Errorf ErrUnsupportedChain (tp_Chain proposal))) else
  r ← call (EBroadcast (tp_Chain proposal) (tp_SignedTransaction proposal));
  match r with
  | Err err => record_failure proposal err "broadcast"
  | Ok hash =>
    let proposal := set_Status TransactionStatusBroadcast proposal in
    let proposal := set_BroadcastHash hash proposal in
    now ← call ENow;
    let proposal := set_UpdatedAt now proposal in
    call (EStore (OpUpdateTransaction proposal)) ;;?
    (appendAudit (auditEvent AuditEventTransactionBroadcast "" "transaction" (tp_ID proposal)
       (tp_Chain proposal) (mustJSON {["broadcast_hash" := hash]})) ;;?
     (_ ← call (EInc "custody_transactions_broadcast_total" {["chain" := tp_Chain proposal]});
      mret (Ok proposal)))
  end.

Definition GetTransaction (transactionID : string) : prog eff (res TransactionProposal) :=
  call (EStore (OpGetTransaction transactionID)).

Definition ListAuditEvents (filter : AuditFilter) : prog eff (res (list AuditEvent)) :=
  call (EStore (OpListAuditEvents filter)).

(** ** Invocations of the service *)
Inductive Request :=
| ReqCreateWallet (chain : Chain) (idempotencyKey : string)
| ReqProposeTransaction (trace : Trace) (request : TransactionRequest) (idempotencyKey : string)
| ReqCoSign (transactionID signerID : string)
| ReqBroadcast (transactionID : string)
| ReqGetTransaction (transactionID : string)
| ReqListAuditEvents (filter : AuditFilter).

Inductive Response :=
| RespWallet (w : Wallet)
| RespTransaction (p : TransactionProposal)
| RespEvents (l : list AuditEvent).

Definition respond {A} (f : A → Response) (p : prog eff (res A)) : prog eff (res Response) :=
  a ←? p; mret (Ok (f a)).

Definition serve (r : Request) : prog eff (res Response) :=
  match r with
  | ReqCreateWallet chain key => respond RespWallet (CreateWallet chain key)
  | ReqProposeTransaction trace request key =>
      respond RespTransaction (ProposeTransaction trace request key)
  | ReqCoSign id signer => respond RespTransaction (CoSign id signer)
  | ReqBroadcast id => respond RespTransaction (Broadcast id)
  | ReqGetTransaction id => respond RespTransaction (GetTransaction id)
  | ReqListAuditEvents filter => respond RespEvents (ListAuditEvents filter)
  end.
End Service.
