(* ===== verification/Tracing.v ===== *)
(** * Trace headers and request metrics (src/internal/observability/tracing.go) *)
From Stdlib Require Import Ascii.
From S2P Require Import Prelude GoStd GoError Types Json Metrics Interfaces Service.

Definition traceFromHeader (header : string) : Trace :=
  if decide (String.length header ≠ 55) then mkTrace "" ""
  else mkTrace (String.substring 3 32 header) (String.substring 36 16 header).

(** [raw] is what [rand.Read] gave. *)
Definition randomHex (raw : res string) : string :=
  match raw with
  | Err _ => "0000000000000000"
  | Ok bytes => EncodeToString bytes
  end.

Definition routeLabel (path : string) : string :=
  if decide (path = "/healthz" ∨ path = "/readyz" ∨ path = "/metrics") then path
  else if decide (path = "/v1/wallets") then "/v1/wallets"
  else if decide (path = "/v1/transactions") then "/v1/transactions"
  else "/v1/transactions/{id}".

(** [http.StatusText] of the codes the server writes. *)
Definition StatusText (status : Z) : string :=
  match status with
  | 200%Z => "OK" | 201%Z => "Created" | 301%Z => "Moved Permanently" | 307%Z => "Temporary Redirect"
  | 400%Z => "Bad Request" | 401%Z => "Unauthorized" | 403%Z => "Forbidden" | 404%Z => "Not Found"
  | 405%Z => "Method Not Allowed" | 409%Z => "Conflict" | 500%Z => "Internal Server Error"
  | _ => ""
  end.

(** The trace a request runs under, from its header or two random draws. *)
Definition request_trace (header : string) (raw16 raw8 : res string) : Trace :=
  let trace := traceFromHeader header in
  if decide (TraceID trace = "") then mkTrace (randomHex raw16) (randomHex raw8) else trace.

(** The [traceparent] header of the response. *)
Definition traceparent (trace : Trace) : string :=
  "00-" +:+ TraceID trace +:+ "-" +:+ SpanID trace +:+ "-01".

Definition request_labels (method path : string) (status : Z) : gmap string string :=
  <["method" := method]> (<["path" := routeLabel path]> {["status" := StatusText status]}).

(** [Middleware]: run the inner handler on the trace, then count the request
    and its duration.  [S] is the state the handler works on, [update] reaches
    the registry inside it and [status_of] is what [statusRecorder] saw.  The
    result starts with the [traceparent] header of the response. *)
Definition Middleware {S Resp} (update : (Metrics → Metrics) → S → S) (status_of : Resp → Z)
    (method path header : string) (raw16 raw8 : res string) (duration : Z)
    (inner : Trace → S → Resp * S) (s : S) : (string * Resp) * S :=
  let trace := request_trace header raw16 raw8 in
  let '(resp, s1) := inner trace s in
  let labels := request_labels method path (status_of resp) in
  let s2 := update (Inc "custody_http_requests_total" labels) s1 in
  let s3 := update (ObserveDuration "custody_http_request_duration_seconds" labels duration) s2 in
  ((traceparent trace, resp), s3).

(** ** Lemmas *)
(** Reading back a header with identifiers of the right length. *)
Lemma traceFromHeader_parts tid sid :
  String.length tid = 32 → String.length sid = 16 →
  traceFromHeader ("00-" +:+ tid +:+ "-" +:+ sid +:+ "-01") = mkTrace tid sid.
Proof.
  intros Ht Hs. unfold traceFromHeader. rewrite decide_False.
  2: { rewrite !string_length_app, Ht, Hs. simpl. lia. }
  f_equal.
  - etrans; [exact (substring_skip "00-" (tid +:+ "-" +:+ sid +:+ "-01") 32)|].
    rewrite <- Ht. apply substring_take.
  - assert (Hl : String.length ("00-" +:+ tid +:+ "-") = 36) by (rewrite !string_length_app, Ht; done).
    assert (E : "00-" +:+ tid +:+ "-" +:+ sid +:+ "-01" = ("00-" +:+ tid +:+ "-") +:+ (sid +:+ "-01"))
      by (by rewrite <- !string_app_assoc).
    rewrite E, <- Hl, substring_skip, <- Hs. apply substring_take.
Qed.
Lemma substring_length i n s : i + n ≤ String.length s → String.length (String.substring i n s) = n.
Proof.
  revert i n. induction s as [|c s IH]; intros i n H; simpl in H.
  - assert (i = 0 ∧ n = 0) as [-> ->] by lia. done.
  - destruct i as [|i], n as [|n]; simpl; [done|rewrite IH; lia|..]; apply IH; lia.
Qed.

Lemma traceFromHeader_short header :
  String.length header ≠ 55 → traceFromHeader header = mkTrace "" "".
Proof. intros Hl. unfold traceFromHeader. by case_decide. Qed.

(** When the random source fails, the fallback is too short to parse back. *)
Lemma fallback_malformed header e e' :
  String.length header ≠ 55 →
  traceFromHeader (traceparent (request_trace header (Err e) (Err e'))) = mkTrace "" "".
Proof. intros Hl. unfold request_trace. by rewrite (traceFromHeader_short header). Qed.
