(* ===== verification/System.v ===== *)
(** * The running service

    The state the handlers share ([World]), the meaning of one call ([exec]),
    a handler run on its own ([run_request]), and the server: any number of
    requests in flight, their calls interleaved in any order ([step]). *)
From S2P Require Import Prelude GoError Types Json Transport Metrics Interfaces Service.

(** What the service has asked of the outside world: requests accepted,
    signatures asked of the signing backend with its answers, and payloads
    handed to a chain adapter. *)
Inductive Event :=
| EvRequest (r : Request)
| EvSign (proposal : TransactionProposal) (answer : res Signature)
| EvBroadcast (chain : Chain) (signed : string) (answer : res string).

Record World (St Sg Ad : Type) := mkWorld {
  store : St;
  signer : Sg;
  chains : gmap Chain Ad;
  metrics : Metrics;
  history : list Event             (* oldest first *)
}.
Arguments mkWorld {St Sg Ad} _ _ _ _ _.
Arguments store {St Sg Ad} _.
Arguments signer {St Sg Ad} _.
Arguments chains {St Sg Ad} _.
Arguments metrics {St Sg Ad} _.
Arguments history {St Sg Ad} _.

(** The requests the API can make: texts decoded from a JSON body are UTF-8 and
    numbers in the range of their fields.  Identifiers of a path, the
    idempotency key of a header, the filter of a query and the trace are any
    bytes ([ApiTheorems.api_requests_well_typed]). *)
Definition typed (r : Request) : Prop :=
  match r with
  | ReqCreateWallet chain _ => utf8 chain
  | ReqProposeTransaction _ request _ => request_ok request
  | ReqCoSign _ signerID => utf8 signerID
  | ReqBroadcast _ | ReqGetTransaction _ | ReqListAuditEvents _ => True
  end.
#[export] Instance typed_dec r : Decision (typed r).
Proof. destruct r; simpl; apply _. Defined.

Section System.
Context {St Sg Ad : Type} `{!Store St, !SigningBackend Sg, !ChainAdapter Ad}.
Implicit Types w : World St Sg Ad.

(** A nil adapter would panic; the handlers only call one they were given. *)
Definition nil_adapter : GoError := ErrNew "nil pointer dereference".

Definition exec (X : Type) (e : eff X) : Input → World St Sg Ad → X * World St Sg Ad :=
  match e in eff X return Input → World St Sg Ad → X * World St Sg Ad with
  | EStore op => λ inp w,
      let '(r, s) := store_exec op inp (store w) in
      (r, mkWorld s (signer w) (chains w) (metrics w) (history w))
  | ERandRead n => λ inp w, (in_rand inp n, w)
  | ENow => λ inp w, (in_now inp, w)
  | EGetAdapter chain => λ inp w, (bool_decide (is_Some (Get (chains w) chain)), w)
  | EBuildTransaction chain source request => λ inp w,
      match Get (chains w) chain with
      | None => (Err nil_adapter, w)
      | Some a =>
          let '(r, a') := adapter_BuildTransaction source request inp a in
          (r, mkWorld (store w) (signer w) (<[chain := a']> (chains w)) (metrics w) (history w))
      end
  | EBroadcast chain signed => λ inp w,
      match Get (chains w) chain with
      | None => (Err nil_adapter, w)
      | Some a =>
          let '(r, a') := adapter_Broadcast signed inp a in
          (r, mkWorld (store w) (signer w) (<[chain := a']> (chains w)) (metrics w)
                (history w ++ [EvBroadcast chain signed r]))
      end
  | ESignerCreateWallet id chain => λ inp w,
      let '(r, g) := signer_CreateWallet id chain inp (signer w) in
      (r, mkWorld (store w) g (chains w) (metrics w) (history w))
  | ESignTransaction proposal => λ inp w,
      let '(r, g) := signer_SignTransaction proposal inp (signer w) in
      (r, mkWorld (store w) g (chains w) (metrics w) (history w ++ [EvSign proposal r]))
  | EInc name labels => λ inp w,
      (tt, mkWorld (store w) (signer w) (chains w) (Inc name labels (metrics w)) (history w))
  end.

(** One call as a relation: the environment may supply anything, and the store
    may behave in any way it does under concurrent calls. *)
Definition exec_rel (X : Type) (e : eff X) : World St Sg Ad → X → World St Sg Ad → Prop :=
  match e in eff X return World St Sg Ad → X → World St Sg Ad → Prop with
  | EStore op => λ w r w',
      ∃ s, store_rel op (store w) r s ∧ w' = mkWorld s (signer w) (chains w) (metrics w) (history w)
  | e => λ w x w', ∃ inp, exec _ e inp w = (x, w')
  end.
Lemma exec_exec_rel X (e : eff X) inp w x w' : exec X e inp w = (x, w') → exec_rel X e w x w'.
Proof.
  destruct e; cbn [exec_rel]; intros Hx; try (by exists inp). cbn in Hx.
  destruct (store_exec op inp (store w)) as [r s] eqn:Hs. simplify_eq. exists s. split; [by eapply store_exec_rel|done].
Qed.

Context (policy : Policy).

Definition accept (r : Request) w : World St Sg Ad :=
  mkWorld (store w) (signer w) (chains w) (metrics w) (history w ++ [EvRequest r]).

(** A request served with nothing else running. *)
Definition run_request (env : nat → Input) (r : Request) w : res Response * World St Sg Ad :=
  let '(a, _, w') := run exec env 0 (serve policy r) (accept r w) in (a, w').

(** ** Interleaving *)
Record Config := mkConfig {
  world : World St Sg Ad;
  threads : list (Request * prog eff (res Response))
}.

Inductive step : Config → Config → Prop :=
| step_accept w ts r :
    typed r →
    step (mkConfig w ts) (mkConfig (accept r w) (ts ++ [(r, serve policy r)]))
| step_call w ts i r X (e : eff X) k x w' :
    ts !! i = Some (r, Vis e k) →
    exec_rel X e w x w' →
    step (mkConfig w ts) (mkConfig w' (<[i := (r, k x)]> ts)).

Definition initial w : Config := mkConfig w [].
Definition reachable w (c : Config) : Prop := rtc step (initial w) c.

(** The worlds a run from [w] to [c] may have gone through. *)
Definition earlier w c (v : World St Sg Ad) : Prop := ∃ c1, reachable w c1 ∧ rtc step c1 c ∧ world c1 = v.

(** ** Rule induction with rely/guarantee specifications of the handlers *)
Section Safety.
(** Specifications may speak of the worlds the run goes through: every call
    ends in one of them. *)
Context (seen : World St Sg Ad → Prop).
Definition seen_rel (X : Type) (e : eff X) w (x : X) w' : Prop := exec_rel X e w x w' ∧ seen w'.
Context (Inv : World St Sg Ad → Prop) (Rel : World St Sg Ad → World St Sg Ad → Prop).
Context `{!PreOrder Rel}.
Context (Post : Request → res Response → World St Sg Ad → Prop).
Context (Post_stable : ∀ r a w w', Rel w w' → Inv w' → Post r a w → Post r a w').
Context (Inv_accept : ∀ r w, Inv w → Inv (accept r w)).
Context (Rel_accept : ∀ r w, Rel w (accept r w)).
Context (serve_ok : ∀ r w, typed r → Inv w → EvRequest r ∈ history w →
           wp seen_rel Inv Rel (serve policy r) (Post r) w).

Definition thread_ok w (t : Request * prog eff (res Response)) : Prop :=
  ∃ w0, Rel w0 w ∧ wp seen_rel Inv Rel t.2 (Post t.1) w0.

Lemma thread_ok_mono w w' t : Rel w w' → thread_ok w t → thread_ok w' t.
Proof. intros HR (w0 & ? & ?). exists w0. split; [by etrans|done]. Qed.

Lemma step_safe c c' :
  step c c' → seen (world c') → Inv (world c) → Forall (thread_ok (world c)) (threads c) →
  Inv (world c') ∧ Rel (world c) (world c') ∧ Forall (thread_ok (world c')) (threads c').
Proof.
  destruct 1 as [w ts r Ht|w ts i r X e k x w' Hi Hx]; simpl; intros Hs HI HT.
  - split_and!; [auto|auto|]. apply Forall_app. split.
    + eapply Forall_impl; [exact HT|]. intros t. apply thread_ok_mono. auto.
    + constructor; [|done]. exists (accept r w). split; [done|].
      apply serve_ok; [done|auto|]. unfold accept. simpl. set_solver.
  - destruct (proj1 (Forall_lookup _ _) HT _ _ Hi) as (w0 & HR & Hwp). simpl in Hwp.
    destruct (Hwp w HR HI x w' (conj Hx Hs)) as (HI' & HR' & Hk).
    split_and!; [done|done|]. apply Forall_insert.
    + eapply Forall_impl; [exact HT|]. intros t. by apply thread_ok_mono.
    + by exists w'.
Qed.

Lemma steps_safe c c' :
  rtc step c c' → (∀ c1, rtc step c c1 → rtc step c1 c' → seen (world c1)) → Inv (world c) → Forall (thread_ok (world c)) (threads c) →
  Inv (world c') ∧ Rel (world c) (world c') ∧ Forall (thread_ok (world c')) (threads c').
Proof.
  induction 1 as [c|c1 c2 c3 H12 H23 IH]; intros Hs HI HT; [by split_and!|].
  destruct (step_safe _ _ H12) as (HI2 & HR & HT2); [by apply Hs; [apply rtc_once|]|done|done|].
  destruct (IH (λ c H, Hs c (rtc_l _ _ _ _ H12 H)) HI2 HT2) as (? & ? & ?). split_and!; [done|by etrans|done].
Qed.

(** Every reachable configuration satisfies the invariant, evolved from the
    start along the relation, and every finished request its postcondition. *)
Lemma reachable_safe w c :
  (∀ v, earlier w c v → seen v) → Inv w → reachable w c →
  Inv (world c) ∧ Rel w (world c) ∧
  ∀ i r a, threads c !! i = Some (r, Ret a) → Post r a (world c).
Proof.
  intros Hs HI Hr. destruct (steps_safe _ _ Hr) as (HI' & HR & HT); [intros c1 ? ?; apply Hs; by exists c1|done|by constructor|].
  split_and!; [done|done|]. intros i r a Hi.
  destruct (proj1 (Forall_lookup _ _) HT _ _ Hi) as (w0 & HR0 & HQ). simpl in HQ.
  by eapply Post_stable.
Qed.
End Safety.

(** A request served alone is one of the interleavings. *)
Lemma run_steps env n r p w ts i :
  ts !! i = Some (r, p) →
  let '(a, _, w') := run exec env n p w in
  rtc step (mkConfig w ts) (mkConfig w' (<[i := (r, Ret a)]> ts)).
Proof.
  revert n w ts. induction p as [a|X e k IH]; intros n w ts Hi; cbn.
  - by rewrite list_insert_id.
  - destruct (exec X e (env n) w) as [x w1] eqn:Hx.
    assert (Hi' : <[i := (r, k x)]> ts !! i = Some (r, k x)).
    { apply list_lookup_insert_eq. by eapply lookup_lt_Some. }
    specialize (IH x (S n) w1 _ Hi').
    destruct (run exec env (S n) (k x) w1) as [[a n'] w'].
    eapply rtc_l; [eapply step_call; [done|by eapply exec_exec_rel]|].
    by rewrite list_insert_insert_eq in IH.
Qed.

(** ** Executable schedules *)
Inductive Choice :=
| Accept (r : Request)
| Call (thread : nat) (inp : Input).

Fixpoint play (l : list Choice) (c : Config) : option Config :=
  match l with
  | [] => Some c
  | Accept r :: l' =>
      if decide (typed r) then play l' (mkConfig (accept r (world c)) (threads c ++ [(r, serve policy r)]))
      else None
  | Call i inp :: l' =>
      match threads c !! i with
      | Some (r, Vis e k) =>
          let '(x, w') := exec _ e inp (world c) in
          play l' (mkConfig w' (<[i := (r, k x)]> (threads c)))
      | _ => None
      end
  end.

Lemma play_steps l c c' : play l c = Some c' → rtc step c c'.
Proof.
  revert c. induction l as [|[r|i inp] l IH]; intros [w ts]; simpl; intros H.
  - by simplify_eq.
  - case_decide; [|done]. eapply rtc_l; [by apply step_accept|]. by apply IH.
  - destruct (ts !! i) as [[r [a|X e k]]|] eqn:Hi; [done| |done].
    destruct (exec X e inp w) as [x w'] eqn:Hx.
    eapply rtc_l; [eapply step_call; [done|by eapply exec_exec_rel]|]. by apply IH.
Qed.

(** Serving requests one after the other is a schedule. *)
Lemma run_request_steps env r w ts :
  typed r → let '(a, w') := run_request env r w in
  rtc step (mkConfig w ts) (mkConfig w' (ts ++ [(r, Ret a)])).
Proof.
  intros Ht. unfold run_request. pose proof (run_steps env 0 r (serve policy r) (accept r w)
    (ts ++ [(r, serve policy r)]) (length ts)) as H.
  rewrite lookup_app_r, Nat.sub_diag in H by done.
  destruct (run exec env 0 (serve policy r) (accept r w)) as [[a n] w'].
  eapply rtc_l; [by apply step_accept|]. etrans; [by apply H|].
  by rewrite insert_app_r_alt, Nat.sub_diag by done.
Qed.
End System.
