(* ===== verification/Calls.v ===== *)
(** * How many calls a request makes, and which

    [within ok n p]: on every branch the program makes at most [n] calls, each
    satisfying [ok].  Every handler of the service is within fourteen calls and
    only touches its own counters.  With it, budgets: how many steps a list of
    threads has left, and what a budget that every step lowers implies. *)
From Stdlib Require Import Ascii.
From S2P Require Import Prelude GoStd GoError Types Json Metrics Interfaces Service System.

Section Within.
Context {E : Type → Type} (ok : ∀ X, E X → Prop).

Fixpoint within {A} (n : nat) (p : prog E A) : Prop :=
  match p, n with
  | Ret _, _ => True
  | Vis _ _, O => False
  | Vis e k, S n => ok _ e ∧ ∀ x, within n (k x)
  end.

Lemma within_ret {A} n (a : A) : within n (Ret a).
Proof. by destruct n. Qed.
Lemma within_mono {A} n m (p : prog E A) : within n p → n ≤ m → within m p.
Proof.
  revert n m. induction p as [a|X e k IH]; intros [|n] [|m] H Hm; try done; [lia|].
  destruct H as [He Hk]. split; [done|]. intros x. apply (IH x n); [apply Hk|lia].
Qed.
Lemma within_vis {A X} n (e : E X) (k : X → prog E A) : within (S n) (Vis e k) → ∀ x, within n (k x).
Proof. by intros [_ H]. Qed.
Lemma within_bind {A B} n m (p : prog E A) (f : A → prog E B) :
  within n p → (∀ a, within m (f a)) → within (n + m) (p ≫= f).
Proof.
  intros H Hf. revert n H. induction p as [a|X e k IH]; intros n H.
  - apply (within_mono m); [apply Hf|lia].
  - destruct n as [|n]; [done|]. destruct H as [He Hk]. split; [done|]. intros x. apply IH, Hk.
Qed.
Lemma within_try {Er A B} n m (p : prog E (result Er A)) (f : A → prog E (result Er B)) :
  within n p → (∀ a, within m (f a)) → within (n + m) (try_bind f p).
Proof. intros Hp Hf. apply within_bind; [done|]. intros [a|e]; [apply Hf|apply within_ret]. Qed.
Lemma within_call {X} (e : E X) : ok X e → within 1 (call e).
Proof. by split. Qed.

(** The number of calls [run] makes. *)
Lemma within_run {A W I} (exec : ∀ X, E X → I → W → X * W) env n (p : prog E A) k w :
  within n p → (run exec env k p w).1.2 ≤ k + n.
Proof.
  revert n k w. induction p as [a|X e kk IH]; intros n k w H; cbn; [lia|].
  destruct n as [|n]; [done|]. destruct H as [_ H]. destruct (exec X e (env k) w) as [x w']. specialize (IH x n (S k) w' (H x)). lia.
Qed.
End Within.

(** ** What a list of threads may still do *)

(** Thread by thread, [Q t m]: at most [m] steps of [t] are left. *)
Section Budget.
Context {T : Type} (Q : T → nat → Prop).

Definition budget (n : nat) (l : list T) : Prop := ∃ ns, Forall2 Q l ns ∧ sum_list ns ≤ n.

Lemma sum_list_insert (ns : list nat) i a b :
  ns !! i = Some a → sum_list (<[i := b]> ns) + a = sum_list ns + b.
Proof.
  revert i. induction ns as [|n ns IH]; intros [|i] H; simplify_eq/=; [lia|]. specialize (IH i H). lia.
Qed.
Lemma budget_insert n l i t t' :
  budget n l → l !! i = Some t → (∀ m, Q t m → ∃ m', m = S m' ∧ Q t' m') → ∃ m, n = S m ∧ budget m (<[i := t']> l).
Proof.
  intros (ns & Hns & Hsum) Hi HQ. destruct (Forall2_lookup_l _ _ _ _ _ Hns Hi) as (m & Hm & Hw).
  destruct (HQ m Hw) as (m' & -> & Hw'). pose proof (sum_list_insert ns i (S m') m' Hm) as E.
  destruct n as [|n]; [exfalso; lia|]. exists n. split; [done|]. exists (<[i := m']> ns). split; [|lia].
  by apply Forall2_insert.
Qed.
Lemma budget_all b l : Forall (λ t, Q t b) l → budget (b * length l) l.
Proof.
  intros HF. exists (replicate (length l) b). split.
  - apply Forall2_same_length_lookup_2; [by rewrite length_replicate|].
    intros i t m Ht [-> _]%lookup_replicate. by apply (proj1 (Forall_lookup _ _) HF _ _ Ht).
  - clear. induction (length l); simpl; lia.
Qed.
End Budget.

(** ** What happens on every schedule *)
Section Inevitable.
Context {S : Type} (R : S → S → Prop).

(** Every maximal execution reaches [P]: until then some step is possible. *)
Inductive inevitable (P : S → Prop) (s : S) : Prop :=
| inevitable_now : P s → inevitable P s
| inevitable_step : (∃ s', R s s') → (∀ s', R s s' → inevitable P s') → inevitable P s.

(** A measure that every step lowers. *)
Context (B : nat → S → Prop) (B_step : ∀ n s s', B n s → R s s' → ∃ m, n = Datatypes.S m ∧ B m s').
Lemma measure_nsteps k n s s' : B n s → nsteps R k s s' → k ≤ n.
Proof.
  intros Hb Hs. revert n Hb. induction Hs as [s|k s1 s2 s3 H12 _ IH]; intros n Hb; [lia|].
  destruct (B_step _ _ _ Hb H12) as (m & -> & Hm). specialize (IH m Hm). lia.
Qed.
Lemma measure_inevitable (P Inv : S → Prop) n s :
  (∀ s, Inv s → P s ∨ ∃ s', R s s') → (∀ s s', Inv s → R s s' → Inv s') → Inv s → B n s → inevitable P s.
Proof.
  intros Hlive Hinv. revert s. induction n as [|n IH]; intros s HI Hb;
    (destruct (Hlive s HI) as [HP|Hgo]; [by constructor 1|]).
  - destruct Hgo as [s' Hs]. by destruct (B_step _ _ _ Hb Hs) as (m & ? & _).
  - constructor 2; [done|]. intros s' Hs. destruct (B_step _ _ _ Hb Hs) as (m & [= <-] & Hm). eauto.
Qed.
End Inevitable.

(** ** The handlers *)

(** Counters are incremented under the names of the service. *)
Definition service_counters : list string :=
  ["custody_audit_events_total"; "custody_wallets_created_total"; "custody_transactions_proposed_total";
   "custody_transaction_approvals_total"; "custody_transactions_signed_total"; "custody_transactions_broadcast_total"].
Definition own_counter (X : Type) (e : eff X) : Prop :=
  match e with EInc name _ => name ∈ service_counters | _ => True end.
Abbreviation calls n p := (within own_counter n p).

Ltac own := unfold own_counter, service_counters; first [exact I | set_solver].
(** One node of a program: a call, a bind or a return, the count left over. *)
Ltac within_step :=
  lazymatch goal with
  | |- within _ _ (Ret _) => apply within_ret
  | |- within _ _ (mret _) => apply within_ret
  | |- within _ (S _) (call _) => apply (within_mono _ 1); [apply within_call; own|lia]
  | |- within _ (S ?n) (call _ ≫= _) => apply (within_bind _ 1 n); [apply within_call; own|intros ?]
  | |- within _ (S ?n) (try_bind _ (call _)) => apply (within_try _ 1 n); [apply within_call; own|intros ?]
  | |- within _ _ (match ?x with _ => _ end) => destruct x
  | |- within _ _ (if ?x then _ else _) => destruct x
  end.

Lemma calls_New prefix : calls 1 (New prefix).
Proof. unfold New. repeat within_step. Qed.
Lemma calls_appendAudit event : calls 4 (appendAudit event).
Proof.
  unfold appendAudit. apply (within_try _ 1 3); [apply calls_New|intros id]. repeat within_step.
Qed.
Lemma calls_record_failure p e phase : calls 6 (record_failure p e phase).
Proof.
  unfold record_failure. apply (within_bind _ 2 4).
  - unfold failTransaction. repeat within_step.
  - intros _. apply (within_bind _ 4 0); [apply calls_appendAudit|intros _; apply within_ret].
Qed.

Section Serve.
Context (policy : Policy).

Lemma calls_CreateWallet chain key : calls 11 (CreateWallet chain key).
Proof.
  unfold CreateWallet. within_step. destruct a; [|apply within_ret]. cbn [negb].
  apply (within_try _ 1 9); [apply calls_New|intros id]. within_step. within_step.
  apply (within_try _ 2 5).
  - case_decide; repeat within_step.
  - intros [w [|]]; [|apply within_ret]. cbn [negb]. apply (within_try _ 4 1); [apply calls_appendAudit|intros _]. repeat within_step.
Qed.
Lemma calls_ProposeTransaction trace request key : calls 11 (ProposeTransaction policy trace request key).
Proof.
  unfold ProposeTransaction. within_step. within_step; [apply within_ret|]. within_step.
  destruct a0; [|apply within_ret]. cbn [negb]. within_step.
  apply (within_try _ 1 7); [apply calls_New|intros id]. within_step.
  apply (within_try _ 1 5).
  - case_decide; repeat within_step.
  - intros [p [|]]; [|apply within_ret]. cbn [negb]. apply (within_try _ 4 1); [apply calls_appendAudit|intros _]. repeat within_step.
Qed.
Lemma calls_CoSign id signer : calls 14 (CoSign policy id signer).
Proof.
  unfold CoSign. within_step; [apply within_ret|]. within_step; [apply within_ret|]. do 3 within_step.
  apply (within_try _ 4 7); [apply calls_appendAudit|intros _]. within_step; [|apply within_ret].
  within_step. within_step; [|apply calls_record_failure].
  apply (within_try _ 1 5); [apply within_call; own|intros [p []]]; [|apply within_ret].
  within_step. apply (within_try _ 4 0); [apply calls_appendAudit|intros _; apply within_ret].
Qed.
Lemma calls_Broadcast id : calls 10 (Broadcast id).
Proof.
  unfold Broadcast. within_step. within_step; [apply within_ret|]. within_step. destruct a0; [|apply within_ret]. cbn [negb].
  within_step. within_step; [|apply (within_mono _ 6); [apply calls_record_failure|lia]].
  within_step. within_step. apply (within_try _ 4 1); [apply calls_appendAudit|intros _]. repeat within_step.
Qed.

(** The bound of a request. *)
Definition call_bound (r : Request) : nat :=
  match r with
  | ReqCreateWallet _ _ | ReqProposeTransaction _ _ _ => 11
  | ReqCoSign _ _ => 14
  | ReqBroadcast _ => 10
  | ReqGetTransaction _ | ReqListAuditEvents _ => 1
  end.
Lemma calls_serve r : calls (call_bound r) (serve policy r).
Proof.
  assert (Hr : ∀ A n (f : A → Response) p, calls n p → calls n (respond f p)).
  { intros A n f p Hp. rewrite <- (Nat.add_0_r n). apply within_try; [done|]. intros a. apply within_ret. }
  destruct r; apply Hr; [apply calls_CreateWallet|apply calls_ProposeTransaction|apply calls_CoSign
    |apply calls_Broadcast|apply within_call; exact I|apply within_call; exact I].
Qed.
Lemma calls_serve_14 r : calls 14 (serve policy r).
Proof. eapply within_mono; [apply calls_serve|]. destruct r; simpl; lia. Qed.
End Serve.

(** ** Running requests come to rest *)
Definition is_ret {E A} (p : prog E A) : bool := match p with Ret _ => true | Vis _ _ => false end.

Section Rest.
Context {St Sg Ad : Type} `{!Store St, !SigningBackend Sg, !ChainAdapter Ad}.
Context (policy : Policy).
Implicit Types (w : World St Sg Ad) (c : Config (St := St) (Sg := Sg) (Ad := Ad)).

(** A step that is a call of request [i]; of some request in flight. *)
Inductive call_by (i : nat) : Config (St := St) (Sg := Sg) (Ad := Ad) → Config → Prop :=
| call_by_intro w ts r X (e : eff X) k x w' :
    ts !! i = Some (r, Vis e k) → exec_rel X e w x w' →
    call_by i (mkConfig w ts) (mkConfig w' (<[i := (r, k x)]> ts)).
Definition call_step c c' : Prop := ∃ i, call_by i c c'.
Lemma call_step_step c c' : call_step c c' → step policy c c'.
Proof. intros [i H]. destruct H. by econstructor. Qed.

(** [made w i n c]: on a run from [w] to [c], with requests arriving and calls
    interleaving, request [i] has made [n] calls. *)
Inductive made w (i : nat) : nat → Config → Prop :=
| made_none : made w i 0 (initial w)
| made_accept n v ts r : typed r → made w i n (mkConfig v ts) → made w i n (mkConfig (accept r v) (ts ++ [(r, serve policy r)]))
| made_own n c c' : made w i n c → call_by i c c' → made w i (S n) c'
| made_other n j c c' : j ≠ i → made w i n c → call_by j c c' → made w i n c'.

Lemma reachable_made w i c : reachable policy w c → ∃ n, made w i n c.
Proof.
  unfold reachable. revert c. refine (rtc_ind_r (λ c, ∃ n, made w i n c) _ _ _); [exists 0; constructor|].
  intros c c' _ Hs [n Hn]. destruct Hs as [v ts r Ht|v ts j r X e k x v' Hj Hx]; [exists n; by constructor|].
  pose proof (call_by_intro j v ts r X e k x v' Hj Hx) as Hc.
  destruct (decide (j = i)) as [->|Hne]; [exists (S n); by eapply made_own|exists n; by eapply made_other].
Qed.
(** Until it arrives a request makes no call, and then at most its bound. *)
Lemma made_within w i n c :
  made w i n c →
  match threads c !! i with
  | None => n = 0
  | Some (r, p) => n ≤ call_bound r ∧ calls (call_bound r - n) p
  end.
Proof.
  induction 1 as [|n v ts r _ _ IH|n c c' _ IH Hc|n j c c' Hne _ IH Hc]; cbn [threads] in *; [done|..].
  - destruct (decide (i < length ts)) as [Hl|Hl]; [by rewrite lookup_app_l|].
    rewrite lookup_ge_None_2 in IH by lia. subst n. rewrite lookup_app_r by lia.
    destruct (i - length ts) as [|m]; [|done]. cbn. split; [lia|]. rewrite Nat.sub_0_r. apply calls_serve.
  - destruct Hc as [v ts r X e k x v' Hi _]. cbn [threads] in *. rewrite Hi in IH. destruct IH as [Hn Hw].
    rewrite list_lookup_insert_eq by by eapply lookup_lt_Some.
    destruct (call_bound r - n) as [|m] eqn:E; [done|]. split; [lia|].
    replace (call_bound r - S n) with m by lia. by apply (within_vis _ m e).
  - destruct Hc as [v ts r X e k x v' Hj _]. cbn [threads] in *. by rewrite list_lookup_insert_ne.
Qed.

(** The calls the requests in flight may still make. *)
Definition call_budget (n : nat) c : Prop := budget (λ t m, calls m t.2) n (threads c).

Lemma call_budget_step n c c' : call_budget n c → call_step c c' → ∃ m, n = S m ∧ call_budget m c'.
Proof.
  intros Hb [i Hs]. destruct Hs as [w ts r X e k x w' Hi _]. eapply budget_insert; [exact Hb|exact Hi|].
  intros [|m] Hw; [done|]. exists m. split; [done|]. simpl. by apply Hw.
Qed.

Lemma reachable_within w c : reachable policy w c → Forall (λ t, calls 14 t.2) (threads c).
Proof.
  unfold reachable. revert c. refine (rtc_ind_r (λ c, Forall (λ t, calls 14 t.2) (threads c)) _ _ _); [constructor|].
  intros c c' _ Hs HF. destruct Hs as [v ts r|v ts i r X e k x v' Hi _]; cbn [threads] in *.
  - apply Forall_app. split; [done|]. constructor; [|constructor]. apply calls_serve_14.
  - apply Forall_insert; [done|]. pose proof (proj1 (Forall_lookup _ _) HF _ _ Hi) as Hw. cbn [snd] in *.
    apply (within_mono _ 13); [by apply (within_vis _ 13 e)|lia].
Qed.
Lemma reachable_budget w c : reachable policy w c → call_budget (14 * length (threads c)) c.
Proof. intros HF%reachable_within. by apply budget_all. Qed.

(** A call can always be made: whatever the environment supplies, it returns. *)
Definition some_input : Input :=
  mkInput None 0 (λ _, Ok "") (λ _, None) (λ _, Err (ErrNew "")) (λ _ _, Err (ErrNew ""))
    (mkEthClient None (Ok 0%Z) (λ _, Ok 0%Z) (λ _ _ _ _, Ok 0%Z) (Ok 0%Z) (Ok 0%Z) (λ _, None)).

Lemma call_possible c i r X (e : eff X) k : threads c !! i = Some (r, Vis e k) → ∃ c', call_by i c c'.
Proof.
  destruct c as [w ts]. intros Hi. destruct (exec X e some_input w) as [x w'] eqn:Hx.
  eexists. eapply call_by_intro; [exact Hi|]. by eapply exec_exec_rel.
Qed.

(** Every request has its answer. *)
Definition all_answered c : Prop := Forall (λ t, ∃ a, t.2 = Ret a) (threads c).
Lemma answered_or_call c : all_answered c ∨ ∃ c', call_step c c'.
Proof.
  unfold all_answered. destruct (decide (Forall (λ t, is_ret t.2 = true) (threads c))) as [Ha|Hn].
  - left. eapply Forall_impl; [exact Ha|]. intros [r [a|X e k]]; [by exists a|done].
  - right. apply not_Forall_Exists in Hn; [|apply _]. apply Exists_exists in Hn as ([r [a|X e k]] & Hin & Hx); [by destruct Hx|].
    apply list_elem_of_lookup in Hin as [i Hi]. destruct (call_possible c i r X e k Hi) as [c' Hc]. by exists c', i.
Qed.
Lemma answers_inevitable n c : call_budget n c → inevitable call_step all_answered c.
Proof.
  apply (measure_inevitable call_step call_budget call_budget_step all_answered (λ _, True)); [|done|done].
  intros s _. apply answered_or_call.
Qed.
End Rest.
