(* ===== verification/PgConc.v ===== *)
(** * Many calls at once

    The server's sessions, each running one method of the Postgres store against
    the shared database, with requests interleaved in any order, and the atomic
    store that simulates them. *)
From Stdlib Require Import Ascii.
From S2P Require Import Prelude GoStd GoError Types Json Marshal JsonText Codec Transport Interfaces.
From S2P Require Import StoreSpec Sql Postgres PgAbs PgLogic PgMethods Calls.

(** ** Sessions *)

(** What a call is doing: the program left to run, or the answer delivered. *)
Inductive Job :=
| Running {A} (op : StoreOp A) (p : prog dbeff (res A))
| Returned.
Record Sessions := mkSessions { db : Database; jobs : list Job }.

(** What the callers see. *)
Inductive Event :=
| EvCall {A} (i : nat) (op : StoreOp A)
| EvReturn {A} (i : nat) (op : StoreOp A) (r : res A).

Section Machines.
Context `{Postgres}.

Inductive pg_step : Sessions → option Event → Sessions → Prop :=
| pg_call A (op : StoreOp A) d js :
    op_ok op →
    pg_step (mkSessions d js) (Some (EvCall (length js) op)) (mkSessions d (js ++ [Running op (method op)]))
| pg_request i A (op : StoreOp A) X (e : dbeff X) k fault now x d d' js :
    js !! i = Some (Running op (Vis e k)) → db_step i X e fault now d = Some (x, d') →
    pg_step (mkSessions d js) None (mkSessions d' (<[i := Running op (k x)]> js))
| pg_return i A (op : StoreOp A) r d js :
    js !! i = Some (Running op (Ret r)) →
    pg_step (mkSessions d js) (Some (EvReturn i op r)) (mkSessions d (<[i := Returned]> js)).

(** The atomic store: a call takes effect at once, at some moment between its
    invocation and its return. *)
Inductive Entry :=
| Invoked {A} (op : StoreOp A)
| Answered {A} (op : StoreOp A) (r : res A)
| Left.
Record Atomic := mkAtomic { contents : AStore; entries : list Entry }.
Inductive at_step : Atomic → option Event → Atomic → Prop :=
| at_call A (op : StoreOp A) a es :
    at_step (mkAtomic a es) (Some (EvCall (length es) op)) (mkAtomic a (es ++ [Invoked op]))
| at_effect i A (op : StoreOp A) r a a' es :
    es !! i = Some (Invoked op) → spec_step pg_norm op a r a' →
    at_step (mkAtomic a es) None (mkAtomic a' (<[i := Answered op r]> es))
| at_return i A (op : StoreOp A) r a es :
    es !! i = Some (Answered op r) →
    at_step (mkAtomic a es) (Some (EvReturn i op r)) (mkAtomic a (<[i := Left]> es)).

(** Executions and the events they show. *)
Inductive runs {S} (step : S → option Event → S → Prop) : S → list Event → S → Prop :=
| runs_nil s : runs step s [] s
| runs_snoc s1 s2 s3 tr o : runs step s1 tr s2 → step s2 o s3 → runs step s1 (tr ++ option_list o) s3.

Lemma runs_silent {S} (step : S → option Event → S → Prop) s1 s2 s3 tr :
  runs step s1 tr s2 → step s2 None s3 → runs step s1 tr s3.
Proof. intros Hr Hs. rewrite <- (app_nil_r tr). exact (runs_snoc step s1 s2 s3 tr None Hr Hs). Qed.

Definition empty_tables : Tables := mkTables ∅ ∅ [] ∅.
Definition pg_start : Sessions := mkSessions (mkDatabase empty_tables ∅) [].
Definition at_start : Atomic := mkAtomic empty_astore [].

Context `{!PostgresLaws}.

(** ** The simulation *)
Definition job_rel (i : nat) (j : Job) (e : Entry) (d : Database) : Prop :=
  match j with
  | Running op p =>
      (e = Invoked op ∧ lwp i op p None d (closed i op)) ∨
      (∃ r, e = Answered op r ∧ lwp i op p (Some r) d (closed i op))
  | Returned => e = Left ∧ sessions d !! i = None
  end.
Record sim (s : Sessions) (a : Atomic) : Prop := mkSim {
  sim_inv : DbInv (db s);
  sim_contents : contents a = pg_abs (tables (db s));
  sim_length : length (entries a) = length (jobs s);
  sim_jobs i j e : jobs s !! i = Some j → entries a !! i = Some e → job_rel i j e (db s);
  sim_free i : jobs s !! i = None → sessions (db s) !! i = None
}.

Lemma job_rely i j e d d' : Rely i d d' → job_rel i j e d → job_rel i j e d'.
Proof.
  intros Hy. destruct j as [A op p|]; simpl.
  - intros [[-> Hw]|(r & -> & Hw)]; [left|right; exists r]; (split; [done|]);
      (eapply lwp_rely; [|exact Hy|exact Hw]; intros; by eapply closed_rely).
  - intros [-> Hs]. split; [done|]. by rewrite (r_session _ _ _ Hy).
Qed.
Lemma sim_start : sim pg_start at_start.
Proof.
  split; [split|done..].
  - apply map_Forall_empty.
  - done.
  - done.
Qed.

Lemma sim_entry s a i j : sim s a → jobs s !! i = Some j → ∃ e, entries a !! i = Some e ∧ job_rel i j e (db s).
Proof.
  intros Hm Hj. destruct (entries a !! i) as [e|] eqn:He; [exists e; split; [done|by eapply sim_jobs]|].
  apply lookup_ge_None in He. apply lookup_lt_Some in Hj. rewrite (sim_length _ _ Hm) in He. lia.
Qed.

(** Session [i] moves on; the others only see what they rely on. *)
Lemma sim_update d js a0 es i j e d' a' :
  sim (mkSessions d js) (mkAtomic a0 es) → is_Some (js !! i) → DbInv d' → (∀ k, k ≠ i → Rely k d d') →
  a' = pg_abs (tables d') → job_rel i j e d' →
  sim (mkSessions d' (<[i := j]> js)) (mkAtomic a' (<[i := e]> es)).
Proof.
  intros Hm [j0 Hj0] HJ Hy -> Hr. split; simpl; [done|done|by rewrite !length_insert; apply (sim_length _ _ Hm)| |].
  - intros k j' e' Hj He. destruct (decide (k = i)) as [->|Hk].
    + pose proof (sim_length _ _ Hm) as Hl. simpl in Hl. apply lookup_lt_Some in Hj0 as Hlt.
      rewrite list_lookup_insert_eq in Hj by done. rewrite list_lookup_insert_eq in He by (rewrite Hl; done). by simplify_eq.
    + rewrite list_lookup_insert_ne in Hj by done. rewrite list_lookup_insert_ne in He by done. eapply job_rely; [by apply Hy|]. by eapply (sim_jobs _ _ Hm).
  - intros k Hn. destruct (decide (k = i)) as [->|Hk].
    + apply lookup_ge_None in Hn. rewrite length_insert in Hn. apply lookup_lt_Some in Hj0. lia.
    + rewrite list_lookup_insert_ne in Hn by done. rewrite (r_session _ _ _ (Hy k Hk)). by apply (sim_free _ _ Hm).
Qed.

Lemma sim_call A (op : StoreOp A) d js a es :
  op_ok op → sim (mkSessions d js) (mkAtomic a es) →
  sim (mkSessions d (js ++ [Running op (method op)])) (mkAtomic a (es ++ [Invoked op])).
Proof.
  intros Hop Hm. pose proof (sim_length _ _ Hm) as Hl. simpl in Hl. split; simpl; try apply Hm; [by rewrite !length_app, Hl| |].
  - intros i j e [[_ Hj]|[-> <-]]%lookup_snoc_Some [[Hi He]|[Hi <-]]%lookup_snoc_Some; [by eapply (sim_jobs _ _ Hm)|..].
    + apply lookup_lt_Some in Hj. lia.
    + lia.
    + left. split; [done|]. apply method_lwp; [done|]. apply (sim_free _ _ Hm). simpl. by apply lookup_ge_None.
  - intros i Hn. apply (sim_free _ _ Hm). simpl. apply lookup_ge_None in Hn. apply lookup_ge_None. rewrite length_app in Hn. lia.
Qed.

Lemma sim_request i A (op : StoreOp A) X (e : dbeff X) k fault now x d d' js a es :
  js !! i = Some (Running op (Vis e k)) → db_step i X e fault now d = Some (x, d') →
  sim (mkSessions d js) (mkAtomic a es) →
  ∃ a', (a' = mkAtomic a es ∨ at_step (mkAtomic a es) None a') ∧ sim (mkSessions d' (<[i := Running op (k x)]> js)) a'.
Proof.
  intros Hi Hx Hm. destruct (sim_entry _ _ _ _ Hm Hi) as (en & He & Hj). simpl in He, Hj.
  pose proof (sim_inv _ _ Hm) as HJ. pose proof (sim_contents _ _ Hm) as Ha. simpl in HJ, Ha.
  assert (∃ lin, proper_request i e d ∧ en = (match lin with None => Invoked op | Some r => Answered op r end) ∧
    ∃ lin', lin_step op lin (pg_abs (tables d)) (pg_abs (tables d')) lin' ∧ lwp i op (k x) lin' d' (closed i op))
    as (lin & Hpr & -> & lin' & Hl & Hw).
  { destruct Hj as [[-> [Hpr Hk]]|(r & -> & Hpr & Hk)]; [exists None|exists (Some r)]; split_and!; try done;
      (eapply Hk; [done|apply Rely_refl|done]). }
  destruct (step_guarantee i e fault now d x d' HJ Hpr Hx) as [HJ' Hy].
  exists (mkAtomic (pg_abs (tables d')) (<[i := match lin' with None => Invoked op | Some r => Answered op r end]> es)). split.
  - destruct Hl as [[-> ->]|(-> & r & -> & Hs)].
    + left. by rewrite list_insert_id, Ha.
    + right. rewrite <- Ha in Hs. by constructor.
  - eapply sim_update; try done. destruct lin' as [r|]; [right; by exists r|by left].
Qed.

Lemma sim_return i A (op : StoreOp A) r d js a es :
  js !! i = Some (Running op (Ret r)) → sim (mkSessions d js) (mkAtomic a es) →
  ∃ es', (es' = es ∨ at_step (mkAtomic a es) None (mkAtomic a es')) ∧ es' !! i = Some (Answered op r) ∧
    sim (mkSessions d (<[i := Returned]> js)) (mkAtomic a (<[i := Left]> es')).
Proof.
  intros Hi Hm. destruct (sim_entry _ _ _ _ Hm Hi) as (en & He & Hj). simpl in He, Hj.
  assert (Hfin : sim (mkSessions d (<[i := Returned]> js)) (mkAtomic a (<[i := Left]> es))).
  { eapply sim_update; [done|done|apply Hm|intros; apply Rely_refl|apply Hm|]. split; [done|].
    by destruct Hj as [[_ [_ Hs]]|(r' & _ & _ & Hs)]. }
  destruct Hj as [[-> [Hset _]]|(r' & -> & Hset & _)].
  2: { simpl in Hset. subst r'. exists es. split_and!; [by left|done|done]. }
  exists (<[i := Answered op r]> es). split_and!.
  - right. by constructor.
  - apply list_lookup_insert_eq. by eapply lookup_lt_Some.
  - by rewrite list_insert_insert_eq.
Qed.

Lemma sim_runs tr s : runs pg_step pg_start tr s → ∃ a, runs at_step at_start tr a ∧ sim s a.
Proof.
  intros Hr. remember pg_start as s0 eqn:E. induction Hr as [s|s1 s2 s3 tr o _ IH Hs]; subst.
  { exists at_start. split; [constructor|apply sim_start]. }
  destruct (IH eq_refl) as ([a es] & Hr & Hm). destruct Hs as [A op d js Hop|i A op X e k fault now x d d' js Hi Hx|i A op r d js Hi].
  - exists (mkAtomic a (es ++ [Invoked op])). split; [|by apply sim_call]. econstructor; [exact Hr|].
    pose proof (sim_length _ _ Hm) as Hl. simpl in Hl. rewrite <- Hl. constructor.
  - destruct (sim_request _ _ _ _ _ _ _ _ _ _ _ _ _ _ Hi Hx Hm) as (a' & [-> |Hs] & Hm'); eexists; (split; [|exact Hm']).
    + by rewrite app_nil_r.
    + rewrite app_nil_r. by eapply runs_silent.
  - destruct (sim_return _ _ _ _ _ _ _ _ Hi Hm) as (es' & [-> |Hs] & He & Hm'); eexists; (split; [|exact Hm']).
    + econstructor; [exact Hr|by constructor].
    + econstructor; [|by constructor]. by eapply runs_silent.
Qed.
End Machines.
