(* ===== verification/PgProgress.v ===== *)
(** * No call waits forever

    Transactions acquire what they hold in one order: a resource before its
    idempotency key, and nothing else while a row is locked.  So a session that
    waits always waits for one further along, and the last in such a chain can
    be served. *)
From Stdlib Require Import Ascii List.
From S2P Require Import Prelude GoStd GoError Types Json Codec Interfaces.
From S2P Require Import StoreSpec Sql Postgres PgAbs PgLogic PgMethods Calls PgConc.

(** ** How far a transaction is *)
Definition is_idem (c : Change) : bool := match c with CIdem _ => true | _ => false end.
Definition rank (o : option Tx) : nat :=
  match o with
  | None => 2
  | Some tx =>
      match tx_locks tx, tx_log tx with
      | _ :: _, _ => 0
      | [], [] => 2
      | [], _ :: _ => if existsb is_idem (tx_log tx) then 0 else 1
      end
  end.

Lemma rank_writes k tx : writes k tx = true → rank (Some tx) ≤ 1.
Proof.
  unfold writes, rank. rewrite bool_decide_eq_true. destruct (tx_locks tx); [|lia].
  destruct (tx_log tx) as [|c l]; [by intros []%not_elem_of_nil|]. destruct (existsb _ _); lia.
Qed.
Lemma rank_holds id tx : holds id tx = true → rank (Some tx) ≤ 1.
Proof.
  unfold holds. rewrite orb_true_iff. intros [Hl|Hw]; [|by eapply rank_writes].
  rewrite bool_decide_eq_true in Hl. unfold rank. destruct (tx_locks tx); [by apply not_elem_of_nil in Hl|lia].
Qed.
Lemma rank_idem sc ky tx : writes (KIdem sc ky) tx = true → rank (Some tx) = 0.
Proof.
  unfold writes, rank. rewrite bool_decide_eq_true. intros Hin. destruct (tx_locks tx); [|done].
  assert (existsb is_idem (tx_log tx) = true) as ->.
  { apply existsb_exists. apply list_elem_of_fmap in Hin as ([| | |r] & [=] & Hr). exists (CIdem r). by rewrite <- list_elem_of_In. }
  destruct (tx_log tx); [by apply not_elem_of_nil in Hin|done].
Qed.
Lemma rank_no_idem tx : Forall not_idem (tx_log tx) → tx_locks tx = [] → 1 ≤ rank (Some tx).
Proof.
  intros Hf Hl. unfold rank. rewrite Hl. destruct (tx_log tx) as [|c l] eqn:E; [lia|].
  assert (existsb is_idem (c :: l) = false) as ->; [|lia]. apply not_true_is_false. intros Hx.
  apply existsb_exists in Hx as (x & Hx%list_elem_of_In & Hi). rewrite Forall_forall in Hf. specialize (Hf x Hx). by destruct x.
Qed.

Lemma other_true i P d : other i P d = true → ∃ j tx, j ≠ i ∧ sessions d !! j = Some tx ∧ P tx = true.
Proof. unfold other. rewrite bool_decide_eq_true. intros (j & tx & Hs & Hj & Hp). by exists j, tx. Qed.

Abbreviation requests n p := (within (λ _ (_ : dbeff _), True) n p).

Section Progress.
Context `{PostgresLaws}.

(** A blocked statement waits for a transaction that is further along. *)
Lemma blocked_rank {A} i (st : stmt A) view d o :
  DbInv d → sessions d !! i = o → match o with None => True | Some tx => orderly st tx end →
  blocked i st view d = true → ∃ j, j ≠ i ∧ rank (sessions d !! j) < rank o.
Proof.
  intros HJ Hs Ho Hb.
  assert (Hmax : ∀ tx, tx_log tx = [] ∧ tx_locks tx = [] → rank (Some tx) = 2).
  { intros tx [E1 E2]. unfold rank. by rewrite E1, E2. }
  destruct st as [w|id ? ? ? ? ? ?|r|e|id ? ? ?|id|[] id|? ?|? ?]; simpl in Hb; try done.
  - apply other_true in Hb as (j & tx & Hj & Hsj & Hw%rank_writes). exists j. rewrite Hsj. split; [done|].
    destruct o as [tx'|]; [rewrite (Hmax tx') by done|change (rank None) with 2]; lia.
  - apply other_true in Hb as (j & tx & Hj & Hsj & Hw%rank_writes). exists j. rewrite Hsj. split; [done|].
    destruct o as [tx'|]; [rewrite (Hmax tx') by done|change (rank None) with 2]; lia.
  - apply other_true in Hb as (j & tx & Hj & Hsj & Hw%rank_idem). exists j. rewrite Hsj. split; [done|].
    destruct o as [tx'|]; [destruct Ho as [Hf Hl]; pose proof (rank_no_idem tx' Hf Hl)|change (rank None) with 2]; lia.
  - apply other_true in Hb as (j & tx & Hj & Hsj & Hw%rank_writes). exists j. rewrite Hsj. split; [done|].
    destruct o as [tx'|]; [rewrite (Hmax tx') by done|change (rank None) with 2]; lia.
  - apply andb_true_iff in Hb as [_ Hb]. apply other_true in Hb as (j & tx & Hj & Hsj & Hh). exists j. rewrite Hsj.
    split; [done|]. destruct o as [tx'|]; [|apply rank_holds in Hh; change (rank None) with 2; lia]. exfalso. apply Hj. symmetry.
    apply (inv_own d HJ i j tx' tx (KTxn id)); [done|done| |by apply holds_keys].
    apply elem_of_app. right. by apply list_elem_of_fmap_2.
  - apply andb_true_iff in Hb as [_ Hb]. apply other_true in Hb as (j & tx & Hj & Hsj & Hh%rank_holds). exists j. rewrite Hsj.
    split; [done|]. destruct o as [tx'|]; [rewrite (Hmax tx') by done|change (rank None) with 2]; lia.
Qed.

(** A request that has to wait. *)
Lemma waiting_rank {X} i (e : dbeff X) now d :
  DbInv d → proper_request i e d → db_step i X e None now d = None → ∃ j, j ≠ i ∧ rank (sessions d !! j) < rank (sessions d !! i).
Proof.
  intros HJ Hr Hs. destruct e as [|A st| | |A st|]; simpl in Hs; try (by repeat case_match).
  - destruct (sessions d !! i) as [tx|] eqn:Ht; [|done]. destruct (tx_failed tx) eqn:Hf; [done|].
    destruct (blocked _ _ _ _) eqn:Hb; [|by repeat case_match]. eapply (blocked_rank i st _ d (Some tx)); try done. by apply Hr.
  - destruct Hr as [_ Hn]. destruct (blocked _ _ _ _) eqn:Hb; [|by repeat case_match]. rewrite Hn. by eapply (blocked_rank i st _ d None).
Qed.

(** Follow the waits: somewhere along the chain a request can be served. *)
Lemma wait_chain d now (P : nat → ∀ X, dbeff X → Prop) :
  DbInv d → (∀ i X e, P i X e → proper_request i e d) →
  (∀ j tx, sessions d !! j = Some tx → ∃ X e, P j X e) →
  ∀ i X e, P i X e → ∃ j Y (f : dbeff Y) y d', P j Y f ∧ db_step j Y f None now d = Some (y, d').
Proof.
  intros HJ Hp Hopen.
  assert (H2 : ∀ o, rank o ≤ 2) by (intros o; unfold rank; repeat case_match; lia).
  assert (Hn : ∀ n i X e, rank (sessions d !! i) < n → P i X e →
    ∃ j Y (f : dbeff Y) y d', P j Y f ∧ db_step j Y f None now d = Some (y, d')).
  { intros n. induction n as [|n IH]; intros i X e Hn Hi; [lia|].
    destruct (db_step i X e None now d) as [[x d']|] eqn:Hx; [by exists i, X, e, x, d'|].
    destruct (waiting_rank i e now _ HJ (Hp _ _ _ Hi) Hx) as (j & Hj & Hr).
    destruct (sessions d !! j) as [tx|] eqn:Hs.
    - destruct (Hopen j tx Hs) as (Y & f & Hf). eapply (IH j); [|exact Hf]. rewrite Hs. lia.
    - simpl in Hr. specialize (H2 (sessions d !! i)). lia. }
  intros i X e. apply (Hn 3). specialize (H2 (sessions d !! i)). lia.
Qed.

(** ** The sessions *)
Definition running (s : Sessions) (i : nat) (X : Type) (e : dbeff X) : Prop :=
  ∃ A (op : StoreOp A) k, jobs s !! i = Some (Running op (Vis e k)).
Lemma running_proper s a i X e : sim s a → running s i X e → proper_request i e (db s).
Proof.
  intros Hm (A & op & k & Hi). destruct (sim_entry _ _ _ _ Hm Hi) as (en & _ & Hr).
  by destruct Hr as [[_ [Hp _]]|(r & _ & Hp & _)].
Qed.
Lemma open_session_runs s a j tx : sim s a → sessions (db s) !! j = Some tx → ∃ X e, running s j X e.
Proof.
  intros Hm Hs. destruct (jobs s !! j) as [job|] eqn:Hj; [|apply (sim_free _ _ Hm) in Hj; congruence].
  destruct (sim_entry _ _ _ _ Hm Hj) as (e & _ & Hr). destruct job as [A op [r|X e' k]|].
  - destruct Hr as [[_ [_ Hn]]|(r' & _ & _ & Hn)]; congruence.
  - by exists X, e', A, op, k.
  - destruct Hr as [_ Hn]. congruence.
Qed.

(** ** A bound on the requests of one call *)
Lemma requests_unique {A} n (dup rest : prog dbeff (res A)) p :
  requests 1 p → requests n dup → requests n rest → requests (S n) (on_unique dup p rest).
Proof.
  intros Hp Hd Hr. apply (within_bind _ 1 n); [done|]. intros [u|e]; [done|].
  destruct (isUniqueViolation e); [done|apply within_ret].
Qed.
Lemma requests_with_tx {A} n (body : prog dbeff (res A)) : requests n body → requests (S (S n)) (with_tx body).
Proof.
  intros Hb. apply (within_try _ 1 (S n)); [by apply within_call|intros _]. replace (S n) with (n + 1) by lia.
  apply within_bind; [done|]. intros r. apply (within_bind _ 1 0); [by apply within_call|intros _; apply within_ret].
Qed.
Lemma requests_marshalled {A} n p (k : string → prog dbeff (res A)) : (∀ t, requests n (k t)) → requests n (marshalled p k).
Proof. intros Hk. unfold marshalled. destruct (marshal_proposal p); [apply Hk|apply within_ret]. Qed.

Ltac request_step :=
  lazymatch goal with
  | |- within _ _ (Ret _) => apply within_ret
  | |- within _ _ (mret _) => apply within_ret
  | |- within _ (S _) (call _) => apply (within_mono _ 1); [by apply within_call|lia]
  | |- within _ (S ?n) (call _ ≫= _) => apply (within_bind _ 1 n); [by apply within_call|intros ?]
  | |- within _ (S ?n) (try_bind _ (try_bind _ (call _))) => apply (within_try _ 1 n); [apply (within_try _ 1 0); [by apply within_call|]|]; intros ?
  | |- within _ (S ?n) (try_bind _ (call _)) => apply (within_try _ 1 n); [by apply within_call|intros ?]
  | |- within _ _ (with_tx _) => apply requests_with_tx
  | |- within _ _ (marshalled _ _) => apply requests_marshalled; intros ?
  | |- within _ _ (on_unique _ _ _) => apply requests_unique
  | |- within _ _ (match ?x with _ => _ end) => destruct x
  | |- within _ _ (if ?x then _ else _) => destruct x
  end.
Lemma method_requests {A} (op : StoreOp A) : requests 8 (method op).
Proof.
  destruct op; unfold method, CreateWallet, CreateWalletIdempotently, GetWallet, CreateTransaction, CreateTransactionIdempotently,
    GetTransaction, AddApproval, MarkTransactionSigned, UpdateTransaction, AppendAuditEvent, ListAuditEvents,
    after_rollback, walletForIdempotency, transactionForIdempotency, getIdempotency, getWallet, getTransaction, pool, intx;
    repeat (request_step; cbv zeta).
Qed.
End Progress.

(** ** Requests left *)
Section Budget.
Context `{PostgresLaws}.

Definition silent (s s' : Sessions) : Prop := pg_step s None s'.
Definition job_within (j : Job) (n : nat) : Prop := match j with Running _ p => requests n p | Returned => True end.
Definition request_budget (n : nat) (s : Sessions) : Prop := budget job_within n (jobs s).

Lemma request_budget_step n s s' : request_budget n s → silent s s' → ∃ m, n = S m ∧ request_budget m s'.
Proof.
  intros Hb Hs. unfold silent in Hs. remember None as o eqn:E.
  destruct Hs as [|i A op X e k fault now x d d' js Hi _|]; [done| |done]. eapply budget_insert; [exact Hb|exact Hi|].
  intros [|m] Hw; [done|]. exists m. split; [done|]. by apply Hw.
Qed.

Lemma runs_budget tr s : runs pg_step pg_start tr s → request_budget (8 * length (jobs s)) s.
Proof.
  intros Hr. apply budget_all.
  remember pg_start as s0 eqn:E0. induction Hr as [s|s1 s2 s3 tr o _ IH Hs]; subst; [constructor|]. specialize (IH eq_refl).
  destruct Hs as [A op d js _|i A op X e k fault now x d d' js Hi _|i A op r d js Hi]; simpl in *.
  - apply Forall_app. split; [done|]. constructor; [apply method_requests|constructor].
  - apply Forall_insert; [done|]. pose proof (Forall_lookup_1 _ _ _ _ IH Hi) as Hw. apply (within_mono _ 7); [apply Hw|lia].
  - by apply Forall_insert.
Qed.

(** ** On every schedule *)
Definition unanswered (j : Job) : bool := match j with Running _ (Vis _ _) => true | _ => false end.
Definition all_answered (s : Sessions) : Prop := existsb unanswered (jobs s) = false.

Lemma unanswered_served tr s : runs pg_step pg_start tr s → all_answered s ∨ ∃ s', silent s s'.
Proof.
  intros (a & _ & Hm)%sim_runs. unfold all_answered. destruct (existsb _ _) eqn:Hu; [right|by left].
  apply existsb_exists in Hu as ([A op [r|X e k]|] & Hin & Hj); try done.
  apply list_elem_of_In, list_elem_of_lookup in Hin as [i Hi].
  destruct (wait_chain (db s) 0 (running s)) with i X e as (j & Y & f & y & d' & (B & op' & k' & Hj') & Hx);
    [apply Hm|intros; by eapply running_proper|intros; by eapply open_session_runs|by exists A, op, k|].
  destruct s as [d js]. eexists. by econstructor.
Qed.

Lemma calls_inevitable tr s : runs pg_step pg_start tr s → inevitable silent all_answered s.
Proof.
  intros Hr. apply (measure_inevitable _ request_budget request_budget_step _ (λ s, ∃ tr, runs pg_step pg_start tr s) (8 * length (jobs s))).
  - intros s' [tr' Hr']. by eapply unanswered_served.
  - intros s1 s2 [tr' Hr'] Hs. exists tr'. by eapply runs_silent.
  - by exists tr.
  - by eapply runs_budget.
Qed.
End Budget.
