(* ===== verification/Api.v ===== *)
(** * The HTTP API (src/internal/api/server.go)

    A handler reads the request, and either answers at once or calls exactly
    one method of the service and renders its outcome: [Action] is that choice,
    so that the call can be interleaved with those of other requests. *)
From Stdlib Require Import Ascii.
From S2P Require Import Prelude GoStd GoError Types Json Marshal JsonText GoTime Codec Http Metrics.
From S2P Require Import Interfaces Service Tracing System.

(** The service and the registry are in the [World]; logging is not modelled. *)
Record Server := mkServer { apiKeys : list string }.
Definition WithAPIKeys (keys : list string) (server : Server) : Server := mkServer keys.
Definition NewServer (options : list (Server → Server)) : Server :=
  foldl (λ server option, option server) (mkServer []) options.

Inductive Action :=
| Reply (resp : HttpResponse)
| ReplyMetrics                               (* the metrics page of the moment *)
| Invoke (r : Request) (okStatus : Z).       (* s.service.<Method>, then [render] *)

(** ** Responses *)

(** [Encode] prints the value and a newline, and nothing when it fails. *)
Definition writeJSON (status : Z) (value : res string) : HttpResponse :=
  mkHttpResponse status "application/json" [] None
    (match value with Ok text => text +:+ newline | Err _ => "" end).

Definition writeError (status : Z) (err : GoError) : HttpResponse :=
  writeJSON status (Ok (struct_text [("error", Some (quote (Error err)))])).

Definition statusFor (err : GoError) : Z :=
  if Is err ErrWalletNotFound || Is err ErrTransactionNotFound then 404
  else if Is err ErrUnauthorizedSigner then 403
  else if Is err ErrDuplicateIdempotency then 409
  else if Is err ErrUnsupportedChain || Is err ErrDuplicateApproval || Is err ErrTransactionNotSigned
          || Is err ErrTransactionNotProposed || Is err ErrPolicyViolation then 400
  else 500.

Definition marshal_events (l : list AuditEvent) : res string :=
  match collect ((λ e, (tt, marshal_event e)) <$> l) with
  | Ok texts => Ok (struct_text [("events", Some (arr_text texts.*2))])
  | Err e => Err e
  end.
Definition marshal_response (r : Response) : res string :=
  match r with
  | RespWallet w => marshal_wallet w
  | RespTransaction p => marshal_proposal p
  | RespEvents l => marshal_events l
  end.

(** The end of every handler that called the service. *)
Definition render (okStatus : Z) (outcome : res Response) : HttpResponse :=
  match outcome with
  | Err err => writeError (statusFor err) err
  | Ok r => writeJSON okStatus (marshal_response r)
  end.

Definition writeMetrics (m : Metrics) : HttpResponse :=
  mkHttpResponse 200 "text/plain; version=0.0.4" [] None (WritePrometheus m).

(** ** Reading requests *)
Definition idempotencyKey (q : HttpRequest) : string := Header q "Idempotency-Key".

Definition parseTransactionPath (path : string) : option (string * string) :=
  let trimmed := TrimPrefix path "/v1/transactions/" in
  if decide (trimmed = path ∨ trimmed = "") then None
  else match Split "/" (TrimByte "/" trimmed) with
       | [id] => Some (id, "")
       | [id; action] => Some (id, action)
       | _ => None
       end.

Definition createWallet_names : list string := ["chain"].
Definition dec_createWallet (t : string) : option Chain :=
  l ← struct_members createWallet_names true t; assign dec_string "" (assigned createWallet_names "chain" l).
Definition cosign_names : list string := ["signer_id"].
Definition dec_cosign (t : string) : option string :=
  l ← struct_members cosign_names true t; assign dec_string "" (assigned cosign_names "signer_id" l).

Section Handlers.
(** The text of the error when a body cannot be read or decoded. *)
Context (decode_text : HttpRequest → string).

(** The first [Decode] takes one value off the body; the second must find the
    end of it. *)
Definition decodeJSON {T} (dec : string → option T) (q : HttpRequest) : result HttpResponse T :=
  let decoded :=
    body ← Body q; '(text, rest) ← text_value (S (String.length body)) body;
    target ← dec text; Some (target, rest) in
  match decoded with
  | None => Err (writeError 400 (ErrNew (decode_text q)))
  | Some (target, rest) =>
      if decide (skip_ws rest = "") then Ok target
      else Err (writeError 400 (ErrNew "request body must contain a single json object"))
  end.

Definition HandlerFunc := Trace → HttpRequest → Action.

Definition status_text (s : string) : res string := Ok (struct_text [("status", Some (quote s))]).
Definition health : HandlerFunc := λ _ _, Reply (writeJSON 200 (status_text "ok")).
Definition ready : HandlerFunc := λ _ _, Reply (writeJSON 200 (status_text "ready")).
Definition metricsHandler : HandlerFunc := λ _ _, ReplyMetrics.

Definition createWallet : HandlerFunc := λ _ q,
  match decodeJSON dec_createWallet q with
  | Err resp => Reply resp
  | Ok chain => Invoke (ReqCreateWallet chain (idempotencyKey q)) 201
  end.

Definition proposeTransaction : HandlerFunc := λ trace q,
  match decodeJSON (dec_request true zero_request) q with
  | Err resp => Reply resp
  | Ok request => Invoke (ReqProposeTransaction trace request (idempotencyKey q)) 201
  end.

Definition getTransaction (id : string) : HandlerFunc := λ _ _, Invoke (ReqGetTransaction id) 200.
Definition cosign (id : string) : HandlerFunc := λ _ q,
  match decodeJSON dec_cosign q with
  | Err resp => Reply resp
  | Ok signerID => Invoke (ReqCoSign id signerID) 200
  end.
Definition broadcast (id : string) : HandlerFunc := λ _ _, Invoke (ReqBroadcast id) 200.

Definition transactionAction : HandlerFunc := λ trace q,
  match parseTransactionPath (Path q) with
  | None => Reply (writeError 404 (ErrNew "transaction route not found"))
  | Some (id, action) =>
      if decide (Method q = "GET" ∧ action = "") then getTransaction id trace q
      else if decide (Method q = "POST" ∧ action = "cosign") then cosign id trace q
      else if decide (Method q = "POST" ∧ action = "broadcast") then broadcast id trace q
      else Reply (writeError 404 (ErrNew "transaction route not found"))
  end.

Definition listAuditEvents : HandlerFunc := λ _ q,
  let filter limit := mkAuditFilter (query_get (RawQuery q) "resource_id") limit in
  let rawLimit := query_get (RawQuery q) "limit" in
  if decide (rawLimit = "") then Invoke (ReqListAuditEvents (filter 100%Z)) 200
  else match ParseInt rawLimit with
       | None => Reply (writeError 400 (ErrNew "limit must be an integer"))
       | Some limit => Invoke (ReqListAuditEvents (filter limit)) 200
       end.

(** ** Keys and routes *)
Definition provided_key (q : HttpRequest) : string :=
  let provided := Header q "X-API-Key" in
  if bool_decide (provided = "") && HasPrefix (Header q "Authorization") "Bearer "
  then TrimPrefix (Header q "Authorization") "Bearer "
  else provided.

(** [subtle.ConstantTimeCompare] is 1 for equal byte strings. *)
Definition requireAPIKey (s : Server) (next : HandlerFunc) : HandlerFunc := λ trace q,
  if decide (apiKeys s = [] ∨ provided_key q ∈ apiKeys s) then next trace q
  else Reply (writeError 401 (ErrNew "missing or invalid api key")).

Definition routes (s : Server) : list (Pattern * HandlerFunc) :=
  [(mkPattern "GET" ["healthz"] false, health);
   (mkPattern "GET" ["readyz"] false, ready);
   (mkPattern "GET" ["metrics"] false, metricsHandler);
   (mkPattern "POST" ["v1"; "wallets"] false, requireAPIKey s createWallet);
   (mkPattern "POST" ["v1"; "transactions"] false, requireAPIKey s proposeTransaction);
   (mkPattern "GET" ["v1"; "audit"; "events"] false, requireAPIKey s listAuditEvents);
   (mkPattern "GET" ["v1"; "transactions"] true, requireAPIKey s transactionAction);
   (mkPattern "POST" ["v1"; "transactions"] true, requireAPIKey s transactionAction)].

(** What the mux answers itself. *)
Definition redirect (q : HttpRequest) (path query : string) : HttpResponse :=
  mkHttpResponse 307 (if decide (Method q = "GET" ∨ Method q = "HEAD") then "text/html; charset=utf-8" else "")
    [] (Some (path, query)) "".
Definition mux_error (status : Z) (allow : list string) : HttpResponse :=
  plain_response status allow (if decide (status = 404%Z) then "404 page not found" else StatusText status).

(** The handler of [Handler], inside the middleware. *)
Definition dispatch (s : Server) (trace : Trace) (q : HttpRequest) : Action :=
  match route (routes s) q with
  | ToHandler h => h trace q
  | ToRedirect path query => Reply (redirect q path query)
  | ToError status allow => Reply (mux_error status allow)
  end.

(** ** A request served with nothing else running *)
Section Serve.
Context {St Sg Ad : Type} `{!Store St, !SigningBackend Sg, !ChainAdapter Ad}.
Implicit Types w : World St Sg Ad.

Definition update_metrics (f : Metrics → Metrics) w : World St Sg Ad :=
  mkWorld (store w) (signer w) (chains w) (f (metrics w)) (history w).

Definition perform (policy : Policy) (env : nat → Input) (a : Action) w : HttpResponse * World St Sg Ad :=
  match a with
  | Reply resp => (resp, w)
  | ReplyMetrics => (writeMetrics (metrics w), w)
  | Invoke r okStatus => let '(outcome, w') := run_request policy env r w in (render okStatus outcome, w')
  end.

(** [Handler().ServeHTTP]: the response with its [traceparent] header. *)
Definition ServeHTTP (s : Server) (policy : Policy) (env : nat → Input) (raw16 raw8 : res string) (duration : Z)
    (q : HttpRequest) w : (string * HttpResponse) * World St Sg Ad :=
  Middleware update_metrics resp_Status (Method q) (Path q) (Header q "traceparent") raw16 raw8 duration
    (λ trace, perform policy env (dispatch s trace q)) w.
End Serve.
End Handlers.
