(* ===== verification/ApiLemmas.v ===== *)
(** * What the handlers of the API make of a request

    Inversion of [dispatch], the typing of decoded bodies, and the requests a
    client sends for each operation. *)
From Stdlib Require Import Ascii.
From S2P Require Import Prelude GoStd GoError Types Json Marshal JsonLit JsonText GoTime Codec Transport Http.
From S2P Require Import Metrics Interfaces Service Tracing System Api.

(** ** Routing *)
Lemma route_handler {H} (rs : list (Pattern * H)) q h :
  route rs q = ToHandler h → ∃ p, (p, h) ∈ rs ∧ method_matches p (Method q) = true.
Proof.
  unfold route. set (path := if decide _ then _ else _). intros E.
  repeat case_match; simplify_eq; unfold not_found in *; repeat case_match; simplify_eq.
  match goal with Hf : find_route _ _ _ = Some _ |- _ => unfold find_route in Hf; apply head_Some_elem_of in Hf;
    apply list_elem_of_filter in Hf as [Hm Hin]; apply andb_true_iff in Hm as [Hm _] end.
  eauto.
Qed.
Lemma route_error {H} (rs : list (Pattern * H)) q status allow :
  route rs q = ToError status allow → status = 404%Z ∨ status = 405%Z.
Proof.
  unfold route. set (path := if decide _ then _ else _). intros E.
  repeat case_match; simplify_eq; unfold not_found in *; repeat case_match; simplify_eq; auto.
Qed.

Section Dispatch.
Context (decode_text : HttpRequest → string) (server : Server).

(** A request that may reach the service. *)
Definition authorised (q : HttpRequest) : Prop := apiKeys server = [] ∨ provided_key q ∈ apiKeys server.

Lemma require_Invoke next trace q r st :
  requireAPIKey server next trace q = Invoke r st → authorised q ∧ next trace q = Invoke r st.
Proof. unfold requireAPIKey. by case_decide. Qed.

(** The handler and the key behind an invocation of the service. *)
Lemma dispatch_Invoke trace q r st :
  dispatch decode_text server trace q = Invoke r st →
  authorised q ∧
  (Method q = "POST" ∧ (createWallet decode_text trace q = Invoke r st
                        ∨ proposeTransaction decode_text trace q = Invoke r st)
   ∨ listAuditEvents trace q = Invoke r st ∨ transactionAction decode_text trace q = Invoke r st).
Proof.
  unfold dispatch. destruct (route _ q) as [h|path query|status allow] eqn:E; [|done..].
  apply route_handler in E as (p & Hin & Hm). unfold routes in Hin. intros Hi.
  rewrite !elem_of_cons, elem_of_nil in Hin. unfold method_matches in Hm. apply bool_decide_eq_true in Hm.
  destruct Hin as [[= -> ->]|[[= -> ->]|[[= -> ->]|[[= -> ->]|[[= -> ->]|[[= -> ->]|[[= -> ->]|[[= -> ->]|[]]]]]]]]];
    try done; apply require_Invoke in Hi as [Ha Hi]; split; try done; simpl in Hm;
    try (left; split; [by destruct Hm as [?|[_ ?]]|by eauto]); auto.
Qed.

(** What an unauthorised request is answered. *)
Lemma dispatch_unauthorised trace q :
  ¬ authorised q →
  dispatch decode_text server trace q = health trace q ∨ dispatch decode_text server trace q = ready trace q ∨
  dispatch decode_text server trace q = ReplyMetrics ∨
  ∃ resp, dispatch decode_text server trace q = Reply resp ∧ resp_Status resp ∈ [307; 401; 404; 405]%Z.
Proof.
  intros Hn. unfold dispatch. destruct (route _ q) as [h|path query|status allow] eqn:E.
  - apply route_handler in E as (p & Hin & _). unfold routes in Hin.
    rewrite !elem_of_cons, elem_of_nil in Hin.
    destruct Hin as [[= -> ->]|[[= -> ->]|[[= -> ->]|[[= -> ->]|[[= -> ->]|[[= -> ->]|[[= -> ->]|[[= -> ->]|[]]]]]]]]];
      auto; right; right; right; unfold requireAPIKey; (rewrite decide_False by done); (eexists; split; [done|]); simpl; set_solver.
  - right; right; right. eexists; split; [done|]. simpl. set_solver.
  - right; right; right. eexists; split; [done|]. simpl. destruct (route_error _ _ _ _ E); subst; set_solver.
Qed.

(** ** Types of decoded values *)
Lemma decodeJSON_Ok {T} (dec : string → option T) q v :
  decodeJSON decode_text dec q = Ok v → ∃ t, dec t = Some v.
Proof.
  unfold decodeJSON. destruct (Body q) as [b|]; cbn; [|done]. destruct (text_value _ b) as [[t rest]|]; cbn; [|done].
  destruct (dec t) as [x|] eqn:Ht; cbn; [|done]. case_decide; [|done]. intros [= <-]. eauto.
Qed.
End Dispatch.

Lemma assign_inv {T} (P : T → Prop) dec old texts v :
  (∀ o t x, P o → dec o t = Some x → P x) → P old → assign dec old texts = Some v → P v.
Proof.
  intros Hd. unfold assign. revert old. induction texts as [|t ts IH]; intros old Ho; cbn; [by intros [= <-]|].
  destruct (dec old t) as [x|] eqn:E; [by apply IH, (Hd old t)|].
  intros Hn. assert (Hnone : foldl (λ (acc : option T) (t : string), acc ≫= λ v, dec v t) None ts = None).
  { clear. by induction ts. } by rewrite Hnone in Hn.
Qed.
Lemma dec_string_utf8 o t x : utf8 o → dec_string o t = Some x → utf8 x.
Proof.
  unfold dec_string. destruct (decode t) as [[]|] eqn:E; try done; intros ? [= <-]; [done|].
  by eapply reads_jstr_utf8.
Qed.
Lemma dec_num_range (P : Z → Prop) parse o t x :
  (∀ lit z, parse lit = Some z → P z) → P o → dec_num parse o t = Some x → P x.
Proof. intros Hp Ho. unfold dec_num. destruct (decode t) as [[]|]; try done; [by intros [= <-]|by apply Hp]. Qed.
Lemma dec_uint32_range o t x : uint32 o → dec_uint32 o t = Some x → uint32 x.
Proof.
  apply dec_num_range. intros lit z. destruct (ParseUint lit) as [n|] eqn:E; cbn; [|done].
  apply ParseUint_range in E. destruct (_ <? _)%Z eqn:Hn; [|done]. intros [= <-]. apply Z.ltb_lt in Hn. unfold uint32. lia.
Qed.
Lemma dec_int64_range o t x : int64 o → dec_int64 o t = Some x → int64 x.
Proof. apply dec_num_range. intros lit z. apply ParseInt_range. Qed.
Lemma dec_uint64_range o t x : uint64 o → dec_uint64 o t = Some x → uint64 x.
Proof. apply dec_num_range. intros lit z. apply ParseUint_range. Qed.

(** The fields of a decoded struct, one monadic step at a time. *)
Ltac dec_inv :=
  repeat match goal with
    | H : (_ ← ?x; _) = Some _ |- _ =>
        let E := fresh "E" in destruct x eqn:E; cbn [mbind option_bind] in H; [|discriminate H]
    end; simplify_eq.

Lemma dec_utxo_ok strict o t u : utxo_ok o → dec_utxo strict o t = Some u → utxo_ok u.
Proof.
  intros (? & ? & ? & ?) Hdec. unfold dec_utxo in Hdec. dec_inv. unfold utxo_ok. simpl.
  split_and!; (eapply assign_inv; [| |eassumption];
    [eauto using dec_string_utf8, dec_uint32_range, dec_int64_range|done]).
Qed.
Lemma dec_elems_ok {A} (P : A → Prop) zero dec l ts l' :
  (∀ o t x, P o → dec o t = Some x → P x) → P zero → Forall P l → dec_elems zero dec l ts = Some l' → Forall P l'.
Proof.
  intros Hd Hz. revert l l'. induction ts as [|t ts IH]; intros l l' Hl; simpl; [by intros [= <-]|].
  intros H. dec_inv. constructor.
  - eapply Hd; [|eassumption]. destruct Hl; [done|done].
  - eapply IH; [|eassumption]. by destruct Hl.
Qed.
Lemma dec_slice_ok {A} (P : A → Prop) zero dec old t v :
  (∀ o t x, P o → dec o t = Some x → P x) → P zero → Forall P old.1 → dec_slice zero dec old t = Some v → Forall P v.1.
Proof.
  intros Hd Hz Ho. unfold dec_slice. destruct (decode t) as [[]|]; try done; [by intros [= <-]|].
  intros H. dec_inv. case_decide; simplify_eq; [by constructor|]. dec_inv. by eapply dec_elems_ok.
Qed.
(** The zero request, and whatever is decoded into it, is well typed. *)
Lemma dec_request_ok strict o t r : request_ok o → dec_request strict o t = Some r → request_ok r.
Proof.
  intros (? & ? & ? & ? & ? & ? & ? & ?) Hdec. unfold dec_request in Hdec. dec_inv. unfold request_ok. simpl.
  split_and!; try (eapply assign_inv; [| |eassumption];
    [eauto using dec_string_utf8, dec_uint64_range, dec_int64_range|done]).
  apply Forall_take. eapply (assign_inv (λ v : list UTXO * nat, Forall utxo_ok v.1)); [| |eassumption]; [|done].
  intros ov tv v Hv. apply dec_slice_ok; [|by_compute|done].
  intros o' t' x. apply dec_utxo_ok.
Qed.
Lemma zero_request_ok : request_ok zero_request.
Proof. by_compute. Qed.

Lemma dec_createWallet_utf8 t chain : dec_createWallet t = Some chain → utf8 chain.
Proof.
  unfold dec_createWallet. intros Hdec. dec_inv. eapply assign_inv; [| |eassumption]; [apply dec_string_utf8|constructor].
Qed.
Lemma dec_cosign_utf8 t signer : dec_cosign t = Some signer → utf8 signer.
Proof.
  unfold dec_cosign. intros Hdec. dec_inv. eapply assign_inv; [| |eassumption]; [apply dec_string_utf8|constructor].
Qed.

(** What reaches the service is well typed. *)
Lemma dispatch_typed decode_text server trace q r st :
  dispatch decode_text server trace q = Invoke r st → typed r.
Proof.
  intros [_ H]%dispatch_Invoke.
  destruct H as [[_ [H|H]]|[H|H]]; unfold createWallet, proposeTransaction, listAuditEvents, transactionAction in H.
  - destruct (decodeJSON _ _ _) as [v|] eqn:E; [|done]. apply decodeJSON_Ok in E as [t Ht]. simplify_eq.
    by eapply dec_createWallet_utf8.
  - destruct (decodeJSON _ _ _) as [v|] eqn:E; [|done]. apply decodeJSON_Ok in E as [t Ht]. simplify_eq.
    eapply dec_request_ok; [apply zero_request_ok|done].
  - repeat case_match; by simplify_eq.
  - destruct (parseTransactionPath _) as [[id act]|]; [|done]. unfold getTransaction, cosign, broadcast in H.
    repeat case_decide; simplify_eq; [done| |done].
    destruct (decodeJSON _ _ _) as [v|] eqn:E; [|done]. apply decodeJSON_Ok in E as [t Ht]. simplify_eq.
    by eapply dec_cosign_utf8.
Qed.

(** ** Statuses and error bodies *)
Definition success_status (r : Request) : Z :=
  match r with ReqCreateWallet _ _ | ReqProposeTransaction _ _ _ => 201 | _ => 200 end.
Lemma dispatch_status decode_text server trace q r st :
  dispatch decode_text server trace q = Invoke r st → st = success_status r.
Proof.
  intros [_ H]%dispatch_Invoke.
  destruct H as [[_ [H|H]]|[H|H]]; unfold createWallet, proposeTransaction, listAuditEvents, transactionAction,
    getTransaction, cosign, broadcast in H; repeat case_match; by simplify_eq.
Qed.

Lemma statusFor_spec e :
  (statusFor e = 404%Z ↔ existsb (Is e) [ErrWalletNotFound; ErrTransactionNotFound] = true) ∧
  (statusFor e = 403%Z ↔ Is e ErrUnauthorizedSigner = true) ∧
  (statusFor e = 409%Z ↔ Is e ErrDuplicateIdempotency = true) ∧
  (statusFor e = 400%Z ↔ existsb (Is e) [ErrUnsupportedChain; ErrDuplicateApproval;
     ErrTransactionNotSigned; ErrTransactionNotProposed; ErrPolicyViolation] = true) ∧
  statusFor e ∈ [400; 403; 404; 409; 500]%Z.
Proof.
  assert (Hv : (∃ s, ∀ t, Is e t = bool_decide (s = t)) ∨ ∀ t, Is e t = false).
  { induction e as [s|m|b c IH a|k m]; simpl; [left; by exists s|by right|done|by right]. }
  unfold statusFor. destruct Hv as [[s Hs]|Hn].
  - cbn [existsb]. rewrite !Hs. destruct s; cbn; (split_and!; [done..|]); by_compute.
  - cbn [existsb]. rewrite !Hn. cbn. (split_and!; [done..|]). by_compute.
Qed.

Lemma error_body s :
  decode (struct_text [("error", Some (quote s))] +:+ newline) = Some (JObj [("error", JStr (ToValidUTF8 s))]).
Proof.
  assert (Hr : reads (struct_text [("error", Some (quote s))]) (JObj [("error", JStr (ToValidUTF8 s))])).
  { pose proof (reads_obj _ _ (reads_members_one "" _ _ "" "" (quote s) "" _ eq_refl eq_refl eq_refl eq_refl
      (proj1 (lit_quote_body "error")) (reads_quote s))) as H.
    rewrite pair_text_quote in H. exact H. }
  by apply (decode_reads "" _ newline).
Qed.
