(* ===== verification/ApiSystem.v ===== *)
(** * The HTTP server with many requests in flight

    Each connection runs the middleware around its handler in a goroutine of
    its own.  A step is a request arriving, one call a handler makes, a handler
    writing its response, or one update of the registry by the middleware.  The
    calls are those of [System.step], so what holds for every interleaving of
    the service holds behind the HTTP API; what is added is which HTTP request
    each invocation came from. *)
From Stdlib Require Import Ascii.
From S2P Require Import Prelude GoStd GoError Types Http Metrics Interfaces Service Tracing System Api ApiLemmas.

Inductive HttpState :=
| Handling                              (* the handler is running *)
| Answered (resp : HttpResponse)        (* it returned; the middleware goes on *)
| Counted (resp : HttpResponse)
| Served (resp : HttpResponse).

(** [ht_call]: the invocation of the service with its success status, and what
    is left of it; [None] for a request answered without one. *)
Record HttpThread := mkHttpThread {
  ht_request : HttpRequest;
  ht_call : option (Request * Z * prog eff (res Response));
  ht_state : HttpState
}.

Section Server.
Context {St Sg Ad : Type} `{!Store St, !SigningBackend Sg, !ChainAdapter Ad}.
Context (decode_text : HttpRequest → string) (server : Server) (policy : Policy).
Implicit Types w : World St Sg Ad.

Record HttpConfig := mkHttpConfig { h_world : World St Sg Ad; h_threads : list HttpThread }.

(** What the handlers are given: the mux's choice under the request's trace. *)
Definition action (q : HttpRequest) (raw16 raw8 : res string) : Action :=
  dispatch decode_text server (request_trace (Header q "traceparent") raw16 raw8) q.

Definition labels_of (q : HttpRequest) (resp : HttpResponse) : gmap string string :=
  request_labels (Method q) (Path q) (resp_Status resp).

Inductive http_step : HttpConfig → HttpConfig → Prop :=
| http_invoke w ts q raw16 raw8 r st :
    action q raw16 raw8 = Invoke r st →
    http_step (mkHttpConfig w ts)
      (mkHttpConfig (accept r w) (ts ++ [mkHttpThread q (Some (r, st, serve policy r)) Handling]))
| http_reply w ts q raw16 raw8 resp :
    action q raw16 raw8 = Reply resp →
    http_step (mkHttpConfig w ts) (mkHttpConfig w (ts ++ [mkHttpThread q None (Answered resp)]))
| http_metrics w ts q raw16 raw8 :
    action q raw16 raw8 = ReplyMetrics →
    http_step (mkHttpConfig w ts)
      (mkHttpConfig w (ts ++ [mkHttpThread q None (Answered (writeMetrics (metrics w)))]))
| http_call w ts i q r st X (e : eff X) k x w' :
    ts !! i = Some (mkHttpThread q (Some (r, st, Vis e k)) Handling) →
    exec_rel X e w x w' →
    http_step (mkHttpConfig w ts) (mkHttpConfig w' (<[i := mkHttpThread q (Some (r, st, k x)) Handling]> ts))
| http_answer w ts i q r st a :
    ts !! i = Some (mkHttpThread q (Some (r, st, Ret a)) Handling) →
    http_step (mkHttpConfig w ts)
      (mkHttpConfig w (<[i := mkHttpThread q (Some (r, st, Ret a)) (Answered (render st a))]> ts))
| http_count w ts i q c resp :
    ts !! i = Some (mkHttpThread q c (Answered resp)) →
    http_step (mkHttpConfig w ts)
      (mkHttpConfig (update_metrics (Inc "custody_http_requests_total" (labels_of q resp)) w)
         (<[i := mkHttpThread q c (Counted resp)]> ts))
| http_observe w ts i q c resp duration :
    ts !! i = Some (mkHttpThread q c (Counted resp)) →
    http_step (mkHttpConfig w ts)
      (mkHttpConfig
         (update_metrics (ObserveDuration "custody_http_request_duration_seconds" (labels_of q resp) duration) w)
         (<[i := mkHttpThread q c (Served resp)]> ts)).

Definition http_reachable w (c : HttpConfig) : Prop := rtc http_step (mkHttpConfig w []) c.

(** ** A request served alone is one of the interleavings *)
Lemma http_run_steps env n q r st p w ts i :
  ts !! i = Some (mkHttpThread q (Some (r, st, p)) Handling) →
  let '(a, _, w') := run exec env n p w in
  rtc http_step (mkHttpConfig w ts) (mkHttpConfig w' (<[i := mkHttpThread q (Some (r, st, Ret a)) Handling]> ts)).
Proof.
  revert n w ts. induction p as [a|X e k IH]; intros n w ts Hi; cbn; [by rewrite list_insert_id|].
  destruct (exec X e (env n) w) as [x w1] eqn:Hx.
  set (t1 := mkHttpThread q (Some (r, st, k x)) Handling).
  assert (Hi' : <[i := t1]> ts !! i = Some t1) by (apply list_lookup_insert_eq; by eapply lookup_lt_Some).
  specialize (IH x (S n) w1 _ Hi'). destruct (run exec env (S n) (k x) w1) as [[a n'] w'].
  eapply rtc_l; [eapply http_call; [done|by eapply exec_exec_rel]|]. by rewrite list_insert_insert_eq in IH.
Qed.

(** The invocation of a thread that was served alone. *)
Definition invoked (env : nat → Input) (a : Action) w : option (Request * Z * prog eff (res Response)) :=
  match a with Invoke r st => Some (r, st, Ret (run_request policy env r w).1) | _ => None end.

Lemma perform_steps env q raw16 raw8 w ts :
  let a := action q raw16 raw8 in
  rtc http_step (mkHttpConfig w ts)
    (mkHttpConfig (perform policy env a w).2
       (ts ++ [mkHttpThread q (invoked env a w) (Answered (perform policy env a w).1)])).
Proof.
  intros a. destruct a as [resp| |r st] eqn:E; cbn [perform invoked fst snd].
  - apply rtc_once. by eapply http_reply.
  - apply rtc_once. by eapply http_metrics.
  - unfold run_request. pose proof (http_run_steps env 0 q r st (serve policy r) (accept r w)
      (ts ++ [mkHttpThread q (Some (r, st, serve policy r)) Handling]) (length ts)) as H.
    rewrite lookup_app_r, Nat.sub_diag in H by done. specialize (H eq_refl).
    destruct (run exec env 0 (serve policy r) (accept r w)) as [[o n] w'].
    rewrite insert_app_r_alt, Nat.sub_diag in H by done. cbn in H |- *.
    eapply rtc_l; [by eapply http_invoke|]. eapply rtc_r; [exact H|].
    pose proof (http_answer w' (ts ++ [mkHttpThread q (Some (r, st, Ret o)) Handling]) (length ts) q r st o) as Ha.
    rewrite lookup_app_r, Nat.sub_diag in Ha by done. specialize (Ha eq_refl).
    by rewrite insert_app_r_alt, Nat.sub_diag in Ha by done.
Qed.

Lemma serve_http_steps env q raw16 raw8 duration w ts :
  let a := action q raw16 raw8 in
  let out := ServeHTTP decode_text server policy env raw16 raw8 duration q w in
  rtc http_step (mkHttpConfig w ts)
    (mkHttpConfig out.2 (ts ++ [mkHttpThread q (invoked env a w) (Served out.1.2)])).
Proof.
  intros a out. pose proof (perform_steps env q raw16 raw8 w ts) as H. fold a in H. cbv zeta in H.
  unfold out, ServeHTTP, Middleware. fold (action q raw16 raw8). fold a.
  destruct (perform policy env a w) as [resp w1]. cbn [fst snd] in *.
  etrans; [exact H|].
  assert (Hl : ∀ t, (ts ++ [t]) !! length ts = Some t) by (intros t; by rewrite lookup_app_r, Nat.sub_diag by done).
  assert (Hu : ∀ t t' : HttpThread, <[length ts := t']> (ts ++ [t]) = ts ++ [t'])
    by (intros t t'; by rewrite insert_app_r_alt, Nat.sub_diag by done).
  pose proof (http_count w1 _ _ _ _ _ (Hl (mkHttpThread q (invoked env a w) (Answered resp)))) as Hc. rewrite Hu in Hc.
  eapply rtc_l; [exact Hc|]. clear Hc.
  match goal with |- rtc _ (mkHttpConfig ?v _) _ =>
    pose proof (http_observe v _ _ _ _ _ duration (Hl (mkHttpThread q (invoked env a w) (Counted resp)))) as Ho end.
  rewrite Hu in Ho. by apply rtc_once.
Qed.

(** ** The service below the server *)
Definition with_metrics (m : Metrics) w : World St Sg Ad := update_metrics (λ _, m) w.
Definition invocation (t : HttpThread) : option (Request * prog eff (res Response)) :=
  (λ '(r, _, p), (r, p)) <$> ht_call t.

Lemma exec_metrics X (e : eff X) w x w' m :
  exec_rel X e w x w' → ∃ m', exec_rel X e (with_metrics m w) x (with_metrics m' w').
Proof.
  destruct e; intros [inp H]; cbn in H; [destruct H as [H ->]; exists m, inp; by split|..];
    repeat (case_match; simplify_eq/=); simplify_eq/=; eexists; exists inp; cbn;
    repeat match goal with E : _ = _ |- _ => progress rewrite E end; done.
Qed.

Lemma omap_insert {A B} (f : A → option B) (l : list A) i t y :
  l !! i = Some t → f t = Some y →
  ∃ j, omap f l !! j = Some y ∧
    ∀ t' y', f t' = Some y' → omap f (<[i := t']> l) = <[j := y']> (omap f l).
Proof.
  intros Hi Hf. pose proof (lookup_lt_Some _ _ _ Hi) as Hlt. exists (length (omap f (take i l))).
  assert (E : omap f l = omap f (take i l) ++ y :: omap f (drop (S i) l)).
  { rewrite <- (take_drop_middle l i t Hi) at 1. rewrite omap_app. cbn. by rewrite Hf. }
  rewrite E. split; [by rewrite lookup_app_r, Nat.sub_diag|].
  intros t' y' Hf'. rewrite insert_take_drop, omap_app by done. cbn. rewrite Hf'.
  by rewrite insert_app_r_alt, Nat.sub_diag.
Qed.
Lemma omap_insert_same {A B} (f : A → option B) (l : list A) i t t' :
  l !! i = Some t → f t' = f t → omap f (<[i := t']> l) = omap f l.
Proof.
  intros Hi Hf. pose proof (lookup_lt_Some _ _ _ Hi) as Hlt.
  rewrite <- (take_drop_middle l i t Hi) at 2. rewrite insert_take_drop, !omap_app by done.
  cbn. by rewrite Hf.
Qed.

(** A reachable configuration of the server is, its registry aside, a
    reachable configuration of the service. *)
Lemma http_reachable_service w c :
  http_reachable w c →
  ∃ m, reachable policy w (mkConfig (with_metrics m (h_world c)) (omap invocation (h_threads c))).
Proof.
  unfold http_reachable, reachable, initial. revert c. apply rtc_ind_r.
  { exists (metrics w). by destruct w. }
  intros c2 c3 _ H23 [m Hm].
  inversion H23 as [v ts q raw16 raw8 r st Ha|v ts q raw16 raw8 resp Ha|v ts q raw16 raw8 Ha
    |v ts i q r st X e k x v' Hi Hx|v ts i q r st a Hi|v ts i q c resp Hi|v ts i q c resp d Hi]; subst; clear H23; simpl in *.
  - exists m. eapply rtc_r; [exact Hm|]. rewrite omap_app. 
    exact (step_accept policy (with_metrics m v) _ r (dispatch_typed _ _ _ _ _ _ Ha)).
  - exists m. rewrite omap_app. cbn. by rewrite app_nil_r.
  - exists m. rewrite omap_app. cbn. by rewrite app_nil_r.
  - destruct (omap_insert invocation ts i _ (r, Vis e k) Hi eq_refl) as (j & Hj & Hins).
    destruct (exec_metrics X e v x v' m Hx) as [m' Hm']. exists m'.
    rewrite (Hins (mkHttpThread q (Some (r, st, k x)) Handling) (r, k x) eq_refl).
    eapply rtc_r; [exact Hm|]. by eapply step_call.
  - exists m. by rewrite (omap_insert_same invocation ts i _ _ Hi).
  - exists m. by rewrite (omap_insert_same invocation ts i _ _ Hi).
  - exists m. by rewrite (omap_insert_same invocation ts i _ _ Hi).
Qed.

(** Every invocation in the history is an HTTP request that was accepted. *)
Definition from_http (c : HttpConfig) (r : Request) : Prop :=
  ∃ t raw16 raw8 st, t ∈ h_threads c ∧ action (ht_request t) raw16 raw8 = Invoke r st.

Lemma exec_requests X (e : eff X) w x w' r :
  exec_rel X e w x w' → EvRequest r ∈ history w' → EvRequest r ∈ history w.
Proof.
  destruct e; intros [inp H]; cbn in H; [by destruct H as [_ ->]|..]; repeat (case_match; simplify_eq/=); simplify_eq/=; try done.
  all: intros [?|Hr%list_elem_of_singleton]%elem_of_app; done.
Qed.
Lemma elem_of_insert_request (ts : list HttpThread) i t t' (P : HttpRequest → Prop) :
  ts !! i = Some t → ht_request t' = ht_request t →
  (∃ u, u ∈ ts ∧ P (ht_request u)) → ∃ u, u ∈ <[i := t']> ts ∧ P (ht_request u).
Proof.
  intros Hi Hq (u & [j Hj]%list_elem_of_lookup & HP). destruct (decide (i = j)) as [->|Hne].
  - exists t'. simplify_eq. rewrite Hq. split; [|done]. apply (list_elem_of_lookup_2 _ j).
    apply list_lookup_insert_eq. by eapply lookup_lt_Some.
  - exists u. split; [|done]. apply (list_elem_of_lookup_2 _ j). by rewrite list_lookup_insert_ne.
Qed.

Lemma history_from_http w c r :
  history w = [] → http_reachable w c → EvRequest r ∈ history (h_world c) → from_http c r.
Proof.
  intros Hw. unfold http_reachable. revert c.
  refine (rtc_ind_r (λ c, EvRequest r ∈ history (h_world c) → from_http c r) _ _ _).
  { simpl. rewrite Hw. by intros ?%elem_of_nil. }
  intros c2 c3 _ H23 IH.
  assert (Hkeep : ∀ ts i t t', h_threads c2 = ts → ts !! i = Some t → ht_request t' = ht_request t →
    from_http c2 r → ∀ v, from_http (mkHttpConfig v (<[i := t']> ts)) r).
  { intros ts i t t' <- Hi Hq (u & r16 & r8 & st & Hu & Ha) v.
    edestruct (elem_of_insert_request (h_threads c2) i t t' (λ q, action q r16 r8 = Invoke r st)) as (u' & ? & ?); eauto.
    by exists u', r16, r8, st. }
  assert (Hsnoc : ∀ t v, from_http c2 r → from_http (mkHttpConfig v (h_threads c2 ++ [t])) r).
  { intros t v (u & r16 & r8 & st & Hu & Ha). exists u, r16, r8, st. split; [|done]. simpl. set_solver. }
  inversion H23 as [v ts q raw16 raw8 r' st Ha|v ts q raw16 raw8 resp Ha|v ts q raw16 raw8 Ha
    |v ts i q r' st X e k x v' Hi Hx|v ts i q r' st a Hi|v ts i q c resp Hi|v ts i q c resp d Hi]; subst; clear H23; simpl in *.
  - intros [?|[= ->]%list_elem_of_singleton]%elem_of_app; [auto|].
    exists (mkHttpThread q (Some (r', st, serve policy r')) Handling), raw16, raw8, st.
    split; [simpl; set_solver|done].
  - auto.
  - auto.
  - intros Hr. eapply Hkeep; [done|exact Hi|done|]. apply IH. by eapply exec_requests.
  - intros Hr. eapply Hkeep; [done|exact Hi|done|auto].
  - intros Hr. eapply Hkeep; [done|exact Hi|done|auto].
  - intros Hr. eapply Hkeep; [done|exact Hi|done|auto].
Qed.
End Server.
