(* ===== verification/ApiClient.v ===== *)
(** * The client's side of the API

    The HTTP request for each operation, as the README documents them, and what
    the server makes of it. *)
From Stdlib Require Import Ascii.
From S2P Require Import Prelude GoStd GoError Types Json Marshal JsonLit JsonText GoTime Codec Transport Http.
From S2P Require Import Metrics Interfaces Service Tracing System Api ApiLemmas.

(** ** Plain paths *)

(** A path segment that needs no escaping and is not special to cleaning. *)
Definition segment_ok (s : string) : Prop :=
  s ≠ "" ∧ s ≠ "." ∧ s ≠ ".." ∧ has_byte "/" s = false ∧ has_byte "%" s = false.
#[export] Instance segment_ok_dec s : Decision (segment_ok s).
Proof. unfold segment_ok. apply _. Defined.
Definition path_of (segs : list string) : string := "/" +:+ Join "/" segs.

Lemma unescape_plain s : has_byte "%" s = false → unescape false s = Some s.
Proof.
  induction s as [|c s IH]; [done|]. cbn [has_byte]. intros [Hc Hs]%orb_false_iff. apply bool_decide_eq_false in Hc.
  specialize (IH Hs). cbn [unescape]. rewrite IH. cbn.
  destruct c as [[] [] [] [] [] [] [] []]; try done; by destruct Hc.
Qed.

Lemma count_byte_app c a b : count_byte c (a +:+ b) = count_byte c a + count_byte c b.
Proof. induction a as [|x a IH]; [done|]. string_simpl. cbn [count_byte]. rewrite IH. lia. Qed.
Lemma count_byte_no c s : has_byte c s = false → count_byte c s = 0.
Proof.
  induction s as [|x s IH]; [done|]. cbn. intros [Hx Hs]%orb_false_iff. apply bool_decide_eq_false in Hx.
  by rewrite decide_False, IH.
Qed.

Lemma clean_steps segs acc : Forall segment_ok segs → foldl clean_step acc segs = acc ++ segs.
Proof.
  intros Hok. revert acc. induction Hok as [|x l (H1 & H2 & H3 & _ & _) _ IH]; intros acc; [by rewrite app_nil_r|].
  cbn [foldl]. rewrite IH. unfold clean_step.
  destruct (decide (x = "" ∨ x = ".")) as [[?|?]|_]; [done..|]. rewrite decide_False by done.
  by rewrite <- app_assoc.
Qed.
Lemma map_unescape segs : Forall segment_ok segs → ((λ s, default s (unescape false s)) <$> segs) = segs.
Proof.
  induction 1 as [|x l (_ & _ & _ & _ & Hx) _ IH]; [done|]. cbn. rewrite unescape_plain by done. cbn. f_equal. exact IH.
Qed.
Lemma count_join segs : Forall (λ s, has_byte "/" s = false) segs → count_byte "/" (Join "/" segs) = pred (length segs).
Proof.
  induction segs as [|x [|y l] IH]; intros Hs; inversion Hs; subst; [done|by apply count_byte_no|].
  change (Join "/" (x :: y :: l)) with (x +:+ "/" +:+ Join "/" (y :: l)).
  rewrite !count_byte_app, IH, (count_byte_no _ x) by done. done.
Qed.
Lemma join_snoc segs : segs ≠ [] → Join "/" segs +:+ "/" = Join "/" (segs ++ [""]).
Proof.
  induction segs as [|x [|y l] IH]; [done|done|]. intros _.
  change (Join "/" (x :: y :: l)) with (x +:+ "/" +:+ Join "/" (y :: l)).
  change (Join "/" ((x :: y :: l) ++ [""])) with (x +:+ "/" +:+ Join "/" ((y :: l) ++ [""])).
  rewrite <- IH by done. by rewrite <- !string_app_assoc.
Qed.

Section Plain.
Context (segs : list string) (Hok : Forall segment_ok segs) (Hne : segs ≠ []).

Lemma plain_no_slash : Forall (λ s, has_byte "/" s = false) segs.
Proof. eapply Forall_impl; [exact Hok|]. by intros s (_ & _ & _ & ? & _). Qed.
Lemma Split_path : Split "/" (path_of segs) = "" :: segs.
Proof.
  unfold path_of. change ("/" +:+ ?r) with ("" +:+ String "/" r). rewrite Split_app by done.
  by rewrite Split_Join by (done || apply plain_no_slash).
Qed.
Lemma Split_path_slash : Split "/" (path_of segs +:+ "/") = "" :: segs ++ [""].
Proof.
  unfold path_of. rewrite <- string_app_assoc. change ("/" +:+ ?r) with ("" +:+ String "/" r) at 1.
  rewrite Split_app by done. f_equal.
  rewrite <- (Split_Join "/" (segs ++ [""])).
  - by rewrite join_snoc.
  - by destruct segs.
  - apply Forall_app. split; [apply plain_no_slash|by repeat constructor].
Qed.
Lemma last_path : last (Split "/" (path_of segs)) ≠ Some "".
Proof.
  rewrite Split_path. destruct segs as [|x l] using rev_ind; [done|].
  rewrite app_comm_cons, last_snoc. apply Forall_app in Hok as [_ Hx]. inversion Hx as [|? ? (? & _)]; subst. congruence.
Qed.
Lemma path_no_slash_end : ends_with_slash (path_of segs) = false.
Proof. apply bool_decide_eq_false. intros [? _]. by apply last_path. Qed.
Lemma path_slash_end : ends_with_slash (path_of segs +:+ "/") = true.
Proof.
  apply bool_decide_eq_true. rewrite Split_path_slash, app_comm_cons, last_snoc. done.
Qed.
Lemma cleanPath_plain : cleanPath (path_of segs) = path_of segs.
Proof.
  unfold cleanPath. rewrite Split_path. cbn [foldl]. change (clean_step [] "") with (@nil string). rewrite (clean_steps segs []) by done.
  rewrite path_no_slash_end. cbn. by rewrite string_app_nil_r.
Qed.
Lemma segments_plain : segments (path_of segs) = segs.
Proof.
  unfold segments, path_of. rewrite TrimPrefix_app, Split_Join by (done || apply plain_no_slash). by apply map_unescape.
Qed.
Lemma segments_slash : segments (path_of segs +:+ "/") = segs ++ [""].
Proof.
  unfold segments. pose proof Split_path_slash as E. unfold path_of in *. rewrite <- string_app_assoc in *.
  change ("/" +:+ ?r) with ("" +:+ String "/" r) in E at 1. rewrite Split_app in E by done. injection E as E.
  rewrite TrimPrefix_app, E, fmap_app, map_unescape by done. done.
Qed.
Lemma count_path : count_byte "/" (path_of segs +:+ "/") = S (length segs).
Proof.
  rewrite count_byte_app. unfold path_of. rewrite count_byte_app. cbn [count_byte]. rewrite !decide_True by done.
  rewrite count_join by apply plain_no_slash. destruct segs; [done|simpl; lia].
Qed.

(** Matching by segments, for such a path and for its redirect target. *)
Definition match_segments (p : Pattern) (l : list string) : bool :=
  if pat_Subtree p
  then bool_decide (take (length (pat_Segments p)) l = pat_Segments p ∧ length (pat_Segments p) < length l)
  else bool_decide (l = pat_Segments p).
Definition matching {H} (rs : list (Pattern * H)) method (l : list string) : option (Pattern * H) :=
  head (filter (λ r, method_matches r.1 method && match_segments r.1 l = true) rs).

Lemma route_plain {H} (rs : list (Pattern * H)) q p h :
  EscapedPath q = path_of segs → Method q ≠ "CONNECT" →
  matching rs (Method q) segs = Some (p, h) →
  match (if pat_Subtree p then matching rs (Method q) (segs ++ [""]) else None) with
  | Some (p', _) => pat_Subtree p' = true ∧ S (length (pat_Segments p')) ≠ S (length segs)
  | None => True
  end →
  route rs q = ToHandler h.
Proof.
  intros Hq Hm Hf Hf2. unfold route. rewrite decide_False by done. rewrite Hq, cleanPath_plain, path_no_slash_end.
  assert (Hfr : find_route rs (Method q) (path_of segs) = Some (p, h)).
  { unfold find_route, path_matches. rewrite segments_plain. exact Hf. }
  assert (Hex : negb (exact_match (Some (p, h)) (path_of segs)) && negb false
    && exact_match (find_route rs (Method q) (path_of segs +:+ "/")) (path_of segs +:+ "/") = false).
  { destruct (pat_Subtree p) eqn:Hp; [|by cbn; rewrite Hp].
    apply andb_false_iff. right. unfold find_route, path_matches. rewrite segments_slash. unfold exact_match.
    change (head _) with (matching rs (Method q) (segs ++ [""])). revert Hf2.
    destruct (matching rs (Method q) (segs ++ [""])) as [[p' h']|]; [|done]. intros [-> Hl].
    rewrite count_path, path_slash_end. cbn. by apply bool_decide_eq_false. }
  rewrite Hfr, Hex. rewrite (bool_decide_eq_true_2 (path_of segs = path_of segs)) by done. cbn.
  by rewrite andb_false_r.
Qed.
End Plain.

(** ** Bodies *)

(** A printed text surrounded by white space is what the decoder is given. *)
Lemma decodeJSON_text decode_text {T} (dec : string → option T) q before t after v :
  Body q = Some (before +:+ t +:+ after) → ws before → ws after → readable t → dec t = Some v →
  decodeJSON decode_text dec q = Ok v.
Proof.
  intros Hb Hw Hw' [j Hr] Hd. unfold decodeJSON. rewrite Hb. cbn [mbind option_bind].
  assert (Hdl : delim after).
  { destruct after as [|c a]; [done|]. unfold ws in Hw'. cbn in Hw'. apply andb_true_iff in Hw' as [Hc _].
    simpl. by destruct c as [[] [] [] [] [] [] [] []]. }
  rewrite (text_value_reads _ before t j after Hw Hr Hdl).
  2: { destruct Hr as (_ & Hl & _). rewrite !string_length_app. lia. }
  cbn [mbind option_bind]. rewrite Hd. cbn [mbind option_bind].
  pose proof (skip_ws_app after "" Hw') as E. rewrite string_app_nil_r in E. by rewrite E, decide_True.
Qed.

(** A struct with one string field. *)
Lemma one_field_ok name s : utf8 name → fields_ok [(name, Some (quote s))].
Proof.
  intros Hn. split; [apply NoDup_singleton|]. repeat constructor; [done|].
  simpl. intros t [= <-]. apply readable_quote.
Qed.
Lemma one_field_decode name s :
  utf8 name → utf8 s →
  (l ← struct_members [name] true (struct_text [(name, Some (quote s))]);
   assign dec_string "" (assigned [name] name l)) = Some s.
Proof.
  intros Hn Hs. destruct (struct_carried eq carries_eq true _ _ (one_field_ok name s Hn) eq_refl) as (l & Hl & Hf).
  change (_.*1) with [name] in Hl, Hf. rewrite Hl. cbn [mbind option_bind].
  edestruct Hf as (o & Ho & E); [by left|]. rewrite E.
  rewrite (field_str eq carries_eq s o "" Ho). by rewrite ToValidUTF8_id.
Qed.

(** ** Requests *)

(** A query value that needs no escaping. *)
Definition query_ok (s : string) : Prop :=
  has_byte "&" s = false ∧ has_byte ";" s = false ∧ has_byte "%" s = false ∧ has_byte "+" s = false.

Definition headers (apiKey key : string) (name : string) : string :=
  if decide (name = "X-API-Key") then apiKey else if decide (name = "Idempotency-Key") then key else "".
Definition send (method : string) (segs : list string) (query apiKey key body : string) : HttpRequest :=
  mkHttpRequest method (path_of segs) (path_of segs) query (headers apiKey key) (Some body).

(** The request for an operation; an error when its body cannot be printed.
    The trace of a proposal is not sent: the server's middleware chooses it. *)
Definition client (apiKey : string) (r : Request) : res HttpRequest :=
  match r with
  | ReqCreateWallet chain key =>
      Ok (send "POST" ["v1"; "wallets"] "" apiKey key (struct_text [("chain", Some (quote chain))] +:+ newline))
  | ReqProposeTransaction _ request key =>
      match marshal_request request with
      | Ok t => Ok (send "POST" ["v1"; "transactions"] "" apiKey key (t +:+ newline))
      | Err e => Err e
      end
  | ReqCoSign id signer =>
      Ok (send "POST" ["v1"; "transactions"; id; "cosign"] "" apiKey ""
            (struct_text [("signer_id", Some (quote signer))] +:+ newline))
  | ReqBroadcast id => Ok (send "POST" ["v1"; "transactions"; id; "broadcast"] "" apiKey "" "")
  | ReqGetTransaction id => Ok (send "GET" ["v1"; "transactions"; id] "" apiKey "" "")
  | ReqListAuditEvents filter =>
      Ok (send "GET" ["v1"; "audit"; "events"]
            ("limit=" +:+ FormatInt (af_Limit filter) +:+ "&resource_id=" +:+ af_ResourceID filter) apiKey "" "")
  end.

(** What JSON, URLs and Go's integers can express. *)
Definition sendable (r : Request) : Prop :=
  match r with
  | ReqCreateWallet chain _ => utf8 chain
  | ReqProposeTransaction _ request _ => request_ok request
  | ReqCoSign id signer => segment_ok id ∧ utf8 signer
  | ReqBroadcast id | ReqGetTransaction id => segment_ok id
  | ReqListAuditEvents filter => int64 (af_Limit filter) ∧ query_ok (af_ResourceID filter)
  end.

(** The same operation, under the trace the server chose, with the white space
    of the metadata gone. *)
Definition received (trace : Trace) (r r' : Request) : Prop :=
  match r with
  | ReqProposeTransaction _ request key =>
      ∃ md, r' = ReqProposeTransaction trace (with_metadata md request) key ∧
            raw_carried eq (req_Metadata request) md
  | _ => r' = r
  end.
Lemma unescape_query s : query_ok s → unescape true s = Some s.
Proof.
  intros (_ & _ & H1 & H2). induction s as [|c s IH]; [done|]. cbn [has_byte] in *.
  apply orb_false_iff in H1 as [Hc Hs]. apply orb_false_iff in H2 as [Hc' Hs'].
  apply bool_decide_eq_false in Hc, Hc'. specialize (IH Hs Hs'). cbn [unescape]. rewrite IH. cbn.
  rewrite bool_decide_eq_false_2 by done. cbn. destruct c as [[] [] [] [] [] [] [] []]; try done; by destruct Hc.
Qed.
Lemma query_pair_plain k v :
  query_ok k → has_byte "=" k = false → query_ok v → query_pair (k +:+ String "=" v) = Some (k, v).
Proof.
  intros Hk Hke Hv. pose proof Hk as (_ & Hk2 & _). pose proof Hv as (_ & Hv2 & _).
  unfold query_pair. rewrite has_byte_app, Hk2. change (has_byte ";" (String "=" v)) with (has_byte ";" v). rewrite Hv2.
  rewrite bool_decide_eq_false_2 by by destruct k. cbn. unfold cut. rewrite cut_byte_app by done.
  rewrite !unescape_query by done. done.
Qed.
Lemma query_get_two k1 v1 k2 v2 :
  query_ok k1 → has_byte "=" k1 = false → query_ok v1 → query_ok k2 → has_byte "=" k2 = false → query_ok v2 →
  k1 ≠ k2 → let raw := (k1 +:+ String "=" v1) +:+ String "&" (k2 +:+ String "=" v2) in
  query_get raw k1 = v1 ∧ query_get raw k2 = v2.
Proof.
  intros H1 H1' Hv1 H2 H2' Hv2 Hne raw. unfold query_get, raw.
  destruct H1 as (Hk1 & ? & ? & ?), Hv1 as (Hv1a & ? & ? & ?), H2 as (Hk2 & ? & ? & ?), Hv2 as (Hv2a & ? & ? & ?).
  rewrite Split_app by (rewrite has_byte_app; cbn; by rewrite Hk1, Hv1a).
  rewrite Split_single by (rewrite has_byte_app; cbn; by rewrite Hk2, Hv2a). cbn [omap list_omap].
  rewrite !query_pair_plain by (done || by split_and!). rewrite !filter_cons. cbn [fst].
  split; repeat case_decide; try done; congruence.
Qed.

Lemma digits_no_byte c s : all_bytes is_digit s = true → is_digit c = false → has_byte c s = false.
Proof.
  intros Hs Hc. induction s as [|x s IH]; [done|]. cbn in *. apply andb_true_iff in Hs as [Hx Hs].
  rewrite IH by done. rewrite bool_decide_eq_false_2 by congruence. done.
Qed.
Lemma query_ok_int z : query_ok (FormatInt z).
Proof.
  assert (Hd : ∀ n, (0 ≤ n)%Z → query_ok (dec_nat n)).
  { intros n [_ Hn]%num_ok_dec. split_and!; by apply digits_no_byte. }
  unfold FormatInt. destruct (z <? 0)%Z eqn:Hz; [|apply Hd; lia].
  destruct (Hd (- z)%Z) as (? & ? & ? & ?); [lia|]. done.
Qed.

Section Received.
Context (decode_text : HttpRequest → string) (server : Server) (trace : Trace).

(** The request reaches the handler of its route, its key accepted. *)
Lemma send_dispatch method segs query apiKey key body p next :
  Forall segment_ok segs → segs ≠ [] → method ≠ "CONNECT" →
  apiKeys server = [] ∨ apiKey ∈ apiKeys server →
  matching (routes decode_text server) method segs = Some (p, requireAPIKey server next) →
  match (if pat_Subtree p then matching (routes decode_text server) method (segs ++ [""]) else None) with
  | Some (p', _) => pat_Subtree p' = true ∧ S (length (pat_Segments p')) ≠ S (length segs)
  | None => True
  end →
  let q := send method segs query apiKey key body in
  dispatch decode_text server trace q = next trace q.
Proof.
  intros Hs Hne Hm Hk H1 H2 q. unfold dispatch.
  rewrite (route_plain segs Hs Hne (routes decode_text server) q p (requireAPIKey server next)) by done.
  unfold requireAPIKey. rewrite decide_True; [done|].
  assert (E : provided_key q = apiKey); [|by rewrite E].
  unfold provided_key. change (Header q "X-API-Key") with apiKey.
  change (HasPrefix (Header q "Authorization") "Bearer ") with false. by rewrite andb_false_r.
Qed.

Lemma parse_path_id id : segment_ok id → parseTransactionPath (path_of ["v1"; "transactions"; id]) = Some (id, "").
Proof.
  intros (H1 & _ & _ & H2 & _). unfold parseTransactionPath, path_of.
  change ("/" +:+ Join "/" ["v1"; "transactions"; id]) with ("/v1/transactions/" +:+ id). rewrite TrimPrefix_app.
  rewrite decide_False.
  2: { intros [E|E]; [|done]. apply (f_equal String.length) in E. rewrite string_length_app in E. simpl in E. lia. }
  by rewrite TrimByte_no, Split_single.
Qed.
Lemma parse_path_action id action :
  segment_ok id → segment_ok action →
  parseTransactionPath (path_of ["v1"; "transactions"; id; action]) = Some (id, action).
Proof.
  intros (H1 & _ & _ & H2 & _) (H3 & _ & _ & H4 & _). unfold parseTransactionPath, path_of.
  change ("/" +:+ Join "/" ["v1"; "transactions"; id; action]) with ("/v1/transactions/" +:+ (id +:+ String "/" action)).
  rewrite TrimPrefix_app. rewrite decide_False.
  2: { intros [E|E]; apply (f_equal String.length) in E; rewrite !string_length_app in E; simpl in E; lia. }
  rewrite TrimByte_ends, Split_app, Split_single by done. done.
Qed.

(** Every operation a client can express is the one the service is asked for. *)
Lemma client_dispatch apiKey r q :
  sendable r → client apiKey r = Ok q → apiKeys server = [] ∨ apiKey ∈ apiKeys server →
  ∃ r', dispatch decode_text server trace q = Invoke r' (success_status r) ∧ received trace r r'.
Proof.
  intros Hs Hq Hk.
  assert (Hnl : ws newline) by done.
  destruct r as [chain key|tr request key|id signer|id|id|filter]; cbn [client sendable received success_status] in *.
  - injection Hq as <-. erewrite send_dispatch; [|by_compute|done|done|done|reflexivity|exact I].
    eexists. split; [|done]. unfold createWallet.
    rewrite (decodeJSON_text decode_text dec_createWallet _ "" (struct_text [("chain", Some (quote chain))]) newline chain); try done.
    + by apply struct_readable, one_field_ok, utf8_ascii.
    + by apply one_field_decode; [apply utf8_ascii|].
  - destruct (marshal_request request) as [t|] eqn:Ht; [|done]. injection Hq as <-.
    erewrite send_dispatch; [|by_compute|done|done|done|reflexivity|exact I].
    destruct (request_carried eq carries_eq true request t t Hs Ht eq_refl) as (md & Hmd & Hc).
    eexists. split; [|by exists md]. unfold proposeTransaction.
    rewrite (decodeJSON_text decode_text (dec_request true zero_request) _ "" t newline (with_metadata md request)); try done.
    by eapply marshal_request_readable.
  - injection Hq as <-. destruct Hs as [Hid Hs].
    assert (Hsegs : Forall segment_ok ["v1"; "transactions"; id; "cosign"]).
    { repeat (constructor; [done||by_compute|]). constructor. }
    erewrite send_dispatch; [|done|done|done|done|reflexivity|vm_compute; split; [done|congruence]].
    eexists. split; [|done]. unfold transactionAction. cbn [send Path Method].
    rewrite parse_path_action by (done || by_compute). cbn.
    unfold cosign.
    rewrite (decodeJSON_text decode_text dec_cosign _ "" (struct_text [("signer_id", Some (quote signer))]) newline signer); try done.
    + by apply struct_readable, one_field_ok, utf8_ascii.
    + by apply one_field_decode; [apply utf8_ascii|].
  - injection Hq as <-.
    assert (Hsegs : Forall segment_ok ["v1"; "transactions"; id; "broadcast"]).
    { repeat (constructor; [done||by_compute|]). constructor. }
    erewrite send_dispatch; [|done|done|done|done|reflexivity|vm_compute; split; [done|congruence]].
    eexists. split; [|done]. unfold transactionAction. cbn [send Path Method].
    rewrite parse_path_action by (done || by_compute). done.
  - injection Hq as <-.
    assert (Hsegs : Forall segment_ok ["v1"; "transactions"; id]).
    { repeat (constructor; [done||by_compute|]). constructor. }
    erewrite send_dispatch; [|done|done|done|done|reflexivity|vm_compute; split; [done|congruence]].
    eexists. split; [|done]. unfold transactionAction. cbn [send Path Method]. by rewrite parse_path_id.
  - injection Hq as <-. destruct Hs as [Hl Hr].
    erewrite send_dispatch; [|by_compute|done|done|done|reflexivity|exact I].
    eexists. split; [|done]. unfold listAuditEvents. cbn [send RawQuery].
    destruct (query_get_two "limit" (FormatInt (af_Limit filter)) "resource_id" (af_ResourceID filter)) as [E1 E2];
      [by repeat constructor|done|apply query_ok_int|by repeat constructor|done|done|done|].
    change ("limit=" +:+ FormatInt (af_Limit filter) +:+ "&resource_id=" +:+ af_ResourceID filter) with
      (("limit" +:+ String "=" (FormatInt (af_Limit filter))) +:+ String "&" ("resource_id" +:+ String "=" (af_ResourceID filter))).
    rewrite E1, E2. rewrite decide_False.
    2: { intros E. pose proof (SetString_FormatInt (af_Limit filter)) as Hp. by rewrite E in Hp. }
    rewrite ParseInt_FormatInt by done. by destruct filter.
Qed.
End Received.
