(* ===== verification/Wiring.v ===== *)
(** * Process wiring (src/cmd/custody-api/main.go)

    How [main] turns the configuration into a policy, a chain registry, a
    signing backend and the service around them; the life of the process is in
    [Process]. *)
From Stdlib Require Import Ascii.
From S2P Require Import Prelude GoStd GoError Types Metrics Config Interfaces Ethereum Bitcoin Evm Chains Signing.
From S2P Require Import StoreSpec MemoryStore Service System.

(** A nil set and an empty one behave alike: see [Policy]. *)
Definition signerSet (signers : list string) : gset string := list_to_set signers.

Definition cloneBigInt (value : option Z) : option Z :=
  match value with None => None | Some v => Some v end.

Definition policy_of (cfg : Config.Config) : Policy :=
  mkPolicy (signerSet (SignerIDs cfg)) (MaxBTCAmountSats cfg) (cloneBigInt (Config.MaxEVMAmountWei cfg)).

Definition registry_of `{Ethereum} (cfg : Config.Config) : gmap Chain Adapter :=
  NewChainRegistry [BitcoinAdapter (Bitcoin.NewAdapter (BitcoinNetwork cfg));
                    EVMAdapter (Evm.NewAdapter (EVMChainID cfg) [EVMRPCURL cfg])].

(** [main] up to [NewService], around an opened store; an error exits. *)
Definition wire `{Ethereum} {St} (custodyStore : St) (cfg : Config.Config)
    : res (World St DemoQuorumBackend Adapter) :=
  match NewDemoQuorumBackend [WithEVMPrivateKey (EVMDevPrivateKey cfg)] with
  | Err e => Err e
  | Ok signer => Ok (mkWorld custodyStore signer (registry_of cfg) NewMetrics [])
  end.

(** ** Lemmas *)

Lemma signerAllowed_set signers btc evm s :
  signerAllowed (mkPolicy (signerSet signers) btc evm) s = true ↔ signers = [] ∨ s ∈ signers.
Proof.
  unfold signerAllowed, signerSet. cbn [AllowedSigners]. case_decide as Hsz.
  - apply size_empty_inv in Hsz. split; [|done]. intros _. left.
    destruct signers as [|x l]; [done|]. set_solver.
  - rewrite bool_decide_eq_true, elem_of_list_to_set. split; [by right|].
    intros [->|?]; [by destruct Hsz|done].
Qed.

Lemma registry_chains `{Ethereum} cfg chain :
  is_Some (registry_of cfg !! chain) → chain = ChainBitcoin ∨ chain = ChainEVM.
Proof.
  unfold registry_of, NewChainRegistry. simpl. rewrite !lookup_insert.
  repeat case_decide; subst; [by right|by left|]. intros Hs. by destruct Hs.
Qed.
