(* ===== verification/Process.v ===== *)
(** * The life of the process
      (src/cmd/custody-api/main.go, OpenPostgres and RunMigrations of
      src/internal/store/postgres.go)

    [main] as a program over what it asks of the outside: the connection pool,
    the migration scripts, the HTTP server and the operating system's signals.
    Log lines are left out. *)
From Stdlib Require Import Ascii.
From stdpp Require Import sorting.
From S2P Require Import Prelude GoStd GoError Types Config Interfaces Ethereum Signing Service Api Wiring.

(** How [ListenAndServe] and the wait for SIGINT or SIGTERM end. *)
Inductive Stop := Signalled | ServeFailed (err : GoError).

Inductive peff : Type → Type :=
| PConnect (databaseURL : string) : peff (res unit)              (* pgxpool.New *)
| PExec (sql : string) : peff (res unit)                         (* pool.Exec of a script *)
| PClose : peff unit                                             (* pool.Close *)
| PServe (addr : string) (server : Server) (policy : Policy) : peff Stop
| PShutdown (grace : Z) : peff (res unit).                       (* server.Shutdown *)

(** The embedded directory: a file has a content, a subdirectory none. *)
Abbreviation EmbedFS := (gmap string (option string)).
Definition migration_names (fs : EmbedFS) : list string :=
  SortStrings (omap (λ e : string * option string, match e.2 with Some _ => Some e.1 | None => None end) (map_to_list fs)).

Fixpoint run_scripts (fs : EmbedFS) (names : list string) : prog peff (res unit) :=
  match names with
  | [] => mret (Ok tt)
  | name :: rest =>
      match mjoin (fs !! name) with
      | None => mret (Err (ErrNew "file does not exist"))
      | Some sql =>
          r ← call (PExec sql);
          match r with
          | Err err => mret (Err (ErrWrap ("run migration " +:+ name +:+ ": ") err ""))
          | Ok _ => run_scripts fs rest
          end
      end
  end.
Definition RunMigrations (fs : EmbedFS) : prog peff (res unit) := run_scripts fs (migration_names fs).

Definition OpenPostgres (fs : EmbedFS) (databaseURL : string) : prog peff (res unit) :=
  call (PConnect databaseURL) ;;?
  (r ← RunMigrations fs;
   match r with
   | Err err => _ ← call PClose; mret (Err err)
   | Ok _ => mret (Ok tt)
   end).

(** The function [openStore] hands back to close the store: [func() {}] or
    [postgresStore.Close]. *)
Inductive Closer := CloseNothing | ClosePool.
Definition close (c : Closer) : prog peff unit := match c with CloseNothing => mret tt | ClosePool => call PClose end.
Definition openStore (fs : EmbedFS) (cfg : Config.Config) : prog peff (res Closer) :=
  if decide (DatabaseURL cfg = "") then mret (Ok CloseNothing)
  else OpenPostgres fs (DatabaseURL cfg) ;;? mret (Ok ClosePool).

(** [main]; its result is the exit status.  [os.Exit] runs no deferred call. *)
Definition main `{Ethereum} (fs : EmbedFS) (cfg : Config.Config) : prog peff nat :=
  opened ← openStore fs cfg;
  match opened with
  | Err _ => mret 1
  | Ok closeStore =>
      match NewDemoQuorumBackend [WithEVMPrivateKey (EVMDevPrivateKey cfg)] with
      | Err _ => mret 1
      | Ok _ =>
          stop ← call (PServe (HTTPAddr cfg) (NewServer [WithAPIKeys (APIKeys cfg)]) (policy_of cfg));
          match stop with
          | ServeFailed _ => mret 1
          | Signalled =>
              r ← call (PShutdown (ShutdownGraceTime cfg));
              match r with
              | Err _ => mret 1
              | Ok _ => _ ← close closeStore; mret 0
              end
          end
      end
  end.

(** ** What the outside observes *)
Inductive Did :=
| Connected (databaseURL : string) (ok : bool)
| Migrated (sql : string) (ok : bool)
| PoolClosed
| Served (addr : string) (server : Server) (policy : Policy)
| ShutDown (grace : Z) (ok : bool).
Definition succeeded {A} (r : res A) : bool := match r with Ok _ => true | Err _ => false end.
Definition did {X} (e : peff X) : X → Did :=
  match e in peff X return X → Did with
  | PConnect url => λ r, Connected url (succeeded r)
  | PExec sql => λ r, Migrated sql (succeeded r)
  | PClose => λ _, PoolClosed
  | PServe addr server policy => λ _, Served addr server policy
  | PShutdown grace => λ r, ShutDown grace (succeeded r)
  end.
(** The outside answers as it likes. *)
Definition Outside : Type := ∀ X, peff X → X.
Definition observe (X : Type) (e : peff X) (answer : Outside) (log : list Did) : X * list Did :=
  let x := answer X e in (x, log ++ [did e x]).

(** ** The scripts *)
Definition scripts (fs : EmbedFS) : list string := omap (λ name, mjoin (fs !! name)) (migration_names fs).
Lemma migration_names_read fs : Forall (λ name, ∃ sql, mjoin (fs !! name) = Some sql) (migration_names fs).
Proof.
  apply Forall_forall. intros name Hn. unfold migration_names in Hn. rewrite SortStrings_perm in Hn.
  apply list_elem_of_omap in Hn as ([k [sql|]] & Hin & [= ->]). apply elem_of_map_to_list in Hin. exists sql. by rewrite Hin.
Qed.

Lemma run_scripts_log fs names env n log :
  Forall (λ name, ∃ sql, mjoin (fs !! name) = Some sql) names →
  let '(r, m, log') := run observe env n (run_scripts fs names) log in
  let all := omap (λ name, mjoin (fs !! name)) names in
  (r = Ok tt ∧ log' = log ++ ((λ sql, Migrated sql true) <$> all)) ∨
  (∃ e before name sql after, r = Err (ErrWrap ("run migration " +:+ name +:+ ": ") e "") ∧ mjoin (fs !! name) = Some sql ∧
     all = before ++ sql :: after ∧ log' = log ++ ((λ sql, Migrated sql true) <$> before) ++ [Migrated sql false]).
Proof.
  intros Hf. revert n log. induction Hf as [|name names [sql Hs] _ IH]; intros n log; simpl.
  { left. by rewrite app_nil_r. }
  rewrite Hs. simpl. destruct (env n _ (PExec sql)) as [u|e] eqn:He; simpl; rewrite ?He; simpl.
  - specialize (IH (S n) (log ++ [Migrated sql true])).
    destruct (run observe env (S n) (run_scripts fs names) _) as [[r m] log'].
    destruct IH as [[-> ->]|(e & before & name' & sql' & after & -> & Hn & Ha & ->)]; [left|right].
    + by rewrite <- app_assoc.
    + exists e, (sql :: before), name', sql', after. split_and!; [done|done| |by rewrite <- app_assoc].
      simpl. f_equal. exact Ha.
  - right. by eexists e, [], name, sql, _.
Qed.

(** ** The whole run *)
Definition startup_log (fs : EmbedFS) (cfg : Config.Config) : list Did :=
  if decide (DatabaseURL cfg = "") then []
  else Connected (DatabaseURL cfg) true :: ((λ sql, Migrated sql true) <$> scripts fs).
Definition closing_log (cfg : Config.Config) : list Did := if decide (DatabaseURL cfg = "") then [] else [PoolClosed].
(** A start-up that failed to reach the database, or at one of the scripts. *)
Definition startup_failed (fs : EmbedFS) (cfg : Config.Config) (log : list Did) : Prop :=
  DatabaseURL cfg ≠ "" ∧
  (log = [Connected (DatabaseURL cfg) false] ∨
   ∃ before sql after, scripts fs = before ++ sql :: after ∧
     log = Connected (DatabaseURL cfg) true :: ((λ sql, Migrated sql true) <$> before) ++ [Migrated sql false; PoolClosed]).

Lemma openStore_log fs cfg env :
  let '(r, m, log) := run observe env 0 (openStore fs cfg) [] in
  (r = Ok (if decide (DatabaseURL cfg = "") then CloseNothing else ClosePool) ∧ log = startup_log fs cfg) ∨
  ((∃ e, r = Err e) ∧ startup_failed fs cfg log).
Proof.
  unfold openStore, startup_log, startup_failed. case_decide as Hurl; [by left|].
  unfold try_bind. rewrite run_bind. unfold OpenPostgres, try_bind. rewrite run_bind. cbn.
  destruct (env 0 _ (PConnect (DatabaseURL cfg))) as [u|e]; cbn; [|right; split; [eauto|]; split; [done|]; by left].
  rewrite run_bind. unfold RunMigrations.
  pose proof (run_scripts_log fs (migration_names fs) env 1 [Connected (DatabaseURL cfg) true] (migration_names_read fs)) as Hs.
  destruct (run observe env 1 _ _) as [[r m] log]. destruct Hs as [[-> ->]|(e & before & name & sql & after & -> & _ & Ha & ->)].
  - left. by split.
  - right. split; [by eexists|]. split; [done|]. right. exists before, sql, after. split; [exact Ha|].
    by rewrite <- !app_assoc.
Qed.
