(* ===== verification/Custody.v ===== *)
(** * Custody invariants

    What the service guarantees while any number of requests run interleaved,
    for every store that meets the contract of [StoreSpec], every signing
    backend and every chain adapter. *)
From Stdlib Require Import Ascii.
From S2P Require Import Prelude GoStd GoError Types Json Marshal Transport Metrics Interfaces StoreSpec Service System.

(** ** Predicates on the logical store and the history of calls *)
Section Predicates.
(** [past]: the contents the store has had. *)
Context (policy : Policy) (n : Norm) (past : AStore → Prop).
Implicit Types (s : AStore) (h : list Event) (p : TransactionProposal).

(** Every recorded approval is by a permitted signer who asked for it. *)
Definition approvals_ok h (id : string) p : Prop :=
  ∀ k a, approvals p !! k = Some a →
    ap_SignerID a = k ∧ k ≠ "" ∧ signerAllowed policy k = true ∧
    EvRequest (ReqCoSign id k) ∈ h.

Definition quorum h p : Prop := 2 ≤ ApprovalsCount p ∧ approvals_ok h (tp_ID p) p.

(** The payload [tx] is a signature the backend produced for transaction
    [id], over exactly [raw], when a quorum had approved it. *)
Definition signed_by_quorum h (id : string) (raw : RawTransaction) (chain : Chain) (tx : string) : Prop :=
  ∃ q sig, EvSign q (Ok sig) ∈ h ∧ sig_SignedTransaction sig = tx ∧ tp_ID q = id ∧
    tp_RawTransaction q = raw ∧ tp_Chain q = chain ∧ quorum h q.

(** The four stages of a proposal and what each implies. *)
Definition lifecycle p : Prop :=
  (tp_Status p = TransactionStatusProposed ∧
     tp_SignedTransaction p = "" ∧ tp_BroadcastHash p = "" ∧ tp_Error p = "")
  ∨ (tp_Status p = TransactionStatusSigned ∧ 2 ≤ ApprovalsCount p ∧
     tp_BroadcastHash p = "" ∧ tp_Error p = "")
  ∨ (tp_Status p = TransactionStatusBroadcast ∧ 2 ≤ ApprovalsCount p ∧
     tp_SignedTransaction p ≠ "" ∧ tp_Error p = "")
  ∨ (tp_Status p = TransactionStatusFailed ∧ 2 ≤ ApprovalsCount p ∧ tp_BroadcastHash p = "").

Definition normal p : Prop :=
  norm_raw n (tp_RawTransaction p) = tp_RawTransaction p ∧
  norm_request n (tp_Request p) = tp_Request p ∧ n_trace n (tp_Trace p) = tp_Trace p ∧
  n_text n (tp_BroadcastHash p) = tp_BroadcastHash p ∧ n_text n (tp_Error p) = tp_Error p.

Record txn_ok (ws : gmap string Wallet) h p : Prop := mkTxnOk {
  ok_owner : ∃ w, ws !! tp_WalletID p = Some w ∧ w_Chain w = tp_Chain p;
  ok_amount : validateAmountPolicy policy (tp_Chain p) (req_Amount (tp_Request p)) = None;
  ok_approvals : approvals_ok h (tp_ID p) p;
  ok_lifecycle : lifecycle p;
  ok_signed : tp_SignedTransaction p ≠ "" →
    signed_by_quorum h (tp_ID p) (tp_RawTransaction p) (tp_Chain p) (tp_SignedTransaction p);
  ok_normal : normal p;
  ok_texts : proposal_ok p
}.

(** An idempotency record points at a resource of its own scope. *)
Definition idem_ok s (key : string * string) (r : IdempotencyRecord) : Prop :=
  (∃ chain w, key.1 = "wallet:" +:+ chain ∧ a_wallets s !! ir_ResourceID r = Some w ∧ w_Chain w = chain)
  ∨ (∃ wid p, key.1 = "transaction:" +:+ wid ∧ a_txns s !! ir_ResourceID r = Some p ∧ tp_WalletID p = wid).

(** At some moment of the run transaction [id] was stored as a proposal with [P]. *)
Definition once (id : string) (P : TransactionProposal → Prop) : Prop :=
  ∃ s p, past s ∧ a_txns s !! id = Some p ∧ P p.

(** The metadata of an event, as the store keeps it. *)
Definition says (e : AuditEvent) (m : gmap string string) : Prop := ae_Metadata e = n_audit n (mustJSON m).
Definition failure (err : GoError) (phase : string) : gmap string string := <["error" := Error err]> {["phase" := phase]}.

Definition about s (e : AuditEvent) p : Prop :=
  ae_ResourceType e = "transaction" ∧ a_txns s !! ae_ResourceID e = Some p ∧ tp_Chain p = ae_Chain e.

(** An audit event tells the truth: what it reports of the resource it names
    happened, with the details it gives. *)
Inductive audit_ok s h (e : AuditEvent) : Prop :=
| audit_wallet v :
    ae_Type e = AuditEventWalletCreated → ae_ResourceType e = "wallet" → ae_Actor e = "" →
    a_wallets s !! ae_ResourceID e = Some v → w_Chain v = ae_Chain e → audit_ok s h e
| audit_proposed p :
    ae_Type e = AuditEventTransactionProposed → about s e p → ae_Actor e = "" →
    says e {["wallet_id" := tp_WalletID p]} →
    once (ae_ResourceID e) (λ q, tp_Status q = TransactionStatusProposed ∧ approvals q = ∅) → audit_ok s h e
| audit_approved p :
    ae_Type e = AuditEventTransactionApproved → about s e p → signerAllowed policy (ae_Actor e) = true →
    EvRequest (ReqCoSign (ae_ResourceID e) (ae_Actor e)) ∈ h →
    once (ae_ResourceID e) (λ q, is_Some (approvals q !! ae_Actor e)) → audit_ok s h e
| audit_signed p q sig :
    ae_Type e = AuditEventTransactionSigned → about s e p → ae_Actor e = "" →
    tp_Status p ≠ TransactionStatusProposed →
    EvSign q (Ok sig) ∈ h → tp_ID q = ae_ResourceID e → quorum h q → says e {["signature_id" := sig_SignatureID sig]} →
    once (ae_ResourceID e) (λ q, tp_Status q = TransactionStatusSigned ∧
      tp_SignedTransaction q = sig_SignedTransaction sig) → audit_ok s h e
| audit_broadcast p raw tx hash :
    ae_Type e = AuditEventTransactionBroadcast → about s e p → ae_Actor e = "" →
    tp_Status p ≠ TransactionStatusProposed →
    EvBroadcast (ae_Chain e) tx (Ok hash) ∈ h → signed_by_quorum h (ae_ResourceID e) raw (ae_Chain e) tx →
    says e {["broadcast_hash" := hash]} →
    once (ae_ResourceID e) (λ q, tp_Status q = TransactionStatusBroadcast ∧ tp_SignedTransaction q = tx ∧
      tp_BroadcastHash q = n_text n hash) → audit_ok s h e
| audit_sign_failed p q err :
    ae_Type e = AuditEventTransactionFailed → about s e p → ae_Actor e = "" →
    EvSign q (Err err) ∈ h → tp_ID q = ae_ResourceID e → quorum h q → says e (failure err "sign") → audit_ok s h e
| audit_broadcast_failed p raw tx err :
    ae_Type e = AuditEventTransactionFailed → about s e p → ae_Actor e = "" →
    EvBroadcast (ae_Chain e) tx (Err err) ∈ h → signed_by_quorum h (ae_ResourceID e) raw (ae_Chain e) tx →
    says e (failure err "broadcast") → audit_ok s h e.

(** What must have happened before an event: a quorum before a request to
    sign, a signature by a quorum before anything goes to a chain. *)
Definition event_ok h (ev : Event) : Prop :=
  match ev with
  | EvRequest _ => True
  | EvSign q _ => quorum h q
  | EvBroadcast chain tx _ => ∃ id raw, signed_by_quorum h id raw chain tx
  end.

Record store_inv s h : Prop := mkStoreInv {
  inv_wallets : ∀ id w, a_wallets s !! id = Some w →
    w_ID w = id ∧ has_byte "000" id = false ∧ norm_wallet n w = w ∧ utf8 id ∧ utf8 (w_Chain w);
  inv_txns : ∀ id p, a_txns s !! id = Some p → tp_ID p = id ∧ txn_ok (a_wallets s) h p;
  inv_idem : ∀ key r, a_idem s !! key = Some r → idem_ok s key r;
  inv_audit : Forall (audit_ok s h) (a_audit s);
  inv_events : ∀ h1 ev h2, h = h1 ++ ev :: h2 → event_ok h1 ev
}.

(** ** Evolution: what no request ever undoes *)
Definition same_core p p' : Prop :=
  tp_ID p = tp_ID p' ∧ tp_WalletID p = tp_WalletID p' ∧ tp_Chain p = tp_Chain p' ∧
  tp_Request p = tp_Request p' ∧ tp_RawTransaction p = tp_RawTransaction p' ∧
  tp_Trace p = tp_Trace p' ∧ tp_CreatedAt p = tp_CreatedAt p'.

(** A proposal that leaves the proposed stage never returns to it, and until
    it leaves, approvals only accumulate. *)
Definition txn_evolves p p' : Prop :=
  same_core p p' ∧
  (tp_Status p' = TransactionStatusProposed →
     tp_Status p = TransactionStatusProposed ∧ approvals p ⊆ approvals p').

Record evolves s s' : Prop := mkEvolves {
  ev_wallets : a_wallets s ⊆ a_wallets s';
  ev_txns : ∀ id p, a_txns s !! id = Some p →
    ∃ p', a_txns s' !! id = Some p' ∧ txn_evolves p p';
  ev_idem : a_idem s ⊆ a_idem s';
  ev_audit : ∃ l, a_audit s' = a_audit s ++ l
}.

#[export] Instance same_core_equiv : Equivalence same_core.
Proof.
  unfold same_core. split; [by intros p; split_and!|intros p q; intros|intros p q r; intros];
    destruct_and?; split_and!; congruence.
Qed.
#[export] Instance txn_evolves_pre : PreOrder txn_evolves.
Proof.
  split; [by intros p|]. intros p q r [? H] [? H']. split; [by etrans|].
  intros [Hq ?]%H'. destruct (H Hq). split; [done|by etrans].
Qed.
#[export] Instance evolves_pre : PreOrder evolves.
Proof.
  split.
  - intros s. split; [done| |done|by exists []; rewrite app_nil_r].
    intros id p ?. by exists p.
  - intros s1 s2 s3 [Hw Ht Hi [l Ha]] [Hw' Ht' Hi' [l' Ha']]. split.
    + by etrans.
    + intros id p (p' & (p'' & ? & ?)%Ht' & ?)%Ht. exists p''. split; [done|by etrans].
    + by etrans.
    + exists (l ++ l'). by rewrite Ha', Ha, app_assoc.
Qed.

(** ** Monotonicity *)
Definition extends h h' : Prop := ∃ l, h' = h ++ l.
#[export] Instance extends_pre : PreOrder extends.
Proof.
  split; [by intros h; exists []; rewrite app_nil_r|].
  intros h1 h2 h3 [l ->] [l' ->]. exists (l ++ l'). by rewrite app_assoc.
Qed.
Lemma extends_elem h h' e : extends h h' → e ∈ h → e ∈ h'.
Proof. intros [l ->] ?. set_solver. Qed.

Lemma approvals_ok_mono h h' id p : extends h h' → approvals_ok h id p → approvals_ok h' id p.
Proof. intros Hh H k a Ha. destruct (H k a Ha) as (?&?&?&?). eauto using extends_elem. Qed.
Lemma quorum_mono h h' p : extends h h' → quorum h p → quorum h' p.
Proof. intros ? [? ?]. split; eauto using approvals_ok_mono. Qed.
Lemma signed_by_quorum_mono h h' id raw chain tx :
  extends h h' → signed_by_quorum h id raw chain tx → signed_by_quorum h' id raw chain tx.
Proof.
  intros ? (q & sig & ? & ? & ? & ? & ? & ?). exists q, sig.
  split_and!; eauto using extends_elem, quorum_mono.
Qed.
Lemma txn_ok_mono ws ws' h h' p : ws ⊆ ws' → extends h h' → txn_ok ws h p → txn_ok ws' h' p.
Proof.
  intros Hw Hh [(w & ? & ?) ??????]. split; eauto using approvals_ok_mono, signed_by_quorum_mono.
  exists w. split; [by eapply lookup_weaken|done].
Qed.
Lemma idem_ok_mono s s' key r : evolves s s' → idem_ok s key r → idem_ok s' key r.
Proof.
  intros [Hw Ht _ _] [(c & w & ? & ? & ?)|(wid & p & ? & Hp & ?)].
  - left. exists c, w. split_and!; [done|by eapply lookup_weaken|done].
  - destruct (Ht _ _ Hp) as (p' & ? & (?&?&?) & ?). right. exists wid, p'. split_and!; congruence.
Qed.
Lemma about_mono s s' e p :
  evolves s s' → about s e p → ∃ p', about s' e p' ∧ txn_evolves p p'.
Proof.
  intros [_ Ht _ _] (? & Hp & Hc). destruct (Ht _ _ Hp) as (p' & ? & Hev). exists p'. split; [|done].
  split_and!; [done|done|]. destruct Hev as [(_ & _ & ? & _) _]. congruence.
Qed.
Lemma evolves_left p p' :
  txn_evolves p p' → tp_Status p ≠ TransactionStatusProposed → tp_Status p' ≠ TransactionStatusProposed.
Proof. intros [_ Hst] Hne [? _]%Hst. done. Qed.
Lemma audit_ok_mono s s' h h' e :
  evolves s s' → extends h h' → audit_ok s h e → audit_ok s' h' e.
Proof.
  intros Hs Hh He. destruct He as [v|p Hty Ha|p Hty Ha|p q sig Hty Ha|p raw tx hash Hty Ha|p q err Hty Ha|p raw tx err Hty Ha];
    [eapply audit_wallet; try done; eapply lookup_weaken; [done|apply Hs]|..];
    destruct (about_mono _ _ _ _ Hs Ha) as (p' & Ha' & Hev).
  - eapply audit_proposed; try done. by rewrite <- (proj1 (proj2 (proj1 Hev))).
  - eapply audit_approved; eauto using extends_elem.
  - eapply audit_signed; eauto using extends_elem, quorum_mono, evolves_left.
  - eapply audit_broadcast; eauto using extends_elem, signed_by_quorum_mono, evolves_left.
  - eapply audit_sign_failed; eauto using extends_elem, quorum_mono.
  - eapply audit_broadcast_failed; eauto using extends_elem, signed_by_quorum_mono.
Qed.
End Predicates.

(** ** The updates a handler performs keep the invariant *)
Section Updates.
Context (policy : Policy) (n : Norm) (past : AStore → Prop) (Hn : NormLaws n).
Implicit Types (s : AStore) (h : list Event) (p : TransactionProposal).
Abbreviation store_inv := (store_inv policy n past).
Abbreviation txn_ok := (txn_ok policy n).

(** What was already stored stays fine; only new entries need an argument. *)
Lemma inv_step s s' h :
  store_inv s h → evolves s s' →
  (∀ id w, a_wallets s' !! id = Some w → a_wallets s !! id = Some w ∨
     (w_ID w = id ∧ has_byte "000" id = false ∧ norm_wallet n w = w ∧ utf8 id ∧ utf8 (w_Chain w))) →
  (∀ id p, a_txns s' !! id = Some p → a_txns s !! id = Some p ∨
     (tp_ID p = id ∧ txn_ok (a_wallets s') h p)) →
  (∀ k r, a_idem s' !! k = Some r → a_idem s !! k = Some r ∨ idem_ok s' k r) →
  (∀ e, e ∈ a_audit s' → e ∈ a_audit s ∨ audit_ok policy n past s' h e) →
  store_inv s' h.
Proof.
  intros [Hw Ht Hi Ha He] Hev Hw' Ht' Hi' Ha'. split; [..|done].
  - intros id w [?|?]%Hw'; auto.
  - intros id p [H|?]%Ht'; [|done]. destruct (Ht _ _ H). split; [done|].
    eapply txn_ok_mono; [apply Hev|reflexivity|done].
  - intros k r [?|?]%Hi'; [|done]. eauto using idem_ok_mono.
  - apply Forall_forall. intros e [H|?]%Ha'; [|done].
    eapply audit_ok_mono; [done|reflexivity|]. by apply (proj1 (Forall_forall _ _) Ha).
Qed.

Lemma split_snoc {A} (l l1 l2 : list A) x y :
  l ++ [x] = l1 ++ y :: l2 → (l1 = l ∧ y = x ∧ l2 = []) ∨ ∃ l2', l = l1 ++ y :: l2'.
Proof.
  destruct l2 as [|z l2 _] using rev_ind.
  - intros [-> [= ->]]%app_inj_tail. by left.
  - change (y :: l2 ++ [z]) with ((y :: l2) ++ [z]). rewrite app_assoc.
    intros [-> _]%app_inj_tail. right. by exists l2.
Qed.

(** One more event in the history. *)
Lemma inv_history s h ev : store_inv s h → event_ok policy h ev → store_inv s (h ++ [ev]).
Proof.
  intros [Hw Ht Hi Ha He] Hev. assert (Hh : extends h (h ++ [ev])) by by eexists. split; [done|..].
  - intros id p [? ?]%Ht. eauto using txn_ok_mono.
  - done.
  - eapply Forall_impl; [done|]. intros e. by apply audit_ok_mono.
  - intros h1 x h2 [(-> & -> & _)|[h2' ?]]%split_snoc; eauto.
Qed.

Lemma evolves_put_wallet s w : a_wallets s !! w_ID w = None → evolves s (put_wallet n w s).
Proof.
  intros. split; simpl; [by apply insert_subseteq| |done|by exists []; rewrite app_nil_r].
  intros id p ?. by exists p.
Qed.
Lemma evolves_put_idem s r : a_idem s !! (ir_Scope r, ir_Key r) = None → evolves s (put_idem n r s).
Proof.
  intros. split; simpl; [done| |by apply insert_subseteq|by exists []; rewrite app_nil_r].
  intros id p ?. by exists p.
Qed.
Lemma evolves_put_event s e : evolves s (put_event n e s).
Proof. split; simpl; [done| |done|by eexists]. intros id p ?. by exists p. Qed.
Lemma evolves_put_new s p : a_txns s !! tp_ID p = None → evolves s (put_txn n p s).
Proof.
  intros Hp. split; simpl; [done| |done|by exists []; rewrite app_nil_r].
  intros id q ?. exists q. rewrite lookup_insert_ne by congruence. done.
Qed.
Lemma evolves_put_txn s p q :
  a_txns s !! tp_ID p = Some q → txn_evolves q (norm_txn n p) → evolves s (put_txn n p s).
Proof.
  intros Hq Hev. split; simpl; [done| |done|by exists []; rewrite app_nil_r].
  intros id q' Hq'. destruct (decide (id = tp_ID p)) as [->|Hne].
  - rewrite lookup_insert_eq. simplify_eq. eauto.
  - exists q'. rewrite lookup_insert_ne by congruence. done.
Qed.

Lemma inv_put_wallet s h w :
  store_inv s h → a_wallets s !! w_ID w = None → has_byte "000" (w_ID w) = false →
  utf8 (w_ID w) → utf8 (w_Chain w) → store_inv (put_wallet n w s) h.
Proof.
  intros Hs Hw Hb Hu Huc. eapply inv_step; [done|by apply evolves_put_wallet|..]; simpl; auto.
  intros id v [[<- <-]|[_ ?]]%lookup_insert_Some; [|by left]. right. split_and!; [done|done| |done|done].
  unfold norm_wallet. simpl. by rewrite (n_time_idem n Hn).
Qed.

Lemma inv_put_txn s h p :
  store_inv s h → evolves s (put_txn n p s) → txn_ok (a_wallets s) h (norm_txn n p) →
  store_inv (put_txn n p s) h.
Proof.
  intros Hs Hev Hp. eapply inv_step; [done|done|..]; simpl; auto.
  intros id q [[<- <-]|[_ ?]]%lookup_insert_Some; [by right|by left].
Qed.

Lemma inv_put_idem s h r :
  store_inv s h → a_idem s !! (ir_Scope r, ir_Key r) = None →
  idem_ok s (ir_Scope r, ir_Key r) r → store_inv (put_idem n r s) h.
Proof.
  intros Hs Hr Hok. eapply inv_step; [done|by apply evolves_put_idem|..]; simpl; auto.
  intros k r' [[<- <-]|[_ ?]]%lookup_insert_Some; [by right|by left].
Qed.

Lemma inv_put_event s h e :
  store_inv s h → audit_ok policy n past s h (norm_event n e) → store_inv (put_event n e s) h.
Proof.
  intros Hs He. pose proof (evolves_put_event s e) as Hev.
  eapply inv_step; [done|done|..]; simpl; auto.
  intros e'. rewrite elem_of_app, list_elem_of_singleton. intros [?| ->]; [by left|right].
  by eapply audit_ok_mono.
Qed.

(** Approving, signing, broadcasting and failing keep a proposal well formed. *)
Lemma norm_txn_normal p : normal n p → norm_txn n p = p.
Proof. intros (Hr & Hq & Ht & Hh & He). unfold norm_txn. rewrite Hr, Hq, Ht, Hh, He. by destruct p. Qed.

Lemma txn_ok_approve ws h p a :
  txn_ok ws h p → tp_Status p = TransactionStatusProposed → ap_SignerID a ≠ "" →
  signerAllowed policy (ap_SignerID a) = true →
  EvRequest (ReqCoSign (tp_ID p) (ap_SignerID a)) ∈ h → utf8 (ap_SignerID a) →
  txn_ok ws h (with_approval a p).
Proof.
  intros [? ? Hap Hlc ? ? Hu] Hst ? ? ? ?. split; simpl; [done|done|..|done|done|].
  - unfold approvals_ok, approvals. simpl. intros k b [[<- <-]|[_ Hb]]%lookup_insert_Some; [done|].
    by apply Hap.
  - left. destruct Hlc as [?|[[Hf _]|[[Hf _]|[Hf _]]]]; [done|by rewrite Hst in Hf..].
  - destruct Hu as (? & ? & ? & ? & ? & Hu & ? & ?). split_and!; try done.
    unfold approvals_texts. simpl. intros k b [[<- <-]|[_ Hb]]%lookup_insert_Some; [done|]. by apply Hu.
Qed.

Lemma txn_ok_sign ws h p t tx :
  txn_ok ws h p → tp_Status p = TransactionStatusProposed → 2 ≤ ApprovalsCount p →
  signed_by_quorum policy h (tp_ID p) (tp_RawTransaction p) (tp_Chain p) tx → utf8 tx →
  txn_ok ws h (with_signature t tx p).
Proof.
  intros [? ? ? Hlc ? ? Hu] Hst ? ? ?. split; simpl; try done.
  - right; left. simpl. destruct Hlc as [(?&?&?&?)|[[Hf _]|[[Hf _]|[Hf _]]]]; [done|by rewrite Hst in Hf..].
  - destruct Hu as (? & ? & ? & ? & ? & ? & ? & ?). split_and!; try done. by apply utf8_ascii.
Qed.

(** A failed or broadcast proposal as it is stored. *)
Lemma norm_txn_fail p t e :
  normal n p → norm_txn n (set_UpdatedAt t (set_Error e (set_Status TransactionStatusFailed p)))
    = set_UpdatedAt t (set_Error (n_text n e) (set_Status TransactionStatusFailed p)).
Proof. intros (Hr & Hq & Ht & Hh & He). unfold norm_txn. simpl. by rewrite Hr, Hq, Ht, Hh. Qed.
Lemma norm_txn_broadcast p t hash :
  normal n p → norm_txn n (set_UpdatedAt t (set_BroadcastHash hash (set_Status TransactionStatusBroadcast p)))
    = set_UpdatedAt t (set_BroadcastHash (n_text n hash) (set_Status TransactionStatusBroadcast p)).
Proof. intros (Hr & Hq & Ht & Hh & He). unfold norm_txn. simpl. by rewrite Hr, Hq, Ht, He. Qed.
Lemma ok_status p (v : TransactionStatus) t : utf8 v → proposal_ok p → proposal_ok (set_UpdatedAt t (set_Status v p)).
Proof. intros ? (? & ? & ? & ? & ? & ? & ? & ?). by split_and!. Qed.

Lemma txn_ok_fail ws h p t e :
  txn_ok ws h p → 2 ≤ ApprovalsCount p → tp_BroadcastHash p = "" →
  txn_ok ws h (norm_txn n (set_UpdatedAt t (set_Error e (set_Status TransactionStatusFailed p)))).
Proof.
  intros [? ? ? ? ? Hnm Hu] ? ?. rewrite norm_txn_fail by done. split; simpl; try done.
  - by do 3 right.
  - destruct Hnm as (? & ? & ? & ? & ?). split_and!; try done. by apply (n_text_idem n Hn).
  - apply (ok_status p TransactionStatusFailed t); [by apply utf8_ascii|done].
Qed.

Lemma txn_ok_broadcast ws h p t hash :
  txn_ok ws h p → tp_Status p = TransactionStatusSigned → tp_SignedTransaction p ≠ "" →
  txn_ok ws h (norm_txn n (set_UpdatedAt t (set_BroadcastHash hash (set_Status TransactionStatusBroadcast p)))).
Proof.
  intros [? ? ? Hlc ? Hnm Hu] Hst ?. rewrite norm_txn_broadcast by done. split; simpl; try done.
  - right; right; left. simpl.
    destruct Hlc as [[Hf _]|[(?&?&?&?)|[[Hf _]|[Hf _]]]]; [by rewrite Hst in Hf|done|by rewrite Hst in Hf..].
  - destruct Hnm as (? & ? & ? & ? & ?). split_and!; try done. by apply (n_text_idem n Hn).
  - apply (ok_status p TransactionStatusBroadcast t); [by apply utf8_ascii|done].
Qed.

(** A new proposal that passed the amount policy is well formed. *)
Lemma txn_ok_new ws h p w :
  ws !! tp_WalletID p = Some w → w_Chain w = tp_Chain p →
  validateAmountPolicy policy (tp_Chain p) (req_Amount (tp_Request p)) = None →
  approvals p = ∅ → tp_Status p = TransactionStatusProposed →
  tp_SignedTransaction p = "" → tp_BroadcastHash p = "" → tp_Error p = "" → normal n p → proposal_ok p →
  txn_ok ws h p.
Proof.
  intros ? ? ? Hap ? ? ? ? ? ?. split; [by exists w|done|..|done|done].
  - intros k a. by rewrite Hap, lookup_empty.
  - by left.
  - done.
Qed.

Lemma norm_txn_is_normal p : normal n (norm_txn n p).
Proof.
  unfold normal. simpl. by rewrite norm_raw_idem, norm_request_idem, (n_trace_idem n Hn), !(n_text_idem n Hn).
Qed.
End Updates.

(** ** What passing the amount policy means *)
Lemma amount_bitcoin policy amount :
  validateAmountPolicy policy ChainBitcoin amount = None →
  ∃ v, ParseInt amount = Some v ∧ (0 < v < 2^63)%Z ∧
    ((0 < MaxBitcoinAmountSats policy)%Z → (v ≤ MaxBitcoinAmountSats policy)%Z).
Proof.
  unfold validateAmountPolicy. rewrite decide_True by done.
  destruct (ParseInt amount) as [v|] eqn:Hv; [|done]. apply ParseInt_range in Hv.
  destruct (Z.leb_spec v 0); [done|]. intros H'. exists v. split_and!; [done|lia|lia|].
  intros Hm. destruct (Z.ltb_spec 0 (MaxBitcoinAmountSats policy)); [|lia].
  by destruct (Z.ltb_spec (MaxBitcoinAmountSats policy) v).
Qed.
Lemma amount_evm policy amount :
  validateAmountPolicy policy ChainEVM amount = None →
  ∃ v, SetString amount = Some v ∧ (0 < v)%Z ∧
    ∀ limit, MaxEVMAmountWei policy = Some limit → (v ≤ limit)%Z.
Proof.
  unfold validateAmountPolicy. rewrite decide_False, decide_True by done.
  destruct (SetString amount) as [v|] eqn:Hv; [|done].
  destruct (Z.leb_spec v 0); [done|]. intros H'. exists v. split_and!; [done|lia|].
  intros limit Hl. rewrite Hl in H'. by destruct (Z.ltb_spec limit v).
Qed.
