(* ===== verification/Handlers.v ===== *)
(** * Specifications of the handlers

    Rely/guarantee triples of the methods of [Service]: each keeps the custody
    invariant at every call it makes, whatever other requests do in between,
    and establishes its postcondition. *)
From Stdlib Require Import Ascii.
From S2P Require Import Prelude GoStd GoError Types Json Marshal Transport Metrics Interfaces StoreSpec Service.
From S2P Require Import System Custody.

Section Handlers.
Context {St Sg Ad : Type} `{!Store St, !StoreRefinement St, !SigningBackend Sg, !SignerLaws Sg, !ChainAdapter Ad}.
Context (policy : Policy).
Implicit Types (w : World St Sg Ad) (p : TransactionProposal).

Definition abs w : AStore := st_abs (store w).

(** The worlds the run goes through, and the contents its store has had. *)
Context (seen : World St Sg Ad → Prop).
Definition past (s : AStore) : Prop := ∃ v, seen v ∧ abs v = s.

Record winv w : Prop := mkWinv {
  winv_wf : st_wf (store w);
  winv_store : store_inv policy st_norm past (abs w) (history w);
  winv_chains : ∀ c, is_Some (chains w !! c) → has_byte "000" c = false
}.
(** Chains stay registered. *)
Definition registered w w' : Prop := ∀ c, is_Some (chains w !! c) → is_Some (chains w' !! c).
#[export] Instance registered_pre : PreOrder registered.
Proof. split; [by intros w c|]. intros w1 w2 w3 H12 H23 c ?. auto. Qed.
Definition wrel w w' : Prop :=
  evolves (abs w) (abs w') ∧ extends (history w) (history w') ∧ registered w w'.

#[export] Instance wrel_pre : PreOrder wrel.
Proof.
  split; [by intros w; split_and!|]. intros w1 w2 w3 (? & ? & ?) (? & ? & ?). split_and!; by etrans.
Qed.

Abbreviation wp := (wp (E := eff) (W := World St Sg Ad) (seen_rel seen) winv wrel).

(** What a goroutine knows of a proposal it read: it was well formed, and the
    stored one has evolved from it. *)
Definition known w p : Prop :=
  txn_ok policy st_norm (a_wallets (abs w)) (history w) p ∧
  ∃ p', a_txns (abs w) !! tp_ID p = Some p' ∧ txn_evolves p p'.

Lemma known_mono w w' p : wrel w w' → known w p → known w' p.
Proof.
  intros (Hev & Hh & _) [Hok (p' & Hp & ?)]. split; [eapply txn_ok_mono; [apply Hev|done|done]|].
  destruct (ev_txns _ _ Hev _ _ Hp) as (p'' & ? & ?). exists p''. split; [done|by etrans].
Qed.
Lemma known_stored w id p : winv w → a_txns (abs w) !! id = Some p → known w p ∧ tp_ID p = id.
Proof.
  intros [_ Hs _] Hp. destruct (inv_txns _ _ _ _ _ Hs _ _ Hp) as [<- ?].
  split; [|done]. split; [done|]. by exists p.
Qed.

(** ** Rules for single calls *)

(** A call that touches neither the store nor the history. *)
Definition quiet {X} (e : eff X) : Prop :=
  ∀ w x w', exec_rel X e w x w' → store w' = store w ∧ history w' = history w ∧
    ∀ c, is_Some (chains w' !! c) ↔ is_Some (chains w !! c).

Lemma wp_quiet {X} (e : eff X) (Q : X → World St Sg Ad → Prop) w :
  quiet e → (∀ x w', wrel w w' → winv w' → Q x w') → wp (call e) Q w.
Proof.
  intros He HQ. apply wp_call. intros w1 HR HI x w2 [Hx _].
  destruct (He w1 x w2 Hx) as (Hs & Hh & Hc).
  assert (HR' : wrel w1 w2). { unfold wrel, abs. rewrite Hs, Hh. split_and!; [done..|]. intros c. apply Hc. }
  assert (HI' : winv w2).
  { destruct HI as [? ? Hch]. split; unfold abs; rewrite ?Hs, ?Hh; [done..|]. intros c ?%Hc. auto. }
  split_and!; [done|done|]. apply HQ; [by etrans|done].
Qed.

Lemma quiet_rand n : quiet (ERandRead n).
Proof. by intros w x w' [inp [= _ <-]]. Qed.
Lemma quiet_now : quiet ENow.
Proof. by intros w x w' [inp [= _ <-]]. Qed.
Lemma quiet_inc name labels : quiet (EInc name labels).
Proof. by intros w x w' [inp [= _ <-]]. Qed.
Lemma quiet_create id chain : quiet (ESignerCreateWallet id chain).
Proof. intros w x w' [inp Hx]. simpl in Hx. destruct (signer_CreateWallet _ _ _ _). by simplify_eq. Qed.
Lemma quiet_build chain source request : quiet (EBuildTransaction chain source request).
Proof.
  intros w x w' [inp Hx]. simpl in Hx. unfold Get in Hx. destruct (chains w !! chain) as [a|] eqn:Ha; [|by simplify_eq].
  destruct (adapter_BuildTransaction _ _ _ _) as [r a']. simplify_eq. simpl. split_and!; [done..|].
  intros c. destruct (decide (c = chain)) as [->|]; [by rewrite Ha, lookup_insert_eq; split|by rewrite lookup_insert_ne].
Qed.

Lemma wp_get_adapter chain (Q : bool → World St Sg Ad → Prop) w :
  (∀ w', wrel w w' → winv w' → Q false w') →
  (∀ w', wrel w w' → winv w' → is_Some (chains w' !! chain) → has_byte "000" chain = false → Q true w') →
  wp (call (EGetAdapter chain)) Q w.
Proof.
  intros Hf Ht. apply wp_call. intros w1 HR HI x w2 [[inp Hx] _]. simpl in Hx. simplify_eq.
  split_and!; [done|done|]. unfold Get. case_bool_decide as Hc; [|auto].
  apply Ht; [done|done|done|]. by apply HI.
Qed.

(** A store method: keep the invariant where it succeeds, then continue. *)
Lemma wp_store {A} (op : StoreOp A) (Q : res A → World St Sg Ad → Prop) w :
  op_ok op →
  (∀ w1 a s', wrel w w1 → winv w1 → spec_ok st_norm op (abs w1) a s' →
     store_inv policy st_norm past s' (history w1) ∧ evolves (abs w1) s') →
  (∀ w1 w2 a, wrel w w1 → winv w1 → wrel w1 w2 → winv w2 → seen w2 →
     history w2 = history w1 → spec_ok st_norm op (abs w1) a (abs w2) → Q (Ok a) w2) →
  (∀ w2 e, wrel w w2 → winv w2 → Q (Err e) w2) →
  wp (call (EStore op)) Q w.
Proof.
  intros Hop Hinv Hok Herr. apply wp_call. intros w1 HR HI x w2 [(s' & Hs & ->) Hseen].
  destruct (st_refines _ _ _ _ _ (winv_wf _ HI) Hop Hs) as [Hwf Hspec].
  set (w2 := mkWorld s' _ _ _ _) in *.
  assert (Hgood : store_inv policy st_norm past (st_abs s') (history w1) ∧ evolves (abs w1) (st_abs s') →
                  winv w2 ∧ wrel w1 w2).
  { intros [? ?]. split; [split; [done|done|apply HI]|split_and!; [done|done|by intros c]]. }
  destruct x as [a|e]; simpl in Hspec.
  - destruct Hgood as [HI2 HR2]; [eauto|]. split_and!; [done|done|]. by eapply Hok.
  - destruct Hgood as [HI2 HR2].
    { destruct Hspec as [[E _]|[_ [a Ha]]]; [|eauto]. rewrite E. split; [apply HI|done]. }
    split_and!; [done|done|]. apply Herr; [by etrans|done].
Qed.

(** Methods that only read. *)
Definition reading {A} (op : StoreOp A) : Prop :=
  op_ok op ∧ ∀ s a s', spec_ok st_norm op s a s' → s' = s.

Lemma wp_read {A} (op : StoreOp A) (Q : res A → World St Sg Ad → Prop) w :
  reading op →
  (∀ w' a, wrel w w' → winv w' → seen w' → spec_ok st_norm op (abs w') a (abs w') → Q (Ok a) w') →
  (∀ w' e, wrel w w' → winv w' → Q (Err e) w') →
  wp (call (EStore op)) Q w.
Proof.
  intros [Hop Hread] Hok Herr. apply wp_store; [done|..|done].
  - intros w1 a s' _ HI ->%Hread. split; [apply HI|done].
  - intros w1 w2 a HR _ HR' HI' Hseen _ Hspec. apply Hok; [by etrans|done|done|].
    pose proof (Hread _ _ _ Hspec) as E. by rewrite E in Hspec |- *.
Qed.

(** ** Helpers of the service *)
Lemma New_spec prefix (Q : res string → World St Sg Ad → Prop) w :
  (∀ w' id, wrel w w' → winv w' → (has_byte "000" prefix = false → has_byte "000" id = false) →
     (utf8 prefix → utf8 id) → Q (Ok id) w') →
  (∀ w' e, wrel w w' → winv w' → Q (Err e) w') →
  wp (New prefix) Q w.
Proof.
  intros Hok Herr. apply wp_try_bind, wp_quiet; [apply quiet_rand|].
  intros [raw|e] w' HR HI; [|auto]. apply Hok; [done|done|..]; intros Hp.
  - by rewrite has_byte_app, Hp, has_byte_app, EncodeToString_has_byte.
  - apply utf8_app; [done|]. apply utf8_app; [by apply utf8_ascii|apply utf8_hex].
Qed.

Abbreviation audit_ok := (audit_ok policy st_norm past).
Lemma audit_ok_fields s h e id t :
  audit_ok s h (norm_event st_norm e) →
  audit_ok s h (norm_event st_norm (mkAuditEvent id (ae_Type e) (ae_Actor e)
    (ae_ResourceType e) (ae_ResourceID e) (ae_Chain e) (ae_Metadata e) t)).
Proof.
  intros He. destruct He; [eapply audit_wallet|eapply audit_proposed|eapply audit_approved|eapply audit_signed
    |eapply audit_broadcast|eapply audit_sign_failed|eapply audit_broadcast_failed]; done.
Qed.

(** The trail holds an event of this type, by this actor, for this resource. *)
Definition audited w (ty : AuditEventType) (actor resourceID : string) : Prop :=
  ∃ e, e ∈ a_audit (abs w) ∧ ae_Type e = ty ∧ ae_Actor e = actor ∧ ae_ResourceID e = resourceID.
Lemma audited_mono w w' ty actor rid : wrel w w' → audited w ty actor rid → audited w' ty actor rid.
Proof.
  intros (Hev & _) (e & He & ?). exists e. split; [|done].
  destruct (ev_audit _ _ Hev) as [l ->]. apply elem_of_app. by left.
Qed.

Lemma appendAudit_spec event (Q : res unit → World St Sg Ad → Prop) w :
  audit_ok (abs w) (history w) (norm_event st_norm event) →
  (∀ r w', wrel w w' → winv w' →
     (∀ u, r = Ok u → audited w' (ae_Type event) (ae_Actor event) (ae_ResourceID event)) → Q r w') →
  wp (appendAudit event) Q w.
Proof.
  intros Hev HQ. apply wp_try_bind, New_spec; [|by intros; apply HQ]. intros w1 id HR1 HI1 _ _.
  apply wp_bind, wp_quiet; [apply quiet_now|]. intros now w2 HR2 HI2.
  assert (HR02 : wrel w w2) by by etrans.
  apply wp_try_bind, wp_store; [done|..].
  - intros w3 [] s' HR3 HI3 ->. split; [|apply evolves_put_event].
    apply inv_put_event; [apply HI3|]. apply audit_ok_fields.
    assert (HR03 : wrel w w3) by by etrans. destruct HR03 as (? & ? & _). by eapply audit_ok_mono.
  - intros w3 w4 [] HR3 HI3 HR4 HI4 _ _ Habs.
    apply wp_bind, wp_quiet; [apply quiet_inc|]. intros [] w5 HR5 HI5.
    apply HQ; [by do 3 (etrans; [done|])|done|]. intros _ _. eapply audited_mono; [done|].
    eexists. rewrite Habs. split; [apply elem_of_app; right; by apply list_elem_of_singleton|done].
  - intros w3 e HR3 HI3. by apply HQ; [etrans|..].
Qed.

(** Replacing the stored proposal by a later version of one the goroutine
    knows, well formed once stored. *)
Lemma same_core_norm p q : normal st_norm p → same_core p q → same_core q (norm_txn st_norm q).
Proof.
  intros (Hr & Hq & Ht & _) (_ & _ & _ & Er & Ew & Et & _).
  split_and!; simpl; try done; congruence.
Qed.
Lemma wp_update p q (Q : res unit → World St Sg Ad → Prop) w :
  known w p → same_core p q → tp_Status q ≠ TransactionStatusProposed → proposal_ok q →
  (∀ w', wrel w w' → txn_ok policy st_norm (a_wallets (abs w')) (history w') (norm_txn st_norm q)) →
  (∀ w', wrel w w' → winv w' → seen w' → a_txns (abs w') !! tp_ID q = Some (norm_txn st_norm q) → Q (Ok tt) w') →
  (∀ w' e, wrel w w' → winv w' → Q (Err e) w') →
  wp (call (EStore (OpUpdateTransaction q))) Q w.
Proof.
  intros Hk Hc Hst Hu Hok HQ Herr.
  assert (Hnq : same_core q (norm_txn st_norm q)) by (eapply same_core_norm; [eapply ok_normal, Hk|done]).
  assert (Hput : ∀ w1, wrel w w1 → winv w1 → evolves (abs w1) (put_txn st_norm q (abs w1))).
  { intros w1 HR1 HI1. destruct (known_mono _ _ _ HR1 Hk) as [_ (p' & Hp' & [Hc' _])].
    eapply evolves_put_txn; [by rewrite <- (proj1 Hc)|].
    split; [|by intros ?]. etrans; [symmetry; exact Hc'|]. etrans; [exact Hc|exact Hnq]. }
  apply wp_store; [done|..|done].
  - intros w1 [] s' HR1 HI1 [_ ->]. specialize (Hput w1 HR1 HI1).
    split; [|done]. apply inv_put_txn; [apply HI1|done|]. by apply Hok.
  - intros w1 w2 [] HR1 HI1 HR2 HI2 Hseen _ [_ Habs]. apply HQ; [by etrans|done|done|].
    by rewrite Habs; simpl; rewrite lookup_insert_eq.
Qed.

Lemma failTransaction_spec p cause phase (Q : res unit → World St Sg Ad → Prop) w :
  known w p → 2 ≤ ApprovalsCount p → tp_BroadcastHash p = "" →
  (∀ r w', wrel w w' → winv w' → Q r w') →
  wp (failTransaction p cause phase) Q w.
Proof.
  intros Hk Hc Hh HQ. apply wp_bind, wp_quiet; [apply quiet_now|]. intros now w1 HR1 HI1.
  apply wp_bind, wp_update with (p := p); [by eapply known_mono|by split_and!|done| |..].
  - apply (ok_status p TransactionStatusFailed now); [by apply utf8_ascii|]. by eapply ok_texts, Hk.
  - intros w2 HR2. apply txn_ok_fail; [apply st_norm_laws| |done|done].
    by eapply known_mono; [|exact Hk]; etrans.
  - intros w2 HR2 HI2 _ _. apply HQ; [by etrans|done].
  - intros w2 e HR2 HI2. apply HQ; [by etrans|done].
Qed.

(** An event about a proposal the goroutine knows names the stored one. *)
Abbreviation txn_event ty actor p md := (norm_event st_norm (auditEvent ty actor "transaction" (tp_ID p) (tp_Chain p) md)).
Lemma known_about w p ty actor md :
  known w p → ∃ p', about (abs w) (txn_event ty actor p md) p' ∧ txn_evolves p p'.
Proof.
  intros [_ (p' & Hp & Hev)]. exists p'. split; [|done]. split_and!; [done|done|].
  symmetry. apply Hev.
Qed.
Lemma says_norm ty actor rt id chain m :
  says st_norm (norm_event st_norm (auditEvent ty actor rt id chain (mustJSON m))) m.
Proof. reflexivity. Qed.
Lemma once_stored w id p (P : TransactionProposal → Prop) : seen w → a_txns (abs w) !! id = Some p → P p → once past id P.
Proof. intros ? ? ?. exists (abs w), p. split_and!; [by exists w|done|done]. Qed.

Lemma audit_sign_failure w p err :
  known w p → 2 ≤ ApprovalsCount p → EvSign p (Err err) ∈ history w →
  audit_ok (abs w) (history w) (txn_event AuditEventTransactionFailed "" p (mustJSON (failure err "sign"))).
Proof.
  intros Hk Hc Hs. destruct (known_about _ _ AuditEventTransactionFailed "" (mustJSON (failure err "sign")) Hk) as (p' & Ha & _).
  eapply audit_sign_failed; [done|done|done|done|done| |apply says_norm]. split; [done|]. apply Hk.
Qed.
Lemma audit_broadcast_failure w p err :
  known w p → tp_SignedTransaction p ≠ "" →
  EvBroadcast (tp_Chain p) (tp_SignedTransaction p) (Err err) ∈ history w →
  audit_ok (abs w) (history w) (txn_event AuditEventTransactionFailed "" p (mustJSON (failure err "broadcast"))).
Proof.
  intros Hk Hc Hs. destruct (known_about _ _ AuditEventTransactionFailed "" (mustJSON (failure err "broadcast")) Hk) as (p' & Ha & _).
  eapply audit_broadcast_failed; [done|done|done|done| |apply says_norm]. exact (ok_signed _ _ _ _ _ (proj1 Hk) Hc).
Qed.

Lemma record_failure_spec p err phase (Q : res TransactionProposal → World St Sg Ad → Prop) w :
  known w p → 2 ≤ ApprovalsCount p → tp_BroadcastHash p = "" →
  audit_ok (abs w) (history w) (txn_event AuditEventTransactionFailed "" p (mustJSON (failure err phase))) →
  (∀ w', wrel w w' → winv w' → Q (Err err) w') →
  wp (record_failure p err phase) Q w.
Proof.
  intros Hk Hc Hh Ha HQ. apply wp_bind, failTransaction_spec; [done..|]. intros r1 w1 HR1 HI1.
  apply wp_bind, appendAudit_spec.
  - destruct HR1 as (? & ? & _). by eapply audit_ok_mono.
  - intros r2 w2 HR2 HI2 _. apply HQ; [by etrans|done].
Qed.

(** ** Asking the backend to sign, and a chain to broadcast *)
Lemma wp_sign p (Q : res Signature → World St Sg Ad → Prop) w :
  known w p → 2 ≤ ApprovalsCount p →
  (∀ r w', wrel w w' → winv w' → EvSign p r ∈ history w' →
     (∀ sig, r = Ok sig → utf8 (sig_SignedTransaction sig)) → Q r w') →
  wp (call (ESignTransaction p)) Q w.
Proof.
  intros Hk Hc HQ. apply wp_call. intros w1 HR HI x w2 [[inp Hx] _]. simpl in Hx.
  destruct (signer_SignTransaction p inp (signer w1)) as [r g] eqn:Hsign. simplify_eq.
  set (w2 := mkWorld _ _ _ _ _).
  assert (Hh : extends (history w1) (history w2)) by by eexists.
  assert (HR2 : wrel w1 w2) by (split_and!; [done|done|by intros c]).
  assert (HI2 : winv w2).
  { destruct HI as [? Hs ?]. split; [done| |done]. apply inv_history; [done|].
    split; [done|]. by eapply ok_approvals, known_mono. }
  split_and!; [done|done|]. apply HQ; [by etrans|done|simpl; set_solver|].
  intros sig ->. by eapply signed_utf8.
Qed.

Lemma wp_broadcast chain tx (Q : res string → World St Sg Ad → Prop) w :
  is_Some (chains w !! chain) → (∃ id raw, signed_by_quorum policy (history w) id raw chain tx) →
  (∀ r w', wrel w w' → winv w' → EvBroadcast chain tx r ∈ history w' → Q r w') →
  wp (call (EBroadcast chain tx)) Q w.
Proof.
  intros Hc (id & raw & Hq) HQ. apply wp_call. intros w1 HR HI x w2 [[inp Hx] _]. simpl in Hx.
  destruct HR as (Hev & Hex & Hrg). destruct (Hrg _ Hc) as [a Ha]. unfold Get in Hx. rewrite Ha in Hx.
  destruct (adapter_Broadcast tx inp a) as [r a']. simplify_eq.
  set (w2 := mkWorld _ _ _ _ _).
  assert (Hchains : ∀ c, is_Some (chains w2 !! c) ↔ is_Some (chains w1 !! c)).
  { intros c. simpl. destruct (decide (c = chain)) as [->|]; [by rewrite Ha, lookup_insert_eq|by rewrite lookup_insert_ne]. }
  assert (HR2 : wrel w1 w2) by (split_and!; [done|by eexists|intros c; apply Hchains]).
  assert (HI2 : winv w2).
  { destruct HI as [? Hs Hch]. split; [done| |intros c ?%Hchains; auto].
    apply inv_history; [done|]. exists id, raw. by eapply signed_by_quorum_mono. }
  split_and!; [done|done|]. apply HQ; [|done|simpl; set_solver]. etrans; [|done]. by split_and!.
Qed.

Lemma wp_mark p sig (Q : res (TransactionProposal * bool) → World St Sg Ad → Prop) w :
  known w p → 2 ≤ ApprovalsCount p → EvSign p (Ok sig) ∈ history w → utf8 (sig_SignedTransaction sig) →
  (∀ w' v b, wrel w w' → winv w' → seen w' → a_txns (abs w') !! tp_ID p = Some v →
     tp_Status v ≠ TransactionStatusProposed →
     (b = true → tp_Status v = TransactionStatusSigned ∧ tp_SignedTransaction v = sig_SignedTransaction sig) →
     Q (Ok (v, b)) w') →
  (∀ w' e, wrel w w' → winv w' → Q (Err e) w') →
  wp (call (EStore (OpMarkTransactionSigned (tp_ID p) (sig_SignedTransaction sig)))) Q w.
Proof.
  intros Hk Hc Hsig Hu HQ Herr.
  assert (Hput : ∀ w1 p' t, wrel w w1 → winv w1 → a_txns (abs w1) !! tp_ID p = Some p' →
    tp_Status p' = TransactionStatusProposed →
    let v := with_signature t (sig_SignedTransaction sig) p' in
    tp_ID v = tp_ID p ∧ txn_ok policy st_norm (a_wallets (abs w1)) (history w1) v ∧
    evolves (abs w1) (put_txn st_norm v (abs w1))).
  { intros w1 p' t HR1 HI1 Hp' Hst v.
    destruct (known_mono _ _ _ HR1 Hk) as [Hok (p'' & ? & [Hcore Hap])]. simplify_eq.
    destruct (known_stored _ _ _ HI1 Hp') as [[Hok' _] Hid].
    destruct (Hap Hst) as [_ Hsub%map_subseteq_size].
    assert (Hv : txn_ok policy st_norm (a_wallets (abs w1)) (history w1) v).
    { apply txn_ok_sign; [done|done|unfold ApprovalsCount in *; lia| |done].
      exists p, sig. destruct Hcore as (?&?&?&?&?&_), HR1 as (_ & Hh & _).
      split_and!; [by eapply extends_elem|done..|]. split; [done|]. apply Hok. }
    split_and!; [exact Hid|done|]. eapply evolves_put_txn; [by rewrite <- Hid in Hp'|].
    rewrite norm_txn_normal by by eapply ok_normal. by split. }
  apply wp_store; [done|..|done].
  - intros w1 [v b] s' HR1 HI1 (p' & Hp' & [(_ & _ & ->)|(Hst & ? & [t Hv] & ->)]).
    { split; [apply HI1|done]. }
    simpl in *. subst v. destruct (Hput w1 p' t) as (_ & ? & ?); [done..|].
    split; [|done]. apply inv_put_txn; [apply HI1|done|].
    by rewrite norm_txn_normal by by eapply ok_normal.
  - intros w1 w2 [v b] HR1 HI1 HR2 HI2 Hseen _ (p' & Hp' & [(Hst & [= -> ->] & Habs)|(Hst & Hb & [t Hv] & Habs)]).
    + rewrite <- Habs in Hp'. apply HQ; [by etrans|done..].
    + simpl in *. destruct (Hput w1 p' t) as (Hid & Hok & _); [done..|]. rewrite <- Hv in Hok.
      apply HQ; [by etrans|done|done| |by rewrite Hv|by rewrite Hv].
      assert (tp_ID v = tp_ID p) as <- by by rewrite Hv.
      rewrite Habs. simpl. rewrite lookup_insert_eq. by rewrite norm_txn_normal by by eapply ok_normal.
Qed.

(** ** Postconditions *)
Definition post_wallet (chain : Chain) (key : string) (v : Wallet) w : Prop :=
  w_Chain v = chain ∧ a_wallets (abs w) !! w_ID v = Some (norm_wallet st_norm v) ∧
  (key ≠ "" → ∃ ex, a_idem (abs w) !! ("wallet:" +:+ chain, key) = Some ex ∧ ir_ResourceID ex = w_ID v).

Definition post_propose (request : TransactionRequest) (key : string) p w : Prop :=
  tp_WalletID p = req_WalletID request ∧
  (∃ p', a_txns (abs w) !! tp_ID p = Some p' ∧ same_core (norm_txn st_norm p) p') ∧
  (key ≠ "" → ∃ ex, a_idem (abs w) !! ("transaction:" +:+ req_WalletID request, key) = Some ex ∧
     ir_ResourceID ex = tp_ID p).

Definition post_create (chain : Chain) (key : string) (v : Wallet) w : Prop :=
  post_wallet chain key v w ∧ (key = "" → audited w AuditEventWalletCreated "" (w_ID v)).
Definition post_proposed (request : TransactionRequest) (key : string) p w : Prop :=
  post_propose request key p w ∧ (key = "" → audited w AuditEventTransactionProposed "" (tp_ID p)).

(** [p] was the stored proposal at a moment after the request had arrived. *)
Definition answered (r : Request) (id : string) p : Prop :=
  ∃ v, seen v ∧ EvRequest r ∈ history v ∧ a_txns (abs v) !! id = Some p.

Definition post_cosign (id signerID : string) p w : Prop :=
  tp_ID p = id ∧ signerID ≠ "" ∧ signerAllowed policy signerID = true ∧ known w p ∧
  answered (ReqCoSign id signerID) id p ∧
  (tp_Status p = TransactionStatusProposed →
     ApprovalsCount p < 2 ∧ is_Some (approvals p !! signerID)) ∧
  audited w AuditEventTransactionApproved signerID id.

Definition post_broadcast (id : string) p w : Prop :=
  tp_ID p = id ∧ tp_Status p = TransactionStatusBroadcast ∧
  signed_by_quorum policy (history w) id (tp_RawTransaction p) (tp_Chain p) (tp_SignedTransaction p) ∧
  EvBroadcast (tp_Chain p) (tp_SignedTransaction p) (Ok (tp_BroadcastHash p)) ∈ history w ∧
  audited w AuditEventTransactionBroadcast "" id.

Definition post_get (id : string) p w : Prop := tp_ID p = id ∧ known w p ∧ answered (ReqGetTransaction id) id p.

Definition post_list (f : AuditFilter) (l : list AuditEvent) w : Prop :=
  length l ≤ 200 ∧
  Forall (λ e, e ∈ a_audit (abs w) ∧ audit_matches (af_ResourceID f) e ∧
               audit_ok (abs w) (history w) e) l.

Definition post (r : Request) (a : res Response) w : Prop :=
  match r, a with
  | ReqCreateWallet chain key, Ok (RespWallet v) =>
      post_create chain key v w
  | ReqProposeTransaction _ request key, Ok (RespTransaction p) =>
      post_proposed request key p w
  | ReqCoSign id signerID, Ok (RespTransaction p) => post_cosign id signerID p w
  | ReqBroadcast id, Ok (RespTransaction p) => post_broadcast id p w
  | ReqGetTransaction id, Ok (RespTransaction p) => post_get id p w
  | ReqListAuditEvents f, Ok (RespEvents l) => post_list f l w
  | _, Err _ => True
  | _, _ => False
  end.

Lemma post_wallet_stable chain key v w w' :
  wrel w w' → post_wallet chain key v w → post_wallet chain key v w'.
Proof.
  intros ([Hw _ Hi _] & _) (? & ? & Hk). split_and!; [done|by eapply lookup_weaken|].
  intros (ex & ? & ?)%Hk. exists ex. split; [by eapply lookup_weaken|done].
Qed.
Lemma post_propose_stable request key p w w' :
  wrel w w' → post_propose request key p w → post_propose request key p w'.
Proof.
  intros ([_ Ht Hi _] & _) (? & (p' & Hp & ?) & Hk). split_and!; [done|..].
  - destruct (Ht _ _ Hp) as (p'' & ? & ? & _). exists p''. split; [done|by etrans].
  - intros (ex & ? & ?)%Hk. exists ex. split; [by eapply lookup_weaken|done].
Qed.
Lemma post_stable r a w w' : wrel w w' → winv w' → post r a w → post r a w'.
Proof.
  intros HR HI. destruct r, a as [[]|]; simpl; try done.
  - intros [? ?]. split; eauto using post_wallet_stable, audited_mono.
  - intros [? ?]. split; eauto using post_propose_stable, audited_mono.
  - intros (?&?&?&?&?&?&?). split_and!; eauto using known_mono, audited_mono.
  - intros (?&?&?&?&?). pose proof HR as (? & ? & _).
    split_and!; eauto using signed_by_quorum_mono, extends_elem, audited_mono.
  - intros (?&?&?). split_and!; eauto using known_mono.
  - intros [? Hl]. split; [done|]. eapply Forall_impl; [exact Hl|]. intros e (?&?&?).
    destruct HR as (Hev & Hh & _). split_and!; [|done|by eapply audit_ok_mono].
    destruct (ev_audit _ _ Hev) as [l' ->]. set_solver.
Qed.

(** ** Wallet creation *)
Lemma wp_create_wallet v chain key (Q : res (Wallet * bool) → World St Sg Ad → Prop) w :
  has_byte "000" (w_ID v) = false → has_byte "000" chain = false → w_Chain v = chain → utf8 (w_ID v) → utf8 chain →
  (∀ w' v' b, wrel w w' → winv w' → post_wallet chain key v' w' → (b = false → key ≠ "") → Q (Ok (v', b)) w') →
  (∀ w' e, wrel w w' → winv w' → Q (Err e) w') →
  wp (if decide (key = "") then
        call (EStore (OpCreateWallet v)) ;;? mret (Ok (v, true))
      else
        now ← call ENow;
        call (EStore (OpCreateWalletIdempotently v
          (mkIdempotencyRecord ("wallet:" +:+ chain) key "wallet" (w_ID v) now)))) Q w.
Proof.
  intros Hv Hch Hc Hu Huc HQ Herr. rewrite <- Hc in Huc. case_decide as Hkey.
  - apply wp_try_bind, wp_store; [done|..|done].
    + intros w1 [] s' HR1 HI1 [Hfree ->].
      split; [apply inv_put_wallet; [apply st_norm_laws|apply HI1|done..]|by apply evolves_put_wallet].
    + intros w1 w2 [] HR1 HI1 HR2 HI2 Hseen _ [Hfree Habs]. apply HQ; [by etrans|done| |done].
      split_and!; [done| |done]. by rewrite Habs; simpl; rewrite lookup_insert_eq.
  - apply wp_bind, wp_quiet; [apply quiet_now|]. intros now w0 HR0 HI0.
    set (r := mkIdempotencyRecord _ _ _ _ _).
    apply wp_store; [by simpl; rewrite has_byte_app, Hch|..].
    + intros w1 [v' b] s' HR1 HI1 [(ex & _ & _ & _ & ->)|(Hi & _ & Hfree & ->)].
      { split; [apply HI1|done]. }
      assert (Hinv : store_inv policy st_norm past (put_wallet st_norm v (abs w1)) (history w1))
        by (apply inv_put_wallet; [apply st_norm_laws|apply HI1|done..]).
      split.
      * apply inv_put_idem; [done|done|]. left. exists chain, (norm_wallet st_norm v). simpl.
        by rewrite lookup_insert_eq.
      * etrans; [by apply evolves_put_wallet|by apply evolves_put_idem].
    + intros w1 w2 [v' b] HR1 HI1 HR2 HI2 Hseen _ Hspec. apply HQ; [by do 2 (etrans; [done|])|done| |done].
      destruct Hspec as [(ex & Hex & ? & Hw & Habs)|(Hi & [= -> ->] & Hfree & Habs)]; simpl in *.
      * rewrite <- Habs in Hex, Hw. destruct HI2 as [_ HS _].
        destruct (inv_wallets _ _ _ _ _ HS _ _ Hw) as (Hid & _ & Hnorm & _).
        assert (w_Chain v' = chain).
        { destruct (inv_idem _ _ _ _ _ HS _ _ Hex) as [(c & v0 & E & Hv0 & Hc0)|(wid & ? & E & _)];
            [|by simpl in E]. simpl in E. simplify_eq. congruence. }
        split_and!; [done|by rewrite Hnorm, Hid|]. intros _. exists ex. by rewrite Hid.
      * split_and!; [done|..]; rewrite Habs; simpl.
        { by rewrite lookup_insert_eq. }
        intros _. eexists. by rewrite lookup_insert_eq.
    + intros w2 e HR2 HI2. apply Herr; [by etrans|done].
Qed.

Lemma CreateWallet_spec chain key w :
  utf8 chain → winv w → wp (CreateWallet chain key) (λ a w', ∀ v, a = Ok v → post_create chain key v w') w.
Proof.
  intros Huc HI. apply wp_bind, wp_get_adapter; [by intros|]. intros w1 HR1 HI1 _ Hch. cbn [negb].
  apply wp_try_bind, New_spec; [|by intros]. intros w2 id HR2 HI2 Hid Hiu.
  apply wp_try_bind, wp_quiet; [apply quiet_create|]. intros [m|e] w3 HR3 HI3; [|by intros].
  apply wp_bind, wp_quiet; [apply quiet_now|]. intros now w4 HR4 HI4.
  apply wp_try_bind, wp_create_wallet; [by apply Hid|done|done|by apply Hiu, utf8_ascii|done| |by intros].
  intros w5 v b HR5 HI5 Hpost Hb. destruct b; cbn [negb].
  2: { intros ? [= <-]. split; [done|]. intros Hk. by destruct Hb. }
  apply wp_try_bind, appendAudit_spec.
  - destruct Hpost as (? & ? & _). by eapply audit_wallet.
  - intros [[]|e] w6 HR6 HI6 Haud; [|by intros].
    apply wp_bind, wp_quiet; [apply quiet_inc|]. intros [] w7 HR7 HI7 ? [= <-]. split.
    + eapply post_wallet_stable; [|done]. by etrans.
    + intros _. eapply audited_mono; [done|]. by eapply Haud.
Qed.

(** ** Proposals *)
Lemma wp_create_txn p request key now (Q : res (TransactionProposal * bool) → World St Sg Ad → Prop) w :
  has_byte "000" (req_WalletID request) = false →
  tp_WalletID p = req_WalletID request → proposal_ok p →
  (∀ w', wrel w w' → txn_ok policy st_norm (a_wallets (abs w')) (history w') (norm_txn st_norm p)) →
  (∀ w' p' b, wrel w w' → winv w' → post_propose request key p' w' → (b = false → key ≠ "") →
     (b = true → p' = p ∧ once past (tp_ID p) (eq (norm_txn st_norm p))) → Q (Ok (p', b)) w') →
  (∀ w' e, wrel w w' → winv w' → Q (Err e) w') →
  wp (if decide (key = "") then
        call (EStore (OpCreateTransaction p)) ;;? mret (Ok (p, true))
      else
        call (EStore (OpCreateTransactionIdempotently p
          (mkIdempotencyRecord ("transaction:" +:+ req_WalletID request) key
             "transaction" (tp_ID p) now)))) Q w.
Proof.
  intros Hb Hwid Hu Hok HQ Herr. case_decide as Hkey.
  - apply wp_try_bind, wp_store; [done|..|done].
    + intros w1 [] s' HR1 HI1 [Hfree ->]. pose proof (evolves_put_new st_norm _ _ Hfree).
      split; [|done]. apply inv_put_txn; [apply HI1|done|auto].
    + intros w1 w2 [] HR1 HI1 HR2 HI2 Hseen _ [Hfree Habs].
      assert (Hp : a_txns (abs w2) !! tp_ID p = Some (norm_txn st_norm p)) by by rewrite Habs; simpl; rewrite lookup_insert_eq.
      apply HQ; [by etrans|done| |done|intros _; split; [done|by eapply once_stored]].
      split_and!; [done| |done]. by exists (norm_txn st_norm p).
  - set (r := mkIdempotencyRecord _ _ _ _ _).
    apply wp_store; [by split; [simpl; rewrite has_byte_app, Hb|]|..|done].
    + intros w1 [p' b] s' HR1 HI1 [(ex & _ & _ & _ & ->)|(Hi & _ & Hfree & ->)].
      { split; [apply HI1|done]. }
      pose proof (evolves_put_new st_norm _ _ Hfree) as Hev.
      assert (Hinv : store_inv policy st_norm past (put_txn st_norm p (abs w1)) (history w1))
        by (apply inv_put_txn; [apply HI1|done|auto]).
      split; [|etrans; [exact Hev|by apply evolves_put_idem]].
      apply inv_put_idem; [done|done|]. right. exists (req_WalletID request), (norm_txn st_norm p).
      simpl. by rewrite lookup_insert_eq.
    + intros w1 w2 [p' b] HR1 HI1 HR2 HI2 Hseen _ Hspec. apply HQ; [by etrans|done| |done|].
      2: { intros ->. destruct Hspec as [(ex & _ & ? & _)|(_ & [= ->] & _ & Habs)]; [done|]. split; [done|].
           eapply once_stored; [exact Hseen| |done]. rewrite Habs. simpl. by rewrite lookup_insert_eq. }
      destruct Hspec as [(ex & Hex & ? & Hp & Habs)|(Hi & [= -> ->] & Hfree & Habs)]; simpl in *.
      * rewrite <- Habs in Hex, Hp. destruct HI2 as [_ HS _].
        destruct (inv_txns _ _ _ _ _ HS _ _ Hp) as [Hid Hok'].
        assert (tp_WalletID p' = req_WalletID request).
        { destruct (inv_idem _ _ _ _ _ HS _ _ Hex) as [(? & ? & E & _)|(wid & p0 & E & ? & ?)];
            [by simpl in E|]. simpl in E. simplify_eq. congruence. }
        split_and!; [done| |].
        { exists p'. rewrite norm_txn_normal by by eapply ok_normal. by rewrite Hid. }
        intros _. exists ex. by rewrite Hid.
      * split_and!; [done|..]; rewrite Habs; simpl.
        { exists (norm_txn st_norm p). by rewrite lookup_insert_eq. }
        intros _. eexists. by rewrite lookup_insert_eq.
Qed.

Lemma audit_new_proposal w request key p :
  post_propose request key p w → tp_Status p = TransactionStatusProposed → approvals p = ∅ →
  once past (tp_ID p) (eq (norm_txn st_norm p)) →
  audit_ok (abs w) (history w)
    (txn_event AuditEventTransactionProposed "" p (mustJSON {["wallet_id" := tp_WalletID p]})).
Proof.
  intros (_ & (p' & Hp & Hcore) & _) Hst Hap (s & q & Hs & Hq & <-). destruct Hcore as (_ & Hw & Hc & _). simpl in Hw, Hc.
  eapply audit_proposed; [done|split_and!; [done|exact Hp|done]|done| |].
  - unfold says. simpl. by rewrite Hw.
  - exists s, (norm_txn st_norm p). by split_and!.
Qed.

(** The proposal literal of [ProposeTransaction] is well typed. *)
Lemma proposal_ok_new id wid chain request raw trace now :
  utf8 id → utf8 wid → utf8 chain → request_ok request →
  proposal_ok (mkTransactionProposal id wid chain TransactionStatusProposed request raw (Some ∅) "" "" ""
    (Some (<["trace_id" := TraceID trace]> {["span_id" := SpanID trace]})) now now).
Proof.
  intros ? ? ? ?. split_and!; simpl; try done; try by apply utf8_ascii.
  unfold trace_texts. simpl. intros k v. rewrite lookup_insert_Some, lookup_singleton_Some.
  intros [[<- _]|[_ [<- _]]]; by apply utf8_ascii.
Qed.

Lemma ProposeTransaction_spec trace request key w :
  request_ok request → winv w →
  wp (ProposeTransaction policy trace request key)
    (λ a w', ∀ p, a = Ok p → post_proposed request key p w') w.
Proof.
  intros Hreq HI. apply wp_try_bind, wp_read; [by split; [|intros s a s' [_ ?]]| |by intros].
  intros w1 source HR1 HI1 _ [Hsrc _].
  destruct (validateAmountPolicy _ _ _) eqn:Hamount; [by intros|].
  apply wp_bind, wp_get_adapter; [by intros|]. intros w2 HR2 HI2 _ Hch. cbn [negb].
  apply wp_try_bind, wp_quiet; [apply quiet_build|]. intros [raw|e] w3 HR3 HI3; [|by intros].
  apply wp_try_bind, New_spec; [|by intros]. intros w4 id HR4 HI4 _ Hiu.
  apply wp_bind, wp_quiet; [apply quiet_now|]. intros now w5 HR5 HI5.
  assert (HR15 : wrel w1 w5) by by do 3 (etrans; [done|]).
  destruct (inv_wallets _ _ _ _ _ (winv_store _ HI1) _ _ Hsrc) as (Hid & Hb & _ & Hu & Huc).
  set (p0 := mkTransactionProposal _ _ _ _ _ _ _ _ _ _ _ _ _).
  assert (Hp0 : proposal_ok p0) by (apply proposal_ok_new; [by apply Hiu, utf8_ascii|by rewrite Hid|done|done]).
  apply wp_try_bind, wp_create_txn; [done|done|done|..|by intros].
  - intros w6 HR6. assert (HR16 : wrel w1 w6) by by etrans. apply txn_ok_new with (w := source);
      [|done..|by simpl; rewrite (n_text_empty _ st_norm_laws)|by simpl; rewrite (n_text_empty _ st_norm_laws)
      |apply norm_txn_is_normal, st_norm_laws|apply norm_txn_ok; [apply st_norm_laws|done]].
    simpl. rewrite Hid. eapply lookup_weaken; [done|apply HR16].
  - intros w6 p b HR6 HI6 Hpost Hb' Hnew. destruct b; cbn [negb].
    2: { intros ? [= <-]. split; [done|]. intros Hk. by destruct Hb'. }
    destruct (Hnew eq_refl) as [-> Honce].
    apply wp_try_bind, appendAudit_spec; [by eapply audit_new_proposal|].
    intros [[]|e] w7 HR7 HI7 Haud; [|by intros].
    apply wp_bind, wp_quiet; [apply quiet_inc|]. intros [] w8 HR8 HI8 ? [= <-]. split.
    + eapply post_propose_stable; [|done]. by etrans.
    + intros _. eapply audited_mono; [done|]. by eapply Haud.
Qed.

(** ** Approval and signing *)
Lemma wp_approve id signerID now (Q : res TransactionProposal → World St Sg Ad → Prop) w :
  signerID ≠ "" → signerAllowed policy signerID = true →
  EvRequest (ReqCoSign id signerID) ∈ history w → utf8 signerID →
  (∀ w' p, wrel w w' → winv w' → seen w' → a_txns (abs w') !! id = Some p →
     tp_Status p = TransactionStatusProposed → is_Some (approvals p !! signerID) →
     Q (Ok p) w') →
  (∀ w' e, wrel w w' → winv w' → Q (Err e) w') →
  wp (call (EStore (OpAddApproval id (mkApproval signerID now)))) Q w.
Proof.
  intros Hne Hall Hreq Hu HQ Herr. set (a := mkApproval signerID now).
  assert (Hput : ∀ w1 p, wrel w w1 → winv w1 → a_txns (abs w1) !! id = Some p →
    tp_Status p = TransactionStatusProposed → approvals p !! ap_SignerID a = None →
    tp_ID p = id ∧
    txn_ok policy st_norm (a_wallets (abs w1)) (history w1) (with_approval a p) ∧
    norm_txn st_norm (with_approval a p) = with_approval a p ∧
    evolves (abs w1) (put_txn st_norm (with_approval a p) (abs w1))).
  { intros w1 p HR1 HI1 Hp Hst Hno. destruct (known_stored _ _ _ HI1 Hp) as [[Hok _] Hid].
    assert (Hok' : txn_ok policy st_norm (a_wallets (abs w1)) (history w1) (with_approval a p)).
    { apply txn_ok_approve; [done..| |done]. rewrite Hid. eapply extends_elem; [apply HR1|done]. }
    assert (Hnorm : norm_txn st_norm (with_approval a p) = with_approval a p)
      by by eapply norm_txn_normal, ok_normal.
    split_and!; [done..|]. eapply evolves_put_txn; [by rewrite <- Hid in Hp|].
    rewrite Hnorm. split; [done|]. intros _. split; [done|].
    unfold approvals. simpl. by apply insert_subseteq. }
  apply wp_store; [done|..|done].
  - intros w1 p' s' HR1 HI1 (p & Hp & Hst & Hno & -> & ->).
    destruct (Hput w1 p) as (_ & ? & Hnorm & ?); [done..|]. split; [|done].
    apply inv_put_txn; [apply HI1|done|by rewrite Hnorm].
  - intros w1 w2 p' HR1 HI1 HR2 HI2 Hseen _ (p & Hp & Hst & Hno & -> & Habs).
    destruct (Hput w1 p) as (Hid & _ & Hnorm & _); [done..|].
    apply HQ; [by etrans|done|done| |done|unfold approvals; simpl; by rewrite lookup_insert_eq].
    rewrite Habs. simpl. by rewrite Hid, lookup_insert_eq, Hnorm.
Qed.

(** A proposal that is still proposed carries no broadcast hash. *)
Lemma known_proposed_hash w p :
  known w p → tp_Status p = TransactionStatusProposed → tp_BroadcastHash p = "".
Proof.
  intros [Hok _] Hst. destruct (ok_lifecycle _ _ _ _ _ Hok) as [(?&?&?&?)|[[Hf _]|[[Hf _]|[Hf _]]]];
    [done|by rewrite Hst in Hf..].
Qed.

Lemma audit_signature w p v sig :
  known w v → tp_ID v = tp_ID p → tp_Status v ≠ TransactionStatusProposed →
  EvSign p (Ok sig) ∈ history w → quorum policy (history w) p →
  once past (tp_ID v) (λ q, tp_Status q = TransactionStatusSigned ∧ tp_SignedTransaction q = sig_SignedTransaction sig) →
  audit_ok (abs w) (history w)
    (txn_event AuditEventTransactionSigned "" v (mustJSON {["signature_id" := sig_SignatureID sig]})).
Proof.
  intros Hk Hid Hst Hsig Hq Honce.
  destruct (known_about _ _ AuditEventTransactionSigned "" (mustJSON {["signature_id" := sig_SignatureID sig]}) Hk) as (p' & Ha & Hev).
  eapply audit_signed; [done|done|done|by eapply evolves_left|done|done|done|apply says_norm|done].
Qed.

Lemma CoSign_spec id signerID w :
  utf8 signerID → winv w → EvRequest (ReqCoSign id signerID) ∈ history w →
  wp (CoSign policy id signerID) (λ a w', ∀ p, a = Ok p → post_cosign id signerID p w') w.
Proof.
  intros Hu HI Hreq. unfold CoSign. case_decide as Hne; [by intros|].
  destruct (signerAllowed policy signerID) eqn:Hall; cbn [negb]; [|by intros].
  apply wp_bind, wp_quiet; [apply quiet_now|]. intros now w1 HR1 HI1.
  apply wp_try_bind, wp_approve; [done|done|eapply extends_elem; [apply HR1|done]|done| |by intros].
  intros w2 p HR2 HI2 Hseen Hp Hst Hap. destruct (known_stored _ _ _ HI2 Hp) as [Hk Hid].
  assert (Hreq2 : EvRequest (ReqCoSign id signerID) ∈ history w2).
  { eapply extends_elem; [|exact Hreq]. etrans; [apply HR1|apply HR2]. }
  apply wp_bind, wp_quiet; [apply quiet_inc|]. intros [] w3 HR3 HI3.
  assert (Hk3 : known w3 p) by by eapply known_mono.
  apply wp_try_bind, appendAudit_spec.
  { destruct (known_about _ _ AuditEventTransactionApproved signerID None Hk3) as (p' & Ha & _).
    eapply audit_approved; [done|exact Ha|done| |]; simpl; rewrite Hid.
    - eapply extends_elem; [apply HR3|done].
    - by eapply once_stored. }
  intros [[]|e] w4 HR4 HI4 Haud; [|by intros].
  assert (Haud4 : audited w4 AuditEventTransactionApproved signerID id).
  { rewrite <- Hid. by eapply Haud. }
  assert (Hk4 : known w4 p) by by eapply known_mono.
  case_decide as Hq; [destruct Hq as [_ Hq]|].
  2: { intros ? [= <-]. split_and!; [done..| | |done]; [by exists w2|]. intros _.
       assert (¬ 2 ≤ ApprovalsCount p) by tauto. split; [lia|done]. }
  apply wp_bind, wp_sign; [done|done|]. intros r w5 HR5 HI5 Hsig Hsu.
  assert (Hk5 : known w5 p) by by eapply known_mono. destruct r as [sig|e].
  2: { apply record_failure_spec; [done|done|by eapply known_proposed_hash|by apply audit_sign_failure|by intros]. }
  apply wp_try_bind, (wp_mark p); [done|done|done|by apply Hsu| |by intros].
  intros w6 v b HR6 HI6 Hseen6 Hv Hstv Hb. destruct (known_stored _ _ _ HI6 Hv) as [Hkv Hidv].
  assert (HR26 : wrel w2 w6) by by do 3 (etrans; [done|]).
  assert (Hpost : ∀ w7, wrel w6 w7 → post_cosign id signerID v w7).
  { intros w7 HR7. split_and!; [congruence|done|done|by eapply known_mono| |done|].
    - exists w6. split_and!; [done|eapply extends_elem; [apply HR26|done]|by rewrite <- Hid].
    - eapply audited_mono; [|exact Haud4]. do 2 (etrans; [done|]). done. }
  destruct b; [|intros ? [= <-]; by apply Hpost].
  apply wp_bind, wp_quiet; [apply quiet_inc|]. intros [] w7 HR7 HI7.
  assert (HR57 : wrel w5 w7) by by etrans. destruct HR57 as (_ & Hh57 & _).
  apply wp_try_bind, appendAudit_spec.
  { apply (audit_signature _ p); [by eapply known_mono|done|done|by eapply extends_elem| |].
    - split; [done|]. eapply approvals_ok_mono; [done|]. apply Hk5.
    - rewrite Hidv. eapply once_stored; [done|exact Hv|]. by apply Hb. }
  intros [[]|e] w8 HR8 HI8 _; [|by intros]. intros ? [= <-]. apply Hpost. by etrans.
Qed.

(** ** Broadcast *)
Lemma audit_sent w p q hash :
  a_txns (abs w) !! tp_ID p = Some q → tp_Chain q = tp_Chain p → seen w →
  tp_Status q = TransactionStatusBroadcast → tp_BroadcastHash q = n_text st_norm hash →
  EvBroadcast (tp_Chain p) (tp_SignedTransaction q) (Ok hash) ∈ history w →
  signed_by_quorum policy (history w) (tp_ID p) (tp_RawTransaction p) (tp_Chain p) (tp_SignedTransaction q) →
  audit_ok (abs w) (history w)
    (txn_event AuditEventTransactionBroadcast "" p (mustJSON {["broadcast_hash" := hash]})).
Proof.
  intros Hq Hc Hseen Hst Hh Hbc Hsig. eapply audit_broadcast; [done|by split_and!|done| |done|done|apply says_norm|].
  - by rewrite Hst.
  - by eapply once_stored.
Qed.

Lemma Broadcast_spec id w :
  winv w → wp (Broadcast id) (λ a w', ∀ p, a = Ok p → post_broadcast id p w') w.
Proof.
  intros HI. apply wp_try_bind, wp_read; [by split; [|intros s a s' [_ ?]]| |by intros].
  intros w1 p HR1 HI1 _ [Hp _]. destruct (known_stored _ _ _ HI1 Hp) as [Hk Hid].
  case_decide as Hst; [by intros|].
  assert (tp_Status p = TransactionStatusSigned ∧ tp_SignedTransaction p ≠ "") as [Hsigned Htx].
  { split; [apply dec_stable|]; tauto. }
  pose proof (ok_signed _ _ _ _ _ (proj1 Hk) Htx) as Hquorum.
  apply wp_bind, wp_get_adapter; [by intros|]. intros w2 HR2 HI2 Hadapter _. cbn [negb].
  apply wp_bind, wp_broadcast; [done|..].
  { do 2 eexists. eapply signed_by_quorum_mono; [apply HR2|done]. }
  intros r w3 HR3 HI3 Hbc. assert (Hk3 : known w3 p) by (eapply known_mono; [|done]; by etrans).
  destruct r as [hash|e].
  2: { destruct (ok_lifecycle _ _ _ _ _ (proj1 Hk)) as [[Hf _]|[(?&?&?&?)|[[Hf _]|[Hf _]]]];
         try by rewrite Hsigned in Hf.
       apply record_failure_spec; [done..|by apply audit_broadcast_failure|by intros]. }
  apply wp_bind, wp_quiet; [apply quiet_now|]. intros now w4 HR4 HI4.
  set (q := set_UpdatedAt now _).
  apply wp_try_bind, wp_update with (p := p); [by eapply known_mono|by split_and!|done| |..|by intros].
  { apply (ok_status p TransactionStatusBroadcast now); [by apply utf8_ascii|]. by eapply ok_texts, Hk. }
  { intros w5 HR5. apply txn_ok_broadcast; [apply st_norm_laws| |done|done].
    eapply known_mono; [|exact Hk3]. by etrans. }
  intros w5 HR5 HI5 Hseen5 Hq.
  assert (HR35 : wrel w3 w5) by by etrans. assert (HR15 : wrel w1 w5) by by do 2 (etrans; [done|]).
  assert (Hbc5 : EvBroadcast (tp_Chain q) (tp_SignedTransaction p) (Ok hash) ∈ history w5).
  { eapply extends_elem; [apply HR35|done]. }
  assert (Hquorum5 : signed_by_quorum policy (history w5) (tp_ID p) (tp_RawTransaction p) (tp_Chain p) (tp_SignedTransaction p)).
  { eapply signed_by_quorum_mono; [apply HR15|done]. }
  apply wp_try_bind, appendAudit_spec; [exact (audit_sent w5 q (norm_txn st_norm q) hash Hq eq_refl Hseen5 eq_refl eq_refl Hbc5 Hquorum5)|].
  intros [[]|e] w6 HR6 HI6 Haud; [|by intros].
  apply wp_bind, wp_quiet; [apply quiet_inc|]. intros [] w7 HR7 HI7 ? [= <-].
  assert (HR57 : wrel w5 w7) by by etrans. split_and!; [done|done|..].
  - rewrite <- Hid. eapply signed_by_quorum_mono; [apply HR57|exact Hquorum5].
  - eapply extends_elem; [apply HR57|exact Hbc5].
  - rewrite <- Hid. eapply audited_mono; [exact HR7|]. by eapply Haud.
Qed.

Lemma GetTransaction_spec id w :
  winv w → EvRequest (ReqGetTransaction id) ∈ history w →
  wp (GetTransaction id) (λ a w', ∀ p, a = Ok p → post_get id p w') w.
Proof.
  intros HI Hreq. apply wp_read; [by split; [|intros s a s' [_ ?]]| |by intros].
  intros w1 p HR1 HI1 Hseen [Hp _] ? [= <-]. destruct (known_stored _ _ _ HI1 Hp).
  split_and!; [done|done|]. exists w1. split_and!; [done|eapply extends_elem; [apply HR1|done]|done].
Qed.

Lemma ListAuditEvents_spec f w :
  winv w → wp (ListAuditEvents f) (λ a w', ∀ l, a = Ok l → post_list f l w') w.
Proof.
  intros HI. apply wp_read; [by split; [|intros s a s' [_ ?]]| |by intros].
  intros w1 l HR1 HI1 _ [(l' & Hperm & ->) _] ? [= <-]. split.
  - rewrite length_take. unfold page_size. case_decide; lia.
  - apply Forall_forall. intros e He%elem_of_take. destruct He as (i & Hi & _).
    assert (He : e ∈ l') by by eapply list_elem_of_lookup_2.
    rewrite Hperm in He. apply list_elem_of_filter in He as [? ?].
    split_and!; [done|done|]. by eapply Forall_forall; [apply HI1|].
Qed.

(** ** All requests *)
Lemma respond_spec {A} (f : A → Response) (p : prog eff (res A)) r (Q : A → World St Sg Ad → Prop) w :
  (∀ a w', Q a w' → post r (Ok (f a)) w') → (∀ e w', post r (Err e) w') →
  wp p (λ a w', ∀ x, a = Ok x → Q x w') w → wp (respond f p) (post r) w.
Proof.
  intros Hok Herr Hp. apply wp_try_bind. eapply wp_mono; [|exact Hp].
  intros [a|e] w' H; [|by apply Herr]. apply Hok. by apply H.
Qed.

Lemma serve_spec r w :
  typed r → winv w → EvRequest r ∈ history w → wp (serve policy r) (post r) w.
Proof.
  intros Ht HI Hr. destruct r; simpl in Ht; (eapply respond_spec;
    [..|by eauto using CreateWallet_spec, ProposeTransaction_spec, CoSign_spec, Broadcast_spec,
          GetTransaction_spec, ListAuditEvents_spec]); done.
Qed.

Lemma winv_accept r w : winv w → winv (accept r w).
Proof.
  intros [? ? ?]. split; [done| |done]. by apply inv_history.
Qed.
Lemma wrel_accept r w : wrel w (accept r w).
Proof. split_and!; [done|by eexists|by intros c]. Qed.

(** Every reachable configuration, from any world that satisfies the
    invariant. *)
Lemma custody_safe w c :
  (∀ v, earlier policy w c v → seen v) → winv w → reachable policy w c →
  winv (world c) ∧ wrel w (world c) ∧
  ∀ i r a, threads c !! i = Some (r, Ret a) → post r a (world c).
Proof.
  apply reachable_safe; [apply _|apply post_stable|apply winv_accept|apply wrel_accept|apply serve_spec].
Qed.

(** From one reachable configuration to a later one. *)
Lemma steps_winv w c c' :
  (∀ v, seen v) → winv w → reachable policy w c → rtc (step policy) c c' → wrel (world c) (world c').
Proof.
  intros Hs HI Hr Hcc.
  pose proof (steps_safe policy seen winv wrel post post_stable winv_accept wrel_accept serve_spec) as Hsafe.
  destruct (Hsafe _ _ Hr) as (HI1 & _ & HT); [done|done|by constructor|].
  by destruct (Hsafe _ _ Hcc) as (_ & ? & _).
Qed.

(** A fresh deployment satisfies it. *)
Lemma winv_initial w :
  st_wf (store w) → abs w = empty_astore → history w = [] →
  (∀ c, is_Some (chains w !! c) → has_byte "000" c = false) → winv w.
Proof.
  intros Hwf Habs Hh Hc. split; [done| |done]. rewrite Habs, Hh.
  split; simpl; try done; intros *; try by rewrite lookup_empty.
  by intros ?%app_cons_not_nil.
Qed.
End Handlers.
