(* ===== verification/Flow.v ===== *)
(** * Requests served one at a time

    The exact effect of each handler over the in-memory store, with nothing
    else running, the context alive and the random source working: its answer
    and every part of the state it leaves behind. *)
From Stdlib Require Import Ascii.
From S2P Require Import Prelude GoStd GoError Types Json Metrics Interfaces StoreSpec MemoryStore Service System.

(** ** Running composed programs *)
Section Run.
Context {E : Type → Type} {W I : Type} (exec : ∀ X, E X → I → W → X * W) (env : nat → I).

Lemma run_call {X} (e : E X) n w :
  run exec env n (call e) w = let '(x, w') := exec X e (env n) w in (x, S n, w').
Proof. cbn. by destruct (exec X e (env n) w). Qed.

Lemma run_try {Er A B} (p : prog E (result Er A)) (f : A → prog E (result Er B)) n w :
  run exec env n (try_bind f p) w =
    match run exec env n p w with
    | (Ok a, n', w') => run exec env n' (f a) w'
    | (Err e, n', w') => (Err e, n', w')
    end.
Proof.
  unfold try_bind. rewrite run_bind. by destruct (run exec env n p w) as [[[a|e] n'] w'].
Qed.
End Run.

Section Flow.
Context {Sg Ad : Type} `{!SigningBackend Sg, !ChainAdapter Ad} (policy : Policy).
Implicit Types (w : World MemoryStore Sg Ad) (p : TransactionProposal).

(** An uneventful environment: the random source yields [bytes] and no
    context is cancelled. *)
Context (env : nat → Input) (bytes : nat → string).
Context (calm_ctx : ∀ i, in_ctx (env i) = None).
Context (calm_rand : ∀ i, in_rand (env i) 16 = Ok (bytes i)).
Abbreviation run := (run exec env).

(** ** Parts of the world a handler changes *)
Definition with_store (s : MemoryStore) w : World MemoryStore Sg Ad :=
  mkWorld s (signer w) (chains w) (metrics w) (history w).
Definition store_txn p w : World MemoryStore Sg Ad :=
  with_store (put_transaction (tp_ID p) p (store w)) w.
Definition count (name label value : string) w : World MemoryStore Sg Ad :=
  mkWorld (store w) (signer w) (chains w) (Inc name {[label := value]} (metrics w)) (history w).
Definition happened (ev : Event) w : World MemoryStore Sg Ad :=
  mkWorld (store w) (signer w) (chains w) (metrics w) (history w ++ [ev]).

(** The audit event stamped at call [n], appended to the trail and counted. *)
Definition stamp (n : nat) (e : AuditEvent) : AuditEvent :=
  mkAuditEvent ("aud_" +:+ EncodeToString (bytes n)) (ae_Type e) (ae_Actor e) (ae_ResourceType e)
    (ae_ResourceID e) (ae_Chain e) (ae_Metadata e) (in_now (env (S n))).
Definition log (n : nat) (e : AuditEvent) w : World MemoryStore Sg Ad :=
  let s := store w in
  count "custody_audit_events_total" "type" (ae_Type e)
    (with_store (mkMemoryStore (wallets s) (transactions s)
       (auditEvents s ++ [cloneAuditEvent (stamp n e)]) (idempotency s)) w).

Lemma run_New n prefix w :
  run n (New prefix) w = (Ok (prefix +:+ "_" +:+ EncodeToString (bytes n)), S n, w).
Proof. unfold New. rewrite run_try, run_call. cbn. by rewrite calm_rand. Qed.

Lemma run_appendAudit n e w : run n (appendAudit e) w = (Ok tt, 4 + n, log n e w).
Proof.
  unfold appendAudit. rewrite run_try, run_New, run_bind, run_call. cbn [exec].
  rewrite run_try, run_call. cbn [exec]. cbn [store_exec MemoryStore_Store sequential_store memory_exec]. unfold AppendAuditEvent, check_ctx.
  by rewrite calm_ctx.
Qed.

(** A store method whose body is known. *)
Lemma run_store {A} (op : StoreOp A) n w r s :
  store_exec op (env n) (store w) = (r, s) →
  run n (call (EStore op)) w = (r, S n, with_store s w).
Proof. intros H. rewrite run_call. cbn [exec]. by rewrite H. Qed.

(** ** Store methods on the branches the handlers take *)
Lemma store_AddApproval n w id p a :
  transactions (store w) !! id = Some p → tp_ID p = id →
  tp_Status p = TransactionStatusProposed → approvals p !! ap_SignerID a = None →
  run n (call (EStore (OpAddApproval id a))) w
    = (Ok (with_approval a p), S n, store_txn (with_approval a p) w).
Proof.
  intros Hp Hid Hst Ha. apply run_store. cbn. unfold AddApproval, check_ctx.
  rewrite calm_ctx, Hp, decide_False by tauto. rewrite approvals_match, Ha. cbv zeta.
  by rewrite !cloneProposal_id, <- Hid.
Qed.

Lemma store_AddApproval_err n w id a e :
  spec_err (OpAddApproval id a) (mem_abs (store w)) e →
  run n (call (EStore (OpAddApproval id a))) w = (Err e, S n, w).
Proof.
  intros He. rewrite (run_store _ n w (Err e) (store w)); [by destruct w|].
  cbn. unfold AddApproval, check_ctx. rewrite calm_ctx. simpl in He.
  destruct He as [[-> ->]|(p & -> & [[-> Hst]|(-> & Hst & [b Hb])])]; [done|by rewrite decide_True|].
  rewrite decide_False by tauto. by rewrite approvals_match, Hb.
Qed.

(** What [MarkTransactionSigned] leaves of a proposed transaction. *)
Definition marked (tx : string) p : TransactionProposal :=
  with_signature (latest_approval (approvals p) (tp_UpdatedAt p)) tx p.

Lemma store_MarkSigned n w id p tx :
  transactions (store w) !! id = Some p → tp_ID p = id → tp_Status p = TransactionStatusProposed →
  run n (call (EStore (OpMarkTransactionSigned id tx))) w
    = (Ok (marked tx p, true), S n, store_txn (marked tx p) w).
Proof.
  intros Hp Hid Hst. apply run_store. cbn. unfold MarkTransactionSigned, check_ctx.
  rewrite calm_ctx, Hp, decide_False by tauto. cbv zeta. by rewrite !cloneProposal_id, <- Hid.
Qed.

Lemma store_Update n w p :
  is_Some (transactions (store w) !! tp_ID p) →
  run n (call (EStore (OpUpdateTransaction p))) w = (Ok tt, S n, store_txn p w).
Proof.
  intros [q Hq]. apply run_store. cbn. unfold UpdateTransaction, check_ctx.
  rewrite calm_ctx, Hq. by rewrite cloneProposal_id.
Qed.

Lemma store_GetTransaction n w id p :
  transactions (store w) !! id = Some p →
  run n (call (EStore (OpGetTransaction id))) w = (Ok p, S n, w).
Proof.
  intros Hp. rewrite (run_store _ n w (Ok p) (store w)); [by destruct w|].
  cbn. unfold MemoryStore.GetTransaction, check_ctx. by rewrite calm_ctx, Hp, cloneProposal_id.
Qed.

(** ** Approval *)
Definition approved_event (signerID : string) p : AuditEvent :=
  auditEvent AuditEventTransactionApproved signerID "transaction" (tp_ID p) (tp_Chain p) None.

(** The world after an approval was stored, counted and logged. *)
Definition approved_world (signerID : string) p w : World MemoryStore Sg Ad :=
  log 3 (approved_event signerID p)
    (count "custody_transaction_approvals_total" "chain" (tp_Chain p) (store_txn p w)).

Record may_approve w (id signerID : string) p : Prop := mkMayApprove {
  ap_stored : transactions (store w) !! id = Some p;
  ap_id : tp_ID p = id;
  ap_proposed : tp_Status p = TransactionStatusProposed;
  ap_new : approvals p !! signerID = None;
  ap_nonempty : signerID ≠ "";
  ap_allowed : signerAllowed policy signerID = true
}.

Definition approval_at (signerID : string) : Approval := mkApproval signerID (in_now (env 0)).

(** [CoSign] up to the quorum test. *)
Lemma run_CoSign w id signerID p :
  may_approve w id signerID p →
  run 0 (CoSign policy id signerID) w =
    (let q := with_approval (approval_at signerID) p in
     let w' := approved_world signerID q w in
     if decide (2 ≤ ApprovalsCount q) then
       run 7 (r ← call (ESignTransaction q);
              match r with
              | Err err => record_failure q err "sign"
              | Ok signature =>
                '(signedProposal, signed) ←?
                  call (EStore (OpMarkTransactionSigned (tp_ID q) (sig_SignedTransaction signature)));
                if signed : bool then
                  _ ← call (EInc "custody_transactions_signed_total" {["chain" := tp_Chain signedProposal]});
                  appendAudit (auditEvent AuditEventTransactionSigned "" "transaction" (tp_ID signedProposal)
                    (tp_Chain signedProposal) (mustJSON {["signature_id" := sig_SignatureID signature]})) ;;?
                  mret (Ok signedProposal)
                else mret (Ok signedProposal)
              end) w'
     else (Ok q, 7, w')).
Proof.
  intros [Hp Hid Hst Hnew Hne Hall]. unfold CoSign. rewrite decide_False, Hall by done. cbn [negb].
  rewrite run_bind, run_call. cbn [exec]. rewrite run_try, (store_AddApproval _ _ _ p) by done.
  rewrite run_bind, run_call. cbn [exec]. rewrite run_try, run_appendAudit. cbv zeta.
  destruct (decide (2 ≤ ApprovalsCount _)).
  - by rewrite decide_True.
  - rewrite decide_False by tauto. done.
Qed.

Lemma ApprovalsCount_approval a p :
  approvals p !! ap_SignerID a = None → ApprovalsCount (with_approval a p) = S (ApprovalsCount p).
Proof. intros Ha. unfold ApprovalsCount, approvals. simpl. by rewrite map_size_insert_None. Qed.

(** ** Failure *)
Definition failed_at (t : Time) (err : GoError) p : TransactionProposal :=
  set_UpdatedAt t (set_Error (Error err) (set_Status TransactionStatusFailed p)).
Definition failed_event (err : GoError) (phase : string) p : AuditEvent :=
  auditEvent AuditEventTransactionFailed "" "transaction" (tp_ID p) (tp_Chain p)
    (mustJSON (<["error" := Error err]> {["phase" := phase]})).

Lemma run_record_failure n p err phase w :
  is_Some (transactions (store w) !! tp_ID p) →
  run n (record_failure p err phase) w
    = (Err err, 6 + n,
       log (2 + n) (failed_event err phase p) (store_txn (failed_at (in_now (env n)) err p) w)).
Proof.
  intros Hp. unfold record_failure, failTransaction. rewrite !run_bind, run_call. cbn [exec].
  rewrite run_bind, store_Update by done. cbn [Prelude.run mret prog_ret]. rewrite run_bind, run_appendAudit.
  done.
Qed.

(** ** Signing *)
Definition asked p (r : res Signature) (g : Sg) w : World MemoryStore Sg Ad :=
  mkWorld (store w) g (chains w) (metrics w) (history w ++ [EvSign p r]).
Definition signed_event (sig : Signature) p : AuditEvent :=
  auditEvent AuditEventTransactionSigned "" "transaction" (tp_ID p) (tp_Chain p)
    (mustJSON {["signature_id" := sig_SignatureID sig]}).

Lemma stored_after_approval signerID p w :
  transactions (store (approved_world signerID p w)) !! tp_ID p = Some p.
Proof. simpl. by rewrite lookup_insert_eq. Qed.

Lemma run_CoSign_signed w id signerID p sig g :
  let q := with_approval (approval_at signerID) p in
  may_approve w id signerID p → 1 ≤ ApprovalsCount p →
  signer_SignTransaction q (env 7) (signer w) = (Ok sig, g) →
  run 0 (CoSign policy id signerID) w
    = (Ok (marked (sig_SignedTransaction sig) q), 14,
       log 10 (signed_event sig q)
         (count "custody_transactions_signed_total" "chain" (tp_Chain q)
            (store_txn (marked (sig_SignedTransaction sig) q)
               (asked q (Ok sig) g (approved_world signerID q w))))).
Proof.
  intros q Hmay Hc Hsig. rewrite (run_CoSign _ _ _ p) by done. cbv zeta. fold q.
  rewrite decide_True by (unfold q; rewrite ApprovalsCount_approval; [lia|apply Hmay]).
  rewrite run_bind, run_call. cbn [exec].
  change (signer (approved_world signerID q w)) with (signer w). rewrite Hsig.
  rewrite run_try, (store_MarkSigned _ _ _ q);
    [|apply stored_after_approval|done|apply Hmay].
  rewrite run_bind, run_call. cbn [exec]. rewrite run_try, run_appendAudit. done.
Qed.

Lemma run_CoSign_sign_failed w id signerID p e g :
  let q := with_approval (approval_at signerID) p in
  may_approve w id signerID p → 1 ≤ ApprovalsCount p →
  signer_SignTransaction q (env 7) (signer w) = (Err e, g) →
  run 0 (CoSign policy id signerID) w
    = (Err e, 14,
       log 10 (failed_event e "sign" q)
         (store_txn (failed_at (in_now (env 8)) e q)
            (asked q (Err e) g (approved_world signerID q w)))).
Proof.
  intros q Hmay Hc Hsig. rewrite (run_CoSign _ _ _ p) by done. cbv zeta. fold q.
  rewrite decide_True by (unfold q; rewrite ApprovalsCount_approval; [lia|apply Hmay]).
  rewrite run_bind, run_call. cbn [exec].
  change (signer (approved_world signerID q w)) with (signer w). rewrite Hsig.
  rewrite run_record_failure; [done|]. exists q. apply stored_after_approval.
Qed.

(** ** Broadcast *)
Definition sent (chain : Chain) (tx : string) (r : res string) (a : Ad) w : World MemoryStore Sg Ad :=
  mkWorld (store w) (signer w) (<[chain := a]> (chains w)) (metrics w)
    (history w ++ [EvBroadcast chain tx r]).
Definition broadcast_at (t : Time) (hash : string) p : TransactionProposal :=
  set_UpdatedAt t (set_BroadcastHash hash (set_Status TransactionStatusBroadcast p)).
Definition broadcast_event (hash : string) p : AuditEvent :=
  auditEvent AuditEventTransactionBroadcast "" "transaction" (tp_ID p) (tp_Chain p)
    (mustJSON {["broadcast_hash" := hash]}).

Record may_broadcast w (id : string) p (a : Ad) : Prop := mkMayBroadcast {
  bc_stored : transactions (store w) !! id = Some p;
  bc_id : tp_ID p = id;
  bc_signed : tp_Status p = TransactionStatusSigned;
  bc_tx : tp_SignedTransaction p ≠ "";
  bc_adapter : Get (chains w) (tp_Chain p) = Some a
}.

Lemma run_Broadcast w id p a r a' :
  may_broadcast w id p a →
  adapter_Broadcast (tp_SignedTransaction p) (env 2) a = (r, a') →
  run 0 (Broadcast id) w =
    (let w' := sent (tp_Chain p) (tp_SignedTransaction p) r a' w in
     match r with
     | Err e => (Err e, 9, log 5 (failed_event e "broadcast" p)
                             (store_txn (failed_at (in_now (env 3)) e p) w'))
     | Ok hash =>
         let q := broadcast_at (in_now (env 3)) hash p in
         (Ok q, 10, count "custody_transactions_broadcast_total" "chain" (tp_Chain p)
                      (log 5 (broadcast_event hash p) (store_txn q w')))
     end).
Proof.
  intros [Hp Hid Hst Htx Ha] Hr. unfold Broadcast. rewrite run_try, (store_GetTransaction _ _ _ p) by done.
  rewrite decide_False by tauto. rewrite run_bind, run_call. cbn [exec].
  rewrite bool_decide_eq_true_2 by (rewrite Ha; eauto). cbn [negb].
  rewrite run_bind, run_call. cbn [exec]. rewrite Ha, Hr. destruct r as [hash|e].
  - rewrite run_bind, run_call. cbn [exec]. rewrite run_try, store_Update.
    2: { simpl. rewrite Hid, Hp. eauto. }
    by rewrite run_try, run_appendAudit.
  - apply run_record_failure. simpl. rewrite Hid, Hp. eauto.
Qed.

(** ** Proposals *)
Definition built (chain : Chain) (a : Ad) w : World MemoryStore Sg Ad :=
  mkWorld (store w) (signer w) (<[chain := a]> (chains w)) (metrics w) (history w).
Definition new_proposal (trace : Trace) (request : TransactionRequest) (source : Wallet)
    (raw : RawTransaction) : TransactionProposal :=
  mkTransactionProposal ("txn_" +:+ EncodeToString (bytes 3)) (w_ID source) (w_Chain source)
    TransactionStatusProposed request raw (Some ∅) "" "" ""
    (Some (<["trace_id" := TraceID trace]> {["span_id" := SpanID trace]}))
    (in_now (env 4)) (in_now (env 4)).
Definition proposed_event p : AuditEvent :=
  auditEvent AuditEventTransactionProposed "" "transaction" (tp_ID p) (tp_Chain p)
    (mustJSON {["wallet_id" := tp_WalletID p]}).
Definition proposal_record (request : TransactionRequest) (key : string) p : IdempotencyRecord :=
  mkIdempotencyRecord ("transaction:" +:+ req_WalletID request) key "transaction" (tp_ID p)
    (in_now (env 4)).
Definition remember (r : IdempotencyRecord) w : World MemoryStore Sg Ad :=
  let s := store w in
  with_store (mkMemoryStore (wallets s) (transactions s) (auditEvents s)
    (<[idempotencyKey (ir_Scope r) (ir_Key r) := r]> (idempotency s))) w.

Record may_propose w (request : TransactionRequest) (source : Wallet) (a : Ad) : Prop := mkMayPropose {
  pr_source : wallets (store w) !! req_WalletID request = Some source;
  pr_amount : validateAmountPolicy policy (w_Chain source) (req_Amount request) = None;
  pr_adapter : Get (chains w) (w_Chain source) = Some a
}.

(** [ProposeTransaction] up to storing the proposal. *)
Lemma run_Propose_build w trace request key source a raw a' :
  may_propose w request source a →
  adapter_BuildTransaction source request (env 2) a = (Ok raw, a') →
  run 0 (ProposeTransaction policy trace request key) w =
    run 5 (let p := new_proposal trace request source raw in
           '(proposal, created) ←?
             (if decide (key = "") then
                call (EStore (OpCreateTransaction p)) ;;? mret (Ok (p, true))
              else call (EStore (OpCreateTransactionIdempotently p (proposal_record request key p))));
           if negb created then mret (Ok proposal) else
           appendAudit (proposed_event proposal) ;;?
           (_ ← call (EInc "custody_transactions_proposed_total" {["chain" := w_Chain source]});
            mret (Ok proposal))) (built (w_Chain source) a' w).
Proof.
  intros [Hs Hamt Ha] Hb. unfold ProposeTransaction.
  rewrite run_try, (run_store _ _ _ (Ok source) (store w)).
  2: { cbn. unfold GetWallet, check_ctx. by rewrite calm_ctx, Hs. }
  rewrite Hamt, run_bind, run_call. cbn [exec chains with_store].
  rewrite bool_decide_eq_true_2 by (rewrite Ha; eauto). cbn [negb].
  rewrite run_try, run_call. cbn [exec chains with_store]. rewrite Ha, Hb.
  rewrite run_try, run_New, run_bind, run_call. done.
Qed.

Lemma run_Propose w trace request key source a raw a' :
  let p := new_proposal trace request source raw in
  may_propose w request source a →
  adapter_BuildTransaction source request (env 2) a = (Ok raw, a') →
  transactions (store w) !! tp_ID p = None →
  idempotency (store w) !! idempotencyKey ("transaction:" +:+ req_WalletID request) key = None →
  run 0 (ProposeTransaction policy trace request key) w
    = (Ok p, 11,
       count "custody_transactions_proposed_total" "chain" (w_Chain source)
         (log 6 (proposed_event p)
            ((if decide (key = "") then id else remember (proposal_record request key p))
               (store_txn p (built (w_Chain source) a' w))))).
Proof.
  intros p Hmay Hb Hfree Hidem. rewrite (run_Propose_build _ _ _ _ source a raw a') by done.
  cbv zeta. fold p. rewrite run_try. case_decide as Hk.
  - rewrite run_try, (run_store _ _ _ (Ok tt) (put_transaction (tp_ID p) p (store w))).
    2: { cbn. unfold CreateTransaction, check_ctx. by rewrite calm_ctx, Hfree, cloneProposal_id. }
    cbn [Prelude.run mret prog_ret negb]. rewrite run_try, run_appendAudit. done.
  - rewrite (run_store _ _ _ (Ok (p, true)) (store (remember (proposal_record request key p)
      (store_txn p (built (w_Chain source) a' w))))).
    2: { cbn. unfold CreateTransactionIdempotently, check_ctx. cbn [ir_Scope ir_Key proposal_record].
         by rewrite calm_ctx, Hidem, Hfree, cloneProposal_id. }
    cbn [negb]. rewrite run_try, run_appendAudit. done.
Qed.

(** A repeated key: the stored proposal comes back, but the adapter has
    already built (and numbered) a transaction. *)
Lemma run_Propose_replay w trace request key source a raw a' ex p :
  may_propose w request source a →
  adapter_BuildTransaction source request (env 2) a = (Ok raw, a') →
  key ≠ "" →
  idempotency (store w) !! idempotencyKey ("transaction:" +:+ req_WalletID request) key = Some ex →
  transactions (store w) !! ir_ResourceID ex = Some p →
  run 0 (ProposeTransaction policy trace request key) w = (Ok p, 6, built (w_Chain source) a' w).
Proof.
  intros Hmay Hb Hk Hidem Hp. rewrite (run_Propose_build _ _ _ _ source a raw a') by done.
  cbv zeta. rewrite decide_False by done.
  rewrite run_try, (run_store _ _ _ (Ok (p, false)) (store w)); [done|].
  cbn. unfold CreateTransactionIdempotently, check_ctx. cbn [ir_Scope ir_Key proposal_record].
  by rewrite calm_ctx, Hidem, Hp, cloneProposal_id.
Qed.

(** ** Wallets *)
Definition keyed (g : Sg) w : World MemoryStore Sg Ad :=
  mkWorld (store w) g (chains w) (metrics w) (history w).
Definition new_wallet (chain : Chain) (m : WalletMaterial) : Wallet :=
  mkWallet ("wlt_" +:+ EncodeToString (bytes 1)) chain (wm_Address m) (wm_PublicKey m) (in_now (env 3)).
Definition wallet_event (chain : Chain) (v : Wallet) : AuditEvent :=
  auditEvent AuditEventWalletCreated "" "wallet" (w_ID v) chain None.
Definition wallet_record (chain : Chain) (key : string) (v : Wallet) : IdempotencyRecord :=
  mkIdempotencyRecord ("wallet:" +:+ chain) key "wallet" (w_ID v) (in_now (env 4)).
Definition store_wallet (v : Wallet) w : World MemoryStore Sg Ad :=
  let s := store w in
  with_store (mkMemoryStore (<[w_ID v := v]> (wallets s)) (transactions s) (auditEvents s)
    (idempotency s)) w.

Lemma run_CreateWallet w chain key m g :
  let v := new_wallet chain m in
  is_Some (Get (chains w) chain) →
  signer_CreateWallet (w_ID v) chain (env 2) (signer w) = (Ok m, g) →
  wallets (store w) !! w_ID v = None →
  idempotency (store w) !! idempotencyKey ("wallet:" +:+ chain) key = None →
  run 0 (CreateWallet chain key) w =
    (if decide (key = "") then
       (Ok v, 10, count "custody_wallets_created_total" "chain" chain
                    (log 5 (wallet_event chain v) (store_wallet v (keyed g w))))
     else
       (Ok v, 11, count "custody_wallets_created_total" "chain" chain
                    (log 6 (wallet_event chain v)
                       (remember (wallet_record chain key v) (store_wallet v (keyed g w)))))).
Proof.
  intros v Ha Hg Hfree Hidem. unfold CreateWallet. rewrite run_bind, run_call. cbn [exec].
  rewrite bool_decide_eq_true_2 by done. cbn [negb]. rewrite run_try, run_New.
  rewrite run_try, run_call. cbn [exec].
  change ("wlt" +:+ "_" +:+ EncodeToString (bytes 1)) with (w_ID v). rewrite Hg.
  rewrite run_bind, run_call. cbn [exec]. fold (new_wallet chain m). fold v. rewrite run_try.
  case_decide as Hk.
  - rewrite run_try, (run_store _ _ _ (Ok tt) (store (store_wallet v (keyed g w)))).
    2: { cbn. unfold MemoryStore.CreateWallet, check_ctx. rewrite calm_ctx. cbn in Hfree |- *.
         by rewrite Hfree. }
    cbn [Prelude.run mret prog_ret negb]. rewrite run_try, run_appendAudit. done.
  - rewrite run_bind, run_call. cbn [exec].
    rewrite (run_store _ _ _ (Ok (v, true))
      (store (remember (wallet_record chain key v) (store_wallet v (keyed g w))))).
    2: { cbn. unfold CreateWalletIdempotently, check_ctx. cbn [ir_Scope ir_Key].
         rewrite calm_ctx, Hidem. cbn in Hfree |- *. by rewrite Hfree. }
    cbn [negb]. rewrite run_try, run_appendAudit. done.
Qed.

(** ** Queries *)
Lemma run_ListAuditEvents w f :
  Forall (λ e, cloneAuditEvent e = e) (auditEvents (store w)) →
  run 0 (ListAuditEvents f) w
    = (Ok (take (page_size (af_Limit f))
             (filter (audit_matches (af_ResourceID f)) (reverse (auditEvents (store w))))), 1, w).
Proof.
  intros Hw. unfold ListAuditEvents.
  rewrite (run_store _ _ w (Ok (list_loop (af_ResourceID f) (audit_limit (af_Limit f))
    (reverse (auditEvents (store w))) [])) (store w)).
  2: { cbn. unfold MemoryStore.ListAuditEvents, check_ctx. by rewrite calm_ctx. }
  destruct w as [s ????]. simpl in Hw |- *. rewrite list_loop_spec by by apply Forall_reverse.
  by rewrite audit_limit_page, Nat.sub_0_r.
Qed.
End Flow.
