(* ===== verification/Scenario.v ===== *)
(** * A concrete deployment

    The service as src/cmd/custody-api/main.go wires it without a database and
    without a node: in-memory store, demo signing backend, Bitcoin and EVM
    adapters.  go-ethereum is instantiated by simple functions that satisfy
    its laws, so that the theorems can be applied to executable states. *)
From Stdlib Require Import Ascii.
From S2P Require Import Prelude GoStd GoError Types Json GoTime Sha256 Metrics Interfaces Ethereum Bitcoin Evm.
From S2P Require Import Chains Signing StoreSpec MemoryStore Service System.

(** Transactions are their field list as text; a hash is SHA-256. *)
#[export] Instance toy_ethereum : Ethereum := {|
  HexToAddress s := s;
  HexToECDSA s := if decide (s = "") then Err (ErrNew "invalid length, need 256 bits")
                  else Ok (mkPrivateKey (mkPublicKey S256 11 12) 13);
  FromECDSAPub := elliptic_Marshal;
  PubkeyToAddress k := "0x" +:+ FormatInt (pub_X k);
  SignTx tx id key :=
    Ok (mkTransaction (Join "," [FormatInt (df_ChainID tx); FormatInt (df_Nonce tx);
      FormatInt (df_GasTipCap tx); FormatInt (df_GasFeeCap tx); FormatInt (df_Gas tx); df_To tx;
      FormatInt (df_Value tx); df_Data tx; FormatInt id; FormatInt (key_D key)]));
  MarshalBinary t := Ok (tx_repr t);
  UnmarshalBinary raw := Ok (mkTransaction raw);
  tx_Hash t := "0x" +:+ EncodeToString (Sum256 (tx_repr t))
|}.
#[export] Instance toy_laws : EthereumLaws.
Proof. split. by intros [r] raw [= <-]. Qed.

(** The environment of the [i]-th call of the [k]-th request: distinct random
    bytes, a clock that advances. *)
Definition rand_bytes (k i : nat) : string :=
  string_of_bytes (be_bytes 8 (Z.of_nat k) ++ be_bytes 8 (Z.of_nat i)).
Definition node : EthClient :=
  mkEthClient None (Ok 31337%Z) (λ _, Ok 7%Z) (λ _ _ _ _, Ok 21000%Z) (Ok 2000000000%Z)
    (Ok 1000000000%Z) (λ _, None).
Definition input (ctx : option CtxErr) (k i : nat) : Input :=
  mkInput ctx (1700000000000000000 + Z.of_nat (100 * k + i) * 1000000)%Z
    (λ _, Ok (rand_bytes k i)) (λ _, None)
    (λ c, Ok (mkPrivateKey (mkPublicKey c (Z.of_nat (3 + k)) 4) 5))
    (λ _ _, Ok (6, 7)%Z) node.
Definition env (k i : nat) : Input := input None k i.

Abbreviation Deployment := (World MemoryStore DemoQuorumBackend Adapter).

Definition start (network : string) (chain_id : Z) (rpc : list string) : Deployment :=
  mkWorld NewMemoryStore (mkDemoQuorumBackend ∅ None)
    (NewChainRegistry [BitcoinAdapter (Bitcoin.NewAdapter network); EVMAdapter (Evm.NewAdapter chain_id rpc)])
    NewMetrics [].

Definition policy : Policy :=
  mkPolicy {["alice"; "bob"; "carol"]} 100000 (Some (10^18)%Z).

(** Requests served one after the other. *)
Fixpoint serve_all (k : nat) (l : list Request) (w : Deployment) : list (res Response) * Deployment :=
  match l with
  | [] => ([], w)
  | r :: l' =>
      let '(a, w1) := run_request policy (env k) r w in
      let '(rest, w2) := serve_all (S k) l' w1 in (a :: rest, w2)
  end.

Definition trace : Trace := mkTrace "4bf92f3577b34da6a3ce929d0e0e4736" "00f067aa0ba902b7".
Definition wallet_id (k : nat) : string := "wlt_" +:+ EncodeToString (rand_bytes k 1).
Definition txn_id (k : nat) : string := "txn_" +:+ EncodeToString (rand_bytes k 3).

Definition btc_request : TransactionRequest :=
  mkTransactionRequest (wallet_id 0) "tb1qrecipient" "50000" 5 0 "" ""
    [mkUTXO "prev" 0 75000 "0014ab"] None.
Definition evm_request : TransactionRequest :=
  mkTransactionRequest (wallet_id 0) "0x1111111111111111111111111111111111111111" "1000000000000000"
    0 21000 "2000000000" "" [] None.

(** Wallet, proposal, two approvals, broadcast. *)
Definition flow (chain : Chain) (request : TransactionRequest) : list Request :=
  [ReqCreateWallet chain "w"; ReqProposeTransaction trace request "p"; ReqCoSign (txn_id 1) "alice";
   ReqCoSign (txn_id 1) "bob"; ReqBroadcast (txn_id 1)].
Definition after (n : nat) (chain : Chain) (request : TransactionRequest) : Deployment :=
  (serve_all 0 (take n (flow chain request)) (start "" 0 [])).2.

(** Such a run is one of the schedules of the server. *)
Lemma serve_all_steps k l w ts :
  Forall typed l → rtc (step policy) (mkConfig w ts)
    (mkConfig (serve_all k l w).2 (ts ++ zip l (Ret <$> (serve_all k l w).1))).
Proof.
  revert k w ts. induction l as [|r l IH]; intros k w ts; [by rewrite app_nil_r|].
  intros [Hr Hl]%Forall_cons. cbn [serve_all]. pose proof (run_request_steps policy (env k) r w ts Hr) as H.
  destruct (run_request policy (env k) r w) as [a w1].
  specialize (IH (S k) w1 (ts ++ [(r, Ret a)]) Hl).
  destruct (serve_all (S k) l w1) as [rest w2]. etrans; [exact H|].
  rewrite <- app_assoc in IH. exact IH.
Qed.

(** ** A run used throughout: the Bitcoin flow, then both creations replayed *)
Definition session : list Request :=
  flow ChainBitcoin btc_request ++
  [ReqCreateWallet ChainBitcoin "w"; ReqProposeTransaction trace btc_request "p"].
Definition session_end : Deployment := (serve_all 0 session (start "" 0 [])).2.
Definition session_config : Config (St := MemoryStore) (Sg := DemoQuorumBackend) (Ad := Adapter) :=
  mkConfig session_end (zip session (Ret <$> (serve_all 0 session (start "" 0 [])).1)).

Lemma session_reachable : reachable policy (start "" 0 []) session_config.
Proof. apply serve_all_steps. by_compute. Qed.

(** What request [i] of the session was answered. *)
Definition answer_wallet (i : nat) : Wallet :=
  match (serve_all 0 session (start "" 0 [])).1 !! i with
  | Some (Ok (RespWallet v)) => v
  | _ => mkWallet "" "" "" "" 0
  end.
Definition stored_txn (w : Deployment) (id : string) : TransactionProposal :=
  default (mkTransactionProposal "" "" "" "" btc_request (mkRawTransaction "" None) None "" "" "" None 0 0)
    (transactions (store w) !! id).
Definition answer_txn (i : nat) : TransactionProposal :=
  match (serve_all 0 session (start "" 0 [])).1 !! i with
  | Some (Ok (RespTransaction p)) => p
  | _ => stored_txn (start "" 0 []) ""
  end.
Definition event_at (i : nat) : Event :=
  default (EvRequest (ReqBroadcast "")) (history session_end !! i).
