(* ===== verification/CustodyTheorems.v ===== *)
(** * Custody guarantees under concurrency

    For every store that meets the contract of [StoreSpec], every signing
    backend, every set of chain adapters and every policy: what holds in every
    configuration the server can reach from an empty deployment, however the
    calls of the requests in flight interleave and whatever the environment
    answers. *)
From Stdlib Require Import Ascii.
From S2P Require Import Prelude GoStd GoError Types Json Metrics Interfaces Ethereum Bitcoin Evm Chains Signing.
From S2P Require Import StoreSpec MemoryStore Service System Custody Handlers Flow Scenario.

(** ** Shared lemmas *)

Lemma two_keys {A} (m : gmap string A) :
  2 ≤ size m → ∃ k1 k2 a1 a2, k1 ≠ k2 ∧ m !! k1 = Some a1 ∧ m !! k2 = Some a2.
Proof.
  intros Hs. destruct (map_to_list m) as [|[k1 a1] [|[k2 a2] l]] eqn:E.
  1,2: rewrite <- length_map_to_list, E in Hs; simpl in Hs; lia.
  pose proof (NoDup_fst_map_to_list m) as Hn. rewrite E in Hn. simpl in Hn.
  exists k1, k2, a1, a2. split_and!.
  - intros ->. apply NoDup_cons in Hn as [Hn _]. set_solver.
  - apply elem_of_map_to_list. rewrite E. set_solver.
  - apply elem_of_map_to_list. rewrite E. set_solver.
Qed.

Section Generic.
Context {St Sg Ad : Type} `{!Store St, !StoreRefinement St, !SigningBackend Sg, !SignerLaws Sg, !ChainAdapter Ad}.
Context (policy : Policy).
Implicit Types (w : World St Sg Ad) (c : Config (St := St) (Sg := Sg) (Ad := Ad)).

(** An empty deployment: nothing stored, nothing done, chain names without NUL. *)
Definition fresh w : Prop :=
  st_wf (store w) ∧ st_abs (store w) = empty_astore ∧ history w = [] ∧
  ∀ chain, is_Some (chains w !! chain) → has_byte "000" chain = false.

(** Two different people on the allow list asked to co-sign [id]. *)
Definition two_cosigners (h : list Event) (id : string) : Prop :=
  ∃ s1 s2, s1 ≠ s2 ∧
    Forall (λ s, s ≠ "" ∧ signerAllowed policy s = true ∧ EvRequest (ReqCoSign id s) ∈ h) [s1; s2].

Lemma quorum_cosigners h q : quorum policy h q → two_cosigners h (tp_ID q).
Proof.
  intros [Hc Hok]. destruct (two_keys (approvals q) Hc) as (k1 & k2 & a1 & a2 & Hne & H1 & H2).
  exists k1, k2. split; [done|].
  destruct (Hok _ _ H1) as (_ & ? & ? & ?), (Hok _ _ H2) as (_ & ? & ? & ?).
  repeat constructor; done.
Qed.

Lemma fresh_safe w c :
  fresh w → reachable policy w c →
  winv policy (earlier policy w c) (world c) ∧ wrel w (world c) ∧
  ∀ i r a, threads c !! i = Some (r, Ret a) → post policy (earlier policy w c) r a (world c).
Proof. intros (? & ? & ? & ?) Hr. apply custody_safe; [done| |done]. by apply winv_initial. Qed.

Lemma fresh_store w c :
  fresh w → reachable policy w c → store_inv policy st_norm (past (earlier policy w c)) (abs (world c)) (history (world c)).
Proof. intros Hf Hr. by destruct (fresh_safe w c Hf Hr) as [[_ ? _] _]. Qed.

Lemma broadcast_quorum was a h h1 chain tx answer h2 :
  store_inv policy st_norm was a h → h = h1 ++ EvBroadcast chain tx answer :: h2 →
  ∃ q sig h3 h4, h1 = h3 ++ EvSign q (Ok sig) :: h4 ∧ sig_SignedTransaction sig = tx ∧
    tp_Chain q = chain ∧ two_cosigners h3 (tp_ID q).
Proof.
  intros Hs Hh. pose proof (inv_events _ _ _ _ _ Hs) as He.
  destruct (He _ _ _ Hh) as (id & raw & q & sig & Hsig & Htx & _ & _ & Hch & _).
  apply list_elem_of_split in Hsig as (h3 & h4 & ->). exists q, sig, h3, h4.
  split_and!; [done..|]. apply quorum_cosigners.
  apply (He h3 (EvSign q (Ok sig)) (h4 ++ EvBroadcast chain tx answer :: h2)).
  by rewrite Hh, <- app_assoc.
Qed.

(** C1. Nothing is handed to a blockchain unless, earlier, the signing
    backend produced exactly that payload for a proposal on that chain, and
    before that signature two different signers on the allow list had asked
    to co-sign that proposal. *)
Theorem broadcast_after_quorum w c h1 chain tx answer h2 :
  fresh w → reachable policy w c →
  history (world c) = h1 ++ EvBroadcast chain tx answer :: h2 →
  ∃ q sig h3 h4, h1 = h3 ++ EvSign q (Ok sig) :: h4 ∧ sig_SignedTransaction sig = tx ∧
    tp_Chain q = chain ∧ two_cosigners h3 (tp_ID q).
Proof. intros Hf Hr Hh. by eapply broadcast_quorum; [apply (fresh_store w c Hf Hr)|]. Qed.

(** C5. Every stored proposal is in one of the four stages with what that
    stage implies, holds only approvals of allowed signers who asked, belongs
    to a wallet of its chain, and a signed payload it carries was produced by
    the backend for this very raw transaction after a quorum. *)
Theorem stored_proposals_sound w c id p :
  fresh w → reachable policy w c → a_txns (abs (world c)) !! id = Some p →
  tp_ID p = id ∧ lifecycle p ∧ approvals_ok policy (history (world c)) id p ∧
  (∃ v, a_wallets (abs (world c)) !! tp_WalletID p = Some v ∧ w_Chain v = tp_Chain p) ∧
  (tp_SignedTransaction p ≠ "" →
     signed_by_quorum policy (history (world c)) id (tp_RawTransaction p) (tp_Chain p)
       (tp_SignedTransaction p)).
Proof.
  intros Hf Hr Hp. destruct (inv_txns _ _ _ _ _ (fresh_store w c Hf Hr) _ _ Hp) as [<- [? ? ? ? ? ?]].
  by split_and!.
Qed.

(** C12. Every stored proposal respects the amount policy: a positive 64-bit
    number of satoshis within the configured cap, or a positive number of wei
    within the configured cap. *)
Theorem stored_amounts_within_policy w c id p :
  fresh w → reachable policy w c → a_txns (abs (world c)) !! id = Some p →
  (tp_Chain p = ChainBitcoin → ∃ v, ParseInt (req_Amount (tp_Request p)) = Some v ∧
     (0 < v < 2^63)%Z ∧ ((0 < MaxBitcoinAmountSats policy)%Z → (v ≤ MaxBitcoinAmountSats policy)%Z)) ∧
  (tp_Chain p = ChainEVM → ∃ v, SetString (req_Amount (tp_Request p)) = Some v ∧
     (0 < v)%Z ∧ ∀ limit, MaxEVMAmountWei policy = Some limit → (v ≤ limit)%Z).
Proof.
  intros Hf Hr Hp.
  destruct (inv_txns _ _ _ _ _ (fresh_store w c Hf Hr) _ _ Hp) as [_ [_ Hamt _ _ _ _]].
  by split; intros Hc; rewrite Hc in Hamt; [apply amount_bitcoin|apply amount_evm].
Qed.

(** C7. Between any two configurations of a run, wallets and idempotency
    records are never changed or removed, the audit trail only grows at its
    end, and a proposal keeps its identity, wallet, chain, request, raw
    transaction, trace and creation time; it never returns to the proposed
    stage once it left it, and gathers approvals while it is there. *)
Theorem nothing_is_undone w c c' :
  fresh w → reachable policy w c → rtc (step policy) c c' →
  a_wallets (abs (world c)) ⊆ a_wallets (abs (world c')) ∧
  a_idem (abs (world c)) ⊆ a_idem (abs (world c')) ∧
  (∃ l, a_audit (abs (world c')) = a_audit (abs (world c)) ++ l) ∧
  ∀ id p, a_txns (abs (world c)) !! id = Some p →
    ∃ p', a_txns (abs (world c')) !! id = Some p' ∧ txn_evolves p p'.
Proof.
  intros (? & ? & ? & ?) Hr Hcc. assert (HI : winv policy (λ _, True) w) by by apply winv_initial.
  destruct (steps_winv policy (λ _, True) w c c' (λ _, I) HI Hr Hcc) as [[Hw Ht Hi Ha] _]. by split_and!.
Qed.

Lemma wallet_idempotent w c i j chain key v1 v2 :
  fresh w → reachable policy w c → key ≠ "" →
  threads c !! i = Some (ReqCreateWallet chain key, Ret (Ok (RespWallet v1))) →
  threads c !! j = Some (ReqCreateWallet chain key, Ret (Ok (RespWallet v2))) →
  norm_wallet st_norm v1 = norm_wallet st_norm v2 ∧
  a_wallets (abs (world c)) !! w_ID v1 = Some (norm_wallet st_norm v1) ∧ w_Chain v1 = chain.
Proof.
  intros Hf Hr Hk H1 H2. destruct (fresh_safe w c Hf Hr) as (_ & _ & Hpost).
  destruct (Hpost _ _ _ H1) as [(Hc & Hw1 & E1) _], (Hpost _ _ _ H2) as [(_ & Hw2 & E2) _].
  destruct (E1 Hk) as (ex1 & Hi1 & Hr1), (E2 Hk) as (ex2 & Hi2 & Hr2). simplify_eq.
  rewrite <- Hr1 in Hw1 |- *. rewrite <- Hr2 in Hw2. split_and!; [congruence|done|done].
Qed.
Lemma proposal_idempotent w c i j tr1 tr2 req1 req2 key p1 p2 :
  fresh w → reachable policy w c → key ≠ "" → req_WalletID req1 = req_WalletID req2 →
  threads c !! i = Some (ReqProposeTransaction tr1 req1 key, Ret (Ok (RespTransaction p1))) →
  threads c !! j = Some (ReqProposeTransaction tr2 req2 key, Ret (Ok (RespTransaction p2))) →
  same_core (norm_txn st_norm p1) (norm_txn st_norm p2) ∧ tp_WalletID p1 = req_WalletID req1.
Proof.
  intros Hf Hr Hk Hw H1 H2. destruct (fresh_safe w c Hf Hr) as (_ & _ & Hpost).
  destruct (Hpost _ _ _ H1) as [(Hw1 & (q1 & Hq1 & Hc1) & E1) _],
    (Hpost _ _ _ H2) as [(Hw2 & (q2 & Hq2 & Hc2) & E2) _].
  destruct (E1 Hk) as (ex1 & Hi1 & Hr1), (E2 Hk) as (ex2 & Hi2 & Hr2). rewrite Hw in Hi1.
  simplify_eq. rewrite <- Hr1 in Hq1. rewrite <- Hr2 in Hq2. simplify_eq.
  split; [|done]. by etrans.
Qed.

(** C6. Creation is idempotent, whatever else the server did meanwhile:
    creating a wallet twice on one chain with one key gives the same wallet,
    and proposing twice for one wallet with one key the same proposal (same
    identifier, request, raw transaction and creation time). *)
Theorem creation_idempotent w c key :
  fresh w → reachable policy w c → key ≠ "" →
  (∀ i j chain v1 v2,
     threads c !! i = Some (ReqCreateWallet chain key, Ret (Ok (RespWallet v1))) →
     threads c !! j = Some (ReqCreateWallet chain key, Ret (Ok (RespWallet v2))) →
     norm_wallet st_norm v1 = norm_wallet st_norm v2 ∧
     a_wallets (abs (world c)) !! w_ID v1 = Some (norm_wallet st_norm v1) ∧ w_Chain v1 = chain) ∧
  (∀ i j tr1 tr2 req1 req2 p1 p2,
     threads c !! i = Some (ReqProposeTransaction tr1 req1 key, Ret (Ok (RespTransaction p1))) →
     threads c !! j = Some (ReqProposeTransaction tr2 req2 key, Ret (Ok (RespTransaction p2))) →
     req_WalletID req1 = req_WalletID req2 →
     same_core (norm_txn st_norm p1) (norm_txn st_norm p2) ∧ tp_WalletID p1 = req_WalletID req1).
Proof. intros Hf Hr Hk. split; intros; [by eapply wallet_idempotent|by eapply proposal_idempotent]. Qed.

(** C13. Every event of the audit trail tells the truth about an existing
    resource of its chain: a wallet was created; a proposal was stored, open and
    without approvals, for the wallet the event gives; an approval was asked for
    by the permitted signer it names and was stored; a signing event gives a
    signature the backend made for that proposal after a quorum, and the
    proposal was stored as signed with exactly that payload; a broadcast event
    gives the hash the chain answered to a payload signed by a quorum for that
    proposal, and the proposal was stored as broadcast with them; a failure
    event gives the error with which the backend refused to sign it, or the
    chain to take its payload. *)
Theorem audit_trail_sound w c e :
  fresh w → reachable policy w c → e ∈ a_audit (abs (world c)) →
  audit_ok policy st_norm (past (earlier policy w c)) (abs (world c)) (history (world c)) e.
Proof.
  intros Hf Hr He. pose proof (inv_audit _ _ _ _ _ (fresh_store w c Hf Hr)) as Ha.
  by apply (proj1 (Forall_forall _ _) Ha).
Qed.

(** C14. A co-signature the service acknowledged is in the audit trail under
    the signer's name; the proposal returned is, field for field, the one that
    was stored at a moment between the request and its answer; what is stored
    now evolved from it; and if it is still open it has fewer than two
    approvals, the signer's among them. *)
Theorem cosign_acknowledged w c i id signerID p :
  fresh w → reachable policy w c →
  threads c !! i = Some (ReqCoSign id signerID, Ret (Ok (RespTransaction p))) →
  tp_ID p = id ∧ signerID ≠ "" ∧ signerAllowed policy signerID = true ∧
  audited (world c) AuditEventTransactionApproved signerID id ∧
  (∃ c1, reachable policy w c1 ∧ rtc (step policy) c1 c ∧
     EvRequest (ReqCoSign id signerID) ∈ history (world c1) ∧ a_txns (abs (world c1)) !! id = Some p) ∧
  (∃ p', a_txns (abs (world c)) !! id = Some p' ∧ txn_evolves p p') ∧
  (tp_Status p = TransactionStatusProposed →
     ApprovalsCount p < 2 ∧ is_Some (approvals p !! signerID)).
Proof.
  intros Hf Hr Hi. destruct (fresh_safe w c Hf Hr) as (_ & _ & Hpost).
  destruct (Hpost _ _ _ Hi) as (<- & ? & ? & [_ ?] & (v & (c1 & ? & ? & <-) & ? & ?) & ? & ?).
  split_and!; try done. by exists c1.
Qed.

(** C15. A broadcast the service acknowledged: the payload it signed for this
    proposal after a quorum went to the proposal's chain, the chain answered
    with the hash that is returned, and the broadcast is in the audit trail. *)
Theorem broadcast_acknowledged w c i id p :
  fresh w → reachable policy w c →
  threads c !! i = Some (ReqBroadcast id, Ret (Ok (RespTransaction p))) →
  tp_ID p = id ∧ tp_Status p = TransactionStatusBroadcast ∧
  signed_by_quorum policy (history (world c)) id (tp_RawTransaction p) (tp_Chain p)
    (tp_SignedTransaction p) ∧
  EvBroadcast (tp_Chain p) (tp_SignedTransaction p) (Ok (tp_BroadcastHash p)) ∈ history (world c) ∧
  audited (world c) AuditEventTransactionBroadcast "" id.
Proof.
  intros Hf Hr Hi. destruct (fresh_safe w c Hf Hr) as (_ & _ & Hpost). apply (Hpost _ _ _ Hi).
Qed.
End Generic.

(** ** The guarantees at a concrete deployment *)
Abbreviation world0 := (start "" 0 []).

Lemma start_fresh : fresh world0.
Proof.
  split_and!; [|reflexivity|done|].
  - split; [by intros k r|by intros id p|by constructor].
  - intros chain. unfold start. simpl. unfold NewChainRegistry. simpl.
    rewrite !lookup_insert. repeat case_decide; subst; try done.
    intros Hs. by destruct Hs.
Qed.

Lemma broadcast_after_quorum_witness :
  ∃ q sig h3 h4, take 6 (history session_end) = h3 ++ EvSign q (Ok sig) :: h4 ∧
    sig_SignedTransaction sig = tp_SignedTransaction (answer_txn 4) ∧
    tp_Chain q = ChainBitcoin ∧ two_cosigners policy h3 (tp_ID q).
Proof.
  apply (broadcast_after_quorum policy world0 session_config (take 6 (history session_end)) ChainBitcoin
    (tp_SignedTransaction (answer_txn 4)) (Ok (tp_BroadcastHash (answer_txn 4)))
    (drop 7 (history session_end)));
    [apply start_fresh|apply session_reachable|vm_compute; reflexivity].
Defined.

Lemma stored_proposals_sound_witness :
  let p := stored_txn session_end (txn_id 1) in
  lifecycle p ∧ tp_Status p = TransactionStatusBroadcast ∧
  signed_by_quorum policy (history session_end) (txn_id 1) (tp_RawTransaction p) (tp_Chain p)
    (tp_SignedTransaction p).
Proof.
  intros p. destruct (stored_proposals_sound policy world0 session_config (txn_id 1) p)
    as (_ & Hl & _ & _ & Hs);
    [apply start_fresh|apply session_reachable|vm_compute; reflexivity|].
  split_and!; [exact Hl|vm_compute; reflexivity|]. apply Hs. vm_compute. discriminate.
Defined.

Lemma stored_amounts_within_policy_witness :
  ∃ v, ParseInt (req_Amount (tp_Request (stored_txn session_end (txn_id 1)))) = Some v ∧
    (0 < v < 2^63)%Z ∧ (v ≤ 100000)%Z.
Proof.
  destruct (stored_amounts_within_policy policy world0 session_config (txn_id 1)
    (stored_txn session_end (txn_id 1))) as [Hb _];
    [apply start_fresh|apply session_reachable|vm_compute; reflexivity|].
  destruct Hb as (v & Hv & Hr & Hm); [vm_compute; reflexivity|]. exists v. split_and!; [done|lia|lia|].
  by apply Hm.
Defined.

Lemma nothing_is_undone_witness :
  a_wallets (mem_abs (store world0)) ⊆ a_wallets (mem_abs (store session_end)) ∧
  (∃ l, auditEvents (store session_end) = auditEvents (store world0) ++ l).
Proof.
  destruct (nothing_is_undone policy world0 (initial world0) session_config) as (H1 & _ & H3 & _);
    [apply start_fresh|apply rtc_refl|apply session_reachable|]. by split.
Defined.

Lemma creation_idempotent_witness :
  answer_wallet 0 = answer_wallet 5 ∧ same_core (answer_txn 1) (answer_txn 6).
Proof.
  split.
  - destruct (creation_idempotent policy world0 session_config "w") as [H _];
      [apply start_fresh|apply session_reachable|discriminate|].
    destruct (H 0 5 ChainBitcoin (answer_wallet 0) (answer_wallet 5)) as [Hw _]; [vm_compute; reflexivity..|].
    rewrite !norm_wallet_exact in Hw. exact Hw.
  - destruct (creation_idempotent policy world0 session_config "p") as [_ H];
      [apply start_fresh|apply session_reachable|discriminate|].
    destruct (H 1 6 trace trace btc_request btc_request (answer_txn 1) (answer_txn 6)) as [Hc _];
      [vm_compute; reflexivity..|].
    rewrite !norm_txn_exact in Hc. exact Hc.
Defined.

Lemma audit_trail_sound_witness :
  Forall (audit_ok policy st_norm (past (earlier policy world0 session_config)) (abs (world session_config)) (history (world session_config)))
    (a_audit (abs (world session_config))) ∧ length (auditEvents (store session_end)) = 6.
Proof.
  split; [|vm_compute; reflexivity]. apply Forall_forall. intros e He.
  exact (audit_trail_sound policy world0 session_config e start_fresh session_reachable He).
Defined.

Lemma cosign_acknowledged_witness :
  audited (world session_config) AuditEventTransactionApproved "alice" (txn_id 1) ∧
  ApprovalsCount (answer_txn 2) < 2.
Proof.
  destruct (cosign_acknowledged policy world0 session_config 2 (txn_id 1) "alice" (answer_txn 2))
    as (_ & _ & _ & Ha & _ & _ & Hc);
    [apply start_fresh|apply session_reachable|vm_compute; reflexivity|].
  split; [exact Ha|]. apply Hc. vm_compute. reflexivity.
Defined.

Lemma broadcast_acknowledged_witness :
  tp_Status (answer_txn 4) = TransactionStatusBroadcast ∧
  EvBroadcast (tp_Chain (answer_txn 4)) (tp_SignedTransaction (answer_txn 4))
    (Ok (tp_BroadcastHash (answer_txn 4))) ∈ history (world session_config).
Proof.
  destruct (broadcast_acknowledged policy world0 session_config 4 (txn_id 1) (answer_txn 4))
    as (_ & Hst & _ & Hb & _);
    [apply start_fresh|apply session_reachable|vm_compute; reflexivity|].
  split; [exact Hst|]. exact Hb.
Defined.
