(* ===== verification/FlowTheorems.v ===== *)
(** * What each request does

    The answer and the complete effect of a request served alone over the
    in-memory store, on every branch: success, refusal, failure of the signing
    backend or of the chain.  The environment is calm: contexts are alive and
    the random source works. *)
From Stdlib Require Import Ascii.
From S2P Require Import Prelude GoStd GoError Types Json Metrics Interfaces Ethereum Bitcoin Evm Chains Signing.
From S2P Require Import StoreSpec MemoryStore Service System Custody Handlers Flow Scenario CustodyTheorems.

Section Requests.
Context {Sg Ad : Type} `{!SigningBackend Sg, !ChainAdapter Ad} (policy : Policy).
Implicit Types (w : World MemoryStore Sg Ad) (p : TransactionProposal).
Context (env : nat → Input) (bytes : nat → string).
Definition calm : Prop :=
  (∀ i, in_ctx (env i) = None) ∧ (∀ i, in_rand (env i) 16 = Ok (bytes i)).

Lemma run_request_eq {A} (f : A → Response) (prg : prog eff (res A)) r w :
  serve policy r = respond f prg →
  run_request policy env r w =
    match run exec env 0 prg (accept r w) with
    | (Ok a, _, w') => (Ok (f a), w')
    | (Err e, _, w') => (Err e, w')
    end.
Proof.
  intros Hs. unfold run_request. rewrite Hs. unfold respond. rewrite run_try.
  by destruct (run exec env 0 prg (accept r w)) as [[[a|e] n] w'].
Qed.

(** ** Co-signing *)

(** The checks of [CoSign] and of the store's [AddApproval], in order. *)
Definition cosign_refusal w (id signerID : string) : option GoError :=
  if decide (signerID = "") then Some (ErrNew "signer_id is required")
  else if negb (signerAllowed policy signerID) then Some (Errorf ErrUnauthorizedSigner signerID)
  else
    match transactions (store w) !! id with
    | None => Some (ErrVar ErrTransactionNotFound)
    | Some p =>
        if decide (tp_Status p ≠ TransactionStatusProposed) then Some (ErrVar ErrTransactionNotProposed)
        else if decide (is_Some (approvals p !! signerID)) then Some (ErrVar ErrDuplicateApproval)
        else None
    end.

Lemma cosign_admitted w id signerID :
  mem_wf (store w) → cosign_refusal w id signerID = None → ∃ p, may_approve policy w id signerID p.
Proof.
  unfold cosign_refusal. intros Hwf. case_decide; [done|].
  destruct (signerAllowed policy signerID) eqn:Hall; [|done]. cbn [negb].
  destruct (transactions (store w) !! id) as [p|] eqn:Hp; [|done].
  case_decide as Hst; [done|]. case_decide as Hap; [done|]. intros _. exists p.
  split; [done|by eapply wf_txns| |by apply eq_None_not_Some|done|done].
  apply dec_stable. tauto.
Qed.

(** C16. A co-signature that is refused (no signer, signer not on the allow
    list, unknown proposal, proposal no longer open, signer already counted)
    returns that reason and changes nothing. *)
Theorem cosign_refused w id signerID e :
  calm → cosign_refusal w id signerID = Some e →
  run_request policy env (ReqCoSign id signerID) w = (Err e, accept (ReqCoSign id signerID) w).
Proof.
  intros [Hctx Hrand] Hr. rewrite (run_request_eq RespTransaction (CoSign policy id signerID)) by done.
  unfold cosign_refusal in Hr. unfold CoSign. case_decide; [by simplify_eq|].
  destruct (signerAllowed policy signerID); cbn [negb] in *; [|by simplify_eq].
  rewrite run_bind, run_call. cbn [exec].
  rewrite run_try, (store_AddApproval_err env Hctx _ _ _ _ e); [done|].
  cbn. destruct (transactions (store w) !! id) as [p|]; [right; exists p|left; by simplify_eq].
  split; [done|]. case_decide as Hst; [left; by simplify_eq|].
  case_decide as Hap; [right|done]. simplify_eq. split_and!; [done| |done].
  apply dec_stable. tauto.
Qed.

(** The first co-signature: the approval is stored with its time, counted
    and logged under the signer's name; nothing is signed. *)
Theorem cosign_first w id signerID p :
  calm → may_approve policy w id signerID p → ApprovalsCount p = 0 →
  let q := with_approval (approval_at env signerID) p in
  run_request policy env (ReqCoSign id signerID) w
    = (Ok (RespTransaction q), approved_world env bytes signerID q (accept (ReqCoSign id signerID) w)).
Proof.
  intros [Hctx Hrand] Hmay Hc q. rewrite (run_request_eq RespTransaction (CoSign policy id signerID)) by done.
  rewrite (run_CoSign policy env bytes Hctx Hrand _ _ _ p) by (done || by destruct Hmay; split). cbv zeta.
  rewrite decide_False; [done|]. rewrite ApprovalsCount_approval by apply Hmay. lia.
Qed.

(** C17. The co-signature that completes the quorum: the backend is asked once,
    for the proposal with all approvals; its payload is stored, the proposal
    becomes signed, and both transitions are counted and logged. *)
Theorem cosign_completes_quorum w id signerID p sig g :
  let q := with_approval (approval_at env signerID) p in
  let signed := marked (sig_SignedTransaction sig) q in
  calm → may_approve policy w id signerID p → 1 ≤ ApprovalsCount p →
  signer_SignTransaction q (env 7) (signer w) = (Ok sig, g) →
  run_request policy env (ReqCoSign id signerID) w
    = (Ok (RespTransaction signed),
       log env bytes 10 (signed_event sig q)
         (count "custody_transactions_signed_total" "chain" (tp_Chain q)
            (store_txn signed
               (asked q (Ok sig) g
                  (approved_world env bytes signerID q (accept (ReqCoSign id signerID) w)))))).
Proof.
  intros q signed [Hctx Hrand] Hmay Hc Hsig.
  rewrite (run_request_eq RespTransaction (CoSign policy id signerID)) by done.
  by rewrite (run_CoSign_signed policy env bytes Hctx Hrand _ _ _ p sig g) by (done || by destruct Hmay; split).
Qed.

(** C18. When the backend fails to sign, the error is returned, the proposal is
    stored as failed with the error's text and the failure is logged. *)
Theorem cosign_sign_failure w id signerID p e g :
  let q := with_approval (approval_at env signerID) p in
  calm → may_approve policy w id signerID p → 1 ≤ ApprovalsCount p →
  signer_SignTransaction q (env 7) (signer w) = (Err e, g) →
  run_request policy env (ReqCoSign id signerID) w
    = (Err e,
       log env bytes 10 (failed_event e "sign" q)
         (store_txn (failed_at (in_now (env 8)) e q)
            (asked q (Err e) g
               (approved_world env bytes signerID q (accept (ReqCoSign id signerID) w))))).
Proof.
  intros q [Hctx Hrand] Hmay Hc Hsig.
  rewrite (run_request_eq RespTransaction (CoSign policy id signerID)) by done.
  by rewrite (run_CoSign_sign_failed policy env bytes Hctx Hrand _ _ _ p e g) by (done || by destruct Hmay; split).
Qed.

(** ** Broadcast *)

(** C19. Broadcasting a signed proposal sends exactly the stored payload to the
    adapter of its chain, once; an accepted broadcast stores the hash, a
    refused one stores the failure; either is logged. *)
Theorem broadcast_outcome w id p a r a' :
  calm → may_broadcast w id p a →
  adapter_Broadcast (tp_SignedTransaction p) (env 2) a = (r, a') →
  run_request policy env (ReqBroadcast id) w =
    (let w' := sent (tp_Chain p) (tp_SignedTransaction p) r a' (accept (ReqBroadcast id) w) in
     match r with
     | Err e => (Err e, log env bytes 5 (failed_event e "broadcast" p)
                          (store_txn (failed_at (in_now (env 3)) e p) w'))
     | Ok hash =>
         let q := broadcast_at (in_now (env 3)) hash p in
         (Ok (RespTransaction q),
          count "custody_transactions_broadcast_total" "chain" (tp_Chain p)
            (log env bytes 5 (broadcast_event hash p) (store_txn q w')))
     end).
Proof.
  intros [Hctx Hrand] Hmay Hr. rewrite (run_request_eq RespTransaction (Broadcast id)) by done.
  rewrite (run_Broadcast env bytes Hctx Hrand _ id p a r a') by (done || by destruct Hmay; split).
  by destruct r.
Qed.

(** The checks of [Broadcast] before it calls the adapter. *)
Definition broadcast_refusal w (id : string) : option GoError :=
  match transactions (store w) !! id with
  | None => Some (ErrVar ErrTransactionNotFound)
  | Some p =>
      if decide (tp_Status p ≠ TransactionStatusSigned ∨ tp_SignedTransaction p = "")
      then Some (ErrVar ErrTransactionNotSigned)
      else match Get (chains w) (tp_Chain p) with
           | None => Some (Errorf ErrUnsupportedChain (tp_Chain p))
           | Some _ => None
           end
  end.

(** C20. A proposal that is unknown, not signed (or already broadcast or
    failed), or of a chain without adapter is not broadcast: the reason is
    returned, nothing is sent and nothing changes. *)
Theorem broadcast_refused w id e :
  calm → broadcast_refusal w id = Some e →
  run_request policy env (ReqBroadcast id) w = (Err e, accept (ReqBroadcast id) w).
Proof.
  intros [Hctx Hrand] Hr. rewrite (run_request_eq RespTransaction (Broadcast id)) by done.
  unfold broadcast_refusal in Hr. unfold Broadcast. rewrite run_try.
  destruct (transactions (store w) !! id) as [p|] eqn:Hp.
  - rewrite (store_GetTransaction env Hctx _ _ _ p) by done. case_decide; [by simplify_eq|].
    rewrite run_bind, run_call. cbn [exec chains accept].
    destruct (Get (chains w) (tp_Chain p)) as [a|]; by simplify_eq.
  - simplify_eq. rewrite (run_store env _ _ _ (Err (ErrVar ErrTransactionNotFound)) (store w)).
    2: { cbn. unfold MemoryStore.GetTransaction, check_ctx. by rewrite Hctx, Hp. }
    by destruct w.
Qed.

(** ** Proposals and wallets *)

(** C21. A proposal within policy that the chain's adapter can build is stored
    as proposed, with the raw transaction the adapter returned, no approvals,
    the caller's trace, and its idempotency key if it has one; it is logged. *)
Theorem propose_outcome w trace request key source a raw a' :
  let p := new_proposal env bytes trace request source raw in
  let r := ReqProposeTransaction trace request key in
  calm → may_propose policy w request source a →
  adapter_BuildTransaction source request (env 2) a = (Ok raw, a') →
  transactions (store w) !! tp_ID p = None →
  idempotency (store w) !! idempotencyKey ("transaction:" +:+ req_WalletID request) key = None →
  run_request policy env r w
    = (Ok (RespTransaction p),
       count "custody_transactions_proposed_total" "chain" (w_Chain source)
         (log env bytes 6 (proposed_event p)
            ((if decide (key = "") then id else remember (proposal_record env request key p))
               (store_txn p (built (w_Chain source) a' (accept r w)))))).
Proof.
  intros p r [Hctx Hrand] Hmay Hb Hf Hi.
  rewrite (run_request_eq RespTransaction (ProposeTransaction policy trace request key)) by done.
  by rewrite (run_Propose policy env bytes Hctx Hrand _ _ _ _ source a raw a')
    by (done || by destruct Hmay; split).
Qed.

(** The checks of [ProposeTransaction] before it calls the adapter. *)
Definition propose_refusal w (request : TransactionRequest) : option GoError :=
  match wallets (store w) !! req_WalletID request with
  | None => Some (ErrVar ErrWalletNotFound)
  | Some source =>
      match validateAmountPolicy policy (w_Chain source) (req_Amount request) with
      | Some e => Some e
      | None =>
          match Get (chains w) (w_Chain source) with
          | None => Some (Errorf ErrUnsupportedChain (w_Chain source))
          | Some _ => None
          end
      end
  end.

(** C22. A proposal for an unknown wallet, outside the amount policy or on a
    chain without adapter is refused with that reason; no transaction is
    built and nothing changes. *)
Theorem propose_refused w trace request key e :
  let r := ReqProposeTransaction trace request key in
  calm → propose_refusal w request = Some e →
  run_request policy env r w = (Err e, accept r w).
Proof.
  intros r [Hctx Hrand] Hr.
  rewrite (run_request_eq RespTransaction (ProposeTransaction policy trace request key)) by done.
  unfold propose_refusal in Hr. unfold ProposeTransaction. rewrite run_try.
  destruct (wallets (store w) !! req_WalletID request) as [source|] eqn:Hw.
  - rewrite (run_store env _ _ _ (Ok source) (store w)).
    2: { cbn. unfold GetWallet, check_ctx. by rewrite Hctx, Hw. }
    destruct (validateAmountPolicy _ _ _); [by simplify_eq; destruct w|].
    rewrite run_bind, run_call. cbn [exec chains accept with_store].
    destruct (Get (chains w) (w_Chain source)) as [a|]; simplify_eq. by destruct w.
  - simplify_eq. rewrite (run_store env _ _ _ (Err (ErrVar ErrWalletNotFound)) (store w)).
    2: { cbn. unfold GetWallet, check_ctx. by rewrite Hctx, Hw. }
    by destruct w.
Qed.

(** Creating a wallet on a registered chain stores the material the
    backend made for the new identifier, with the idempotency key if there is
    one, counts and logs it. *)
Theorem create_wallet_outcome w chain key m g :
  let v := new_wallet env bytes chain m in
  let r := ReqCreateWallet chain key in
  calm → is_Some (Get (chains w) chain) →
  signer_CreateWallet (w_ID v) chain (env 2) (signer w) = (Ok m, g) →
  wallets (store w) !! w_ID v = None →
  idempotency (store w) !! idempotencyKey ("wallet:" +:+ chain) key = None →
  run_request policy env r w
    = (Ok (RespWallet v),
       count "custody_wallets_created_total" "chain" chain
         (if decide (key = "")
          then log env bytes 5 (wallet_event chain v) (store_wallet v (keyed g (accept r w)))
          else log env bytes 6 (wallet_event chain v)
                 (remember (wallet_record env chain key v) (store_wallet v (keyed g (accept r w)))))).
Proof.
  intros v r [Hctx Hrand] Ha Hg Hf Hi.
  rewrite (run_request_eq RespWallet (CreateWallet chain key)) by done.
  rewrite (run_CreateWallet env bytes Hctx Hrand _ chain key m g) by done. by case_decide.
Qed.

(** C23. An audit query returns the newest matching events first, as many as
    the limit says (100 when it is not between 1 and 200), and changes nothing. *)
Theorem audit_page w f :
  calm → mem_wf (store w) →
  run_request policy env (ReqListAuditEvents f) w
    = (Ok (RespEvents (take (page_size (af_Limit f))
             (filter (audit_matches (af_ResourceID f)) (reverse (auditEvents (store w)))))),
       accept (ReqListAuditEvents f) w).
Proof.
  intros [Hctx Hrand] Hwf. rewrite (run_request_eq RespEvents (ListAuditEvents f)) by done.
  by rewrite (run_ListAuditEvents env Hctx) by apply Hwf.
Qed.
End Requests.

(** ** The theorems at concrete requests *)
Lemma env_calm k : calm (env k) (rand_bytes k).
Proof. by split. Qed.

Abbreviation btc n := (after n ChainBitcoin btc_request).
Abbreviation open_txn n := (stored_txn (btc n) (txn_id 1)).

Lemma bob_may_approve : may_approve policy (btc 3) (txn_id 1) "bob" (open_txn 3).
Proof. split; vm_compute; (reflexivity || discriminate). Qed.
Lemma alice_may_approve : may_approve policy (btc 2) (txn_id 1) "alice" (open_txn 2).
Proof. split; vm_compute; (reflexivity || discriminate). Qed.

Lemma cosign_refused_witness :
  run_request policy (env 9) (ReqCoSign (txn_id 1) "alice") (btc 3)
    = (Err (ErrVar ErrDuplicateApproval), accept (ReqCoSign (txn_id 1) "alice") (btc 3)) ∧
  run_request policy (env 9) (ReqCoSign (txn_id 1) "mallory") (btc 3)
    = (Err (Errorf ErrUnauthorizedSigner "mallory"), accept (ReqCoSign (txn_id 1) "mallory") (btc 3)).
Proof.
  split; apply (cosign_refused policy (env 9) (rand_bytes 9)); (apply env_calm || vm_compute; reflexivity).
Defined.

Lemma cosign_first_witness :
  (run_request policy (env 2) (ReqCoSign (txn_id 1) "alice") (btc 2)).1
    = Ok (RespTransaction (with_approval (approval_at (env 2) "alice") (open_txn 2))).
Proof.
  rewrite (cosign_first policy (env 2) (rand_bytes 2) (btc 2) (txn_id 1) "alice" (open_txn 2));
    [reflexivity|apply env_calm|apply alice_may_approve|vm_compute; reflexivity].
Defined.

(** What the demo backend answers when bob completes the quorum. *)
Definition bob_signature : Signature :=
  match (SignTransaction (with_approval (approval_at (env 3) "bob") (open_txn 3)) (env 3 7)
           (signer (btc 3))).1 with
  | Ok sig => sig
  | Err _ => mkSignature "" ""
  end.

Lemma cosign_completes_quorum_witness :
  (run_request policy (env 3) (ReqCoSign (txn_id 1) "bob") (btc 3)).1
    = Ok (RespTransaction (marked (sig_SignedTransaction bob_signature)
            (with_approval (approval_at (env 3) "bob") (open_txn 3)))).
Proof.
  rewrite (cosign_completes_quorum policy (env 3) (rand_bytes 3) (btc 3) (txn_id 1) "bob" (open_txn 3)
    bob_signature (signer (btc 3)));
    [reflexivity|apply env_calm|apply bob_may_approve|vm_compute; lia|vm_compute; reflexivity].
Defined.

(** A backend that lost its keys: signing fails. *)
Definition keyless : Deployment :=
  mkWorld (store (btc 3)) (mkDemoQuorumBackend ∅ None) (chains (btc 3)) (metrics (btc 3)) (history (btc 3)).

Lemma cosign_sign_failure_witness :
  (run_request policy (env 3) (ReqCoSign (txn_id 1) "bob") keyless).1
    = Err (ErrNew "signing wallet material not found").
Proof.
  rewrite (cosign_sign_failure policy (env 3) (rand_bytes 3) keyless (txn_id 1) "bob" (open_txn 3)
    (ErrNew "signing wallet material not found") (mkDemoQuorumBackend ∅ None));
    [reflexivity|apply env_calm| |vm_compute; lia|vm_compute; reflexivity].
  split; vm_compute; (reflexivity || discriminate).
Defined.

Definition btc_adapter : Adapter := BitcoinAdapter (Bitcoin.NewAdapter "").
Definition btc_hash : string :=
  "btc_" +:+ EncodeToString (Sha256.Sum256 ("btc:" +:+ tp_SignedTransaction (open_txn 4))).

Lemma broadcast_outcome_witness :
  (run_request policy (env 4) (ReqBroadcast (txn_id 1)) (btc 4)).1
    = Ok (RespTransaction (broadcast_at (in_now (env 4 3)) btc_hash (open_txn 4))).
Proof.
  rewrite (broadcast_outcome policy (env 4) (rand_bytes 4) (btc 4) (txn_id 1) (open_txn 4) btc_adapter
    (Ok btc_hash) btc_adapter);
    [reflexivity|apply env_calm|split; vm_compute; (reflexivity || discriminate)|vm_compute; reflexivity].
Defined.

Lemma broadcast_refused_witness :
  run_request policy (env 9) (ReqBroadcast (txn_id 1)) (btc 3)
    = (Err (ErrVar ErrTransactionNotSigned), accept (ReqBroadcast (txn_id 1)) (btc 3)).
Proof.
  apply (broadcast_refused policy (env 9) (rand_bytes 9)); [apply env_calm|vm_compute; reflexivity].
Defined.

(** What the Bitcoin adapter builds for the demo request. *)
Definition btc_wallet : Wallet := default (mkWallet "" "" "" "" 0) (wallets (store (btc 1)) !! wallet_id 0).
Definition btc_raw : RawTransaction :=
  match (Bitcoin.BuildTransaction btc_wallet btc_request (env 1 2) (Bitcoin.NewAdapter "")).1 with
  | Ok raw => raw
  | Err _ => mkRawTransaction "" None
  end.

Lemma propose_outcome_witness :
  (run_request policy (env 1) (ReqProposeTransaction trace btc_request "p") (btc 1)).1
    = Ok (RespTransaction (new_proposal (env 1) (rand_bytes 1) trace btc_request btc_wallet btc_raw)).
Proof.
  rewrite (propose_outcome policy (env 1) (rand_bytes 1) (btc 1) trace btc_request "p" btc_wallet
    btc_adapter btc_raw btc_adapter);
    [reflexivity|apply env_calm|split; vm_compute; reflexivity|vm_compute; reflexivity..].
Defined.

Definition big_request : TransactionRequest :=
  mkTransactionRequest (wallet_id 0) "tb1qrecipient" "100001" 5 0 "" "" [mkUTXO "prev" 0 75000 "0014ab"] None.

Lemma propose_refused_witness :
  run_request policy (env 1) (ReqProposeTransaction trace big_request "") (btc 1)
    = (Err (Errorf ErrPolicyViolation "bitcoin amount exceeds limit"),
       accept (ReqProposeTransaction trace big_request "") (btc 1)).
Proof.
  apply (propose_refused policy (env 1) (rand_bytes 1)); [apply env_calm|vm_compute; reflexivity].
Defined.

Definition btc_material : WalletMaterial := mkWalletMaterial (w_Address btc_wallet) (w_PublicKey btc_wallet).

Lemma create_wallet_outcome_witness :
  (run_request policy (env 0) (ReqCreateWallet ChainBitcoin "w") (btc 0)).1
    = Ok (RespWallet (new_wallet (env 0) (rand_bytes 0) ChainBitcoin btc_material)).
Proof.
  rewrite (create_wallet_outcome policy (env 0) (rand_bytes 0) (btc 0) ChainBitcoin "w" btc_material
    (signer (btc 1)));
    [reflexivity|apply env_calm|exists btc_adapter; vm_compute; reflexivity|vm_compute; reflexivity..].
Defined.

Lemma after_wf n chain request :
  Forall typed (flow chain request) → mem_wf (store (after n chain request)).
Proof.
  intros Ht. pose proof (serve_all_steps 0 (take n (flow chain request)) world0 [] (Forall_take _ n _ Ht)) as Hr.
  destruct (fresh_safe policy world0 _ start_fresh Hr) as [[Hwf _ _] _]. exact Hwf.
Qed.

Lemma audit_page_witness :
  (run_request policy (env 9) (ReqListAuditEvents (mkAuditFilter "" 2)) (btc 5)).1
    = Ok (RespEvents (take 2 (reverse (auditEvents (store (btc 5)))))).
Proof.
  rewrite (audit_page policy (env 9) (rand_bytes 9) (btc 5) (mkAuditFilter "" 2));
    [vm_compute; reflexivity|apply env_calm|apply after_wf; by_compute].
Defined.
