(* ===== verification/ComponentTheorems.v ===== *)
(** * Chain adapters, signing backend and store

    What the collaborators of the service promise it: the adapters build and
    the backend signs exactly what was proposed, nonces are handed out in
    order, the in-memory store meets the store contract. *)
From Stdlib Require Import Ascii.
From S2P Require Import Prelude GoStd GoError Types Json Marshal GoTime Sha256 Metrics Interfaces Ethereum Bitcoin.
From S2P Require Import Evm Chains Signing StoreSpec MemoryStore Service System Custody Handlers Flow Scenario CustodyTheorems.
From S2P Require Import FlowTheorems.

(** ** Store *)

(** C9. Every method of the in-memory store either has the effect the store
    contract prescribes, or refuses for the reason the contract gives without
    changing anything, or reports a cancelled context. *)
Theorem memory_store_meets_contract A (op : StoreOp A) inp s r s' :
  mem_wf s → op_ok op → store_exec op inp s = (r, s') →
  mem_wf s' ∧ spec_step exact op (mem_abs s) r (mem_abs s').
Proof.
  intros Hwf Hop Hx. apply (@st_refines MemoryStore _ MemoryStore_Refinement A op s r s' Hwf Hop). by exists inp.
Qed.

Lemma memory_store_meets_contract_witness :
  spec_step exact (OpGetWallet (wallet_id 0)) (mem_abs (store (btc 1))) (Ok btc_wallet)
    (mem_abs (store (btc 1))).
Proof.
  apply (memory_store_meets_contract Wallet (OpGetWallet (wallet_id 0)) (env 0 0) (store (btc 1))
    (Ok btc_wallet) (store (btc 1))); [apply after_wf; by_compute|exact I|vm_compute; reflexivity].
Defined.

(** Idempotency keys: a saved record is what a later lookup of its scope
    and key finds, a second save is refused, and for scopes without a NUL byte
    no other scope and key is affected. *)
Theorem idempotency_saved_once rec inp s s' scope key :
  SaveIdempotency rec inp s = (Ok tt, s') →
  GetIdempotency (ir_Scope rec) (ir_Key rec) inp s' = (Ok rec, s') ∧
  SaveIdempotency rec inp s' = (Err (ErrVar ErrDuplicateIdempotency), s') ∧
  (has_byte "000" (ir_Scope rec) = false → has_byte "000" scope = false →
   (scope, key) ≠ (ir_Scope rec, ir_Key rec) →
   (GetIdempotency scope key inp s').1 = (GetIdempotency scope key inp s).1).
Proof.
  unfold SaveIdempotency, GetIdempotency, check_ctx. destruct (in_ctx inp); [done|].
  destruct (idempotency s !! _) eqn:Hi; [done|]. intros [= <-]. simpl. rewrite !lookup_insert_eq.
  split_and!; [done|done|]. intros Hr Hs Hne. rewrite lookup_insert_ne; [by destruct (idempotency s !! idempotencyKey scope key)|].
  intros E. apply Hne. by destruct (idempotencyKey_inj _ _ _ _ Hr Hs E) as [-> ->].
Qed.

Lemma idempotency_saved_once_witness :
  let rec := mkIdempotencyRecord "wallet:evm" "k" "wallet" "wlt_1" 5 in
  (GetIdempotency "wallet:evm" "k" (env 0 0) (SaveIdempotency rec (env 0 0) NewMemoryStore).2).1 = Ok rec.
Proof.
  intros rec. destruct (idempotency_saved_once rec (env 0 0) NewMemoryStore
    (SaveIdempotency rec (env 0 0) NewMemoryStore).2 "" "") as [Hg _]; [vm_compute; reflexivity|].
  exact (f_equal fst Hg).
Defined.

(** ** From proposal to signature *)
Section Chains.
Context `{Ethereum}.
Implicit Types p : TransactionProposal.

(** Requests and wallets as the service holds them: 64-bit numbers, UTF-8. *)
Definition evm_texts (source : Wallet) (request : TransactionRequest) : Prop :=
  (0 ≤ req_GasLimit request < 2^64)%Z ∧
  Forall utf8 [w_Address source; req_To request; req_MaxFeePerGas request; req_Data request].
Definition adapter_ok (a : Evm.Adapter) : Prop :=
  (0 ≤ chainID a < 2^64)%Z ∧ ∀ address n, nonces a !! address = Some n → (0 ≤ n < 2^64)%Z.

Lemma next_nonce_range a address : adapter_ok a → (0 ≤ next_nonce a address < 2^64)%Z.
Proof.
  intros [_ Hn]. unfold next_nonce. destruct (nonces a !! address) eqn:E; simpl; [eauto|lia].
Qed.

Lemma local_payload_ok a source request v now :
  adapter_ok a → evm_texts source request → Evm.acceptable request v →
  payload_ok (local_payload a source request (next_nonce a (w_Address source)) now).
Proof.
  intros Ha [Hg Ht] (_ & Hv & _). rewrite !Forall_cons in Ht. destruct_and!.
  split; simpl; [apply Ha|by apply next_nonce_range|done|].
  apply SetString_utf8 in Hv. unfold ChainEVM. rewrite !Forall_cons.
  split_and!; [auto with text..|by constructor].
Qed.

(** C24. What the EVM adapter builds without a node is what the backend signs:
    the chain, the nonce it handed out, the gas limit, fee, destination,
    value and data of the request reach [types.SignTx] unchanged through the
    stored JSON payload, with the private key of the wallet. *)
Theorem evm_signs_what_was_proposed a source request inp raw a' p inp' b rec v fee data :
  rpcURL a = "" → adapter_ok a → evm_texts source request →
  Evm.BuildTransaction source request inp a = (Ok raw, a') →
  SetString (req_Amount request) = Some v → SetString (req_MaxFeePerGas request) = Some fee →
  DecodeHex (TrimPrefix (req_Data request) "0x") = Ok data →
  tp_RawTransaction p = raw → tp_Chain p = ChainEVM → 2 ≤ ApprovalsCount p →
  records b !! tp_WalletID p = Some rec → in_ctx inp' = None →
  SignTransaction p inp' b =
    (match SignTx (mkDynamicFeeTx (chainID a) (next_nonce a (w_Address source)) fee fee
             (req_GasLimit request) (HexToAddress (req_To request)) v data)
             (chainID a) (rec_private rec) with
     | Err e => Err e
     | Ok signedTx =>
         match MarshalBinary signedTx with
         | Err e => Err e
         | Ok bin => Ok (mkSignature ("0x" +:+ EncodeToString bin) (tx_Hash signedTx))
         end
     end, b).
Proof.
  intros Hrpc Ha Ht Hb Hv Hf Hd Hraw Hch Hq Hrec Hctx.
  apply BuildTransaction_local in Hb as (_ & [v' Hacc] & -> & _); [|done].
  rewrite (SignTransaction_evm p inp' b rec) by done. f_equal.
  by apply (signEVMTransaction_payload p (rec_private rec)
    (local_payload a source request (next_nonce a (w_Address source)) (in_now inp)) v fee fee data);
    try done; apply (local_payload_ok _ _ _ v').
Qed.

(** C25. What the Bitcoin adapter builds is what the backend signs: the signed
    payload is the hex form of a JSON envelope holding the whole payload
    tree, the DER signature that ECDSA gave for the payload's SHA-256 digest
    under the wallet's key, and that digest. *)
Theorem bitcoin_signs_what_was_proposed a source request inp raw a' p inp' b rec r s :
  utf8 (network a) → utf8 (w_Address source) → utf8 (req_To request) →
  Forall utxo_text (req_UTXOs request) →
  Bitcoin.BuildTransaction source request inp a = (Ok raw, a') →
  tp_RawTransaction p = raw → tp_Chain p = ChainBitcoin → utf8 (tp_WalletID p) →
  2 ≤ ApprovalsCount p → records b !! tp_WalletID p = Some rec → in_ctx inp' = None →
  in_ecdsa inp' (rec_private rec) (Sum256 (default "" (raw_Payload raw))) = Ok (r, s) →
  ∃ sig v text, SignTransaction p inp' b = (Ok sig, b) ∧
    DecodeString (sig_SignedTransaction sig) = Some text ∧
    ParseInt (req_Amount request) = Some v ∧
    decode text = Some (envelope_json p (Bitcoin.payload a source request v (in_now inp))
      (asn1_Marshal r s) (Sum256 (default "" (raw_Payload raw))) (in_now inp')).
Proof.
  intros Hn Haddr Hto Hu Hb Hraw Hch Hwid Hq Hrec Hctx Hs.
  apply Bitcoin.BuildTransaction_ok in Hb as (_ & _ & v & (_ & Hv & _) & ->).
  pose proof (payload_wf a source request v (in_now inp) Hn Haddr Hto Hu) as Hj.
  set (j := Bitcoin.payload a source request v (in_now inp)) in *.
  set (text := encode (envelope_json p j (asn1_Marshal r s) (Sum256 (encode j)) (in_now inp'))).
  exists (mkSignature (EncodeToString text) (EncodeToString (Sum256 text))), v, text. split_and!.
  - apply (SignTransaction_other p inp' b rec j r s);
      [exact Hctx|exact Hq|exact Hrec|by rewrite Hch|by rewrite Hraw|exact Hj|exact Hs].
  - exact (DecodeString_EncodeToString text).
  - exact Hv.
  - apply decode_encode, envelope_json_wf; [rewrite Hch; unfold ChainBitcoin; auto with text|exact Hwid|exact Hj].
Qed.

(** ** Nonces *)

(** A sequence of calls to [BuildTransaction]. *)
Fixpoint build_all (l : list (Wallet * TransactionRequest * Input)) (a : Evm.Adapter)
    : list (res RawTransaction) * Evm.Adapter :=
  match l with
  | [] => ([], a)
  | (source, request, inp) :: l' =>
      let '(r, a1) := Evm.BuildTransaction source request inp a in
      let '(rs, a2) := build_all l' a1 in (r :: rs, a2)
  end.

(** The nonces the built payloads carry for one sender. *)
Definition payload_nonce (address : string) (r : res RawTransaction) : option Z :=
  match r with
  | Ok raw =>
      match unmarshal_payload (raw_Payload raw) with
      | Ok pl => if decide (evm_From pl = address) then Some (evm_Nonce pl) else None
      | Err _ => None
      end
  | Err _ => None
  end.

Lemma build_nonce source request inp a r a' address :
  rpcURL a = "" → adapter_ok a → evm_texts source request →
  Evm.BuildTransaction source request inp a = (r, a') →
  rpcURL a' = "" ∧ adapter_ok a' ∧
  (payload_nonce address r = None ∧ next_nonce a' address = next_nonce a address ∨
   payload_nonce address r = Some (next_nonce a address) ∧
   next_nonce a' address = ((next_nonce a address + 1) mod 2^64)%Z).
Proof.
  intros Hrpc Ha Ht Hb. destruct r as [raw|e].
  2: { apply BuildTransaction_err in Hb as ->. split_and!; [done|done|by left]. }
  apply BuildTransaction_local in Hb as (_ & [v Hacc] & -> & ->); [|done].
  split_and!; [done|..].
  - split; [apply Ha|]. intros x n. simpl. rewrite lookup_insert. case_decide.
    + intros [= <-]. apply Z.mod_pos_bound. lia.
    + apply Ha.
  - unfold payload_nonce. cbn [raw_Payload].
    rewrite unmarshal_payload_json by by eapply local_payload_ok.
    cbn [local_payload evm_From evm_Nonce]. unfold next_nonce. cbn [nextNonce nonces snd].
    case_decide as Hs.
    + right. subst. by rewrite lookup_insert_eq.
    + left. by rewrite lookup_insert_ne.
Qed.

(** C26. Without a node, the transactions built for one sender carry
    consecutive nonces from the adapter's counter (modulo 2^64), in the order
    they were built, whatever was refused or built for others in between;
    no nonce repeats before 2^64 transactions. *)
Theorem evm_nonces_consecutive l a rs a' address :
  rpcURL a = "" → adapter_ok a → Forall (λ x, evm_texts x.1.1 x.1.2) l →
  build_all l a = (rs, a') →
  let given : list Z := omap (payload_nonce address) rs in
  given = (λ i, ((next_nonce a address + i) mod 2^64)%Z) <$> seqZ 0 (Z.of_nat (length given)) ∧
  next_nonce a' address = ((next_nonce a address + Z.of_nat (length given)) mod 2^64)%Z ∧
  ((Z.of_nat (length given) ≤ 2^64)%Z → NoDup given).
Proof.
  intros Hrpc Ha Hl Hb given.
  assert (Hseq : given = (λ i, ((next_nonce a address + i) mod 2^64)%Z) <$> seqZ 0 (Z.of_nat (length given)) ∧
    next_nonce a' address = ((next_nonce a address + Z.of_nat (length given)) mod 2^64)%Z).
  { subst given. revert a rs Hrpc Ha Hb. induction Hl as [|[[source request] inp] l Ht Hl IH];
      intros a rs Hrpc Ha Hb; cbn [build_all] in Hb.
    { simplify_eq. simpl. split; [done|]. rewrite Z.add_0_r, Z.mod_small; [done|by apply next_nonce_range]. }
    destruct (Evm.BuildTransaction source request inp a) as [r a1] eqn:Hr.
    destruct (build_all l a1) as [rs1 a2] eqn:Hrs. simplify_eq.
    destruct (build_nonce _ _ _ _ _ _ address Hrpc Ha Ht Hr) as (Hrpc1 & Ha1 & Hn).
    destruct (IH a1 rs1 Hrpc1 Ha1 Hrs) as [IH1 IH2]. unfold omap in *. cbn [list_omap].
    destruct Hn as [[-> E]|[-> E]]; rewrite E in IH1, IH2; [done|].
    set (g := list_omap _ _ (payload_nonce address) rs1) in *. cbn [length]. split.
    - rewrite seqZ_cons by lia. rewrite fmap_cons. f_equal.
      { rewrite Z.add_0_r, Z.mod_small; [done|by apply next_nonce_range]. }
      rewrite IH1 at 1. replace (Z.pred (Z.of_nat (S (length g)))) with (Z.of_nat (length g)) by lia.
      rewrite <- (Z.add_0_r (Z.succ 0)), <- fmap_add_seqZ, <- list_fmap_compose.
      apply list_fmap_ext. intros _ i _. simpl. rewrite Zplus_mod_idemp_l. f_equal. lia.
    - rewrite IH2, Zplus_mod_idemp_l. f_equal. lia. }
  destruct Hseq as [Hg Hnext]. split_and!; [done|done|]. intros Hlen. rewrite Hg.
  apply NoDup_fmap_2_strong; [|apply NoDup_seqZ].
  intros i j Hi%elem_of_seqZ Hj%elem_of_seqZ E. pose proof (next_nonce_range a address Ha).
  pose proof (Z.div_mod (next_nonce a address + i) (2^64)).
  pose proof (Z.div_mod (next_nonce a address + j) (2^64)). lia.
Qed.

(** ** With a node *)

(** With a node, the EVM adapter takes chain, nonce and missing gas fields
    from the node's answers and everything else from the request, and keeps
    its local nonce table untouched. *)
Theorem evm_builds_from_node a source request inp raw a' :
  rpcURL a ≠ "" → Evm.BuildTransaction source request inp a = (Ok raw, a') →
  a' = a ∧
  ∃ pl id v data, raw = mkRawTransaction ChainEVM (Some (encode (payload_json pl))) ∧
    eth_ChainID (in_eth inp) = Ok id ∧ evm_ChainID pl = (Z.abs id mod 2^64)%Z ∧
    eth_PendingNonceAt (in_eth inp) (HexToAddress (w_Address source)) = Ok (evm_Nonce pl) ∧
    SetString (req_Amount request) = Some v ∧ (0 < v)%Z ∧
    DecodeHex (trimHexPrefix (req_Data request)) = Ok data ∧
    (req_GasLimit request = 0%Z →
       eth_EstimateGas (in_eth inp) (HexToAddress (w_Address source)) (HexToAddress (req_To request))
         v data = Ok (evm_GasLimit pl)) ∧
    (req_GasLimit request ≠ 0%Z → evm_GasLimit pl = req_GasLimit request) ∧
    (req_MaxFeePerGas request ≠ "" → evm_MaxFeePerGas pl = req_MaxFeePerGas request) ∧
    (req_MaxFeePerGas request = "" →
       ∃ price, eth_SuggestGasPrice (in_eth inp) = Ok price ∧ evm_MaxFeePerGas pl = FormatInt price) ∧
    evm_From pl = w_Address source ∧ evm_To pl = req_To request ∧
    evm_ValueWei pl = req_Amount request ∧ evm_Data pl = req_Data request.
Proof.
  intros Hrpc Hb. split; [by eapply BuildTransaction_rpc|]. revert Hb.
  unfold Evm.BuildTransaction. destruct (in_ctx inp); [done|]. case_decide; [done|]. case_decide; [done|].
  destruct (SetString (req_Amount request)) as [v|]; [|done]. destruct (Z.leb_spec v 0); [done|].
  rewrite (decide_False (P := rpcURL a = "")) by done.
  destruct (populateFromRPC _ _ _ _) as [pl|] eqn:Hp; [|done]. intros [= <- _]. revert Hp.
  unfold populateFromRPC, Evm.try. destruct (eth_Dial _); [done|].
  destruct (eth_ChainID _) as [id|] eqn:Hid; [|done]. cbn [evm_From].
  destruct (eth_PendingNonceAt _ _) as [n|] eqn:Hn; [|done].
  destruct (DecodeHex _) as [data|] eqn:Hd; [|done].
  destruct (decide (req_GasLimit request = 0%Z)), (decide (req_MaxFeePerGas request = "")).
  1,2: destruct (eth_EstimateGas _ _ _ _ _) as [gas|] eqn:Hg; [|done].
  1,3: destruct (eth_SuggestGasPrice _) as [price|] eqn:Hs; [|done].
  all: intros [= <-]; eexists (set_gas _ _ _ _ _ _), id, v, data; split; [reflexivity|].
  all: cbn [set_gas evm_ChainID evm_Nonce evm_GasLimit evm_MaxFeePerGas evm_From evm_To evm_ValueWei evm_Data].
  all: split_and!; intros; eauto; done.
Qed.

(** C27. A signed EVM payload broadcast through a node is decoded back into the
    very transaction that was signed: that is what the node receives, and
    the hash reported is the signature identifier logged when it was signed. *)
Theorem evm_broadcast_sends_signed `{!EthereumLaws} p key sig inp a :
  signEVMTransaction p key = Ok sig →
  rpcURL a ≠ "" → in_ctx inp = None → eth_Dial (in_eth inp) = None →
  ∃ tx signedTx, SignTx tx (df_ChainID tx) key = Ok signedTx ∧
    Evm.Broadcast (sig_SignedTransaction sig) inp a =
      (match eth_SendTransaction (in_eth inp) signedTx with
       | Some e => Err e
       | None => Ok (sig_SignatureID sig)
       end, a).
Proof.
  unfold signEVMTransaction. intros Hs Hrpc Hctx Hdial.
  destruct (unmarshal_payload _) as [pl|]; [|done].
  destruct (SetString (evm_ValueWei pl)) as [v|], (SetString (evm_MaxFeePerGas pl)) as [f|],
    (SetString (evm_MaxPriorityFeePerGas pl)) as [t|]; try done.
  destruct (DecodeHex _) as [data|]; [|done].
  destruct (SignTx _ _ _) as [stx|] eqn:Hsign; [|done].
  destruct (MarshalBinary stx) as [bin|] eqn:Hbin; [|done]. injection Hs as <-.
  eexists _, stx. split; [exact Hsign|]. unfold Evm.Broadcast. rewrite Hctx.
  cbn [sig_SignedTransaction sig_SignatureID]. rewrite decide_False by done.
  rewrite (decide_False (P := rpcURL a = "")), Hdial by done.
  change (trimHexPrefix ("0x" +:+ ?x)) with x.
  rewrite DecodeHex_EncodeToString, (Unmarshal_Marshal _ _ Hbin).
  by destruct (eth_SendTransaction _ _).
Qed.

(** C28. The backend has its own gate: whoever asks, it signs only a proposal
    with two or more approvals whose wallet it created, and asking changes
    nothing in it. *)
Theorem backend_gate p inp b :
  (SignTransaction p inp b).2 = b ∧
  (ApprovalsCount p < 2 → in_ctx inp = None →
     (SignTransaction p inp b).1 = Err (ErrNew "2-of-3 quorum has not been reached")) ∧
  (∀ sig, (SignTransaction p inp b).1 = Ok sig →
     2 ≤ ApprovalsCount p ∧ is_Some (records b !! tp_WalletID p)).
Proof.
  split; [apply SignTransaction_state|]. split.
  - intros Hc Hctx. unfold SignTransaction. by rewrite Hctx, decide_True.
  - intros sig Hs. destruct (SignTransaction p inp b) as [r b'] eqn:E. simpl in Hs. subst r.
    by apply SignTransaction_quorum in E as (_ & ? & ?).
Qed.
End Chains.

(** ** The theorems at concrete transactions *)
Abbreviation eth n := (after n ChainEVM evm_request).
Definition evm_adapter : Evm.Adapter := Evm.NewAdapter 0 [].
Definition evm_wallet : Wallet := default (mkWallet "" "" "" "" 0) (wallets (store (eth 1)) !! wallet_id 0).
Definition built_raw (r : res RawTransaction * Evm.Adapter) : RawTransaction :=
  match r.1 with Ok raw => raw | Err _ => mkRawTransaction "" None end.
Definition evm_raw : RawTransaction :=
  built_raw (Evm.BuildTransaction evm_wallet evm_request (env 1 2) evm_adapter).
Definition evm_txn : TransactionProposal := stored_txn (eth 4) (txn_id 1).
Definition key_of (w : Deployment) : walletRecord :=
  default (mkWalletRecord "" (mkPrivateKey (mkPublicKey P256 0 0) 0) "" "") (records (signer w) !! wallet_id 0).

Lemma evm_texts_demo : evm_texts evm_wallet evm_request.
Proof.
  split; [simpl; lia|]. rewrite !Forall_cons. split_and!; [..|by constructor];
    apply utf8_ascii; vm_compute; reflexivity.
Qed.
Lemma evm_texts_btc : evm_texts evm_wallet btc_request.
Proof.
  split; [simpl; lia|]. rewrite !Forall_cons. split_and!; [..|by constructor];
    apply utf8_ascii; vm_compute; reflexivity.
Qed.
Lemma evm_adapter_ok : adapter_ok evm_adapter.
Proof. split; [simpl; lia|]. intros address n. simpl. by rewrite lookup_empty. Qed.

Lemma evm_signs_what_was_proposed_witness :
  ∃ sig, SignTransaction evm_txn (env 3 7) (signer (eth 3)) = (Ok sig, signer (eth 3)) ∧
    DecodeString (TrimPrefix (sig_SignedTransaction sig) "0x")
      = Some "31337,0,2000000000,2000000000,21000,0x1111111111111111111111111111111111111111,1000000000000000,,31337,5".
Proof.
  rewrite (evm_signs_what_was_proposed evm_adapter evm_wallet evm_request (env 1 2) evm_raw
    (nextNonce (w_Address evm_wallet) evm_adapter).2 evm_txn (env 3 7) (signer (eth 3)) (key_of (eth 3))
    1000000000000000 2000000000 "");
    [|reflexivity|apply evm_adapter_ok|apply evm_texts_demo|vm_compute; (reflexivity || lia)..].
  eexists. split; [reflexivity|]. vm_compute. reflexivity.
Defined.

Definition btc_txn : TransactionProposal := stored_txn (btc 4) (txn_id 1).

Lemma bitcoin_signs_what_was_proposed_witness :
  ∃ sig v text, SignTransaction btc_txn (env 3 7) (signer (btc 3)) = (Ok sig, signer (btc 3)) ∧
    DecodeString (sig_SignedTransaction sig) = Some text ∧
    ParseInt (req_Amount btc_request) = Some v ∧
    decode text = Some (envelope_json btc_txn
      (Bitcoin.payload (Bitcoin.NewAdapter "") btc_wallet btc_request v (in_now (env 1 2)))
      (asn1_Marshal 6 7) (Sum256 (default "" (raw_Payload btc_raw))) (in_now (env 3 7))).
Proof.
  apply (bitcoin_signs_what_was_proposed (Bitcoin.NewAdapter "") btc_wallet btc_request (env 1 2) btc_raw
    (Bitcoin.NewAdapter "") btc_txn (env 3 7) (signer (btc 3)) (key_of (btc 3)) 6 7).
  1-3: apply utf8_ascii; vm_compute; reflexivity.
  { constructor; [|by constructor]. split; apply utf8_ascii; vm_compute; reflexivity. }
  4: apply utf8_ascii.
  all: vm_compute; (reflexivity || lia).
Defined.

Lemma evm_nonces_consecutive_witness :
  let l := [(evm_wallet, evm_request, env 1 2); (evm_wallet, btc_request, env 2 2);
            (evm_wallet, evm_request, env 3 2)] in
  omap (payload_nonce (w_Address evm_wallet)) (build_all l evm_adapter).1 = [0; 1]%Z ∧
  NoDup (omap (payload_nonce (w_Address evm_wallet)) (build_all l evm_adapter).1).
Proof.
  intros l. destruct (evm_nonces_consecutive l evm_adapter (build_all l evm_adapter).1
    (build_all l evm_adapter).2 (w_Address evm_wallet)) as (_ & _ & Hn);
    [reflexivity|apply evm_adapter_ok| |apply surjective_pairing|].
  - subst l. rewrite !Forall_cons. split_and!; [apply evm_texts_demo|apply evm_texts_btc|apply evm_texts_demo|by constructor].
  - split; [vm_compute; reflexivity|]. apply Hn. vm_compute. discriminate.
Defined.

Definition rpc_adapter : Evm.Adapter := Evm.NewAdapter 0 ["http://localhost:8545"].

Lemma evm_builds_from_node_witness :
  ∃ pl, raw_Payload (built_raw (Evm.BuildTransaction evm_wallet evm_request (env 1 2) rpc_adapter))
          = Some (encode (payload_json pl)) ∧
    Ok (E := GoError) 7%Z = Ok (evm_Nonce pl) ∧ evm_GasLimit pl = 21000%Z.
Proof.
  destruct (evm_builds_from_node rpc_adapter evm_wallet evm_request (env 1 2)
    (built_raw (Evm.BuildTransaction evm_wallet evm_request (env 1 2) rpc_adapter)) rpc_adapter)
    as (_ & pl & id & v & data & Hraw & _ & _ & Hn & _ & _ & _ & _ & Hg & _);
    [discriminate|vm_compute; reflexivity|].
  exists pl. rewrite Hraw. split_and!; [reflexivity|exact Hn|]. apply Hg. discriminate.
Defined.

Definition evm_signature : Signature :=
  match signEVMTransaction evm_txn (rec_private (key_of (eth 3))) with Ok sig => sig | Err _ => mkSignature "" "" end.

Lemma evm_broadcast_sends_signed_witness :
  Evm.Broadcast (sig_SignedTransaction evm_signature) (env 4 2) rpc_adapter
    = (Ok (sig_SignatureID evm_signature), rpc_adapter).
Proof.
  destruct (evm_broadcast_sends_signed evm_txn (rec_private (key_of (eth 3))) evm_signature (env 4 2)
    rpc_adapter) as (tx & stx & _ & E);
    [vm_compute; reflexivity|discriminate|reflexivity|reflexivity|].
  rewrite E. reflexivity.
Defined.

Lemma backend_gate_witness :
  (SignTransaction (open_txn 3) (env 3 7) (signer (btc 3))).1
    = Err (ErrNew "2-of-3 quorum has not been reached").
Proof.
  destruct (backend_gate (open_txn 3) (env 3 7) (signer (btc 3))) as (_ & Hg & _).
  apply Hg; [vm_compute; lia|reflexivity].
Defined.
