(* ===== verification/WiringTheorems.v ===== *)
(** * From the environment to a running service

    The configuration an operator writes is the policy the service enforces;
    which configurations enforce nothing; a process with an empty store starts
    in a fresh state; and the life of the process. *)
From Stdlib Require Import Ascii.
From stdpp Require Import sorting infinite.
From S2P Require Import Prelude GoStd GoError Types Marshal Metrics Config Interfaces Ethereum Bitcoin Evm Chains.
From S2P Require Import Signing StoreSpec MemoryStore Service Tracing System Custody Handlers Scenario CustodyTheorems.
From S2P Require Import Wiring Api Process.

Lemma FormatInt_not_empty z : FormatInt z ≠ "".
Proof. intros E. pose proof (SetString_FormatInt z) as H. by rewrite E in H. Qed.
(** A list written with commas is read back. *)
Lemma envList_Join Getenv key items :
  Forall clean items → items ≠ [] → Getenv key = Join "," items → envList Getenv key = items.
Proof.
  intros Hc Hne Hv. unfold envList. rewrite Hv, decide_False; [by apply split_list_Join|].
  intros E. apply (f_equal (Split ",")) in E. rewrite Split_Join in E; [|done|].
  - destruct items as [|x l]; [done|]. inversion E; subst. by inversion Hc as [|? ? [? _]]; subst.
  - eapply Forall_impl; [exact Hc|]. by intros x (_ & ? & _).
Qed.

(** C31. The limits an operator configures are the ones enforced: a list of
    signers written with commas permits exactly these signers, and the caps are
    the numbers written.  Whatever the environment holds, every number the
    loader produces is in the range of its type: the chain identifier is a
    positive uint64, the Bitcoin cap a non-negative int64, the EVM cap
    non-negative, the grace period an int64, which is the number of seconds
    written as long as that fits. *)
Theorem configured_policy_enforced Getenv signers btc evm s :
  Forall clean signers → signers ≠ [] → Getenv "SIGNER_IDS" = Join "," signers →
  (0 ≤ btc < 2^63)%Z → Getenv "MAX_BTC_AMOUNT_SATS" = FormatInt btc →
  (0 ≤ evm)%Z → Getenv "MAX_EVM_AMOUNT_WEI" = FormatInt evm →
  let policy := policy_of (Load Getenv) in
  (signerAllowed policy s = true ↔ s ∈ signers) ∧
  MaxBitcoinAmountSats policy = btc ∧ Service.MaxEVMAmountWei policy = Some evm ∧
  ∀ environment, let cfg := Load environment in
    (0 < EVMChainID cfg < 2^64)%Z ∧ (0 ≤ MaxBTCAmountSats cfg < 2^63)%Z ∧
    (∀ v, Config.MaxEVMAmountWei cfg = Some v → (0 ≤ v)%Z) ∧ (- 2^63 ≤ ShutdownGraceTime cfg < 2^63)%Z ∧
    ∀ seconds, (0 < seconds ≤ 9223372036)%Z → environment "SHUTDOWN_GRACE_SECONDS" = FormatInt seconds →
      ShutdownGraceTime cfg = (seconds * 1000000000)%Z.
Proof.
  intros Hc Hne Hs Hb Hbtc He Hevm policy. pose proof FormatInt_not_empty.
  split_and!.
  - unfold policy, policy_of. rewrite signerAllowed_set. cbn [Load SignerIDs]. rewrite (envList_Join _ _ signers) by done. tauto.
  - cbn. unfold envInt64. rewrite Hbtc, decide_False by done. rewrite ParseInt_FormatInt by lia.
    by rewrite (proj2 (Z.ltb_ge btc 0)) by lia.
  - cbn. unfold envBigInt. rewrite Hevm, decide_False by done. rewrite SetString_FormatInt.
    by rewrite (proj2 (Z.ltb_ge evm 0)) by lia.
  - intros environment cfg. split; [apply envUint64_range; lia|]. split; [apply envInt64_range; lia|].
    split; [intros v; apply envBigInt_range|]. split; [apply envDuration_range; lia|].
    intros seconds. apply envDuration_seconds.
Qed.

Definition demo_environment (key : string) : string :=
  if decide (key = "SIGNER_IDS") then "alice,bob,carol"
  else if decide (key = "API_KEYS") then "secret"
  else if decide (key = "MAX_BTC_AMOUNT_SATS") then "100000"
  else if decide (key = "MAX_EVM_AMOUNT_WEI") then "1000000000000000000"
  else "".

Lemma configured_policy_enforced_witness :
  let policy := policy_of (Load demo_environment) in
  signerAllowed policy "alice" = true ∧ signerAllowed policy "mallory" ≠ true ∧
  MaxBitcoinAmountSats policy = 100000%Z.
Proof.
  pose proof (λ s, configured_policy_enforced demo_environment ["alice"; "bob"; "carol"] 100000
    (10^18) s) as H.
  assert (Hc : Forall clean ["alice"; "bob"; "carol"])
    by (repeat constructor; try discriminate; vm_compute; reflexivity).
  destruct (H "alice") as (Ha & Hb & _); [exact Hc|discriminate|reflexivity|lia|reflexivity|lia|reflexivity|].
  destruct (H "mallory") as (Hm & _); [exact Hc|discriminate|reflexivity|lia|reflexivity|lia|reflexivity|].
  clear H. split; [apply Ha; constructor|]. split; [|exact Hb]. intros Hx. apply Hm in Hx. revert Hx.
  apply (bool_decide_unpack ("mallory" ∉ ["alice"; "bob"; "carol"])). vm_compute. exact I.
Defined.

(** A policy permits everyone exactly when it has no list. *)
Lemma signerAllowed_all signers btc evm :
  (∀ s, signerAllowed (mkPolicy (signerSet signers) btc evm) s = true) ↔ signers = [].
Proof.
  split; [|intros -> s; apply signerAllowed_set; by left]. intros Hall. destruct signers as [|x l]; [done|exfalso].
  specialize (Hall (base.fresh (x :: l))). apply signerAllowed_set in Hall as [?|Hin]; [done|]. by apply (infinite_is_fresh (x :: l)).
Qed.

(** C32. Malformed limits fail open.  Every signer is permitted exactly when no
    item of the allow list is left after trimming, in particular for every list
    of white space and commas; a Bitcoin cap that is not a positive 64-bit
    number, and an EVM cap that is not a non-negative number, is no cap: every
    amount passes. *)
Theorem malformed_limits_fail_open Getenv :
  let policy := policy_of (Load Getenv) in
  ((∀ s, signerAllowed policy s = true) ↔ Forall (λ item, TrimSpace item = "") (Split "," (Getenv "SIGNER_IDS"))) ∧
  (all_bytes blank (Getenv "SIGNER_IDS") = true → ∀ s, signerAllowed policy s = true) ∧
  ((∀ n, ParseInt (Getenv "MAX_BTC_AMOUNT_SATS") = Some n → (n ≤ 0)%Z) → ∀ v, (0 < v < 2^63)%Z →
     validateAmountPolicy policy ChainBitcoin (FormatInt v) = None) ∧
  ((∀ n, SetString (Getenv "MAX_EVM_AMOUNT_WEI") = Some n → (n < 0)%Z) → ∀ v, (0 < v)%Z →
     validateAmountPolicy policy ChainEVM (FormatInt v) = None).
Proof.
  intros policy.
  assert (Hall : (∀ s, signerAllowed policy s = true) ↔ Forall (λ item, TrimSpace item = "") (Split "," (Getenv "SIGNER_IDS"))).
  { unfold policy, policy_of. rewrite signerAllowed_all. apply envList_nil. }
  split_and!; [done|..].
  - intros Hb. apply Hall. eapply Forall_impl; [by apply Split_blank|]. apply TrimSpace_spaces.
  - intros Hp v Hv. unfold validateAmountPolicy. rewrite decide_True by done.
    rewrite ParseInt_FormatInt by lia. rewrite (proj2 (Z.leb_gt v 0)) by lia.
    assert (MaxBitcoinAmountSats policy = 0%Z) as ->; [|done].
    cbn. unfold envInt64. case_decide; [done|]. destruct (ParseInt _) as [n|] eqn:E; [|done].
    specialize (Hp n eq_refl). destruct (Z.ltb_spec n 0); [done|lia].
  - intros Hp v Hv. unfold validateAmountPolicy. rewrite decide_False, decide_True by done.
    rewrite SetString_FormatInt. rewrite (proj2 (Z.leb_gt v 0)) by lia.
    assert (Service.MaxEVMAmountWei policy = None) as ->; [|done].
    cbn. unfold envBigInt. case_decide; [done|]. destruct (SetString _) as [n|] eqn:E; [|done].
    specialize (Hp n eq_refl). destruct (Z.ltb_spec n 0); [done|lia].
Qed.

Lemma malformed_limits_fail_open_witness :
  signerAllowed (policy_of (Load (λ _, " , ,  "))) "mallory" = true ∧
  validateAmountPolicy (policy_of (Load (λ _, "1e5"))) ChainBitcoin (FormatInt 123456789) = None.
Proof.
  split.
  - apply (malformed_limits_fail_open (λ _, " , ,  ")). reflexivity.
  - apply (malformed_limits_fail_open (λ _, "1e5")); [discriminate|lia].
Defined.

(** A process that starts with an empty store starts in a fresh state. *)
Lemma wire_fresh `{Ethereum} {St} `{!Store St, !StoreRefinement St} (s : St) cfg w :
  st_wf s → st_abs s = empty_astore → wire s cfg = Ok w → CustodyTheorems.fresh w.
Proof.
  intros Hwf Habs. unfold wire. destruct (NewDemoQuorumBackend _) as [g|e]; [|done]. intros [= <-].
  split_and!; [done|done|done|]. simpl. intros chain [-> | ->]%registry_chains; done.
Qed.

(** ** Trace headers *)

(** Every response carries a trace header that parses back to the trace the
    request ran under: the caller's, when it sent a header of the right
    length, else a fresh one of 16 and 8 random bytes. *)
Theorem trace_header_roundtrip header raw16 raw8 b16 b8 :
  raw16 = Ok b16 → String.length b16 = 16 → raw8 = Ok b8 → String.length b8 = 8 →
  let trace := request_trace header raw16 raw8 in
  traceFromHeader (traceparent trace) = trace ∧
  (∀ tid sid, String.length tid = 32 → String.length sid = 16 →
     header = traceparent (mkTrace tid sid) → trace = mkTrace tid sid) ∧
  (String.length header ≠ 55 → trace = mkTrace (EncodeToString b16) (EncodeToString b8)).
Proof.
  intros -> H16 -> H8 trace.
  assert (Hnew : String.length header ≠ 55 → trace = mkTrace (EncodeToString b16) (EncodeToString b8)).
  { intros Hl. unfold trace, request_trace. by rewrite traceFromHeader_short. }
  split_and!; [|intros tid sid Ht Hs ->|done].
  - destruct (decide (String.length header = 55)) as [Hl|Hl].
    + assert (Hlen : String.length (TraceID (traceFromHeader header)) = 32 ∧
        String.length (SpanID (traceFromHeader header)) = 16).
      { unfold traceFromHeader. rewrite decide_False by tauto. cbn [TraceID SpanID].
        split; apply substring_length; lia. }
      destruct Hlen as [Ht Hs].
      assert (E : trace = traceFromHeader header).
      { unfold trace, request_trace. rewrite decide_False; [done|]. intros E. by rewrite E in Ht. }
      rewrite E. destruct (traceFromHeader header) as [tid sid]. by apply traceFromHeader_parts.
    + rewrite (Hnew Hl). apply traceFromHeader_parts; cbn; rewrite EncodeToString_length; lia.
  - unfold trace, request_trace, traceparent. cbn [TraceID SpanID].
    rewrite traceFromHeader_parts by done. cbn [TraceID]. rewrite decide_False; [done|].
    intros E. by rewrite E in Ht.
Qed.

Lemma trace_header_roundtrip_witness :
  traceFromHeader (traceparent (request_trace "" (Ok "0123456789abcdef") (Ok "01234567")))
    = mkTrace "30313233343536373839616263646566" "3031323334353637".
Proof.
  destruct (trace_header_roundtrip "" (Ok "0123456789abcdef") (Ok "01234567") "0123456789abcdef" "01234567")
    as (Hrt & _ & Hnew); [reflexivity..|].
  rewrite Hrt. rewrite Hnew by discriminate. reflexivity.
Defined.
