(* ===== verification/Races.v ===== *)
(** * Schedules the service does not defend against

    Concrete runs of the model, each reachable from an empty deployment, that
    end in a state the design would rather exclude: they are kept beside the
    guarantees of [CustodyTheorems] because they mark where those stop. *)
From Stdlib Require Import Ascii.
From S2P Require Import Prelude GoStd GoError Types Json Metrics Interfaces Ethereum Bitcoin Evm Chains Signing.
From S2P Require Import StoreSpec MemoryStore Service System Scenario.

Abbreviation Configuration := (Config (St := MemoryStore) (Sg := DemoQuorumBackend) (Ad := Adapter)).

(** Calls [from], ..., [from + n - 1] of thread [i], as request number [k]. *)
Definition calls (i k from n : nat) (ctx : option CtxErr) : list Choice :=
  (λ j, Call i (input ctx k j)) <$> seq from n.

(** The requests [l] one after the other, then the schedule [s]. *)
Definition scenario (pol : Policy) (w : Deployment) (s : list Choice) : Configuration :=
  default (initial w) (play pol s (initial w)).

Lemma scenario_reachable pol w s : reachable pol w (scenario pol w s).
Proof.
  unfold scenario. destruct (play pol s (initial w)) eqn:E; [by eapply play_steps|apply rtc_refl].
Qed.

(** A node that refuses a transaction it has already seen. *)
Definition already_known : EthClient :=
  mkEthClient None (Ok 31337%Z) (λ _, Ok 7%Z) (λ _ _ _ _, Ok 21000%Z) (Ok 2000000000%Z)
    (Ok 1000000000%Z) (λ _, Some (ErrNew "already known")).
Definition refused (k i : nat) : Input :=
  let inp := input None k i in
  mkInput (in_ctx inp) (in_now inp) (in_rand inp) (in_db inp) (in_keygen inp) (in_ecdsa inp) already_known.

(** Wallet, proposal and two approvals, run to completion one by one. *)
Definition prepare (chain : Chain) (request : TransactionRequest) : list Choice :=
  [Accept (ReqCreateWallet chain "w")] ++ calls 0 0 0 11 None ++
  [Accept (ReqProposeTransaction trace request "p")] ++ calls 1 1 0 11 None ++
  [Accept (ReqCoSign (txn_id 1) "alice")] ++ calls 2 2 0 7 None ++
  [Accept (ReqCoSign (txn_id 1) "bob")] ++ calls 3 3 0 14 None.

(** Two broadcasts of one signed transaction.  Both read it as signed; the
    first is accepted by the node and stored; the second is refused by the node
    and then stores its own, older copy as failed. *)
Definition broadcast_race : list Choice :=
  prepare ChainEVM evm_request ++
  [Accept (ReqBroadcast (txn_id 1)); Accept (ReqBroadcast (txn_id 1))] ++
  calls 4 4 0 2 None ++ calls 5 5 0 2 None ++ calls 4 4 2 8 None ++
  [Call 5 (refused 5 2)] ++ calls 5 5 3 6 None.

Definition rpc_start : Deployment := start "" 0 ["http://localhost:8545"].
Definition race_end : Configuration := scenario policy rpc_start broadcast_race.
Definition raced : TransactionProposal := stored_txn (world race_end) (txn_id 1).

(** C29. A transaction the chain accepted can end up stored as failed, without
    its hash, while the client that broadcast it was told it succeeded: two
    concurrent broadcasts both pass the status check, and the loser's failure
    record overwrites the winner's. *)
Theorem broadcast_race_loses_success :
  reachable policy rpc_start race_end ∧
  transactions (store (world race_end)) !! txn_id 1 = Some raced ∧
  tp_Status raced = TransactionStatusFailed ∧ tp_BroadcastHash raced = "" ∧
  ∃ p, threads race_end !! 4 = Some (ReqBroadcast (txn_id 1), Ret (Ok (RespTransaction p))) ∧
    tp_Status p = TransactionStatusBroadcast ∧
    EvBroadcast ChainEVM (tp_SignedTransaction raced) (Ok (tp_BroadcastHash p)) ∈ history (world race_end).
Proof.
  split; [apply scenario_reachable|]. split; [vm_compute; reflexivity|].
  split; [vm_compute; reflexivity|]. split; [vm_compute; reflexivity|].
  eexists. split; [vm_compute; reflexivity|]. split; [reflexivity|].
  apply list_elem_of_lookup. exists 7. vm_compute. reflexivity.
Qed.

(** ** A cancelled client request *)

(** Only two signers are allowed; bob's client goes away after his approval is
    stored and before the audit event is. *)
Definition two_signers : Policy := mkPolicy {["alice"; "bob"]} 0 None.
Definition cancelled_quorum : list Choice :=
  [Accept (ReqCreateWallet ChainBitcoin "w")] ++ calls 0 0 0 11 None ++
  [Accept (ReqProposeTransaction trace btc_request "p")] ++ calls 1 1 0 11 None ++
  [Accept (ReqCoSign (txn_id 1) "alice")] ++ calls 2 2 0 7 None ++
  [Accept (ReqCoSign (txn_id 1) "bob")] ++ calls 3 3 0 2 None ++ calls 3 3 2 4 (Some Canceled).
Definition stuck_end : Configuration := scenario two_signers (start "" 0 []) cancelled_quorum.
Definition stuck : TransactionProposal := stored_txn (world stuck_end) (txn_id 1).

Lemma two_signers_allowed s : signerAllowed two_signers s = true → s = "alice" ∨ s = "bob".
Proof.
  unfold signerAllowed. case_decide as H; [by vm_compute in H|]. rewrite bool_decide_eq_true.
  cbn [AllowedSigners two_signers]. set_solver.
Qed.

(** Two refusals of [CoSign] in any environment. *)
Lemma CoSign_unauthorized pol environment id s (w : Deployment) :
  s ≠ "" → signerAllowed pol s = false →
  run_request pol environment (ReqCoSign id s) w
    = (Err (Errorf ErrUnauthorizedSigner s), accept (ReqCoSign id s) w).
Proof.
  intros Hs Hall. unfold run_request. cbn [serve]. unfold CoSign. by rewrite decide_False, Hall.
Qed.
Lemma CoSign_store_error pol environment id s (w : Deployment) e :
  s ≠ "" → signerAllowed pol s = true →
  store_exec (OpAddApproval id (mkApproval s (in_now (environment 0)))) (environment 1) (store w)
    = (Err e, store w) →
  run_request pol environment (ReqCoSign id s) w = (Err e, accept (ReqCoSign id s) w).
Proof.
  intros Hs Hall He. unfold run_request. cbn [serve]. unfold CoSign. rewrite decide_False, Hall by done.
  unfold respond, try_bind, call. cbn. unfold store_exec in He. simpl in He. rewrite He. by destruct w.
Qed.

(** With every permitted signer already counted, [AddApproval] cannot succeed. *)
Lemma stuck_AddApproval s t inp :
  s = "alice" ∨ s = "bob" →
  ∃ e, store_exec (OpAddApproval (txn_id 1) (mkApproval s t)) inp (store (world stuck_end))
       = (Err e, store (world stuck_end)).
Proof.
  intros Hs. change (@store_exec _ _ _ (OpAddApproval ?i ?a) inp) with (AddApproval i a inp).
  unfold AddApproval, check_ctx. destruct (in_ctx inp); [by eexists|].
  assert (Hp : transactions (store (world stuck_end)) !! txn_id 1 = Some stuck) by (vm_compute; reflexivity).
  rewrite Hp. exists (ErrVar ErrDuplicateApproval).
  rewrite decide_False; [|intros Hn; apply Hn; vm_compute; reflexivity]. cbv zeta.
  assert (Ha : ∃ b, (match tp_Approvals stuck with Some m => m | None => ∅ end) !! s = Some b)
    by (destruct Hs as [-> | ->]; eexists; vm_compute; reflexivity).
  destruct Ha as [b Ha]. cbn [ap_SignerID]. by rewrite Ha.
Qed.

(** C30. A proposal can hold a quorum of approvals and stay unsigned for good: a
    client that disconnects between the approval and the signature leaves it
    proposed, and from then on every co-signature is refused, because all
    permitted signers are already counted and only a new approval triggers
    signing. *)
Theorem cancelled_quorum_is_stuck :
  reachable two_signers (start "" 0 []) stuck_end ∧
  transactions (store (world stuck_end)) !! txn_id 1 = Some stuck ∧
  tp_Status stuck = TransactionStatusProposed ∧ ApprovalsCount stuck = 2 ∧
  ∀ environment signerID, ∃ e,
    run_request two_signers environment (ReqCoSign (txn_id 1) signerID) (world stuck_end)
      = (Err e, accept (ReqCoSign (txn_id 1) signerID) (world stuck_end)).
Proof.
  split; [apply scenario_reachable|]. split; [vm_compute; reflexivity|].
  split; [vm_compute; reflexivity|]. split; [vm_compute; reflexivity|]. intros environment s.
  destruct (decide (s = "")) as [->|Hs]; [by eexists|].
  destruct (signerAllowed two_signers s) eqn:Hall'.
  2: { eexists. by apply CoSign_unauthorized. }
  pose proof (two_signers_allowed s Hall') as Hall.
  destruct (stuck_AddApproval s (in_now (environment 0)) (environment 1) Hall) as [e He].
  exists e. by apply CoSign_store_error.
Qed.

(** ** A replayed proposal *)
Definition replay : list Choice :=
  [Accept (ReqCreateWallet ChainEVM "w")] ++ calls 0 0 0 11 None ++
  [Accept (ReqProposeTransaction trace evm_request "p")] ++ calls 1 1 0 11 None ++
  [Accept (ReqProposeTransaction trace evm_request "p")] ++ calls 2 2 0 6 None.
Definition replay_end : Configuration := scenario policy (start "" 0 []) replay.

Definition nonce_table (w : Deployment) : gmap string Z :=
  match chains w !! ChainEVM with Some (EVMAdapter a) => nonces a | _ => ∅ end.

(** Repeating a proposal with the same idempotency key returns the first
    proposal and stores nothing, yet uses up a nonce of the local table: one
    transaction exists, with nonce 0, and the next one would get nonce 2,
    leaving a gap no transaction fills. *)
Theorem replay_consumes_nonce :
  reachable policy (start "" 0 []) replay_end ∧
  size (transactions (store (world replay_end))) = 1 ∧
  (∃ p1 p2, threads replay_end !! 1
      = Some (ReqProposeTransaction trace evm_request "p", Ret (Ok (RespTransaction p1))) ∧
    threads replay_end !! 2
      = Some (ReqProposeTransaction trace evm_request "p", Ret (Ok (RespTransaction p2))) ∧ p1 = p2) ∧
  nonce_table (world replay_end) = {["0x3" := 2%Z]}.
Proof.
  split; [apply scenario_reachable|]. split; [vm_compute; reflexivity|]. split.
  - do 2 eexists. split; [vm_compute; reflexivity|]. split; [vm_compute; reflexivity|]. reflexivity.
  - vm_compute. reflexivity.
Qed.

(** ** A transition without an audit event *)
Definition unaudited : list Choice :=
  [Accept (ReqCreateWallet ChainBitcoin "w")] ++ calls 0 0 0 11 None ++
  [Accept (ReqProposeTransaction trace btc_request "p")] ++ calls 1 1 0 11 None ++
  [Accept (ReqCoSign (txn_id 1) "alice")] ++ calls 2 2 0 7 None ++
  [Accept (ReqCoSign (txn_id 1) "bob")] ++ calls 3 3 0 9 None ++ calls 3 3 9 4 (Some DeadlineExceeded).
Definition unaudited_end : Configuration := scenario policy (start "" 0 []) unaudited.

(** A proposal can be stored as signed with no [transaction.signed] event in
    the audit trail: the state change and its audit event are two calls, and
    the second can fail. *)
Theorem signed_without_audit :
  reachable policy (start "" 0 []) unaudited_end ∧
  tp_Status (stored_txn (world unaudited_end) (txn_id 1)) = TransactionStatusSigned ∧
  Forall (λ e, ae_Type e ≠ AuditEventTransactionSigned) (auditEvents (store (world unaudited_end))).
Proof.
  split; [apply scenario_reachable|]. split; [vm_compute; reflexivity|].
  vm_compute. repeat constructor; discriminate.
Qed.
