(* ===== verification/ApiTheorems.v ===== *)
(** * The API as its clients see it

    Keys, statuses, types of what reaches the service, round trips between
    client and server, and what the guarantees of the service become when all
    that an operator can inspect are HTTP requests. *)
From Stdlib Require Import Ascii.
From S2P Require Import Prelude GoStd GoError Types Json Marshal JsonLit JsonText GoTime Codec Transport Http.
From S2P Require Import Metrics Interfaces Ethereum Bitcoin Evm Chains Signing StoreSpec MemoryStore Service Tracing.
From S2P Require Import System Calls Api ApiSystem ApiLemmas ApiClient Custody Handlers Flow Scenario CustodyTheorems.

Section Serving.
Context {St Sg Ad : Type} `{!Store St, !SigningBackend Sg, !ChainAdapter Ad}.
Context (decode_text : HttpRequest → string) (server : Server) (policy : Policy).
Context (env : nat → Input) (raw16 raw8 : res string) (duration : Z).
Implicit Types w : World St Sg Ad.

Abbreviation serve_http q w := (ServeHTTP decode_text server policy env raw16 raw8 duration q w).
Abbreviation trace_of q := (request_trace (Header q "traceparent") raw16 raw8).

(** Two worlds that differ at most in the metrics registry. *)
Definition same_but_metrics w w' : Prop :=
  store w' = store w ∧ signer w' = signer w ∧ chains w' = chains w ∧ history w' = history w.

(** What the middleware adds to the handler. *)
Lemma serve_http_perform q w :
  let out := perform policy env (dispatch decode_text server (trace_of q) q) w in
  (serve_http q w).1 = (traceparent (trace_of q), out.1) ∧ same_but_metrics out.2 (serve_http q w).2.
Proof.
  unfold ServeHTTP, Middleware. destruct (perform _ _ _ w) as [resp w']. cbn. by split_and!.
Qed.

(** C10. Without one of the configured keys nothing happens: no method of the
    service is invoked, the store, the signer and the chains are as before,
    and the answer is one of the three public pages, or a redirect, an
    authentication error or a routing error. *)
Theorem api_requires_key q w :
  apiKeys server ≠ [] → provided_key q ∉ apiKeys server →
  let out := serve_http q w in
  same_but_metrics w out.2 ∧
  (out.1.2 = writeJSON 200 (status_text "ok") ∨ out.1.2 = writeJSON 200 (status_text "ready") ∨
   out.1.2 = writeMetrics (metrics w) ∨ resp_Status out.1.2 ∈ [307; 401; 404; 405]%Z).
Proof.
  intros Hk Hp out. destruct (serve_http_perform q w) as [E1 E2]. fold out in E1, E2. rewrite E1. cbn [snd].
  assert (Hn : ¬ authorised server q) by (unfold authorised; tauto).
  destruct (dispatch_unauthorised decode_text server (trace_of q) q Hn) as [E|[E|[E|(resp & E & Hs)]]];
    rewrite E in E2 |- *; cbn in E2 |- *; (split; [exact E2|auto]).
Qed.

(** C36. The status of a response tells the kind of failure exactly: 404 is an
    unknown wallet or transaction, 403 a signer who is not permitted, 409 an
    idempotency key in use, 400 a request the service refuses, 500 anything
    else; the body is a JSON object with the error text, and a success has the
    status of its route. *)
Theorem api_status q w r st outcome w' :
  dispatch decode_text server (trace_of q) q = Invoke r st → run_request policy env r w = (outcome, w') →
  let resp := (serve_http q w).1.2 in
  match outcome with
  | Ok _ => resp_Status resp = st ∧ (st = 200 ∨ st = 201)%Z
  | Err e =>
      decode (resp_Body resp) = Some (JObj [("error", JStr (ToValidUTF8 (Error e)))]) ∧
      (resp_Status resp = 404%Z ↔ existsb (Is e) [ErrWalletNotFound; ErrTransactionNotFound] = true) ∧
      (resp_Status resp = 403%Z ↔ Is e ErrUnauthorizedSigner = true) ∧
      (resp_Status resp = 409%Z ↔ Is e ErrDuplicateIdempotency = true) ∧
      (resp_Status resp = 400%Z ↔ existsb (Is e) [ErrUnsupportedChain; ErrDuplicateApproval;
         ErrTransactionNotSigned; ErrTransactionNotProposed; ErrPolicyViolation] = true) ∧
      resp_Status resp ∈ [400; 403; 404; 409; 500]%Z
  end.
Proof.
  intros Hd Hr resp. destruct (serve_http_perform q w) as [E1 _].
  assert (E : resp = render st outcome) by (unfold resp; rewrite E1, Hd; cbn; by rewrite Hr). rewrite E. clear E E1 Hr resp.
  destruct outcome as [a|e].
  - split; [done|]. rewrite (dispatch_status _ _ _ _ _ _ Hd). destruct r; auto.
  - cbn [render writeError writeJSON resp_Body resp_Status]. split; [|apply statusFor_spec].
    apply error_body.
Qed.

(** C35. Where every argument of a service call comes from, whatever bytes a
    client sends: the chain, the transaction request and the signer are the
    value decoded from the JSON body, their texts valid UTF-8 and their numbers
    in the range of the field; the limit is 100 or the 64-bit number of the
    query.  The transaction is the one named by the path, the key the
    Idempotency-Key header, the filter the query's resource_id and the trace
    that of the request, all of them as received, whether UTF-8 or not.  And
    the request had an accepted key. *)
Theorem api_requests_well_typed trace q r st :
  dispatch decode_text server trace q = Invoke r st →
  authorised server q ∧
  match r with
  | ReqCreateWallet chain key =>
      decodeJSON decode_text dec_createWallet q = Ok chain ∧ utf8 chain ∧ key = idempotencyKey q
  | ReqProposeTransaction t request key =>
      decodeJSON decode_text (dec_request true zero_request) q = Ok request ∧ request_ok request ∧
      t = trace ∧ key = idempotencyKey q
  | ReqCoSign id signer =>
      decodeJSON decode_text dec_cosign q = Ok signer ∧ utf8 signer ∧ parseTransactionPath (Path q) = Some (id, "cosign")
  | ReqBroadcast id => parseTransactionPath (Path q) = Some (id, "broadcast")
  | ReqGetTransaction id => parseTransactionPath (Path q) = Some (id, "")
  | ReqListAuditEvents filter =>
      af_ResourceID filter = query_get (RawQuery q) "resource_id" ∧ int64 (af_Limit filter) ∧
      (if decide (query_get (RawQuery q) "limit" = "") then af_Limit filter = 100%Z
       else ParseInt (query_get (RawQuery q) "limit") = Some (af_Limit filter))
  end.
Proof.
  intros Hd. pose proof (dispatch_typed _ _ _ _ _ _ Hd) as Ht. apply dispatch_Invoke in Hd as [Ha H]. split; [exact Ha|].
  destruct H as [[_ [H|H]]|[H|H]]; unfold createWallet, proposeTransaction, listAuditEvents, transactionAction,
    getTransaction, cosign, broadcast in H; repeat case_match; simplify_eq; destruct_and?; subst; try done.
  split_and!; [done| |done]. by eapply ParseInt_range.
Qed.

(** C11. Client and server agree on every operation: the request a client
    sends for it, with an accepted key, is served as exactly that operation,
    under the trace the server chose, and its outcome is what is answered. *)
Theorem client_request_served apiKey r q w :
  sendable r → client apiKey r = Ok q → apiKeys server = [] ∨ apiKey ∈ apiKeys server →
  ∃ r', received (trace_of q) r r' ∧
    let '(outcome, w') := run_request policy env r' w in
    (serve_http q w).1.2 = render (success_status r) outcome ∧ same_but_metrics w' (serve_http q w).2.
Proof.
  intros Hs Hq Hk. destruct (client_dispatch decode_text server (trace_of q) apiKey r q Hs Hq Hk) as (r' & Hd & Hr).
  exists r'. split; [done|]. destruct (serve_http_perform q w) as [E1 E2]. rewrite Hd in E1, E2. cbn in E1, E2.
  destruct (run_request policy env r' w) as [outcome w']. by rewrite E1.
Qed.

(** C34. What a client reads from a response with a transaction: for a proposal
    whose numbers are in range and whose identifiers, request texts, approvals,
    signed payload and trace keys are UTF-8 ([proposal_ok]), the body is its
    JSON text and a newline, and decodes to [read_back p]: every field of [p],
    except that the embedded raw messages are in their compacted, escaped form
    (a missing payload is null, empty metadata is none), an empty trace is
    none, and bytes that are not UTF-8 in the chain of the raw transaction, the
    hash, the error and the trace are replaced.  Where none of this applies
    ([printable p]) it is [p] itself. *)
Theorem transaction_response_read p t :
  proposal_ok p → marshal_proposal p = Ok t →
  resp_Body (render 200 (Ok (RespTransaction p))) = t +:+ newline ∧
  unmarshal_proposal t = Ok (read_back p) ∧ (printable p → unmarshal_proposal t = Ok p).
Proof.
  intros Hp Ht. pose proof (proposal_read_back p t Hp Ht) as Hu. split_and!; [cbn; by rewrite Ht|done|].
  intros He. by rewrite Hu, printable_read_back.
Qed.
End Serving.

(** ** Many HTTP requests in flight *)
Section Concurrent.
Context {St Sg Ad : Type} `{!Store St, !SigningBackend Sg, !ChainAdapter Ad}.
Context (decode_text : HttpRequest → string) (server : Server) (policy : Policy).
Implicit Types (w : World St Sg Ad).

(** An authenticated request by [signer] to co-sign transaction [id]. *)
Definition cosign_request (id signer : string) (q : HttpRequest) : Prop :=
  authorised server q ∧ Method q = "POST" ∧ parseTransactionPath (Path q) = Some (id, "cosign") ∧
  decodeJSON decode_text dec_cosign q = Ok signer.

Lemma action_cosign q raw16 raw8 id signer st :
  action decode_text server q raw16 raw8 = Invoke (ReqCoSign id signer) st → cosign_request id signer q.
Proof.
  unfold action. intros [Ha H]%dispatch_Invoke.
  destruct H as [[_ [H|H]]|[H|H]]; unfold createWallet, proposeTransaction, listAuditEvents, transactionAction,
    getTransaction, cosign, broadcast in H; repeat case_match; simplify_eq; by destruct_and?; subst.
Qed.

(** What a quorum in the history means for the HTTP requests it came from. *)
Lemma cosigners_http (qs : HttpRequest → Prop) h id :
  two_cosigners policy h id →
  (∀ r, EvRequest r ∈ h → ∃ q raw16 raw8 st, qs q ∧ action decode_text server q raw16 raw8 = Invoke r st) →
  ∃ s1 s2, s1 ≠ s2 ∧ Forall (λ s, signerAllowed policy s = true ∧ EvRequest (ReqCoSign id s) ∈ h ∧
    ∃ q, qs q ∧ cosign_request id s q) [s1; s2].
Proof.
  intros (s1 & s2 & Hne & H12) Hq. exists s1, s2. split; [done|]. eapply Forall_impl; [exact H12|].
  intros s (_ & Ha & Hin). split_and!; [done..|]. destruct (Hq _ Hin) as (q & r16 & r8 & st & ? & Hact).
  exists q. split; [done|]. by eapply action_cosign.
Qed.

(** C2. Nothing reaches a blockchain unless, before the payload was signed,
    two authenticated HTTP requests asked to co-sign that very transaction in
    the name of two different permitted signers; for any number of requests
    in flight and any interleaving. *)
Theorem http_broadcast_after_quorum `{!StoreRefinement St, !SignerLaws Sg} w c h1 chain tx answer h2 :
  fresh w → http_reachable decode_text server policy w c →
  history (h_world c) = h1 ++ EvBroadcast chain tx answer :: h2 →
  ∃ p sig h3 h4 s1 s2, h1 = h3 ++ EvSign p (Ok sig) :: h4 ∧ sig_SignedTransaction sig = tx ∧ tp_Chain p = chain ∧
    s1 ≠ s2 ∧ Forall (λ s, signerAllowed policy s = true ∧ EvRequest (ReqCoSign (tp_ID p) s) ∈ h3 ∧
      ∃ q, q ∈ ht_request <$> h_threads c ∧ cosign_request (tp_ID p) s q) [s1; s2].
Proof.
  intros Hf Hr Hh. destruct (http_reachable_service _ _ _ w c Hr) as [m Hm].
  pose proof (fresh_store policy w _ Hf Hm) as Hs. cbn in Hs.
  destruct (broadcast_quorum policy _ _ _ _ _ _ _ _ Hs Hh) as (p & sig & h3 & h4 & E & Htx & Hc & Hq).
  destruct (cosigners_http (λ q, q ∈ ht_request <$> h_threads c) h3 (tp_ID p) Hq) as (s1 & s2 & Hne & H12).
  { intros r Hin. destruct (history_from_http decode_text server policy w c r) as (t & r16 & r8 & st & Ht & Hact);
      [apply Hf|done|rewrite Hh, E; set_solver|].
    exists (ht_request t), r16, r8, st. split; [by apply list_elem_of_fmap_2|done]. }
  by exists p, sig, h3, h4, s1, s2.
Qed.

(** ** Counting requests *)
Definition http_key (q : HttpRequest) (resp : HttpResponse) : string :=
  metricKey "custody_http_requests_total" (labels_of q resp).
Definition counted_under (key : string) (t : HttpThread) : Prop :=
  match ht_state t with Counted resp | Served resp => http_key (ht_request t) resp = key | _ => False end.
#[local] Instance counted_under_dec key t : Decision (counted_under key t).
Proof. unfold counted_under. destruct (ht_state t); apply _. Defined.
Definition counted (key : string) (ts : list HttpThread) : nat := length (filter (counted_under key) ts).

Ltac state_tac := unfold counted_under; cbn; tauto.
Lemma counted_snoc key ts t : ¬ counted_under key t → counted key (ts ++ [t]) = counted key ts.
Proof. intros Ht. unfold counted. by rewrite filter_app, filter_cons_False, filter_nil, app_nil_r. Qed.
Lemma counted_insert key ts i t t' :
  ts !! i = Some t → ¬ counted_under key t →
  counted key (<[i := t']> ts) = (if decide (counted_under key t') then 1 else 0) + counted key ts.
Proof.
  intros Hi Ht. unfold counted. rewrite <- (take_drop_middle ts i t Hi) at 2.
  rewrite insert_take_drop by by eapply lookup_lt_Some.
  rewrite !filter_app, !filter_cons. rewrite (decide_False (P := counted_under key t)) by done.
  case_decide; rewrite !length_app; simpl; lia.
Qed.
Lemma counted_insert_same key ts i t t' :
  ts !! i = Some t → (counted_under key t ↔ counted_under key t') → counted key (<[i := t']> ts) = counted key ts.
Proof.
  intros Hi Ht. unfold counted. rewrite <- (take_drop_middle ts i t Hi) at 2.
  rewrite insert_take_drop by by eapply lookup_lt_Some.
  rewrite !filter_app, !filter_cons. repeat case_decide; rewrite !length_app; simpl; tauto || lia.
Qed.

(** The handlers' own counters have other keys. *)
Lemma exec_http_counter X (e : eff X) w x w' labels :
  own_counter X e → exec_rel X e w x w' →
  let key := metricKey "custody_http_requests_total" labels in counters (metrics w') !! key = counters (metrics w) !! key.
Proof.
  intros Ho Hx key. destruct e; destruct Hx as [inp Hx]; cbn in Hx; [by destruct Hx as [_ ->]|..]; repeat (case_match; simplify_eq/=); simplify_eq/=; try done.
  assert (Hall : Forall (λ n, has_byte "{" n = false ∧ n ≠ "custody_http_requests_total") service_counters) by by_compute.
  destruct (proj1 (Forall_forall _ _) Hall name Ho) as [Hn Hne].
  apply lookup_insert_ne. intros E. by apply metricKey_name in E.
Qed.
Lemma http_call_own w c q r st X (e : eff X) k i :
  http_reachable decode_text server policy w c →
  h_threads c !! i = Some (mkHttpThread q (Some (r, st, Vis e k)) Handling) → own_counter X e.
Proof.
  intros Hr Hi. destruct (http_reachable_service _ _ _ w c Hr) as [m Hm%reachable_within].
  destruct (omap_insert invocation (h_threads c) i _ (r, Vis e k) Hi eq_refl) as (j & Hj & _).
  by destruct (proj1 (Forall_lookup _ _) Hm j _ Hj).
Qed.

(** C38. At every moment the request counter of a method, route and status is
    the number of requests the middleware has finished with them (it stops at
    2^53, where a float64 no longer counts): no request is counted twice,
    under another key, or not at all, whatever the handlers count themselves. *)
Theorem http_requests_counted w c labels :
  metrics w = NewMetrics → http_reachable decode_text server policy w c →
  counter_value "custody_http_requests_total" labels (metrics (h_world c))
  = Z.min (2^53) (Z.of_nat (counted (metricKey "custody_http_requests_total" labels) (h_threads c))).
Proof.
  intros Hw. unfold counter_value. set (key := metricKey _ labels). unfold http_reachable. revert c.
  refine (rtc_ind_r (λ c, default 0%Z (counters (metrics (h_world c)) !! key) = Z.min (2^53) (Z.of_nat (counted key (h_threads c)))) _ _ _).
  { cbn. by rewrite Hw. }
  intros c2 c3 Hr H23 IH.
  destruct H23 as [v ts q raw16 raw8 r st Ha|v ts q raw16 raw8 resp Ha|v ts q raw16 raw8 Ha
    |v ts i q r st X e k x v' Hi Hx|v ts i q r st a Hi|v ts i q c resp Hi|v ts i q c resp d Hi]; cbn [h_world h_threads] in *.
  - by rewrite counted_snoc by state_tac.
  - by rewrite counted_snoc by state_tac.
  - by rewrite counted_snoc by state_tac.
  - rewrite (counted_insert_same _ _ _ _ _ Hi) by state_tac.
    unfold key. rewrite (exec_http_counter X e v x v' labels); [done| |done]. by eapply http_call_own.
  - by rewrite (counted_insert_same _ _ _ _ _ Hi) by state_tac.
  - rewrite (counted_insert _ _ _ _ _ Hi) by state_tac. cbn [update_metrics metrics Inc counters counted_under ht_state ht_request].
    fold (http_key q resp). case_decide as Hk.
    + cbn in Hk. unfold http_key in Hk |- *. rewrite Hk, lookup_insert_eq. cbn [default]. rewrite IH. unfold float_inc, id.
      destruct (Z.ltb_spec (Z.min (2^53) (Z.of_nat (counted key ts))) (2^53)); lia.
    + rewrite lookup_insert_ne by done. exact IH.
  - by rewrite (counted_insert_same _ _ _ _ _ Hi) by state_tac.
Qed.

(** C37. Requests terminate: however requests arrive and their calls interleave,
    and whatever the collaborators answer, over its whole life each request
    makes at most the calls of its kind (creating a wallet and proposing 11,
    co-signing 14, broadcasting 10, reading 1); while it has no answer it can
    make its next call, waiting for no other request; and once no more requests
    arrive, on every schedule all of those in flight come to be answered. *)
Theorem requests_terminate w c :
  reachable policy w c →
  (∀ i r p, threads c !! i = Some (r, p) →
     (∃ n, made policy w i n c) ∧ (∀ n, made policy w i n c → n ≤ call_bound r) ∧
     ((∃ a, p = Ret a) ∨ ∃ c', call_by i c c')) ∧
  inevitable call_step all_answered c ∧
  (∀ n c', nsteps call_step n c c' → n ≤ 14 * length (threads c)).
Proof.
  intros Hr. pose proof (reachable_budget policy w c Hr) as Hb. split_and!.
  - intros i r p Hi. split_and!; [by apply reachable_made| |].
    + intros n Hn%made_within. rewrite Hi in Hn. apply Hn.
    + destruct p as [a|X e k]; [left; by exists a|right; by eapply call_possible].
  - by eapply answers_inevitable.
  - intros n c'. by apply (measure_nsteps _ call_budget call_budget_step).
Qed.
End Concurrent.

(** ** Witnesses *)
Definition no_text : HttpRequest → string := λ _, "invalid JSON".
Definition keyed : Server := NewServer [WithAPIKeys ["secret"]].
Definition anonymous : HttpRequest := send "POST" ["v1"; "wallets"] "" "" "" "{}".

Lemma api_requires_key_witness :
  store (ServeHTTP no_text keyed policy (env 0) (Ok "a") (Ok "b") 5 anonymous (start "" 0 [])).2 = NewMemoryStore.
Proof.
  destruct (api_requires_key no_text keyed policy (env 0) (Ok "a") (Ok "b") 5 anonymous (start "" 0 []))
    as [(Hs & _) _]; [discriminate|by_compute|]. rewrite Hs. reflexivity.
Defined.

Definition get_unknown : HttpRequest := send "GET" ["v1"; "transactions"; "txn_0"] "" "secret" "" "".
Lemma api_status_witness :
  resp_Status (ServeHTTP no_text keyed policy (env 0) (Ok "a") (Ok "b") 5 get_unknown (start "" 0 [])).1.2 = 404%Z.
Proof.
  apply (api_status no_text keyed policy (env 0) (Ok "a") (Ok "b") 5 get_unknown (start "" 0 [])
    (ReqGetTransaction "txn_0") 200 (Err (ErrVar ErrTransactionNotFound))
    (run_request policy (env 0) (ReqGetTransaction "txn_0") (start "" 0 [])).2); vm_compute; reflexivity.
Defined.

Definition propose_http : HttpRequest :=
  match client "secret" (ReqProposeTransaction trace btc_request "p") with Ok q => q | Err _ => anonymous end.
Lemma api_requests_well_typed_witness : typed (ReqProposeTransaction trace btc_request "p").
Proof.
  apply (api_requests_well_typed no_text keyed trace propose_http (ReqProposeTransaction trace btc_request "p") 201).
  vm_compute. reflexivity.
Defined.

Definition wallet_http : HttpRequest :=
  send "POST" ["v1"; "wallets"] "" "secret" "w" (struct_text [("chain", Some (quote "bitcoin"))] +:+ newline).
Lemma client_request_served_witness :
  resp_Status (ServeHTTP no_text keyed policy (env 0) (Ok "a") (Ok "b") 5 wallet_http (start "" 0 [])).1.2 = 201%Z.
Proof.
  destruct (client_request_served no_text keyed policy (env 0) (Ok "a") (Ok "b") 5 "secret"
    (ReqCreateWallet "bitcoin" "w") wallet_http (start "" 0 [])) as (r' & Hr & Hs);
    [apply utf8_ascii; reflexivity|reflexivity|right; by_compute|].
  cbn in Hr. subst r'.
  assert (Ho : is_ok (run_request policy (env 0) (ReqCreateWallet "bitcoin" "w") (start "" 0 [])).1 = true)
    by (vm_compute; reflexivity).
  destruct (run_request policy (env 0) (ReqCreateWallet "bitcoin" "w") (start "" 0 [])) as [[a|e] w']; [|discriminate].
  destruct Hs as [-> _]. reflexivity.
Defined.

Definition text_of (p : TransactionProposal) : string := match marshal_proposal p with Ok t => t | Err _ => "" end.
Lemma transaction_response_read_witness :
  let p := read_back example_proposal in
  p ≠ example_proposal ∧ unmarshal_proposal (text_of example_proposal) = Ok p ∧ unmarshal_proposal (text_of p) = Ok p.
Proof.
  split; [apply (bool_decide_unpack (read_back example_proposal ≠ example_proposal)); vm_compute; exact I|]. split.
  - apply (transaction_response_read example_proposal); [by_compute|vm_compute; reflexivity].
  - apply (transaction_response_read (read_back example_proposal)); [by_compute|vm_compute; reflexivity|by_compute].
Defined.

(** The Bitcoin flow over HTTP: wallet, proposal, two approvals, broadcast. *)
Definition http_flow : list HttpRequest :=
  omap (λ r, match client "secret" r with Ok q => Some q | Err _ => None end) (flow ChainBitcoin btc_request).
Fixpoint serve_flow (k : nat) (l : list HttpRequest) (c : HttpConfig) : HttpConfig (St := MemoryStore) (Sg := DemoQuorumBackend) (Ad := Adapter) :=
  match l with
  | [] => c
  | q :: l' =>
      let w := h_world c in
      let out := ServeHTTP no_text keyed policy (env k) (Ok "a") (Ok "b") 5 q w in
      serve_flow (S k) l' (mkHttpConfig out.2 (h_threads c ++
        [mkHttpThread q (invoked policy (env k) (action no_text keyed q (Ok "a") (Ok "b")) w) (Served out.1.2)]))
  end.
Definition flow_end : HttpConfig := serve_flow 0 http_flow (mkHttpConfig (start "" 0 []) []).

Lemma flow_reachable : http_reachable no_text keyed policy (start "" 0 []) flow_end.
Proof.
  unfold flow_end, http_reachable. generalize (mkHttpConfig (start "" 0 []) []). generalize 0.
  induction http_flow as [|q l IH]; intros k [w ts]; cbn [serve_flow]; [done|].
  etrans; [|apply IH]. apply (serve_http_steps no_text keyed policy (env k) q (Ok "a") (Ok "b") 5).
Qed.
Example flow_statuses :
  (λ t, match ht_state t with Served resp => resp_Status resp | _ => 0%Z end) <$> h_threads flow_end
  = [201; 201; 200; 200; 200]%Z.
Proof. vm_compute. reflexivity. Qed.

Definition flow_broadcast : nat := 6.
Lemma http_broadcast_after_quorum_witness :
  ∃ p s1 s2, s1 ≠ s2 ∧ Forall (λ s, ∃ q, q ∈ ht_request <$> h_threads flow_end ∧
    cosign_request no_text keyed (tp_ID p) s q) [s1; s2].
Proof.
  destruct (list_elem_of_split (history (h_world flow_end))
    (EvBroadcast ChainBitcoin (tp_SignedTransaction (stored_txn (h_world flow_end) (txn_id 1)))
       (Ok (tp_BroadcastHash (stored_txn (h_world flow_end) (txn_id 1)))))) as (h1 & h2 & Hh).
  { apply (list_elem_of_lookup_2 _ flow_broadcast). vm_compute. reflexivity. }
  destruct (http_broadcast_after_quorum no_text keyed policy _ _ _ _ _ _ _ start_fresh flow_reachable Hh)
    as (p & sig & h3 & h4 & s1 & s2 & _ & _ & _ & Hne & HF).
  exists p, s1, s2. split; [exact Hne|]. eapply Forall_impl; [exact HF|]. intros s (_ & _ & Ht). exact Ht.
Defined.

Lemma http_requests_counted_witness :
  counter_value "custody_http_requests_total" (request_labels "POST" "/v1/wallets" 201)
    (metrics (h_world flow_end)) = 1%Z.
Proof.
  rewrite (http_requests_counted no_text keyed policy (start "" 0 []) flow_end
    (request_labels "POST" "/v1/wallets" 201)); [vm_compute; reflexivity|reflexivity|apply flow_reachable].
Defined.

Definition one_get : Config (St := MemoryStore) (Sg := DemoQuorumBackend) (Ad := Adapter) :=
  mkConfig (accept (ReqGetTransaction "x") (start "" 0 [])) [(ReqGetTransaction "x", serve policy (ReqGetTransaction "x"))].
Definition one_got : Config (St := MemoryStore) (Sg := DemoQuorumBackend) (Ad := Adapter) :=
  mkConfig (world one_get) [(ReqGetTransaction "x", Ret (Err (ErrVar ErrTransactionNotFound)))].
Lemma one_get_reachable : reachable policy (start "" 0 []) one_get.
Proof. apply rtc_once. exact (step_accept policy (start "" 0 []) [] (ReqGetTransaction "x") I). Qed.
Lemma one_get_call : call_by 0 one_get one_got.
Proof.
  apply (call_by_intro 0 (world one_get) (threads one_get) (ReqGetTransaction "x") _ (EStore (OpGetTransaction "x"))
    (λ x, match x with Ok p => Ret (Ok (RespTransaction p)) | Err e => Ret (Err e) end)
    (Err (ErrVar ErrTransactionNotFound)) (world one_get)); [reflexivity|].
  apply (exec_exec_rel _ _ (env 0 0)). reflexivity.
Qed.
Lemma one_got_made : made policy (start "" 0 []) 0 1 one_got.
Proof.
  eapply made_own; [|exact one_get_call].
  apply (made_accept policy (start "" 0 []) 0 0 (start "" 0 []) [] (ReqGetTransaction "x") I). constructor.
Qed.
Lemma requests_terminate_witness : 1 ≤ call_bound (ReqGetTransaction "x") ∧ inevitable call_step all_answered one_get.
Proof.
  split.
  - assert (Hr : reachable policy (start "" 0 []) one_got).
    { eapply rtc_r; [exact one_get_reachable|]. apply call_step_step. exists 0. exact one_get_call. }
    destruct (requests_terminate policy _ _ Hr) as [Hi _].
    destruct (Hi 0 _ _ eq_refl) as (_ & Hn & _). apply Hn. exact one_got_made.
  - apply (requests_terminate policy (start "" 0 []) one_get one_get_reachable).
Defined.
