(* ===== verification/PgSystem.v ===== *)
(** * The whole server over Postgres, request by request

    HTTP requests arrive, their handlers call the service, and each store call
    of the service is a method of the Postgres store running its own database
    requests in a session of its own, all of it interleaved.  Every behaviour of
    this system is one of the HTTP server of [ApiSystem] over an atomic store,
    so what is known of that server holds for it. *)
From Stdlib Require Import Ascii.
From S2P Require Import Prelude GoStd GoError Types Json Codec Transport Http Metrics Interfaces Tracing.
From S2P Require Import StoreSpec Sql Postgres PgAbs PgLogic PgMethods Service System Api ApiLemmas ApiSystem.
From S2P Require Import Custody Handlers CustodyTheorems.

(** ** The atomic store *)
#[export] Instance op_ok_dec {A} (op : StoreOp A) : Decision (op_ok op).
Proof. destruct op; simpl; apply _. Defined.

Section AtomicStore.
Context `{Postgres}.
(** A call does in one step what the contract allows; nothing is promised to a
    caller that breaks its side of the contract. *)
Definition atomic_rel A (op : StoreOp A) (a : AStore) (r : res A) (a' : AStore) : Prop :=
  op_ok op → spec_step pg_norm op a r a'.
Definition refused A (op : StoreOp A) (inp : Input) (a : AStore) : res A * AStore := (Err (ctx_error DeadlineExceeded), a).
Lemma refused_rel A (op : StoreOp A) inp a r a' : refused A op inp a = (r, a') → atomic_rel A op a r a'.
Proof. intros [= <- <-] _. left. split; [done|right; apply infra_ctx]. Qed.
Definition atomic_store : Store AStore := {|
  store_exec := refused;
  store_rel := atomic_rel;
  store_exec_rel := refused_rel
|}.
Context `{!PostgresLaws}.
Definition atomic_refinement : StoreRefinement AStore (Store0 := atomic_store).
Proof.
  refine {| st_abs := id : AStore → AStore; st_wf := λ _, True; st_norm := pg_norm; st_norm_laws := pg_norm_laws |}.
  intros A op s r s' _ Hop Hr. split; [exact I|]. cbn in Hr. exact (Hr Hop).
Defined.
End AtomicStore.

(** ** The machine *)

(** The goroutine of a service call is in the handler, or inside a store call
    that it will continue from with the answer. *)
Inductive Activity :=
| Thinking (p : prog eff (res Response))
| Storing {A} (op : StoreOp A) (q : prog dbeff (res A)) (k : res A → prog eff (res Response)).

(** A connection, as [HttpThread] with the activity in the handler. *)
Record PgThread := mkPgThread {
  pt_request : HttpRequest;
  pt_call : option (Request * Z * Activity);
  pt_state : HttpState
}.

Definition with_store {St St' Sg Ad} (s : St') (w : World St Sg Ad) : World St' Sg Ad :=
  mkWorld s (signer w) (chains w) (metrics w) (history w).
Definition is_store {X} (e : eff X) : bool := match e with EStore _ => true | _ => false end.

Section Machine.
Context `{Pg : Postgres} {Sg Ad : Type} `{!SigningBackend Sg, !ChainAdapter Ad}.
Context (decode_text : HttpRequest → string) (server : Server) (policy : Policy).
(* The handlers' other calls do not look at the store. *)
#[local] Instance unit_store : Store unit := sequential_store (λ A op inp s, (Err (ErrNew "no store"), s)).
#[local] Existing Instance atomic_store.

Record PgConfig := mkPgConfig {
  pg_db : Database;
  pg_world : World unit Sg Ad;                  (* everything but the store *)
  pg_threads : list PgThread
}.
Abbreviation act := (action decode_text server).

Inductive pg_system : PgConfig → PgConfig → Prop :=
| sys_invoke d w ts q raw16 raw8 r st :
    act q raw16 raw8 = Invoke r st →
    pg_system (mkPgConfig d w ts)
      (mkPgConfig d (accept r w) (ts ++ [mkPgThread q (Some (r, st, Thinking (serve policy r))) Handling]))
| sys_reply d w ts q raw16 raw8 resp :
    act q raw16 raw8 = Reply resp →
    pg_system (mkPgConfig d w ts) (mkPgConfig d w (ts ++ [mkPgThread q None (Answered resp)]))
| sys_metrics d w ts q raw16 raw8 :
    act q raw16 raw8 = ReplyMetrics →
    pg_system (mkPgConfig d w ts) (mkPgConfig d w (ts ++ [mkPgThread q None (Answered (writeMetrics (metrics w)))]))
| sys_call d w ts i q r st X (e : eff X) k x w' :
    ts !! i = Some (mkPgThread q (Some (r, st, Thinking (Vis e k))) Handling) → is_store e = false → exec_rel X e w x w' →
    pg_system (mkPgConfig d w ts) (mkPgConfig d w' (<[i := mkPgThread q (Some (r, st, Thinking (k x))) Handling]> ts))
| sys_begin d w ts i q r st A (op : StoreOp A) k :
    ts !! i = Some (mkPgThread q (Some (r, st, Thinking (Vis (EStore op) k))) Handling) →
    pg_system (mkPgConfig d w ts) (mkPgConfig d w (<[i := mkPgThread q (Some (r, st, Storing op (method op) k)) Handling]> ts))
| sys_request d w ts i q r st A (op : StoreOp A) X (e : dbeff X) p k fault now x d' :
    ts !! i = Some (mkPgThread q (Some (r, st, Storing op (Vis e p) k)) Handling) → db_step i X e fault now d = Some (x, d') →
    pg_system (mkPgConfig d w ts) (mkPgConfig d' w (<[i := mkPgThread q (Some (r, st, Storing op (p x) k)) Handling]> ts))
| sys_end d w ts i q r st A (op : StoreOp A) a k :
    ts !! i = Some (mkPgThread q (Some (r, st, Storing op (Ret a) k)) Handling) →
    pg_system (mkPgConfig d w ts) (mkPgConfig d w (<[i := mkPgThread q (Some (r, st, Thinking (k a))) Handling]> ts))
| sys_answer d w ts i q r st a :
    ts !! i = Some (mkPgThread q (Some (r, st, Thinking (Ret a))) Handling) →
    pg_system (mkPgConfig d w ts)
      (mkPgConfig d w (<[i := mkPgThread q (Some (r, st, Thinking (Ret a))) (Answered (render st a))]> ts))
| sys_count d w ts i q c resp :
    ts !! i = Some (mkPgThread q c (Answered resp)) →
    pg_system (mkPgConfig d w ts)
      (mkPgConfig d (update_metrics (Inc "custody_http_requests_total" (labels_of q resp)) w)
         (<[i := mkPgThread q c (Counted resp)]> ts))
| sys_observe d w ts i q c resp duration :
    ts !! i = Some (mkPgThread q c (Counted resp)) →
    pg_system (mkPgConfig d w ts)
      (mkPgConfig d
         (update_metrics (ObserveDuration "custody_http_request_duration_seconds" (labels_of q resp) duration) w)
         (<[i := mkPgThread q c (Served resp)]> ts)).

Definition no_rows : Database := mkDatabase (mkTables ∅ ∅ [] ∅) ∅.
Definition pg_reachable (w : World unit Sg Ad) (c : PgConfig) : Prop := rtc pg_system (mkPgConfig no_rows w []) c.

Context `{Laws : !PostgresLaws, !SignerLaws Sg}.
#[local] Existing Instance atomic_refinement.

(** ** Simulation by the server over the atomic store *)
Abbreviation AConfig := (HttpConfig (St := AStore) (Sg := Sg) (Ad := Ad)).
Abbreviation a_reachable := (http_reachable decode_text server policy (St := AStore) (Sg := Sg) (Ad := Ad)).
Definition activity_rel (i : nat) (d : Database) (t : Activity) (p : prog eff (res Response)) : Prop :=
  match t with
  | Thinking p' => p = p' ∧ sessions d !! i = None
  | Storing op q k =>
      (p = Vis (EStore op) k ∧ op_ok op ∧ lwp i op q None d (closed i op)) ∨
      (∃ r, p = k r ∧ lwp i op q (Some r) d (closed i op))
  end.
Definition thread_rel (i : nat) (d : Database) (t : PgThread) (u : HttpThread) : Prop :=
  match t with
  | mkPgThread q None s => u = mkHttpThread q None s ∧ sessions d !! i = None
  | mkPgThread q (Some (r, st, x)) s => ∃ p, u = mkHttpThread q (Some (r, st, p)) s ∧ activity_rel i d x p
  end.
Record simulates (c : PgConfig) (a : AConfig) : Prop := mkSimulates {
  sys_inv : DbInv (pg_db c);
  sys_world : h_world a = with_store (pg_abs (tables (pg_db c))) (pg_world c);
  sys_length : length (h_threads a) = length (pg_threads c);
  sys_threads i t : pg_threads c !! i = Some t → ∃ u, h_threads a !! i = Some u ∧ thread_rel i (pg_db c) t u;
  sys_free i : pg_threads c !! i = None → sessions (pg_db c) !! i = None
}.

Lemma activity_rely i d d' t p : Rely i d d' → activity_rel i d t p → activity_rel i d' t p.
Proof.
  intros Hy. destruct t as [p'|A op q k]; simpl.
  - intros [-> Hs]. split; [done|]. by rewrite (r_session _ _ _ Hy).
  - assert (Hw : ∀ lin, lwp i op q lin d (closed i op) → lwp i op q lin d' (closed i op)).
    { intros lin. apply lwp_rely; [|done]. intros; by eapply closed_rely. }
    intros [(-> & ? & ?)|(r & -> & ?)]; [left|right]; eauto.
Qed.
Lemma thread_rely i d d' t u : Rely i d d' → thread_rel i d t u → thread_rel i d' t u.
Proof.
  intros Hy. destruct t as [q [[[r st] x]|] s]; simpl.
  - intros (p & -> & Hp). exists p. split; [done|]. by eapply activity_rely.
  - intros [-> Hs]. split; [done|]. by rewrite (r_session _ _ _ Hy).
Qed.

(** Thread [i] moves; the others only see what they rely on. *)
Lemma simulates_update c a i t d' w' t' u' :
  simulates c a → pg_threads c !! i = Some t →
  DbInv d' → (∀ j, j ≠ i → Rely j (pg_db c) d') → thread_rel i d' t' u' →
  simulates (mkPgConfig d' w' (<[i := t']> (pg_threads c)))
    (mkHttpConfig (with_store (pg_abs (tables d')) w') (<[i := u']> (h_threads a))).
Proof.
  intros Hm Hi HJ Hy Hr. apply lookup_lt_Some in Hi as Hlt. pose proof (sys_length _ _ Hm) as Hl.
  split; simpl; [done|done|by rewrite !length_insert| |].
  - intros j t0 Hj. destruct (decide (j = i)) as [->|Hne].
    + rewrite list_lookup_insert_eq in Hj by done. simplify_eq. exists u'. by rewrite list_lookup_insert_eq by lia.
    + rewrite list_lookup_insert_ne in Hj by done. destruct (sys_threads _ _ Hm _ _ Hj) as (u & Hu & Ha).
      exists u. rewrite list_lookup_insert_ne by done. split; [done|]. eapply thread_rely; [by apply Hy|done].
  - intros j Hn. destruct (decide (j = i)) as [->|Hne].
    + rewrite list_lookup_insert_eq in Hn by done. done.
    + rewrite list_lookup_insert_ne in Hn by done. rewrite (r_session _ _ _ (Hy j Hne)). by apply (sys_free _ _ Hm).
Qed.
(** A thread that leaves the database alone. *)
Lemma simulates_move c a i t w' t' u' :
  simulates c a → pg_threads c !! i = Some t → thread_rel i (pg_db c) t' u' →
  simulates (mkPgConfig (pg_db c) w' (<[i := t']> (pg_threads c)))
    (mkHttpConfig (with_store (pg_abs (tables (pg_db c))) w') (<[i := u']> (h_threads a))).
Proof. intros Hm Hi Hr. eapply simulates_update; [done|done|apply Hm|intros; apply Rely_refl|done]. Qed.
(** A new connection. *)
Lemma simulates_arrive c a w' t u :
  simulates c a → thread_rel (length (pg_threads c)) (pg_db c) t u →
  simulates (mkPgConfig (pg_db c) w' (pg_threads c ++ [t]))
    (mkHttpConfig (with_store (pg_abs (tables (pg_db c))) w') (h_threads a ++ [u])).
Proof.
  intros Hm Hr. pose proof (sys_length _ _ Hm) as Hl. split; simpl; [apply Hm|done|by rewrite !length_app, Hl| |].
  - intros i t0 [[Hi Ht]|[-> <-]]%lookup_snoc_Some.
    + destruct (sys_threads _ _ Hm _ _ Ht) as (u0 & Hu & Ha). exists u0. split; [|done]. by apply lookup_app_l_Some.
    + exists u. rewrite lookup_app_r, Hl, Nat.sub_diag by lia. by split.
  - intros i Hn. apply (sys_free _ _ Hm). apply lookup_ge_None in Hn. rewrite length_app in Hn. apply lookup_ge_None. lia.
Qed.
Lemma sys_free_next c a : simulates c a → sessions (pg_db c) !! length (pg_threads c) = None.
Proof. intros Hm. apply (sys_free _ _ Hm). by apply lookup_ge_None. Qed.

(** The service keeps its side of the store's contract: a store that may do
    anything otherwise would break the invariant every reachable state has. *)
Lemma pending_op_ok w (a : AConfig) i q r st A (op : StoreOp A) k s :
  fresh w → a_reachable w a → h_threads a !! i = Some (mkHttpThread q (Some (r, st, Vis (EStore op) k)) s) → op_ok op.
Proof.
  intros Hf Hr Hi. destruct (decide (op_ok op)) as [|Hn]; [done|exfalso].
  destruct (http_reachable_service _ _ _ w a Hr) as [m Hm].
  destruct (omap_insert invocation (h_threads a) i _ (r, Vis (EStore op) k) Hi eq_refl) as (j & Hj & _).
  set (broken := mkAStore ∅ {["x" := zero_proposal]} [] ∅).
  assert (Hr' : reachable policy w (mkConfig (with_store broken (with_metrics m (h_world a)))
    (<[j := (r, k (Err (ErrNew "")))]> (omap invocation (h_threads a))))).
  { eapply rtc_r; [exact Hm|]. eapply step_call; [exact Hj|]. exists broken. split; [|done]. intros Hop. by destruct (Hn Hop). }
  destruct (inv_txns _ _ _ _ _ (fresh_store policy w _ Hf Hr') "x" zero_proposal) as [E _]; [|done].
  apply lookup_singleton_eq.
Qed.

Lemma exec_elsewhere X (e : eff X) (w : World unit Sg Ad) x w' (s : AStore) :
  is_store e = false → exec_rel X e w x w' → exec_rel X e (with_store s w) x (with_store s w').
Proof.
  destruct e; intros He [inp Hx]; [done|..]; exists inp; cbn in Hx |- *;
    repeat (case_match; simplify_eq/=); simplify_eq/=; done.
Qed.

(** The thread of the simulating server. *)
Lemma sys_calling c a i q r st x s :
  simulates c a → pg_threads c !! i = Some (mkPgThread q (Some (r, st, x)) s) →
  ∃ p, h_threads a !! i = Some (mkHttpThread q (Some (r, st, p)) s) ∧ activity_rel i (pg_db c) x p.
Proof. intros Hm Hi. destruct (sys_threads _ _ Hm _ _ Hi) as (u & Hu & p & -> & Ha). by exists p. Qed.

Lemma simulates_begin w c a i q r st A (op : StoreOp A) k s :
  fresh w → a_reachable w a → simulates c a →
  pg_threads c !! i = Some (mkPgThread q (Some (r, st, Thinking (Vis (EStore op) k))) s) →
  simulates (mkPgConfig (pg_db c) (pg_world c) (<[i := mkPgThread q (Some (r, st, Storing op (method op) k)) s]> (pg_threads c))) a.
Proof.
  intros Hf Hr Hm Hi. destruct (sys_calling _ _ _ _ _ _ _ _ Hm Hi) as (p & Hp & -> & Hs).
  assert (Hop : op_ok op) by by eapply (pending_op_ok w a).
  assert (E : a = mkHttpConfig (with_store (pg_abs (tables (pg_db c))) (pg_world c))
    (<[i := mkHttpThread q (Some (r, st, Vis (EStore op) k)) s]> (h_threads a))).
  { rewrite list_insert_id by done. rewrite <- (sys_world _ _ Hm). by destruct a. }
  rewrite E. eapply simulates_move; [done|done|]. eexists. split; [done|].
  left. split_and!; [done|done|]. by apply method_lwp.
Qed.

Lemma simulates_request w c a i q r st A (op : StoreOp A) X (e : dbeff X) p k fault now x d' :
  a_reachable w a → simulates c a →
  pg_threads c !! i = Some (mkPgThread q (Some (r, st, Storing op (Vis e p) k)) Handling) →
  db_step i X e fault now (pg_db c) = Some (x, d') →
  ∃ a', a_reachable w a' ∧
    simulates (mkPgConfig d' (pg_world c) (<[i := mkPgThread q (Some (r, st, Storing op (p x) k)) Handling]> (pg_threads c))) a'.
Proof.
  intros Hr Hm Hi Hx. destruct (sys_calling _ _ _ _ _ _ _ _ Hm Hi) as (p' & Hp & Ha). pose proof (sys_inv _ _ Hm) as HJ.
  destruct c as [d v ts], a as [v' us]; simpl in *. pose proof (sys_world _ _ Hm) as Hv. simpl in Hv.
  assert (∃ lin, (lin = None → op_ok op) ∧ proper_request i e d ∧
    p' = (match lin with None => Vis (EStore op) k | Some b => k b end) ∧
    ∃ lin', lin_step op lin (pg_abs (tables d)) (pg_abs (tables d')) lin' ∧ lwp i op (p x) lin' d' (closed i op))
    as (lin & Hop & Hpr & -> & lin' & Hl & Hw).
  { destruct Ha as [(-> & Hop & Hpr & Hk)|(b & -> & Hpr & Hk)]; [exists None|exists (Some b)]; split_and!; try done;
      (eapply Hk; [done|apply Rely_refl|done]). }
  destruct (step_guarantee i e fault now d x d' HJ Hpr Hx) as [HJ' Hy].
  exists (mkHttpConfig (with_store (pg_abs (tables d')) v)
    (<[i := mkHttpThread q (Some (r, st, match lin' with None => Vis (EStore op) k | Some b => k b end)) Handling]> us)).
  split.
  - destruct Hl as [[-> E]|(-> & b & -> & Hs)].
    + rewrite list_insert_id by done. by rewrite E, <- Hv.
    + eapply rtc_r; [exact Hr|]. eapply http_call; [exact Hp|]. rewrite Hv. eexists. split; [|done]. by intros _.
  - eapply (simulates_update (mkPgConfig d v ts) (mkHttpConfig v' us)); try done.
    eexists. split; [done|]. destruct lin' as [b|]; [right; by exists b|left]. split_and!; [done| |done]. apply Hop.
    by destruct Hl as [[E _]|(_ & ? & ? & _)].
Qed.

Lemma simulates_end w c a i q r st A (op : StoreOp A) b k :
  a_reachable w a → simulates c a →
  pg_threads c !! i = Some (mkPgThread q (Some (r, st, Storing op (Ret b) k)) Handling) →
  ∃ a', a_reachable w a' ∧
    simulates (mkPgConfig (pg_db c) (pg_world c) (<[i := mkPgThread q (Some (r, st, Thinking (k b))) Handling]> (pg_threads c))) a'.
Proof.
  intros Hr Hm Hi. destruct (sys_calling _ _ _ _ _ _ _ _ Hm Hi) as (p & Hp & Ha). pose proof (sys_world _ _ Hm) as Hv.
  exists (mkHttpConfig (with_store (pg_abs (tables (pg_db c))) (pg_world c))
    (<[i := mkHttpThread q (Some (r, st, k b)) Handling]> (h_threads a))). split.
  - destruct Ha as [(-> & Hop & Hset & _)|(b' & -> & Hset & _)].
    + destruct a as [v us]; simpl in *. eapply rtc_r; [exact Hr|]. eapply http_call; [exact Hp|]. rewrite Hv.
      eexists. split; [|done]. intros _. apply Hset.
    + simpl in Hset. subst b'. rewrite list_insert_id by done. rewrite <- Hv. by destruct a.
  - eapply simulates_move; [done|done|]. eexists. split; [done|]. split; [done|].
    by destruct Ha as [(_ & _ & _ & Hn)|(b' & _ & _ & Hn)].
Qed.

(** The middleware and the handlers' other calls: the same step. *)
Lemma simulates_call w c a i q r st X (e : eff X) k x w' :
  a_reachable w a → simulates c a → pg_threads c !! i = Some (mkPgThread q (Some (r, st, Thinking (Vis e k))) Handling) →
  is_store e = false → exec_rel X e (pg_world c) x w' →
  ∃ a', a_reachable w a' ∧
    simulates (mkPgConfig (pg_db c) w' (<[i := mkPgThread q (Some (r, st, Thinking (k x))) Handling]> (pg_threads c))) a'.
Proof.
  intros Hr Hm Hi He Hx. destruct (sys_calling _ _ _ _ _ _ _ _ Hm Hi) as (p & Hp & -> & Hs).
  eexists. split; [|eapply simulates_move; [done|done|]; eexists; split; [done|by split]].
  destruct a as [v us]. eapply rtc_r; [exact Hr|]. eapply http_call; [exact Hp|].
  rewrite (sys_world _ _ Hm : v = _). by apply exec_elsewhere.
Qed.
Lemma thread_state i d q c s u s' :
  thread_rel i d (mkPgThread q c s) u → ht_request u = q ∧ ht_state u = s ∧ thread_rel i d (mkPgThread q c s') (mkHttpThread q (ht_call u) s').
Proof.
  destruct c as [[[r st] x]|]; simpl.
  - intros (p & -> & Ha). split_and!; [done|done|]. by exists p.
  - by intros [-> Hs].
Qed.
(** A step of the middleware in thread [i]. *)
Lemma simulates_middleware w c a i q call s s' f :
  a_reachable w a → simulates c a → pg_threads c !! i = Some (mkPgThread q call s) →
  (∀ (v : World AStore Sg Ad) us c', us !! i = Some (mkHttpThread q c' s) →
     http_step decode_text server policy (mkHttpConfig v us)
       (mkHttpConfig (update_metrics f v) (<[i := mkHttpThread q c' s']> us))) →
  ∃ a', a_reachable w a' ∧
    simulates (mkPgConfig (pg_db c) (update_metrics f (pg_world c)) (<[i := mkPgThread q call s']> (pg_threads c))) a'.
Proof.
  intros Hr Hm Hi Hst. destruct (sys_threads _ _ Hm _ _ Hi) as ([q' c' s0] & Hu & Ha).
  destruct (thread_state _ _ _ _ _ _ s' Ha) as (E1 & E2 & Hs). simpl in E1, E2, Hs. subst q' s0.
  eexists. split; [|by eapply simulates_move]. destruct a as [v us]. eapply rtc_r; [exact Hr|].
  rewrite (sys_world _ _ Hm : v = _). exact (Hst _ _ _ Hu).
Qed.

Lemma simulates_start (w : World unit Sg Ad) :
  simulates (mkPgConfig no_rows w []) (mkHttpConfig (with_store empty_astore w) []).
Proof. split; simpl; [split; [apply map_Forall_empty|done..]|done|done|done|done]. Qed.

(** Every configuration of the system is one of the server over the atomic
    store, with the same history, the same answers and the same contents. *)
Lemma pg_reachable_sim (w : World unit Sg Ad) c :
  fresh (with_store empty_astore w) → pg_reachable w c →
  ∃ a, a_reachable (with_store empty_astore w) a ∧ simulates c a.
Proof.
  intros Hf. revert c. apply rtc_ind_r; [eexists; split; [apply rtc_refl|apply simulates_start]|].
  intros c c' _ Hs (a & Ha & Hm). pose proof (sys_free_next _ _ Hm) as Hnew.
  assert (Hgo : ∀ a', http_step decode_text server policy a a' → a_reachable (with_store empty_astore w) a')
    by (intros a'; by apply rtc_r).
  assert (Ea : a = mkHttpConfig (with_store (pg_abs (tables (pg_db c))) (pg_world c)) (h_threads a))
    by (rewrite <- (sys_world _ _ Hm); by destruct a).
  destruct Hs as [d v ts q raw16 raw8 r st Hact|d v ts q raw16 raw8 resp Hact|d v ts q raw16 raw8 Hact
    |d v ts i q r st X e k x v' Hi He Hx|d v ts i q r st A op k Hi|d v ts i q r st A op X e p k fault now x d' Hi Hx
    |d v ts i q r st A op b k Hi|d v ts i q r st b Hi|d v ts i q call resp Hi|d v ts i q call resp duration Hi]; simpl in *.
  - eexists. split; [|eapply (simulates_arrive _ _ (accept r v) _ (mkHttpThread q (Some (r, st, serve policy r)) Handling) Hm); by eexists].
    apply Hgo. rewrite Ea. exact (http_invoke _ _ _ (with_store _ v) _ q raw16 raw8 r st Hact).
  - eexists. split; [|eapply (simulates_arrive _ _ v _ (mkHttpThread q None (Answered resp)) Hm); by split].
    apply Hgo. rewrite Ea. exact (http_reply _ _ _ (with_store _ v) _ q raw16 raw8 resp Hact).
  - eexists. split; [|eapply (simulates_arrive _ _ v _ (mkHttpThread q None (Answered (writeMetrics (metrics v)))) Hm); by split].
    apply Hgo. rewrite Ea. exact (http_metrics _ _ _ (with_store _ v) _ q raw16 raw8 Hact).
  - by eapply (simulates_call _ (mkPgConfig d v ts)).
  - exists a. split; [done|]. by eapply (simulates_begin _ (mkPgConfig d v ts)).
  - by eapply (simulates_request _ (mkPgConfig d v ts)).
  - by eapply (simulates_end _ (mkPgConfig d v ts)).
  - destruct (sys_calling _ _ _ _ _ _ _ _ Hm Hi) as (p & Hp & -> & Hs).
    eexists. split; [|eapply (simulates_move (mkPgConfig d v ts) a i _ v _ (mkHttpThread q (Some (r, st, Ret b)) (Answered (render st b))) Hm Hi); by eexists].
    apply Hgo. rewrite Ea. exact (http_answer _ _ _ (with_store _ v) _ i q r st b Hp).
  - eapply (simulates_middleware _ (mkPgConfig d v ts)); [done|done|done|]. intros. by apply http_count.
  - eapply (simulates_middleware _ (mkPgConfig d v ts)); [done|done|done|]. intros. by apply http_observe.
Qed.

(** The invariant of the custody service, on the rows of the tables. *)
Lemma pg_reachable_inv (w : World unit Sg Ad) c :
  fresh (with_store empty_astore w) → pg_reachable w c →
  pg_wf (tables (pg_db c)) ∧ (∃ was, store_inv policy pg_norm was (pg_abs (tables (pg_db c))) (history (pg_world c))) ∧
  ∀ r, EvRequest r ∈ history (pg_world c) →
    ∃ t raw16 raw8 st, t ∈ pg_threads c ∧ act (pt_request t) raw16 raw8 = Invoke r st.
Proof.
  intros Hf (a & Ha & Hm)%pg_reachable_sim; [|done]. pose proof (sys_world _ _ Hm) as Hv. split_and!; [apply (sys_inv _ _ Hm)| |].
  - destruct (http_reachable_service _ _ _ _ a Ha) as [m Hs]. pose proof (fresh_store policy _ _ Hf Hs) as Hi.
    cbn in Hi. rewrite Hv in Hi. eexists. exact Hi.
  - intros r Hr. destruct (history_from_http decode_text server policy (with_store empty_astore w) a r) as (u & r16 & r8 & st & Hu & Hact);
      [apply Hf|done|by rewrite Hv|].
    apply list_elem_of_lookup in Hu as [i Hu]. destruct (pg_threads c !! i) as [t|] eqn:Ht.
    2: { apply lookup_ge_None in Ht. apply lookup_lt_Some in Hu. rewrite (sys_length _ _ Hm) in Hu. lia. }
    exists t, r16, r8, st. split; [by apply (list_elem_of_lookup_2 _ i)|].
    destruct (sys_threads _ _ Hm _ _ Ht) as (u' & Hu' & Hrel). simplify_eq.
    destruct t as [q call s]. by destruct (thread_state _ _ _ _ _ _ s Hrel) as (<- & _).
Qed.
End Machine.
