(* ===== verification/PgServing.v ===== *)
(** * Every HTTP request is answered

    The server over Postgres once no further request arrives: how many steps
    each connection has left, and that while one is not served something can
    move, whatever locks are held. *)
From Stdlib Require Import Ascii.
From S2P Require Import Prelude GoStd GoError Types Json Http Metrics Interfaces StoreSpec Sql Postgres PgAbs.
From S2P Require Import PgLogic PgMethods PgProgress Service System Calls Api ApiSystem CustodyTheorems PgSystem.

(** A call of the service costs its beginning, at most eight database requests
    and its end; after the last one the response is written, the request counted
    and its duration recorded. *)
Definition activity_within (x : Activity) (n : nat) : Prop :=
  match x with
  | Thinking p => ∃ m, calls m p ∧ 10 * m + 3 ≤ n
  | Storing op q k => ∃ l m, requests l q ∧ (∀ a, calls m (k a)) ∧ l + 1 + (10 * m + 3) ≤ n
  end.
(** Inside a store call the handler has not returned. *)
Definition thread_within (t : PgThread) (n : nat) : Prop :=
  match pt_state t, pt_call t with
  | Handling, Some (_, _, x) => activity_within x n
  | Handling, None => False
  | _, Some (_, _, Storing _ _ _) => False
  | Answered _, _ => 2 ≤ n
  | Counted _, _ => 1 ≤ n
  | Served _, _ => True
  end.
Definition served (t : PgThread) : bool := match pt_state t with Served _ => true | _ => false end.

Section Serving.
Context `{Pg : Postgres} {Sg Ad : Type} `{!SigningBackend Sg, !ChainAdapter Ad}.
Context (decode_text : HttpRequest → string) (server : Server) (policy : Policy).
Abbreviation system := (pg_system (Sg := Sg) (Ad := Ad) decode_text server policy).
Implicit Types (w : World unit Sg Ad) (c : PgConfig (Sg := Sg) (Ad := Ad)).

(** A step of the connections there are. *)
Definition serving c c' : Prop := system c c' ∧ length (pg_threads c') = length (pg_threads c).
Definition all_served c : Prop := Forall (λ t, served t = true) (pg_threads c).

Lemma thread_within_mono t n m : thread_within t n → n ≤ m → thread_within t m.
Proof.
  destruct t as [q [[[r st] [p|A op p k]]|] []]; unfold thread_within; simpl; intros H ?; try done; try lia.
  - destruct H as (l & ? & ?). exists l. split; [done|lia].
  - destruct H as (l & l' & ? & ? & ?). exists l, l'. split_and!; [done|done|lia].
Qed.

(** Every step of a connection uses up some of what it has left. *)
Lemma serving_thread c c' : serving c c' →
  ∃ i t t', pg_threads c !! i = Some t ∧ pg_threads c' = <[i := t']> (pg_threads c) ∧
    ∀ m, thread_within t m → ∃ m', m = S m' ∧ thread_within t' m'.
Proof.
  intros [Hs Hl].
  destruct Hs as [d v ts q raw16 raw8 r st Hact|d v ts q raw16 raw8 resp Hact|d v ts q raw16 raw8 Hact
    |d v ts i q r st X e k x v' Hi He Hx|d v ts i q r st A op k Hi|d v ts i q r st A op X e p k fault now x d' Hi Hx
    |d v ts i q r st A op b k Hi|d v ts i q r st b Hi|d v ts i q call resp Hi|d v ts i q call resp duration Hi]; simpl in *;
    try (rewrite length_app in Hl; simpl in Hl; lia);
    eexists i, _, _; (split; [exact Hi|]); (split; [reflexivity|]); intros m; unfold thread_within; simpl.
  - intros ([|l] & Hw & Hm); [done|]. exists (pred m). split; [lia|]. exists l. split; [by apply Hw|lia].
  - intros ([|l] & Hw & Hm); [done|]. exists (pred m). split; [lia|]. exists 8, l. split_and!; [apply method_requests|apply Hw|lia].
  - intros ([|l] & l' & Hw & Hk & Hm); [done|]. exists (pred m). split; [lia|]. exists l, l'. split_and!; [by apply Hw|done|lia].
  - intros (l & l' & _ & Hk & Hm). exists (pred m). split; [lia|]. exists l'. split; [done|lia].
  - intros (l & _ & Hm). exists (pred m). lia.
  - destruct call as [[[? ?] []]|]; [|done|]; intros ?; exists (pred m); lia.
  - destruct call as [[[? ?] []]|]; [|done|]; intros ?; exists (pred m); split; [lia|done|lia|done].
Qed.

Lemma reachable_thread_within w c : pg_reachable decode_text server policy w c → Forall (λ t, thread_within t 143) (pg_threads c).
Proof.
  revert c. refine (rtc_ind_r (λ c, Forall (λ t, thread_within t 143) (pg_threads c)) _ _ _); [constructor|].
  intros c c' _ Hs HF. destruct (decide (length (pg_threads c') = length (pg_threads c))) as [Hl|Hl].
  - destruct (serving_thread c c' (conj Hs Hl)) as (i & t & t' & Hi & -> & Hstep). apply Forall_insert; [done|].
    destruct (Hstep 143) as (m & ? & Hm); [by apply (Forall_lookup_1 _ _ _ _ HF Hi)|]. eapply thread_within_mono; [exact Hm|lia].
  - destruct Hs as [d v ts q raw16 raw8 r st Hact|d v ts q raw16 raw8 resp Hact|d v ts q raw16 raw8 Hact| | | | | | |];
      simpl in *; try (by rewrite length_insert in Hl); (apply Forall_app; split; [done|]); (constructor; [|constructor]);
      unfold thread_within; simpl; [|lia..].
    exists 14. split; [apply calls_serve_14|lia].
Qed.

Definition thread_budget (n : nat) c : Prop := budget thread_within n (pg_threads c).
Lemma thread_budget_step n c c' : thread_budget n c → serving c c' → ∃ m, n = S m ∧ thread_budget m c'.
Proof.
  intros Hb Hs. destruct (serving_thread c c' Hs) as (i & t & t' & Hi & E & Hstep). unfold thread_budget. rewrite E.
  by eapply budget_insert.
Qed.

(** ** Something can always move *)
Context `{Laws : !PostgresLaws, !SignerLaws Sg}.

(** Connection [i] has asked [e] of the database. *)
Definition asking c (i : nat) (X : Type) (e : dbeff X) : Prop :=
  ∃ q r st A (op : StoreOp A) p k, pg_threads c !! i = Some (mkPgThread q (Some (r, st, Storing op (Vis e p) k)) Handling).
Lemma asking_proper c a i X e : simulates (Sg := Sg) (Ad := Ad) c a → asking c i X e → proper_request i e (pg_db c).
Proof.
  intros Hm (q & r & st & A & op & p & k & Hi). destruct (sys_calling _ _ _ _ _ _ _ _ Hm Hi) as (p' & _ & Ha).
  by destruct Ha as [(_ & _ & Hp & _)|(b & _ & Hp & _)].
Qed.
Lemma open_asking c a j tx :
  simulates (Sg := Sg) (Ad := Ad) c a → Forall (λ t, thread_within t 143) (pg_threads c) →
  sessions (pg_db c) !! j = Some tx → ∃ X e, asking c j X e.
Proof.
  intros Hm HF Hs. destruct (pg_threads c !! j) as [t|] eqn:Hj; [|apply (sys_free _ _ Hm) in Hj; congruence].
  pose proof (Forall_lookup_1 _ _ _ _ HF Hj) as Hw. destruct (sys_threads _ _ Hm _ _ Hj) as (u & _ & Hr).
  destruct t as [q [[[r st] [p|A op [b|X e p] k]]|] s]; simpl in Hr.
  - destruct Hr as (p' & _ & _ & Hn). congruence.
  - destruct Hr as (p' & _ & [(_ & _ & _ & Hn)|(b' & _ & _ & Hn)]); congruence.
  - destruct s; try done. exists X, e. by exists q, r, st, A, op, p, k.
  - destruct Hr as [_ Hn]. congruence.
Qed.

Lemma moves c i t' d' w' : system c (mkPgConfig d' w' (<[i := t']> (pg_threads c))) → ∃ c', serving c c'.
Proof. intros Hs. eexists. split; [exact Hs|]. simpl. by rewrite length_insert. Qed.
Lemma serving_live w c :
  fresh (Store0 := atomic_store) (StoreRefinement0 := atomic_refinement) (with_store empty_astore w) →
  pg_reachable decode_text server policy w c → all_served c ∨ ∃ c', serving c c'.
Proof.
  intros Hf Hr. pose proof (reachable_thread_within w c Hr) as HF.
  destruct (pg_reachable_sim decode_text server policy w c Hf Hr) as (a & _ & Hm).
  destruct (decide (all_served c)) as [|Hn]; [by left|right]. unfold all_served in Hn.
  apply not_Forall_Exists in Hn; [|apply _]. apply Exists_exists in Hn as (t & [i Hi]%list_elem_of_lookup & Ht).
  pose proof (Forall_lookup_1 _ _ _ _ HF Hi) as Hw. destruct c as [d v ts]. simpl in *.
  destruct t as [q call [|resp|resp|resp]]; [|by eapply (moves (mkPgConfig d v ts)), sys_count|
    by eapply (moves (mkPgConfig d v ts)), (sys_observe _ _ _ _ _ _ _ _ _ _ 0)|by destruct Ht].
  destruct call as [[[r st] [[b|X e k]|A op [b|X e p] k]]|]; [| | | |done].
  - by eapply (moves (mkPgConfig d v ts)), sys_answer.
  - destruct (is_store e) eqn:He.
    + destruct e; try done. by eapply (moves (mkPgConfig d v ts)), sys_begin.
    + destruct (exec (Store0 := unit_store) X e some_input v) as [x v'] eqn:Hx.
      eapply (moves (mkPgConfig d v ts)), sys_call; [done|done|by eapply exec_exec_rel].
  - by eapply (moves (mkPgConfig d v ts)), sys_end.
  - destruct (wait_chain d 0 (asking (mkPgConfig d v ts))) with i X e
      as (j & Y & f & y & d' & (q' & r' & st' & B & op' & p' & k' & Hj) & Hx).
    + apply (sys_inv _ _ Hm).
    + intros. by eapply (asking_proper (mkPgConfig d v ts)).
    + intros. by eapply (open_asking (mkPgConfig d v ts)).
    + by exists q, r, st, A, op, p, k.
    + by eapply (moves (mkPgConfig d v ts)), sys_request.
Qed.
End Serving.
