(* ===== verification/EndToEnd.v ===== *)
(** * Custody from the HTTP request to the row

    The guarantees for the deployment with a database, stated on what can be
    inspected there: the HTTP requests that arrived and their responses, what
    went to a chain, and the rows of the tables; the guarantee from the
    environment variables of the process, with either store; and a run of the
    deployment with a database. *)
From Stdlib Require Import Ascii.
From S2P Require Import Prelude GoStd GoError Types Json Codec Http Metrics Interfaces Ethereum Bitcoin Evm.
From S2P Require Import Chains Signing StoreSpec Sql Postgres PgAbs PgStore Service System Api ApiSystem ApiClient.
From S2P Require Import Config MemoryStore Handlers Wiring WiringTheorems.
From S2P Require Import Custody Scenario CustodyTheorems Calls ApiTheorems PgSystem PgServing.

Section Guarantee.
Context `{Pg : Postgres} {Sg Ad : Type} `{!SigningBackend Sg, !ChainAdapter Ad}.
Context (decode_text : HttpRequest → string) (server : Server) (policy : Policy).
Context `{Laws : !PostgresLaws, !SignerLaws Sg}.
#[local] Existing Instances atomic_store atomic_refinement.

(** C3. Custody over Postgres, end to end: however HTTP requests, the calls of
    their handlers and the database requests of the store interleave, wait for
    each other's locks and lose their connections, anything handed to a chain
    was signed before, after two authenticated HTTP requests had asked to
    co-sign that transaction in the name of two different permitted signers; and
    every row of [transaction_proposals] is the document of a proposal stored
    under its own identifier, within the amount policy, in one of the four
    stages with what that stage implies, holding only approvals of permitted
    signers who asked and only a payload signed for a quorum. *)
Theorem custody_over_postgres (w : World unit Sg Ad) c :
  history w = [] → (∀ chain, is_Some (chains w !! chain) → has_byte "000" chain = false) →
  pg_reachable decode_text server policy w c →
  (∀ h1 chain tx answer h2, history (pg_world c) = h1 ++ EvBroadcast chain tx answer :: h2 →
     ∃ p sig h3 h4 s1 s2, h1 = h3 ++ EvSign p (Ok sig) :: h4 ∧ sig_SignedTransaction sig = tx ∧ tp_Chain p = chain ∧
       s1 ≠ s2 ∧ Forall (λ s, signerAllowed policy s = true ∧ EvRequest (ReqCoSign (tp_ID p) s) ∈ h3 ∧
         ∃ q, q ∈ pt_request <$> pg_threads c ∧ cosign_request decode_text server (tp_ID p) s q) [s1; s2]) ∧
  (∀ id row, t_txns (tables (pg_db c)) !! id = Some row →
     ∃ p, unmarshal_proposal (row_Proposal row) = Ok p ∧ tp_ID p = id ∧
       validateAmountPolicy policy (tp_Chain p) (req_Amount (tp_Request p)) = None ∧ lifecycle p ∧
       approvals_ok policy (history (pg_world c)) id p ∧
       (tp_SignedTransaction p ≠ "" → signed_by_quorum policy (history (pg_world c)) id (tp_RawTransaction p)
          (tp_Chain p) (tp_SignedTransaction p))).
Proof.
  intros Hh Hc Hr. destruct (pg_reachable_inv decode_text server policy w c) as (Hwf & [was Hi] & Hq); [by split_and!|done|]. split.
  - intros h1 chain tx answer h2 E.
    edestruct (broadcast_quorum policy (St := AStore)) as (p & sig & h3 & h4 & Eh & Htx & Hch & Hco); [exact Hi|exact E|].
    destruct (cosigners_http decode_text server policy (λ q, q ∈ pt_request <$> pg_threads c) h3 (tp_ID p) Hco)
      as (s1 & s2 & Hne & H12); [|by exists p, sig, h3, h4, s1, s2].
    intros r Hin. destruct (Hq r) as (t & r16 & r8 & st & Ht & Hact); [rewrite E, Eh; clear -Hin; set_solver|].
    exists (pt_request t), r16, r8, st. split; [by apply list_elem_of_fmap_2|done].
  - intros id row Hrow. destruct (Hwf _ _ Hrow) as (p & Hp & _). exists p.
    destruct (inv_txns _ _ _ _ _ Hi id p) as [<- Hok]; [by eapply abs_txn|].
    unfold document in Hp. destruct (unmarshal_proposal (row_Proposal row)); [|done]. simplify_eq.
    destruct Hok. by split_and!.
Qed.

(** C8. Every HTTP request is answered: in any state the server over Postgres can
    reach, once no further request arrives, on every schedule something can move
    until every connection is served, whatever locks the transactions in flight
    hold, and that takes at most 143 steps per connection: ten for each of at most
    fourteen calls, and three to answer and record the request. *)
Theorem requests_answered (w : World unit Sg Ad) c :
  history w = [] → (∀ chain, is_Some (chains w !! chain) → has_byte "000" chain = false) →
  pg_reachable decode_text server policy w c →
  inevitable (serving decode_text server policy) all_served c ∧
  ∀ n c', nsteps (serving decode_text server policy) n c c' → n ≤ 143 * length (pg_threads c).
Proof.
  intros Hh Hc Hr. assert (Hb : thread_budget (143 * length (pg_threads c)) c)
    by (apply budget_all; by eapply reachable_thread_within).
  split; [|intros n c'; by eapply (measure_nsteps _ thread_budget (thread_budget_step _ _ _))].
  apply (measure_inevitable _ thread_budget (thread_budget_step _ _ _) _ (pg_reachable decode_text server policy w) (143 * length (pg_threads c))); [| |done|exact Hb].
  - intros s Hs. by apply (serving_live _ _ _ w); [split_and!|].
  - intros s s' Hs [Hst _]. by eapply rtc_r.
Qed.
End Guarantee.

(** ** From the environment variables *)
Section Configured.
Context `{Ethereum} `{Pg : Postgres} `{Laws : !PostgresLaws}.
Context (decode_text : HttpRequest → string) (signers keys : list string).
#[local] Existing Instances atomic_store atomic_refinement.

(** In [h], two co-signatures of [id] had been asked for in the name of two
    different listed signers, each by an HTTP request of [qs] with one of the keys. *)
Definition two_listed (h : list Event) (qs : list HttpRequest) (id : string) : Prop :=
  ∃ s1 s2, s1 ≠ s2 ∧ Forall (λ s, s ∈ signers ∧ EvRequest (ReqCoSign id s) ∈ h ∧ ∃ q, q ∈ qs ∧ provided_key q ∈ keys ∧
    parseTransactionPath (Path q) = Some (id, "cosign") ∧ decodeJSON decode_text dec_cosign q = Ok s) [s1; s2].
Definition co_signed (h : list Event) (qs : list HttpRequest) : Prop :=
  ∀ h1 chain tx answer h2, h = h1 ++ EvBroadcast chain tx answer :: h2 →
    ∃ p sig h3 h4, h1 = h3 ++ EvSign p (Ok sig) :: h4 ∧ sig_SignedTransaction sig = tx ∧ tp_Chain p = chain ∧
      two_listed h3 qs (tp_ID p).

Lemma listed_cosigners cfg qs h id :
  SignerIDs cfg = signers → signers ≠ [] → APIKeys cfg = keys → keys ≠ [] →
  two_cosigners (policy_of cfg) h id →
  (∀ r, EvRequest r ∈ h → ∃ q raw16 raw8 st, q ∈ qs ∧
     action decode_text (NewServer [WithAPIKeys (APIKeys cfg)]) q raw16 raw8 = Invoke r st) →
  two_listed h qs id.
Proof.
  intros Hs Hne Hk Hkne Hco Hq.
  destruct (cosigners_http decode_text _ _ (λ q, q ∈ qs) h id Hco Hq) as (s1 & s2 & H12 & HF).
  exists s1, s2. split; [done|]. eapply Forall_impl; [exact HF|]. intros s (Ha & Hreq & q & Hin & Hauth & _ & Hpath & Hdec).
  unfold policy_of in Ha. rewrite Hs in Ha. apply signerAllowed_set in Ha as [?|?]; [done|]. do 2 (split; [done|]).
  exists q. split_and!; [done| |done|done]. destruct Hauth as [E|Hin']; simpl in *; rewrite Hk in *; done.
Qed.

Lemma wire_database cfg w :
  wire tt cfg = Ok w → history w = [] ∧ ∀ chain, is_Some (chains w !! chain) → has_byte "000" chain = false.
Proof.
  unfold wire. destruct (NewDemoQuorumBackend _) as [g|e]; [|done]. intros [= <-]. split; [done|].
  simpl. by intros chain [-> | ->]%registry_chains.
Qed.

(** C33. From the environment to the guarantee: with signers and API keys written
    into SIGNER_IDS and API_KEYS, the server main wires serves, over the
    in-memory store and over an empty Postgres database alike, whatever the rest
    of the configuration, so that anything handed to a chain was signed before,
    and before that two co-signatures had been asked for in the name of two
    different signers of this list, each by an HTTP request with one of these
    keys. *)
Theorem configured_custody Getenv :
  Forall clean signers → signers ≠ [] → Getenv "SIGNER_IDS" = Join "," signers →
  Forall clean keys → keys ≠ [] → Getenv "API_KEYS" = Join "," keys →
  let cfg := Load Getenv in
  let server := NewServer [WithAPIKeys (APIKeys cfg)] in
  (∀ w c, wire NewMemoryStore cfg = Ok w → http_reachable decode_text server (policy_of cfg) w c →
     co_signed (history (h_world c)) (ht_request <$> h_threads c)) ∧
  (∀ w c, wire tt cfg = Ok w → pg_reachable decode_text server (policy_of cfg) w c →
     co_signed (history (pg_world c)) (pt_request <$> pg_threads c)).
Proof.
  intros Hcs Hns Hs Hck Hnk Hk cfg server.
  assert (Es : SignerIDs cfg = signers) by by apply envList_Join.
  assert (Ek : APIKeys cfg = keys) by by apply envList_Join.
  split; intros w c Hw Hr h1 chain tx answer h2 E.
  - assert (Hf : fresh w).
    { eapply wire_fresh; [| |exact Hw]; [apply start_fresh|reflexivity]. }
    destruct (http_reachable_service _ _ _ w c Hr) as [m Hm]. pose proof (fresh_store _ w _ Hf Hm) as Hi. cbn in Hi.
    edestruct (broadcast_quorum (policy_of cfg) (St := MemoryStore)) as (p & sig & h3 & h4 & Eh & Htx & Hch & Hco); [exact Hi|exact E|].
    exists p, sig, h3, h4. split_and!; [done|done|done|]. eapply listed_cosigners; [exact Es|done|exact Ek|done|exact Hco|].
    intros r Hin. destruct (history_from_http decode_text server (policy_of cfg) w c r) as (t & r16 & r8 & st & Ht & Hact);
      [apply Hf|done|rewrite E, Eh; set_solver|].
    exists (ht_request t), r16, r8, st. split; [by apply list_elem_of_fmap_2|done].
  - destruct (wire_database cfg w Hw) as [Hh Hc].
    destruct (pg_reachable_inv decode_text server (policy_of cfg) w c) as (_ & [was Hi] & Hq); [by split_and!|done|].
    edestruct (broadcast_quorum (policy_of cfg) (St := AStore)) as (p & sig & h3 & h4 & Eh & Htx & Hch & Hco); [exact Hi|exact E|].
    exists p, sig, h3, h4. split_and!; [done|done|done|]. eapply listed_cosigners; [exact Es|done|exact Ek|done|exact Hco|].
    intros r Hin. destruct (Hq r) as (t & r16 & r8 & st & Ht & Hact); [rewrite E, Eh; clear -Hin; set_solver|].
    exists (pt_request t), r16, r8, st. split; [by apply list_elem_of_fmap_2|done].
Qed.
End Configured.

(** ** A run: a wallet, a proposal, two people co-signing at once, a broadcast *)
Section Run.
Context `{Pg : Postgres} {Sg Ad : Type} `{!SigningBackend Sg, !ChainAdapter Ad}.
Context (decode_text : HttpRequest → string) (server : Server) (policy : Policy).
#[local] Existing Instance unit_store.
Abbreviation system := (pg_system (Sg := Sg) (Ad := Ad) decode_text server policy).
Implicit Types (w : World unit Sg Ad) (c : PgConfig (Sg := Sg) (Ad := Ad)).

(** The next call of a handler. *)
Definition think {X} w (inp : Input) (e : eff X) : (X → prog eff (res Response)) → Activity * World unit Sg Ad :=
  match e in eff X return (X → prog eff (res Response)) → Activity * World unit Sg Ad with
  | EStore op => λ k, (Storing op (method op) k, w)
  | e => λ k, let '(x, w') := exec _ e inp w in (Thinking (k x), w')
  end.
Lemma think_step d w ts i q r st X (e : eff X) k inp t w' :
  ts !! i = Some (mkPgThread q (Some (r, st, Thinking (Vis e k))) Handling) → think w inp e k = (t, w') →
  system (mkPgConfig d w ts) (mkPgConfig d w' (<[i := mkPgThread q (Some (r, st, t)) Handling]> ts)).
Proof.
  intros Hi. destruct (is_store e) eqn:He.
  - destruct e; try done. intros [= <- <-]. by eapply sys_begin.
  - assert (think w inp e k = let '(x, w') := exec _ e inp w in (Thinking (k x), w')) as -> by by destruct e.
    destruct (exec X e inp w) as [x w1] eqn:Hx. intros [= <- <-]. eapply sys_call; [done|done|]. by eapply exec_exec_rel.
Qed.

(** Connection [i] takes its next turn, if it can. *)
Definition turn (i : nat) (inp : Input) c : option PgConfig :=
  let put d w q call s := Some (mkPgConfig d w (<[i := mkPgThread q call s]> (pg_threads c))) in
  let d := pg_db c in let w := pg_world c in
  match pg_threads c !! i with
  | Some (mkPgThread q (Some (r, st, Thinking (Vis e k))) Handling) =>
      let '(t, w') := think w inp e k in put d w' q (Some (r, st, t)) Handling
  | Some (mkPgThread q (Some (r, st, Storing op (Vis e p) k)) Handling) =>
      match db_step i _ e None (in_now inp) d with
      | Some (x, d') => put d' w q (Some (r, st, Storing op (p x) k)) Handling
      | None => None                                   (* waits for a lock *)
      end
  | Some (mkPgThread q (Some (r, st, Storing op (Ret a) k)) Handling) => put d w q (Some (r, st, Thinking (k a))) Handling
  | Some (mkPgThread q (Some (r, st, Thinking (Ret a))) Handling) =>
      put d w q (Some (r, st, Thinking (Ret a))) (Answered (render st a))
  | Some (mkPgThread q call (Answered resp)) =>
      put d (update_metrics (Inc "custody_http_requests_total" (labels_of q resp)) w) q call (Counted resp)
  | Some (mkPgThread q call (Counted resp)) =>
      put d (update_metrics (ObserveDuration "custody_http_request_duration_seconds" (labels_of q resp) 5) w) q call (Served resp)
  | _ => None
  end.
Lemma turn_step i inp c c' : turn i inp c = Some c' → system c c'.
Proof.
  destruct c as [d w ts]. unfold turn; simpl. destruct (ts !! i) as [[q call [|resp|resp|resp]]|] eqn:Hi; try done.
  2: by destruct call as [[[r st] [[]|? ? [] ?]]|]; intros [= <-]; apply sys_count.
  2: by destruct call as [[[r st] [[]|? ? [] ?]]|]; intros [= <-]; apply sys_observe.
  2: by destruct call as [[[r st] [[]|? ? [] ?]]|].
  destruct call as [[[r st] [[a|X e k]|A op [a|X e p] k]]|]; intros Ht; try done.
  - simplify_eq. by apply sys_answer.
  - destruct (think w inp e k) as [t w'] eqn:He. simplify_eq. by eapply think_step.
  - simplify_eq. by eapply sys_end.
  - destruct (db_step _ _ _ _ _ _) as [[x d']|] eqn:Hx; simplify_eq. by eapply sys_request.
Qed.

(** The connections [who] in turn, [n] times; one that cannot move is passed over. *)
Fixpoint turns (n k : nat) (who : list nat) c : PgConfig :=
  match n with
  | O => c
  | S n => turns n (S k) who (foldl (λ c i, default c (turn i (input None i k) c)) c who)
  end.
Lemma turns_steps n k who c : rtc system c (turns n k who c).
Proof.
  revert k c. induction n as [|n IH]; intros k c; simpl; [done|]. etrans; [|apply IH]. clear IH.
  revert c. induction who as [|i who IH]; intros c; simpl; [done|]. etrans; [|apply IH].
  destruct (turn i (input None i k) c) as [c'|] eqn:Ht; [|done]. simpl. by eapply rtc_once, turn_step.
Qed.

(** A request arrives. *)
Definition arrive (q : HttpRequest) c : PgConfig :=
  match action decode_text server q (Ok "a") (Ok "b") with
  | Invoke r st => mkPgConfig (pg_db c) (accept r (pg_world c))
      (pg_threads c ++ [mkPgThread q (Some (r, st, Thinking (serve policy r))) Handling])
  | _ => c
  end.
Lemma arrive_steps q c : rtc system c (arrive q c).
Proof.
  unfold arrive. destruct c as [d w ts]. destruct (action _ _ q (Ok "a") (Ok "b")) as [| |r st] eqn:E; try done.
  by eapply rtc_once, sys_invoke.
Qed.
Definition stage (n k : nat) (who : list nat) (q : HttpRequest) c : PgConfig := turns n k who (arrive q c).
Lemma stage_reachable w c n k who q :
  pg_reachable decode_text server policy w c → pg_reachable decode_text server policy w (stage n k who q c).
Proof. unfold pg_reachable. intros Hc. etrans; [exact Hc|]. etrans; [apply arrive_steps|apply turns_steps]. Qed.
End Run.

(** The deployment of main.go with a database, and the demo of the README. *)
Section Demo.
#[local] Existing Instance example_postgres.
Abbreviation Demo := (PgConfig (Sg := DemoQuorumBackend) (Ad := Adapter)).
Definition demo_policy : Policy := policy_of (Load demo_environment).
Definition demo_server : Server := NewServer [WithAPIKeys (APIKeys (Load demo_environment))].
Definition pg_start_world : World unit DemoQuorumBackend Adapter :=
  match wire tt (Load demo_environment) with
  | Ok w => w
  | Err _ => mkWorld tt (mkDemoQuorumBackend ∅ None) ∅ NewMetrics []
  end.
Definition sent (r : Request) : HttpRequest := match client "secret" r with Ok q => q | Err _ => anonymous end.
Definition first_key {A} (m : gmap string A) : string := default "" (fst <$> head (map_to_list m)).
Abbreviation step_on := (stage no_text demo_server demo_policy).

Definition pg_wallet : Demo := step_on 60 0 [0] (sent (ReqCreateWallet ChainBitcoin "w")) (mkPgConfig no_rows pg_start_world []).
Definition pg_request : TransactionRequest :=
  mkTransactionRequest (first_key (t_wallets (tables (pg_db pg_wallet)))) "tb1qrecipient" "50000" 5 0 "" ""
    [mkUTXO "prev" 0 75000 "0014ab"] None.
Definition pg_proposed : Demo := step_on 60 100 [1] (sent (ReqProposeTransaction trace pg_request "p")) pg_wallet.
Definition pg_id : string := first_key (t_txns (tables (pg_db pg_proposed))).
Definition pg_signed : Demo :=
  step_on 100 200 [2; 3] (sent (ReqCoSign pg_id "bob")) (step_on 0 0 [] (sent (ReqCoSign pg_id "alice")) pg_proposed).
Definition pg_done : Demo := step_on 100 300 [4] (sent (ReqBroadcast pg_id)) pg_signed.

Lemma pg_done_reachable : pg_reachable no_text demo_server demo_policy pg_start_world pg_done.
Proof. do 5 apply stage_reachable. apply rtc_refl. Qed.
Example pg_statuses :
  (λ t, match pt_state t with Served resp => resp_Status resp | _ => 0%Z end) <$> pg_threads pg_done = [201; 201; 200; 200; 200]%Z.
Proof. vm_compute. reflexivity. Qed.

Definition pg_broadcast : Chain * string * res string :=
  match history (pg_world pg_done) !! 6 with
  | Some (EvBroadcast chain tx answer) => (chain, tx, answer)
  | _ => ("", "", Ok "")
  end.
Lemma pg_history :
  history (pg_world pg_done) =
    take 6 (history (pg_world pg_done)) ++ EvBroadcast pg_broadcast.1.1 pg_broadcast.1.2 pg_broadcast.2 :: [].
Proof. vm_compute. reflexivity. Qed.
Lemma pg_start_history : history pg_start_world = [].
Proof. vm_compute. reflexivity. Qed.
Lemma pg_start_chains chain : is_Some (chains pg_start_world !! chain) → has_byte "000" chain = false.
Proof.
  unfold pg_start_world. destruct (wire tt _) as [w|e] eqn:Hw; [by eapply wire_database|intros [? [=]]].
Qed.

Lemma custody_over_postgres_witness :
  ∃ p s1 s2, s1 ≠ s2 ∧ Forall (λ s, ∃ q, q ∈ pt_request <$> pg_threads pg_done ∧
    cosign_request no_text demo_server (tp_ID p) s q) [s1; s2].
Proof.
  destruct (custody_over_postgres no_text demo_server demo_policy (Laws := example_postgres_laws) pg_start_world pg_done
    pg_start_history pg_start_chains pg_done_reachable) as [Hb _].
  destruct (Hb _ _ _ _ _ pg_history) as (p & sig & h3 & h4 & s1 & s2 & _ & _ & _ & Hne & H12).
  exists p, s1, s2. split; [exact Hne|]. eapply Forall_impl; [exact H12|]. intros s (_ & _ & Hq). exact Hq.
Defined.

Lemma configured_custody_witness :
  ∃ h id, two_listed no_text ["alice"; "bob"; "carol"] ["secret"] h (pt_request <$> pg_threads pg_done) id.
Proof.
  destruct (configured_custody no_text (Laws := example_postgres_laws) ["alice"; "bob"; "carol"] ["secret"] demo_environment)
    as [_ H]; try discriminate; try reflexivity.
  - repeat constructor; try discriminate; vm_compute; reflexivity.
  - repeat constructor; try discriminate; vm_compute; reflexivity.
  - destruct (H pg_start_world pg_done eq_refl pg_done_reachable _ _ _ _ _ pg_history) as (p & sig & h3 & h4 & _ & _ & _ & Hl).
    exists h3, (tp_ID p). exact Hl.
Defined.

(** Two people are co-signing, in the middle of their database transactions. *)
Definition pg_midway : Demo :=
  step_on 4 200 [2; 3] (sent (ReqCoSign pg_id "bob")) (step_on 0 0 [] (sent (ReqCoSign pg_id "alice")) pg_proposed).
Example pg_midway_open : size (sessions (pg_db pg_midway)) = 2.
Proof. vm_compute. reflexivity. Qed.
Lemma requests_answered_witness : inevitable (serving no_text demo_server demo_policy) all_served pg_midway.
Proof.
  apply (requests_answered no_text demo_server demo_policy (Laws := example_postgres_laws) pg_start_world pg_midway).
  - exact pg_start_history.
  - exact pg_start_chains.
  - do 4 apply stage_reachable. apply rtc_refl.
Defined.
End Demo.
