(* ===== verification/PgTheorems.v ===== *)
(** * What the Postgres store guarantees

    Any number of concurrent calls behave as if each took effect at one moment;
    no call waits forever; and a stored proposal is read back as it was
    written. *)
From Stdlib Require Import Ascii.
From S2P Require Import Prelude GoStd GoError Types Json Marshal JsonText Codec Transport Interfaces.
From S2P Require Import StoreSpec Sql Postgres PgAbs PgLogic PgMethods PgStore Calls PgConc PgProgress.

Section Guarantees.
Context `{Pg : Postgres} `{Laws : !PostgresLaws}.

(** C4. The Postgres store is linearizable: however the requests of any
    number of calls interleave, wait for each other and lose their connections,
    the calls and answers the callers see are those of an atomic store in which
    each call takes effect at one moment between its invocation and its return,
    and the tables hold what that store holds. *)
Theorem postgres_linearizable tr s :
  runs pg_step pg_start tr s →
  ∃ a, runs at_step at_start tr a ∧ contents a = pg_abs (tables (db s)).
Proof. intros (a & Hr & Hm)%sim_runs. exists a. split; [done|apply Hm]. Qed.

(** No deadlock: however the calls in flight are scheduled, some request
    can always be served until every call has its answer, and that takes at most
    eight requests per call. *)
Theorem postgres_calls_finish tr s :
  runs pg_step pg_start tr s →
  inevitable silent all_answered s ∧ ∀ n s', nsteps silent n s s' → n ≤ 8 * length (jobs s).
Proof.
  intros Hr. split; [by eapply calls_inevitable|]. intros n s' Hs.
  eapply (measure_nsteps _ request_budget request_budget_step); [by eapply runs_budget|done].
Qed.


End Guarantees.

(** ** Witnesses, over the concrete data types of [PgStore] *)

(** A scheduler: which session moves next. *)
Inductive Move :=
| Call {A} (op : StoreOp A) (Hop : op_ok op)
| Request (i : nat)
| Return (i : nat).
Section Play.
Context `{Postgres}.
Definition play_move (m : Move) (s : Sessions) : option (option Event * Sessions) :=
  match m with
  | Call op _ => Some (Some (EvCall (length (jobs s)) op), mkSessions (db s) (jobs s ++ [Running op (method op)]))
  | Request i =>
      match jobs s !! i with
      | Some (Running op (Vis e k)) =>
          match db_step i _ e None 0 (db s) with
          | Some (x, d) => Some (None, mkSessions d (<[i := Running op (k x)]> (jobs s)))
          | None => None
          end
      | _ => None
      end
  | Return i =>
      match jobs s !! i with
      | Some (Running op (Ret r)) => Some (Some (EvReturn i op r), mkSessions (db s) (<[i := Returned]> (jobs s)))
      | _ => None
      end
  end.
Fixpoint play_all (ms : list Move) (tr : list Event) (s : Sessions) : option (list Event * Sessions) :=
  match ms with
  | [] => Some (tr, s)
  | m :: ms => match play_move m s with Some (o, s') => play_all ms (tr ++ option_list o) s' | None => None end
  end.
Lemma play_move_step m s o s' : play_move m s = Some (o, s') → pg_step s o s'.
Proof.
  destruct s as [d js], m as [A op Hop|i|i]; simpl; intros Hm.
  - simplify_eq. by constructor.
  - destruct (js !! i) as [[A op [r|X e k]|]|] eqn:Hi; try done.
    destruct (db_step _ _ _ _ _ _) as [[x d']|] eqn:Hx; simplify_eq. by econstructor.
  - destruct (js !! i) as [[A op [r|X e k]|]|] eqn:Hi; try done. simplify_eq. by constructor.
Qed.
Lemma play_all_runs ms tr s tr' s' :
  runs pg_step pg_start tr s → play_all ms tr s = Some (tr', s') → runs pg_step pg_start tr' s'.
Proof.
  revert tr s. induction ms as [|m ms IH]; simpl; intros tr s Hr Hp; [by simplify_eq|].
  destruct (play_move m s) as [[o s1]|] eqn:Hm; [|done]. eapply IH; [|exact Hp].
  econstructor; [exact Hr|by apply (play_move_step m)].
Qed.
End Play.

(** Two creations race for one idempotency key: the first inserts its wallet,
    the second takes the key and commits, and the first, whose insertion of the
    key then fails, rolls back and returns the second's wallet. *)
Definition wallet_of (id : string) : Wallet := mkWallet id "bitcoin" "tb1q" "02" 1000.
Definition race_key (id : string) : IdempotencyRecord := mkIdempotencyRecord "wallet:bitcoin" "k" "wallet" id 1000.
Definition race_op (id : string) := OpCreateWalletIdempotently (wallet_of id) (race_key id).
Lemma race_op_ok id : op_ok (race_op id).
Proof. reflexivity. Qed.
Definition race_moves : list Move :=
  [Call (race_op "a") (race_op_ok "a"); Call (race_op "b") (race_op_ok "b")] ++
  [Request 0; Request 0; Request 0; Request 1; Request 1; Request 1; Request 1; Request 1; Request 1; Return 1] ++
  [Request 0; Request 0; Request 0; Request 0; Request 0; Return 0].
Definition race_events : list Event :=
  [EvCall 0 (race_op "a"); EvCall 1 (race_op "b");
   EvReturn 1 (race_op "b") (Ok (wallet_of "b", true)); EvReturn 0 (race_op "a") (Ok (wallet_of "b", false))].
Lemma race_played :
  ∃ s, play_all (H := example_postgres) race_moves [] pg_start = Some (race_events, s).
Proof. eexists. vm_compute. reflexivity. Qed.
Lemma race_runs : ∃ s, runs (pg_step (H := example_postgres)) pg_start race_events s.
Proof. destruct race_played as [s Hs]. exists s. exact (play_all_runs race_moves [] pg_start _ _ (runs_nil _ _) Hs). Qed.

Lemma postgres_linearizable_witness :
  ∃ a, runs (at_step (H := example_postgres)) at_start race_events a.
Proof.
  destruct race_runs as [s Hs].
  destruct (postgres_linearizable (Laws := example_postgres_laws) race_events s Hs) as (a & Ha & _). exists a. exact Ha.
Defined.

(** Two creations that have just been called. *)
Definition two_calls : Sessions :=
  mkSessions (mkDatabase empty_tables ∅) [Running (race_op "a") (method (race_op "a")); Running (race_op "b") (method (race_op "b"))].
Lemma postgres_calls_finish_witness : inevitable (silent (H := example_postgres)) all_answered two_calls.
Proof.
  apply (postgres_calls_finish (Laws := example_postgres_laws) [EvCall 0 (race_op "a"); EvCall 1 (race_op "b")] two_calls).
  apply (play_all_runs (H := example_postgres)
    [Call (race_op "a") (race_op_ok "a"); Call (race_op "b") (race_op_ok "b")] [] pg_start); [constructor|reflexivity].
Defined.


